(** * cnc_macrodial: page state machine, dispatcher tick and LED states

  A shallow embedding of [code.py] (the CircuitPython firmware of a
  twelve-key macro pad with a rotary encoder and a jog dial).

  Python objects that are shared and mutated in place (the pages, the
  single [OverallState]) live in an explicit store; every method of the
  source becomes a computation in a state-and-exception monad over that
  store.  Uncaught Python exceptions ([AttributeError] on [None],
  [IndexError], [ValueError], [TypeError]) are results of that monad. *)

From Stdlib Require Import ZArith QArith Lia.
From stdpp Require Import base list strings.

Local Open Scope Z_scope.

(** ** Enumerations *)

(** [class LedMode]: OFF = 0, ON = 1, BLINK = 2, PULSE = 3. *)
Inductive LedMode := OFF | ON | BLINK | PULSE.

(** [class KeyMode]: NONE = 0, MOMENT = 1, LONG_MOMENT = 2, PRESS = 3. *)
Inductive KeyMode := NONE | MOMENT | LONG_MOMENT | PRESS.

Definition LedMode_eqb (a b : LedMode) : bool :=
match a, b with
| OFF, OFF | ON, ON | BLINK, BLINK | PULSE, PULSE => true
| _, _ => false
end.

Definition KeyMode_eqb (a b : KeyMode) : bool :=
match a, b with
| NONE, NONE | MOMENT, MOMENT | LONG_MOMENT, LONG_MOMENT | PRESS, PRESS => true
| _, _ => false
end.

(** An RGB triple, as the tuples [(r, g, b)] of the source. *)
Definition Color : Type := Z * Z * Z.

(** Pages are Python objects compared by identity: a page is named by its
  address in the page store. *)
Abbreviation PageId := nat (only parsing).

(** The key codes the source sends through [macropad.keyboard]. *)
Inductive Keycode :=
| SHIFT | LEFT_ARROW | RIGHT_ARROW | UP_ARROW | DOWN_ARROW | PAGE_UP | PAGE_DOWN
| KEY_A | KEY_B | KEY_C | KEY_V | KEY_X | KEY_ONE | KEY_TWO | GRAVE_ACCENT.

(** The zero-argument callables bound to a slot.  The source binds
  lambdas; each lambda of [main] is one of these shapes.  [select_axis p a]
  is [lambda: p.select_axis(a)] closing over the page object [p]. *)
Inductive Callback :=
| cb_keyboard_send (keys : list Keycode)
| cb_keyboard_press (keys : list Keycode)
| cb_keyboard_release_all
| cb_select_axis (page : PageId) (axis : Z)
| cb_button_test.

(** ** [class LedState] *)

Module LedState.

Record t := mk {
  on_color : Color;
  off_color : Color;
  mode : LedMode;
  (** seconds; a float in the source, read only by the BLINK rendering *)
  interval : Q;
  (** the [asyncio.Event]: [true] when set *)
  event : bool
}.

(** [__init__(self, on_color=(255,255,255), mode=LedMode.OFF, interval=0.1)] *)
Definition init (on_color : Color) (mode : LedMode) (interval : Q) : t :=
  {| on_color := on_color; off_color := (0, 0, 0); mode := mode;
     interval := interval; event := false |}.

Definition default : t := init (255, 255, 255) OFF (1 # 10)%Q.

(** [reset]: [self.mode = LedMode.OFF], and nothing else. *)
Definition reset (s : t) : t :=
  {| on_color := on_color s; off_color := off_color s; mode := OFF;
     interval := interval s; event := event s |}.

Definition set_on_color (c : Color) (s : t) : t :=
  {| on_color := c; off_color := off_color s; mode := mode s;
     interval := interval s; event := true |}.

Definition set_off_color (c : Color) (s : t) : t :=
  {| on_color := on_color s; off_color := c; mode := mode s;
     interval := interval s; event := true |}.

Definition set_mode (m : LedMode) (s : t) : t :=
  {| on_color := on_color s; off_color := off_color s; mode := m;
     interval := interval s; event := true |}.

(** [self.event.clear()], done by the animator after it has been woken. *)
Definition clear_event (s : t) : t :=
  {| on_color := on_color s; off_color := off_color s; mode := mode s;
     interval := interval s; event := false |}.

End LedState.

(** ** [class KeyState] *)

Module KeyState.

Record t := mk {
  pressed : bool;
  press_time : option Z;
  press_duration : Z;
  release_time : option Z
}.

Definition reset (_ : t) : t :=
  {| pressed := false; press_time := None; press_duration := 0;
     release_time := None |}.

(** [__init__] only calls [reset]. *)
Definition init : t :=
  {| pressed := false; press_time := None; press_duration := 0;
     release_time := None |}.

End KeyState.

(** ** [class KeySettings] *)

Module KeySettings.

Record t := mk {
  name : string;
  on_color : Color;
  off_color : Color;
  mode : KeyMode;
  press_callback : option Callback;
  release_callback : option Callback;
  hold_callback : option Callback;
  long_moment_time : Z
}.

(** [__init__]: the name defaults to the empty string, [on_color] to
    white, [off_color] to black and [mode] to [KeyMode.NONE]; the three
    callbacks start as [None] and [long_moment_time] as 2. *)
Definition init (name : string) (on_color off_color : Color) (mode : KeyMode) : t :=
  {| name := name; on_color := on_color; off_color := off_color; mode := mode;
     press_callback := None; release_callback := None; hold_callback := None;
     long_moment_time := 2 |}.

Definition default : t := init EmptyString (255, 255, 255) (0, 0, 0) NONE.

(** [settings.press_callback = cb] *)
Definition with_press (cb : Callback) (k : t) : t :=
  {| name := name k; on_color := on_color k; off_color := off_color k;
     mode := mode k; press_callback := Some cb;
     release_callback := release_callback k; hold_callback := hold_callback k;
     long_moment_time := long_moment_time k |}.

(** [settings.release_callback = cb] *)
Definition with_release (cb : Callback) (k : t) : t :=
  {| name := name k; on_color := on_color k; off_color := off_color k;
     mode := mode k; press_callback := press_callback k;
     release_callback := Some cb; hold_callback := hold_callback k;
     long_moment_time := long_moment_time k |}.

End KeySettings.

(** ** Key events of the keypad driver *)

Module KeyEvent.

Record t := mk {
  key_number : Z;
  pressed : bool
}.

End KeyEvent.

(** ** Pages and the display *)

(** A text label of the display library; only its text matters here. *)
Record Label := { text : option string }.

(** What a page puts into its [displayio.Group].  [SelectionRef] is the
    label object that the selection page also keeps in [self.selection]:
    the group holds a reference to it, not a copy. *)
Inductive Widget :=
| TitleLabel (l : Label)
| SelectionRef
| Grid (cells : list (string * (Z * Z))).

(** The classes of the source with the attributes each subclass adds to
    [DisplayPage].  [selection] is [None] until the first activation
    creates the attribute. *)
Inductive PageClass :=
| DisplayPage
| SelectionPage (selected_page : option PageId) (selection : option Label)
| SleepPage
| SimpleButtonPage
| JogDialPage (selected_axis : option Z).

Record Page := {
  class : PageClass;
  title : option string;
  key_settings : list KeySettings.t;
  main_group : option (list Widget)
}.

Definition Page_set_class (c : PageClass) (p : Page) : Page :=
  {| class := c; title := title p; key_settings := key_settings p;
     main_group := main_group p |}.

Definition Page_set_main_group (g : option (list Widget)) (p : Page) : Page :=
  {| class := class p; title := title p; key_settings := key_settings p;
     main_group := g |}.

Definition Page_set_key_settings (ks : list KeySettings.t) (p : Page) : Page :=
  {| class := class p; title := title p; key_settings := ks;
     main_group := main_group p |}.

(** [DisplayPage.__init__]: twelve default key settings, no group. *)
Definition Page_init (c : PageClass) (title : option string) : Page :=
  {| class := c; title := title;
     key_settings := replicate 12 KeySettings.default;
     main_group := None |}.

(** ** [class OverallState] *)

Record OverallState := {
  last_interaction : option Z;
  page_stack : list PageId;
  selection_page : option PageId;
  current_page : option PageId;
  previous_page : option PageId;
  led_states : list LedState.t;
  key_states : list KeyState.t;
  sleep_page : option PageId;
  wake_to_page : option PageId;
  sleep_time : Z
}.

Definition OverallState_init : OverallState :=
  {| last_interaction := None; page_stack := []; selection_page := None;
     current_page := None; previous_page := None;
     led_states := replicate 12 LedState.default;
     key_states := replicate 12 KeyState.init;
     sleep_page := None; wake_to_page := None; sleep_time := 60 * 15 |}.

Definition set_last_interaction (v : option Z) (s : OverallState) : OverallState :=
  {| last_interaction := v; page_stack := page_stack s;
     selection_page := selection_page s; current_page := current_page s;
     previous_page := previous_page s; led_states := led_states s;
     key_states := key_states s; sleep_page := sleep_page s;
     wake_to_page := wake_to_page s; sleep_time := sleep_time s |}.

Definition set_page_stack (v : list PageId) (s : OverallState) : OverallState :=
  {| last_interaction := last_interaction s; page_stack := v;
     selection_page := selection_page s; current_page := current_page s;
     previous_page := previous_page s; led_states := led_states s;
     key_states := key_states s; sleep_page := sleep_page s;
     wake_to_page := wake_to_page s; sleep_time := sleep_time s |}.

Definition set_selection_page (v : option PageId) (s : OverallState) : OverallState :=
  {| last_interaction := last_interaction s; page_stack := page_stack s;
     selection_page := v; current_page := current_page s;
     previous_page := previous_page s; led_states := led_states s;
     key_states := key_states s; sleep_page := sleep_page s;
     wake_to_page := wake_to_page s; sleep_time := sleep_time s |}.

Definition set_current_page (v : option PageId) (s : OverallState) : OverallState :=
  {| last_interaction := last_interaction s; page_stack := page_stack s;
     selection_page := selection_page s; current_page := v;
     previous_page := previous_page s; led_states := led_states s;
     key_states := key_states s; sleep_page := sleep_page s;
     wake_to_page := wake_to_page s; sleep_time := sleep_time s |}.

Definition set_previous_page (v : option PageId) (s : OverallState) : OverallState :=
  {| last_interaction := last_interaction s; page_stack := page_stack s;
     selection_page := selection_page s; current_page := current_page s;
     previous_page := v; led_states := led_states s;
     key_states := key_states s; sleep_page := sleep_page s;
     wake_to_page := wake_to_page s; sleep_time := sleep_time s |}.

Definition set_led_states (v : list LedState.t) (s : OverallState) : OverallState :=
  {| last_interaction := last_interaction s; page_stack := page_stack s;
     selection_page := selection_page s; current_page := current_page s;
     previous_page := previous_page s; led_states := v;
     key_states := key_states s; sleep_page := sleep_page s;
     wake_to_page := wake_to_page s; sleep_time := sleep_time s |}.

Definition set_key_states (v : list KeyState.t) (s : OverallState) : OverallState :=
  {| last_interaction := last_interaction s; page_stack := page_stack s;
     selection_page := selection_page s; current_page := current_page s;
     previous_page := previous_page s; led_states := led_states s;
     key_states := v; sleep_page := sleep_page s;
     wake_to_page := wake_to_page s; sleep_time := sleep_time s |}.

Definition set_sleep_page (v : option PageId) (s : OverallState) : OverallState :=
  {| last_interaction := last_interaction s; page_stack := page_stack s;
     selection_page := selection_page s; current_page := current_page s;
     previous_page := previous_page s; led_states := led_states s;
     key_states := key_states s; sleep_page := v;
     wake_to_page := wake_to_page s; sleep_time := sleep_time s |}.

Definition set_wake_to_page (v : option PageId) (s : OverallState) : OverallState :=
  {| last_interaction := last_interaction s; page_stack := page_stack s;
     selection_page := selection_page s; current_page := current_page s;
     previous_page := previous_page s; led_states := led_states s;
     key_states := key_states s; sleep_page := sleep_page s;
     wake_to_page := v; sleep_time := sleep_time s |}.

(** ** What the firmware does to the outside, and which methods it calls *)

(** The log of a run, oldest entry first.  It records the writes to the
    hardware collaborators ([macropad.keyboard], the display root group,
    the garbage collector, [print]) and, so that calls which change nothing
    can still be told apart from no call, every call of a page method and
    of a slot callback. *)
Inductive Event :=
| keyboard_send (keys : list Keycode)
| keyboard_press (keys : list Keycode)
| keyboard_release_all
| display_root_group (owner : PageId)
| pixel_write (key_number : Z) (c : Color)
| gc_collect
| print_free_memory
| call_activate (p : PageId)
| call_deactivate (p : PageId)
| call_handle_key_event (p : PageId) (e : KeyEvent.t)
| call_handle_jog_event (p : PageId) (change_rel absolute_value : Z)
| call_handle_encoder_press (p : PageId) (pressed : bool)
| call_handle_encoder_event (p : PageId) (change_rel absolute_value : Z)
| call_press_callback (key_number : Z)
| call_release_callback (key_number : Z)
| call_hold_callback (key_number : Z).

(** The whole mutable world: the one [OverallState], every page object,
    and the log. *)
Record World := {
  state : OverallState;
  pages : list Page;
  trace : list Event
}.

(** ** The state-and-exception monad *)

Inductive Exn :=
| AttributeError   (* an attribute or method of [None] *)
| IndexError       (* list subscript out of range *)
| ValueError       (* [list.index] of an absent element *)
| TypeError        (* arithmetic on [None] *)
| DanglingPage.    (* a page address outside the store: no Python counterpart *)

Inductive Outcome (A : Type) :=
| Returns (a : A) (w : World)
| Raises (e : Exn).
Arguments Returns {A} a w.
Arguments Raises {A} e.

Definition M (A : Type) : Type := World -> Outcome A.

Definition ret {A} (a : A) : M A := fun w => Returns a w.

Definition bind {A B} (c : M A) (k : A -> M B) : M B :=
  fun w => match c w with
           | Returns a w' => k a w'
           | Raises e => Raises e
           end.

Definition raise {A} (e : Exn) : M A := fun _ => Raises e.

Declare Scope py_scope.
Delimit Scope py_scope with py.
Notation "x <- c ;; k" := (bind c (fun x => k))
  (at level 100, c at next level, k at level 200, right associativity) : py_scope.
Notation "c ;; k" := (bind c (fun _ => k))
  (at level 100, k at level 200, right associativity) : py_scope.
Local Open Scope py_scope.

Definition with_state (s : OverallState) (w : World) : World :=
  {| state := s; pages := pages w; trace := trace w |}.

Definition with_pages (ps : list Page) (w : World) : World :=
  {| state := state w; pages := ps; trace := trace w |}.

Definition logged (es : list Event) (w : World) : World :=
  {| state := state w; pages := pages w; trace := trace w ++ es |}.

Definition get_state : M OverallState := fun w => Returns (state w) w.

Definition modify_state (f : OverallState -> OverallState) : M unit :=
  fun w => Returns tt (with_state (f (state w)) w).

Definition emit (e : Event) : M unit :=
  fun w => Returns tt (logged [e] w).

(** Dereference a value that may be [None]. *)
Definition deref {A} (o : option A) : M A :=
  match o with
  | Some a => ret a
  | None => raise AttributeError
  end.

Definition get_page (p : PageId) : M Page :=
  fun w => match pages w !! p with
           | Some pg => Returns pg w
           | None => Raises DanglingPage
           end.

Definition modify_page (p : PageId) (f : Page -> Page) : M unit :=
  fun w => match pages w !! p with
           | Some pg => Returns tt (with_pages (<[p := f pg]> (pages w)) w)
           | None => Raises DanglingPage
           end.

(** [for x in xs: body(x)] *)
Fixpoint for_each {A} (xs : list A) (body : A -> M unit) : M unit :=
  match xs with
  | [] => ret tt
  | x :: xs' => body x ;; for_each xs' body
  end.

(** ** Python list subscripts *)

(** [l[i]] for a Python integer [i]: negative subscripts count from the
    end, anything outside [-len, len) raises [IndexError]. *)
Definition py_norm_index (len : nat) (i : Z) : option nat :=
  if (0 <=? i) && (i <? Z.of_nat len) then Some (Z.to_nat i)
  else if (- Z.of_nat len <=? i) && (i <? 0) then Some (Z.to_nat (Z.of_nat len + i))
  else None.

Definition py_getitem {A} (l : list A) (i : Z) : M A :=
  match py_norm_index (length l) i with
  | Some n => match l !! n with
              | Some a => ret a
              | None => raise IndexError
              end
  | None => raise IndexError
  end.

(** [l.index(x)]: the first position holding [x]. *)
Fixpoint list_index (x : PageId) (l : list PageId) : option nat :=
  match l with
  | [] => None
  | y :: l' => if Nat.eqb y x then Some 0%nat
               else option_map S (list_index x l')
  end.

Definition py_index (l : list PageId) (x : option PageId) : M Z :=
  match x with
  | Some p => match list_index p l with
              | Some n => ret (Z.of_nat n)
              | None => raise ValueError
              end
  | None => raise ValueError
  end.

(** ** Attribute access on the store *)

(** [self.state.led_states[i].f(...)] for one of the [LedState] methods
    [f]: the object is found by subscript and mutated in place. *)
Definition update_led (i : Z) (f : LedState.t -> LedState.t) : M unit :=
  s <- get_state ;;
  match py_norm_index (length (led_states s)) i with
  | Some n =>
      match led_states s !! n with
      | Some l => modify_state (set_led_states (<[n := f l]> (led_states s)))
      | None => raise IndexError
      end
  | None => raise IndexError
  end.

(** [self.key_settings[i]] *)
Definition key_setting (self : PageId) (i : Z) : M KeySettings.t :=
  pg <- get_page self ;;
  py_getitem (key_settings pg) i.

(** [self.main_group.append(w)] *)
Definition group_append (self : PageId) (w : Widget) : M unit :=
  pg <- get_page self ;;
  match main_group pg with
  | Some g => modify_page self (Page_set_main_group (Some (g ++ [w])))
  | None => raise AttributeError
  end.

(** [self.selected_page] of a selection page *)
Definition get_selected_page (self : PageId) : M (option PageId) :=
  pg <- get_page self ;;
  match class pg with
  | SelectionPage sp _ => ret sp
  | _ => raise AttributeError
  end.

(** [self.selected_page = v] *)
Definition set_selected_page (self : PageId) (v : option PageId) : M unit :=
  pg <- get_page self ;;
  match class pg with
  | SelectionPage _ lbl => modify_page self (Page_set_class (SelectionPage v lbl))
  | _ => raise AttributeError
  end.

(** [self.selection]: absent before the first activation *)
Definition get_selection (self : PageId) : M Label :=
  pg <- get_page self ;;
  match class pg with
  | SelectionPage _ (Some lbl) => ret lbl
  | _ => raise AttributeError
  end.

(** [self.selection = lbl], also the target of [self.selection.text = ...] *)
Definition set_selection (self : PageId) (lbl : Label) : M unit :=
  pg <- get_page self ;;
  match class pg with
  | SelectionPage sp _ => modify_page self (Page_set_class (SelectionPage sp (Some lbl)))
  | _ => raise AttributeError
  end.

(** The text of a label, given to the constructor [label.Label(text=t)] or
    assigned by [lbl.text = t]: the label of [adafruit_display_text]
    splits the text at its tabs ([text.split]), so a text that is [None]
    raises [AttributeError]. *)
Definition label_with_text (t : option string) : M Label :=
  match t with
  | Some _ => ret {| text := t |}
  | None => raise AttributeError
  end.

(** [self.selected_axis] of a jog-dial page *)
Definition get_selected_axis (self : PageId) : M (option Z) :=
  pg <- get_page self ;;
  match class pg with
  | JogDialPage a => ret a
  | _ => raise AttributeError
  end.

(** [self.selected_axis = v] *)
Definition set_selected_axis (self : PageId) (v : option Z) : M unit :=
  pg <- get_page self ;;
  match class pg with
  | JogDialPage _ => modify_page self (Page_set_class (JogDialPage v))
  | _ => raise AttributeError
  end.

(** [self.selected_axis == n]: [None] equals no integer. *)
Definition axis_is (a : option Z) (n : Z) : bool :=
  match a with
  | Some z => z =? n
  | None => false
  end.

(** ** [class JogDialPage]: the methods that need no dispatch *)

Definition highlight : Color := (255, 0, 20).
Definition neutral : Color := (0, 32, 32).

Definition JogDialPage_select_axis (self : PageId) (axis : Z) : M unit :=
  cur <- get_selected_axis self ;;
  (* If selecting the current axis, turn it off *)
  (if axis_is cur axis then set_selected_axis self None
   else set_selected_axis self (Some axis)) ;;
  (* Adjust the LED states *)
  a <- get_selected_axis self ;;
  (if axis_is a 0 then update_led 9 (LedState.set_off_color highlight)
   else update_led 9 (LedState.set_off_color neutral)) ;;
  a <- get_selected_axis self ;;
  (if axis_is a 1 then update_led 10 (LedState.set_off_color highlight)
   else update_led 10 (LedState.set_off_color neutral)) ;;
  a <- get_selected_axis self ;;
  (if axis_is a 2 then update_led 11 (LedState.set_off_color highlight)
   else update_led 11 (LedState.set_off_color neutral)).

(** One round of the loop body of [handle_jog_event]. *)
Definition jog_action (change_rel : Z) (a : option Z) : M unit :=
  if (change_rel <? 0) && axis_is a 0 then emit (keyboard_send [SHIFT; LEFT_ARROW])
  else if (change_rel >? 0) && axis_is a 0 then emit (keyboard_send [SHIFT; RIGHT_ARROW])
  else if (change_rel <? 0) && axis_is a 1 then emit (keyboard_send [SHIFT; DOWN_ARROW])
  else if (change_rel >? 0) && axis_is a 1 then emit (keyboard_send [SHIFT; UP_ARROW])
  else if (change_rel <? 0) && axis_is a 2 then emit (keyboard_send [SHIFT; PAGE_DOWN])
  else if (change_rel >? 0) && axis_is a 2 then emit (keyboard_send [SHIFT; PAGE_UP])
  else ret tt.

Definition JogDialPage_handle_jog_event (self : PageId) (change_rel absolute_value : Z)
  : M unit :=
  for_each (seq 0 (Z.to_nat (Z.abs change_rel)))
    (fun _ => a <- get_selected_axis self ;; jog_action change_rel a).

(** ** Slot callbacks *)

(** [button_test]: a hundred times the key A. *)
Definition button_test : M unit :=
  for_each (seq 0 100) (fun _ => emit (keyboard_send [KEY_A])).

(** Calling a bound callback. *)
Definition run_callback (cb : Callback) : M unit :=
  match cb with
  | cb_keyboard_send keys => emit (keyboard_send keys)
  | cb_keyboard_press keys => emit (keyboard_press keys)
  | cb_keyboard_release_all => emit keyboard_release_all
  | cb_select_axis p a => JogDialPage_select_axis p a
  | cb_button_test => button_test
  end.

(** ** [class DisplayPage] *)

Definition DisplayPage_handle_key_event (self : PageId) (key_event : KeyEvent.t) : M unit :=
  let k := KeyEvent.key_number key_event in
  (if KeyEvent.pressed key_event then
     ks <- key_setting self k ;;
     if negb (KeyMode_eqb (KeySettings.mode ks) NONE) then
       update_led k (LedState.set_mode ON) ;;
       ks <- key_setting self k ;;
       match KeySettings.press_callback ks with
       | Some cb => emit (call_press_callback k) ;; run_callback cb
       | None => ret tt
       end
     else ret tt
   else ret tt) ;;
  if negb (KeyEvent.pressed key_event) then
    ks <- key_setting self k ;;
    match KeySettings.release_callback ks with
    | Some cb => emit (call_release_callback k) ;; run_callback cb
    | None => ret tt
    end ;;
    update_led k (LedState.set_mode OFF)
  else ret tt.

Definition DisplayPage_handle_jog_event (self : PageId) (change_rel absolute_value : Z)
  : M unit := ret tt.

Definition DisplayPage_handle_encoder_event (self : PageId) (change_rel absolute_value : Z)
  : M unit := ret tt.

Definition title_text (t : string) : string :=
  ("        " +:+ t +:+ "        ")%string.

(** The body of the loop of [activate]. *)
Definition activate_slot (self : PageId) (i : nat) : M unit :=
  let i := Z.of_nat i in
  ks <- key_setting self i ;;
  update_led i (LedState.set_on_color (KeySettings.on_color ks)) ;;
  ks <- key_setting self i ;;
  update_led i (LedState.set_off_color (KeySettings.off_color ks)) ;;
  update_led i (LedState.set_mode OFF).

Definition DisplayPage_activate (self : PageId) : M unit :=
  for_each (seq 0 12) (activate_slot self) ;;
  modify_page self (Page_set_main_group (Some [])) ;;
  emit (display_root_group self) ;;
  pg <- get_page self ;;
  match title pg with
  | Some t => group_append self (TitleLabel {| text := Some (title_text t) |})
  | None => ret tt
  end.

Definition DisplayPage_deactivate (self : PageId) : M unit :=
  modify_page self (Page_set_main_group None) ;;
  emit gc_collect ;;
  emit print_free_memory.

(** The 3 x 4 grid of key names built by [SimpleButtonPage.activate] and
    [JogDialPage.activate]: cell [index] sits at column [index % 3], row
    [index // 3]. *)
Definition key_grid (self : PageId) : M Widget :=
  pg <- get_page self ;;
  let labels := map KeySettings.name (key_settings pg) in
  if (length labels <? 12)%nat then raise IndexError
  else ret (Grid (imap (fun index n => (n, (Z.of_nat index mod 3, Z.of_nat index / 3)))
                       (take 12 labels))).

Definition SimpleButtonPage_activate (self : PageId) : M unit :=
  DisplayPage_activate self ;;
  layout <- key_grid self ;;
  group_append self layout.

Definition JogDialPage_activate (self : PageId) : M unit :=
  DisplayPage_activate self ;;
  set_selected_axis self None ;;
  layout <- key_grid self ;;
  group_append self layout.

Definition SleepPage_activate (self : PageId) : M unit :=
  DisplayPage_activate self.

Definition SelectionPage_activate (self : PageId) : M unit :=
  DisplayPage_activate self ;;
  s <- get_state ;;
  set_selected_page self (previous_page s) ;;
  sp <- get_selected_page self ;;
  picked <- deref sp ;;
  pg <- get_page picked ;;
  lbl <- label_with_text (title pg) ;;
  set_selection self lbl ;;
  group_append self SelectionRef.

(** ** Method dispatch on the class of the receiver *)

Definition Page_activate (p : PageId) : M unit :=
  emit (call_activate p) ;;
  pg <- get_page p ;;
  match class pg with
  | DisplayPage => DisplayPage_activate p
  | SelectionPage _ _ => SelectionPage_activate p
  | SleepPage => SleepPage_activate p
  | SimpleButtonPage => SimpleButtonPage_activate p
  | JogDialPage _ => JogDialPage_activate p
  end.

(** No subclass overrides [deactivate]. *)
Definition Page_deactivate (p : PageId) : M unit :=
  emit (call_deactivate p) ;;
  _ <- get_page p ;;
  DisplayPage_deactivate p.

(** [self.state.current_page.deactivate()] and [.activate()] *)
Definition current_page_deactivate : M unit :=
  s <- get_state ;;
  cp <- deref (current_page s) ;;
  Page_deactivate cp.

Definition current_page_activate : M unit :=
  s <- get_state ;;
  cp <- deref (current_page s) ;;
  Page_activate cp.

(** Truth value of a page reference: [None] is false, an object is true. *)
Definition truthy {A} (o : option A) : bool :=
  match o with Some _ => true | None => false end.

Definition DisplayPage_handle_encoder_press (self : PageId) (pressed : bool) : M unit :=
  s <- get_state ;;
  if pressed && truthy (selection_page s) then
    current_page_deactivate ;;
    modify_state (fun s => set_previous_page (current_page s) s) ;;
    modify_state (fun s => set_current_page (selection_page s) s) ;;
    current_page_activate
  else ret tt.

(** ** [class SelectionPage] *)

Definition SelectionPage_handle_encoder_press (self : PageId) (pressed : bool) : M unit :=
  s <- get_state ;;
  if pressed && truthy (selection_page s) then
    current_page_deactivate ;;
    sp <- get_selected_page self ;;
    modify_state (set_current_page sp) ;;
    current_page_activate
  else ret tt.

(** The index arithmetic of [handle_encoder_event]. *)
Definition step_index (len index change_rel : Z) : Z :=
  let index :=
    if change_rel <? 0 then
      let index := index - 1 in
      if index <? 0 then len - 1 else index
    else index in
  if change_rel >? 0 then
    let index := index + 1 in
    if index >=? len then 0 else index
  else index.

(** The body of [handle_encoder_event] up to the assignment
    [self.selected_page = self.state.page_stack[index]]. *)
Definition SelectionPage_move_pick (self : PageId) (change_rel : Z) : M unit :=
  s <- get_state ;;
  sp <- get_selected_page self ;;
  index <- py_index (page_stack s) sp ;;
  let index := step_index (Z.of_nat (length (page_stack s))) index change_rel in
  picked <- py_getitem (page_stack s) index ;;
  set_selected_page self (Some picked).

(** Its last statement, [self.selection.text = self.selected_page.title]. *)
Definition SelectionPage_show_pick (self : PageId) : M unit :=
  sp <- get_selected_page self ;;
  picked <- deref sp ;;
  pg <- get_page picked ;;
  _ <- get_selection self ;;
  lbl <- label_with_text (title pg) ;;
  set_selection self lbl.

Definition SelectionPage_handle_encoder_event (self : PageId) (change_rel absolute_value : Z)
  : M unit :=
  SelectionPage_move_pick self change_rel ;;
  SelectionPage_show_pick self.

(** ** [class SleepPage] *)

Definition SleepPage_wake (self : PageId) : M unit :=
  current_page_deactivate ;;
  modify_state (fun s => set_current_page (wake_to_page s) s) ;;
  current_page_activate.

Definition SleepPage_handle_encoder_press (self : PageId) (pressed : bool) : M unit :=
  if pressed then SleepPage_wake self else ret tt.

Definition SleepPage_handle_encoder_event (self : PageId) (change_rel absolute_value : Z)
  : M unit := SleepPage_wake self.

(** ** Dispatch of the four handlers *)

Definition Page_handle_key_event (p : PageId) (e : KeyEvent.t) : M unit :=
  emit (call_handle_key_event p e) ;;
  _ <- get_page p ;;
  DisplayPage_handle_key_event p e.

Definition Page_handle_jog_event (p : PageId) (change_rel absolute_value : Z) : M unit :=
  emit (call_handle_jog_event p change_rel absolute_value) ;;
  pg <- get_page p ;;
  match class pg with
  | JogDialPage _ => JogDialPage_handle_jog_event p change_rel absolute_value
  | _ => DisplayPage_handle_jog_event p change_rel absolute_value
  end.

Definition Page_handle_encoder_press (p : PageId) (pressed : bool) : M unit :=
  emit (call_handle_encoder_press p pressed) ;;
  pg <- get_page p ;;
  match class pg with
  | SelectionPage _ _ => SelectionPage_handle_encoder_press p pressed
  | SleepPage => SleepPage_handle_encoder_press p pressed
  | _ => DisplayPage_handle_encoder_press p pressed
  end.

Definition Page_handle_encoder_event (p : PageId) (change_rel absolute_value : Z) : M unit :=
  emit (call_handle_encoder_event p change_rel absolute_value) ;;
  pg <- get_page p ;;
  match class pg with
  | SelectionPage _ _ => SelectionPage_handle_encoder_event p change_rel absolute_value
  | SleepPage => SleepPage_handle_encoder_event p change_rel absolute_value
  | _ => DisplayPage_handle_encoder_event p change_rel absolute_value
  end.

(** ** [OverallState.reset] and [OverallState.add_page] *)

Definition update_key_state (i : Z) (f : KeyState.t -> KeyState.t) : M unit :=
  s <- get_state ;;
  match py_norm_index (length (key_states s)) i with
  | Some n =>
      match key_states s !! n with
      | Some k => modify_state (set_key_states (<[n := f k]> (key_states s)))
      | None => raise IndexError
      end
  | None => raise IndexError
  end.

Definition OverallState_reset : M unit :=
  for_each (seq 0 12) (fun i =>
    update_led (Z.of_nat i) LedState.reset ;;
    update_key_state (Z.of_nat i) KeyState.reset).

Definition add_page (page : PageId) : M unit :=
  modify_state (fun s => set_page_stack (page_stack s ++ [page]) s) ;;
  s <- get_state ;;
  match current_page s with
  | None => modify_state (set_current_page (Some page)) ;; current_page_activate
  | Some _ => ret tt
  end.

(** ** The dispatcher: [event_loop_task] *)

(** What the drivers show during one iteration of the loop. *)
Record Inputs := {
  current_time : Z;              (* [time.monotonic_ns()] *)
  encoder_switch_pressed : bool; (* [macropad.encoder_switch_debounced.pressed] *)
  key_event : option KeyEvent.t; (* [macropad.keys.events.get()] *)
  jog_position : Z;              (* [jog_enc.position] *)
  encoder : Z                    (* [macropad.encoder] *)
}.

(** The local variables the loop carries from one iteration to the next. *)
Record LoopVars := {
  last_jog_pos : Z;
  last_encoder_pos : Z;
  encoder_held : bool
}.

Definition option_PageId_eqb (a b : option PageId) : bool :=
  match a, b with
  | Some x, Some y => Nat.eqb x y
  | None, None => true
  | _, _ => false
  end.

(** [state.current_page.m(...)] for a method [m] *)
Definition on_current_page (m : PageId -> M unit) : M unit :=
  s <- get_state ;;
  cp <- deref (current_page s) ;;
  m cp.

Definition touch (now : Z) : M unit :=
  modify_state (set_last_interaction (Some now)).

(** The code before the loop. *)
Definition event_loop_start (now jog enc : Z) : M LoopVars :=
  touch now ;;
  ret {| last_jog_pos := jog; last_encoder_pos := enc; encoder_held := false |}.

Definition poll_encoder_switch (inp : Inputs) (v : LoopVars) : M bool :=
  if encoder_switch_pressed inp then
    if negb (encoder_held v) then
      on_current_page (fun p => Page_handle_encoder_press p true) ;;
      touch (current_time inp) ;;
      ret true
    else ret (encoder_held v)
  else
    on_current_page (fun p => Page_handle_encoder_press p false) ;;
    ret false.

Definition poll_keys (inp : Inputs) : M unit :=
  match key_event inp with
  | Some e =>
      on_current_page (fun p => Page_handle_key_event p e) ;;
      touch (current_time inp)
  | None => ret tt
  end.

Definition poll_jog (inp : Inputs) (v : LoopVars) : M Z :=
  let cur_jog_pos := jog_position inp in
  if negb (cur_jog_pos =? last_jog_pos v) then
    let change_rel := cur_jog_pos - last_jog_pos v in
    on_current_page (fun p => Page_handle_jog_event p change_rel cur_jog_pos) ;;
    touch (current_time inp) ;;
    ret cur_jog_pos
  else ret (last_jog_pos v).

Definition poll_encoder (inp : Inputs) (v : LoopVars) : M Z :=
  let cur_encoder_pos := encoder inp in
  if negb (cur_encoder_pos =? last_encoder_pos v) then
    let change_rel := cur_encoder_pos - last_encoder_pos v in
    on_current_page (fun p => Page_handle_encoder_event p change_rel cur_encoder_pos) ;;
    touch (current_time inp) ;;
    ret cur_encoder_pos
  else ret (last_encoder_pos v).

(** The last statement of the loop body: the idle test. *)
Definition sleep_check (now : Z) : M unit :=
  s <- get_state ;;
  if negb (option_PageId_eqb (current_page s) (sleep_page s)) then
    match last_interaction s with
    | None => raise TypeError
    | Some last =>
        if now - last >? sleep_time s * 1000000000 then
          current_page_deactivate ;;
          modify_state (fun s => set_wake_to_page (current_page s) s) ;;
          modify_state (fun s => set_current_page (sleep_page s) s) ;;
          current_page_activate
        else ret tt
    end
  else ret tt.

(** The part of the loop body that forwards the inputs to the pages. *)
Definition forward_events (inp : Inputs) (v : LoopVars) : M LoopVars :=
  held <- poll_encoder_switch inp v ;;
  poll_keys inp ;;
  jog <- poll_jog inp v ;;
  enc <- poll_encoder inp v ;;
  ret {| last_jog_pos := jog; last_encoder_pos := enc; encoder_held := held |}.

(** One iteration of [while True]. *)
Definition event_loop_iteration (inp : Inputs) (v : LoopVars) : M LoopVars :=
  v' <- forward_events inp v ;;
  sleep_check (current_time inp) ;;
  ret v'.

(** The loop run over a finite list of driver readings. *)
Fixpoint event_loop (inps : list Inputs) (v : LoopVars) : M LoopVars :=
  match inps with
  | [] => ret v
  | inp :: rest => v' <- event_loop_iteration inp v ;; event_loop rest v'
  end.

(** ** The animator: [led_task] *)

(** The colour one pass of the loop writes to the pixel.  The BLINK test
    [int(this_update / (state.interval * 1000000000)) % 2] is floating
    point; its truth value is the parameter [odd_half]. PULSE writes
    nothing. *)
Definition led_render (odd_half : bool) (s : LedState.t) : option Color :=
  match LedState.mode s with
  | OFF => Some (LedState.off_color s)
  | ON => Some (LedState.on_color s)
  | BLINK => Some (if odd_half then LedState.on_color s else LedState.off_color s)
  | PULSE => None
  end.

(** The end of a pass: in BLINK mode the task sleeps a millisecond and
    goes on; otherwise it waits on the event and is resumed, clearing it,
    only once the event is set.  [None]: the task stays suspended. *)
Definition led_wait (s : LedState.t) : option LedState.t :=
  if LedMode_eqb (LedState.mode s) BLINK then Some s
  else if LedState.event s then Some (LedState.clear_event s)
  else None.

(** ** [main]: the pages of the firmware *)

(** Constructing a page object: it gets the next free address. *)
Definition new_page (c : PageClass) (title : option string) : M PageId :=
  fun w => Returns (length (pages w)) (with_pages (pages w ++ [Page_init c title]) w).

(** [page.key_settings[i] = ks] *)
Definition set_key (page : PageId) (i : nat) (ks : KeySettings.t) : M unit :=
  pg <- get_page page ;;
  if (i <? length (key_settings pg))%nat
  then modify_page page (Page_set_key_settings (<[i := ks]> (key_settings pg)))
  else raise IndexError.

(** [KeySettings(name=..., on_color=..., off_color=..., mode=KeyMode.MOMENT)]
    followed by the assignment of its press callback. *)
Definition moment (name : string) (on_color off_color : Color) (press : Callback)
  : KeySettings.t :=
  KeySettings.with_press press (KeySettings.init name on_color off_color MOMENT).

Definition hold_key (name : string) (on_color off_color : Color) (keys : list Keycode)
  : KeySettings.t :=
  KeySettings.with_release cb_keyboard_release_all
    (moment name on_color off_color (cb_keyboard_press keys)).

Definition stop_pause_start (page : PageId) : M unit :=
  set_key page 0 (moment "Stop" (255,0,0) (32,0,0) (cb_keyboard_send [SHIFT; KEY_TWO])) ;;
  set_key page 1 (moment "Pause" (255,0,20) (0,32,32) (cb_keyboard_send [SHIFT; KEY_ONE])) ;;
  set_key page 2 (moment "Start" (0,255,0) (0,32,0) (cb_keyboard_send [SHIFT; GRAVE_ACCENT])).

Definition speed_keys (page : PageId) : M unit :=
  set_key page 3 (moment "Precise" (255,0,20) (32,32,0) (cb_keyboard_send [SHIFT; KEY_X])) ;;
  set_key page 4 (moment "Normal" (255,0,20) (32,32,0) (cb_keyboard_send [SHIFT; KEY_C])) ;;
  set_key page 5 (moment "Rapid" (255,0,20) (32,32,0) (cb_keyboard_send [SHIFT; KEY_V])).

Definition main_setup : M unit :=
  (* Set up the sleep page *)
  sleep_page <- new_page SleepPage None ;;
  modify_state (set_sleep_page (Some sleep_page)) ;;
  (* Set up the selection page *)
  selection_page <- new_page (SelectionPage None None) (Some "Selection") ;;
  modify_state (set_selection_page (Some selection_page)) ;;
  (* Set up job control page *)
  job_control_page <- new_page SimpleButtonPage (Some "Job Control") ;;
  stop_pause_start job_control_page ;;
  add_page job_control_page ;;
  (* Set up the arrow jog page *)
  arrow_jog_page <- new_page SimpleButtonPage (Some "Arrow Jog") ;;
  speed_keys arrow_jog_page ;;
  set_key arrow_jog_page 6
    (moment "Z-" (255,0,20) (32,32,0) (cb_keyboard_send [SHIFT; PAGE_DOWN])) ;;
  set_key arrow_jog_page 7 (hold_key "Y+" (255,0,20) (32,32,0) [SHIFT; UP_ARROW]) ;;
  set_key arrow_jog_page 8
    (moment "Z+" (255,0,20) (32,32,0) (cb_keyboard_send [SHIFT; PAGE_UP])) ;;
  set_key arrow_jog_page 9 (hold_key "X-" (255,0,20) (32,32,0) [SHIFT; LEFT_ARROW]) ;;
  set_key arrow_jog_page 10 (hold_key "Y-" (255,0,20) (32,32,0) [SHIFT; DOWN_ARROW]) ;;
  set_key arrow_jog_page 11 (hold_key "X+" (255,0,20) (32,32,0) [SHIFT; RIGHT_ARROW]) ;;
  add_page arrow_jog_page ;;
  (* Set up the Jog Dial page *)
  jog_dial_page <- new_page (JogDialPage None) (Some "Dial Jog") ;;
  speed_keys jog_dial_page ;;
  set_key jog_dial_page 9
    (moment "X" (255,0,20) (0,32,32) (cb_select_axis jog_dial_page 0)) ;;
  set_key jog_dial_page 10
    (moment "Y" (255,0,20) (0,32,32) (cb_select_axis jog_dial_page 1)) ;;
  set_key jog_dial_page 11
    (moment "Z" (255,0,20) (0,32,32) (cb_select_axis jog_dial_page 2)) ;;
  add_page jog_dial_page ;;
  (* Set up the Probe page *)
  probe_page <- new_page SimpleButtonPage (Some "Probe") ;;
  stop_pause_start probe_page ;;
  set_key probe_page 4 (moment "Open" (255,0,20) (0,32,32) (cb_keyboard_send [KEY_A])) ;;
  set_key probe_page 6 (moment "Dia -" (255,0,20) (0,32,32) (cb_keyboard_send [KEY_A])) ;;
  set_key probe_page 8 (moment "Dia +" (255,0,20) (0,32,32) (cb_keyboard_send [KEY_B])) ;;
  set_key probe_page 9 (moment "Left" (255,0,20) (0,32,32) (cb_keyboard_send [KEY_A])) ;;
  set_key probe_page 10 (moment "Confirm" (255,0,20) (0,32,32) (cb_keyboard_send [KEY_A])) ;;
  set_key probe_page 11 (moment "Right" (255,0,20) (0,32,32) (cb_keyboard_send [KEY_B])) ;;
  add_page probe_page ;;
  (* Set up rapids control page *)
  rapids_page <- new_page SimpleButtonPage (Some "Rapids") ;;
  stop_pause_start rapids_page ;;
  add_page rapids_page.

Definition empty_world : World :=
  {| state := OverallState_init; pages := []; trace := [] |}.

(** The world when [main] starts the tasks, with an emptied log. *)
Definition clear_trace (w : World) : World :=
  {| state := state w; pages := pages w; trace := [] |}.

Definition booted : World :=
  Eval vm_compute in
    match main_setup empty_world with
    | Returns _ w => clear_trace w
    | Raises _ => empty_world
    end.

Definition sleep_page_id : PageId := 0%nat.
Definition selection_page_id : PageId := 1%nat.
Definition job_control_page_id : PageId := 2%nat.
Definition arrow_jog_page_id : PageId := 3%nat.
Definition jog_dial_page_id : PageId := 4%nat.
Definition probe_page_id : PageId := 5%nat.
Definition rapids_page_id : PageId := 6%nat.


(** ** Worlds of a run of the firmware, for concrete evaluation *)

(** The world a computation leaves, or the given one if it raises. *)
Definition world_after {A} (c : M A) (w : World) : World :=
  match c w with
  | Returns _ w' => w'
  | Raises _ => w
  end.

(** Driver readings with nothing pressed and no key event. *)
Definition quiet (t jog enc : Z) : Inputs :=
  {| current_time := t; encoder_switch_pressed := false; key_event := None;
     jog_position := jog; encoder := enc |}.

Definition encoder_down (t jog enc : Z) : Inputs :=
  {| current_time := t; encoder_switch_pressed := true; key_event := None;
     jog_position := jog; encoder := enc |}.

Definition key_down (t : Z) (k : Z) (jog enc : Z) : Inputs :=
  {| current_time := t; encoder_switch_pressed := false;
     key_event := Some {| KeyEvent.key_number := k; KeyEvent.pressed := true |};
     jog_position := jog; encoder := enc |}.

Definition key_up (t : Z) (k : Z) (jog enc : Z) : Inputs :=
  {| current_time := t; encoder_switch_pressed := false;
     key_event := Some {| KeyEvent.key_number := k; KeyEvent.pressed := false |};
     jog_position := jog; encoder := enc |}.

Definition loop_start : LoopVars :=
  {| last_jog_pos := 0; last_encoder_pos := 0; encoder_held := false |}.

(** The loop has started at time 0 on the first page, Job Control. *)
Definition started : World :=
  Eval vm_compute in world_after (event_loop_start 0 0 0) booted.

(** The encoder was pressed at time 1: the selection page shows Job Control. *)
Definition selecting : World :=
  Eval vm_compute in
    clear_trace (world_after (event_loop [encoder_down 1 0 0] loop_start) started).

(** Two encoder steps forward and a second press: the jog-dial page is
    current and has just been activated. *)
Definition on_jog_dial : World :=
  Eval vm_compute in
    clear_trace (world_after
      (event_loop [encoder_down 1 0 0; quiet 2 0 1; quiet 3 0 2; encoder_down 4 0 2;
                   quiet 5 0 2] loop_start) started).

(** Then slot 10 was pressed and released: axis Y is selected. *)
Definition jogging_Y : World :=
  Eval vm_compute in
    clear_trace (world_after
      (event_loop [key_down 6 10 0 2; key_up 7 10 0 2]
         {| last_jog_pos := 0; last_encoder_pos := 2; encoder_held := false |})
      on_jog_dial).

(** Nothing happened for more than fifteen minutes on Job Control: the
    sleep page is current. *)
Definition sleeping : World :=
  Eval vm_compute in
    clear_trace (world_after (event_loop [quiet 900000000001 0 0] loop_start) started).

(** From [jogging_Y], idle for more than fifteen minutes: asleep, to wake
    to the jog-dial page, whose axis Y is still selected. *)
Definition sleeping_from_jog : World :=
  Eval vm_compute in
    clear_trace (world_after
      (event_loop [quiet 900000000008 0 2]
         {| last_jog_pos := 0; last_encoder_pos := 2; encoder_held := false |})
      jogging_Y).

(** From [jogging_Y], the encoder pressed: the selection page shows the
    jog-dial page, whose axis Y is still selected. *)
Definition selecting_from_jog : World :=
  Eval vm_compute in
    clear_trace (world_after
      (event_loop [encoder_down 8 0 2]
         {| last_jog_pos := 0; last_encoder_pos := 2; encoder_held := false |})
      jogging_Y).

(** The Job Control page with a release callback bound to its slot 3,
    whose trigger mode stays NONE. *)
Definition started_with_release_on_none : World :=
  Eval vm_compute in
    world_after
      (set_key job_control_page_id 3
         (KeySettings.with_release cb_keyboard_release_all KeySettings.default))
      started.

(** On the selection page, the pick turned back from Job Control (index 0)
    to Rapids (index 4). *)
Definition selecting_rapids : World :=
  Eval vm_compute in
    world_after (SelectionPage_handle_encoder_event selection_page_id (-3) (-3)) selecting.

(** [selecting] with one more page registered, built without a title:
    [SimpleButtonPage(state)]. *)
Definition untitled_page_id : PageId := 7%nat.

Definition selecting_with_untitled : World :=
  Eval vm_compute in
    world_after (p <- new_page SimpleButtonPage None ;; add_page p) selecting.

(** The encoder pressed on the first page: the selection page has been
    activated; the dispatcher has not yet refreshed [last_interaction]. *)
Definition entering_selection : World :=
  Eval vm_compute in
    world_after (Page_handle_encoder_press job_control_page_id true) started.

(** The animator of every indicator has rendered and cleared its event. *)
Definition rendered (w : World) : World :=
  with_state (set_led_states (map LedState.clear_event (led_states (state w))) (state w)) w.

(** * Closed forms used in the statements *)

(** What [activate] does to the indicator of a slot with settings [ks]. *)
Definition activated_led (ks : KeySettings.t) (l : LedState.t) : LedState.t :=
  LedState.set_mode OFF
    (LedState.set_off_color (KeySettings.off_color ks)
       (LedState.set_on_color (KeySettings.on_color ks) l)).

(** The indicators after the loop of [activate] over slots 0 to 11. *)
Definition activated_leds (kss : list KeySettings.t) (leds : list LedState.t)
  : list LedState.t :=
  imap (fun i l => if (i <? 12)%nat
                   then match kss !! i with
                        | Some ks => activated_led ks l
                        | None => l
                        end
                   else l) leds.

(** The group [DisplayPage.activate] builds: the title label, if any. *)
Definition display_group (pg : Page) : list Widget :=
  match title pg with
  | Some t => [TitleLabel {| text := Some (title_text t) |}]
  | None => []
  end.

Definition grid_of (pg : Page) : Widget :=
  Grid (imap (fun index n => (n, (Z.of_nat index mod 3, Z.of_nat index / 3)))
          (take 12 (map KeySettings.name (key_settings pg)))).

(** The title of [state.previous_page], as the selection label shows it. *)
Definition previous_title (w : World) : option string :=
  match previous_page (state w) with
  | Some q => match pages w !! q with
              | Some pg => title pg
              | None => None
              end
  | None => None
  end.

(** A page object after its own [activate]. *)
Definition activated_page (w : World) (pg : Page) : Page :=
  match class pg with
  | DisplayPage | SleepPage =>
      {| class := class pg; title := title pg; key_settings := key_settings pg;
         main_group := Some (display_group pg) |}
  | SimpleButtonPage =>
      {| class := class pg; title := title pg; key_settings := key_settings pg;
         main_group := Some (display_group pg ++ [grid_of pg]) |}
  | JogDialPage _ =>
      {| class := JogDialPage None; title := title pg; key_settings := key_settings pg;
         main_group := Some (display_group pg ++ [grid_of pg]) |}
  | SelectionPage _ _ =>
      {| class := SelectionPage (previous_page (state w))
                    (Some {| text := previous_title w |});
         title := title pg; key_settings := key_settings pg;
         main_group := Some (display_group pg ++ [SelectionRef]) |}
  end.

(** The world after [p.activate()] has returned. *)
Definition activated_world (p : PageId) (w : World) : World :=
  match pages w !! p with
  | Some pg =>
      {| state := set_led_states
                    (activated_leds (key_settings pg) (led_states (state w))) (state w);
         pages := <[p := activated_page w pg]> (pages w);
         trace := trace w ++ [call_activate p; display_root_group p] |}
  | None => w
  end.

(** The world after [p.deactivate()] has returned. *)
Definition deactivated_world (p : PageId) (w : World) : World :=
  match pages w !! p with
  | Some pg =>
      {| state := state w;
         pages := <[p := Page_set_main_group None pg]> (pages w);
         trace := trace w ++ [call_deactivate p; gc_collect; print_free_memory] |}
  | None => w
  end.

(** What a page needs for [activate] to return: twelve indicators, twelve
    key settings, and for the selection page a previous page with a title
    to show. *)
Definition activatable (w : World) (p : PageId) : bool :=
  (length (led_states (state w)) =? 12)%nat &&
  match pages w !! p with
  | None => false
  | Some pg =>
      (length (key_settings pg) =? 12)%nat &&
      match class pg with
      | SelectionPage _ _ =>
          match previous_page (state w) with
          | Some q => match pages w !! q with
                      | Some pgq => truthy (title pgq)
                      | None => false
                      end
          | None => false
          end
      | _ => true
      end
  end.

(** The key combination [handle_jog_event] sends for an axis (0, 1, 2 for
    X, Y, Z) and a direction ([true]: positive delta). *)
Definition directional_action (axis : Z) (forward : bool) : list Keycode :=
  match axis, forward with
  | 0, false => [SHIFT; LEFT_ARROW]
  | 0, true => [SHIFT; RIGHT_ARROW]
  | 1, false => [SHIFT; DOWN_ARROW]
  | 1, true => [SHIFT; UP_ARROW]
  | 2, false => [SHIFT; PAGE_DOWN]
  | 2, true => [SHIFT; PAGE_UP]
  | _, _ => []
  end.

(** The axes the three axis slots of [main] select. *)
Definition valid_axis (a : Z) : bool := (a =? 0) || (a =? 1) || (a =? 2).

Definition valid_selection (sel : option Z) : bool :=
  match sel with
  | Some a => valid_axis a
  | None => true
  end.

(** [select_axis] on the attribute: the selected axis is cleared, any
    other axis replaces the selection. *)
Definition toggle_axis (sel : option Z) (axis : Z) : option Z :=
  if axis_is sel axis then None else Some axis.

(** The off-colour [select_axis] gives the slot of axis [n]. *)
Definition axis_color (sel : option Z) (n : Z) : Color :=
  if axis_is sel n then highlight else neutral.

(** The off-colour of indicator [i], if there is one. *)
Definition led_off_color (w : World) (i : nat) : option Color :=
  LedState.off_color <$> led_states (state w) !! i.

Definition is_selection (c : PageClass) : bool :=
  match c with SelectionPage _ _ => true | _ => false end.

(** The world after the current page [cp] has been left for [target]:
    [cp.deactivate()], the assignments [g] to the state, and
    [target.activate()]. *)
Definition switched (cp target : PageId) (g : OverallState -> OverallState) (w : World)
  : World :=
  activated_world target (with_state (g (state w)) (deactivated_world cp w)).

(** The idle transition from page [cp] to the sleep page [sp]. *)
Definition fell_asleep (cp sp : PageId) (w : World) : World :=
  switched cp sp (fun s => set_current_page (sleep_page s)
                             (set_wake_to_page (current_page s) s)) w.

(** The wake transition from the sleep page [sp]. *)
Definition woken (sp target : PageId) (w : World) : World :=
  switched sp target (fun s => set_current_page (wake_to_page s) s) w.

(** The selection page [sel] committing its pick. *)
Definition committed (sel pick : PageId) (w : World) : World :=
  switched sel pick (set_current_page (Some pick)) w.

(** The sleep threshold in nanoseconds. *)
Definition sleep_threshold (s : OverallState) : Z := sleep_time s * 1000000000.

(** The jog-dial page [p] has no axis selected and its dial is inert: a
    jog event is received and sends nothing. *)
Definition axis_cleared (p : PageId) (w : World) : Prop :=
  (exists pg, pages w !! p = Some pg /\ class pg = JogDialPage None)
  /\ forall d a, Page_handle_jog_event p d a w
               = Returns tt (logged [call_handle_jog_event p d a] w).

(** ** The invariant of a running firmware *)

(** The five classes, without their attributes. *)
Definition kind (c : PageClass) : nat :=
  match c with
  | DisplayPage => 0
  | SelectionPage _ _ => 1
  | SleepPage => 2
  | SimpleButtonPage => 3
  | JogDialPage _ => 4
  end%nat.

(** The classes of the pages registered with [add_page]. *)
Definition ordinary (c : PageClass) : bool :=
  match c with
  | DisplayPage | SimpleButtonPage | JogDialPage _ => true
  | SelectionPage _ _ | SleepPage => false
  end.

(** A callback that selects an axis closes over a jog-dial page. *)
Definition select_target_ok (w : World) (cb : option Callback) : Prop :=
  match cb with
  | Some (cb_select_axis q _) =>
      exists pg sel, pages w !! q = Some pg /\ class pg = JogDialPage sel
  | _ => True
  end.

(** What the constructors and [main] set up and nothing changes later:
    twelve indicators, twelve key settings per page, a sleep page, a
    selection page, a stack of ordinary pages, each with a title. *)
Record Config (w : World) : Prop := {
  cfg_leds : length (led_states (state w)) = 12%nat;
  cfg_keys : forall p pg, pages w !! p = Some pg -> length (key_settings pg) = 12%nat;
  cfg_sleep : exists sp pg,
    sleep_page (state w) = Some sp /\ pages w !! sp = Some pg /\ class pg = SleepPage;
  cfg_selection : exists sel pg,
    selection_page (state w) = Some sel /\ pages w !! sel = Some pg
    /\ is_selection (class pg) = true;
  cfg_stack : forall q, q ∈ page_stack (state w) ->
    exists pg, pages w !! q = Some pg /\ ordinary (class pg) = true;
  cfg_titles : forall q pg, q ∈ page_stack (state w) -> pages w !! q = Some pg ->
    is_Some (title pg);
  cfg_callbacks : forall p pg k ks,
    pages w !! p = Some pg -> key_settings pg !! k = Some ks ->
    select_target_ok w (KeySettings.press_callback ks)
    /\ select_target_ok w (KeySettings.release_callback ks)
}.

(** The selection page [sel] shows a pick: it has been activated. *)
Definition showing_pick (w : World) (sel : PageId) : Prop :=
  is_Some (previous_page (state w))
  /\ exists pg r lbl, pages w !! sel = Some pg
       /\ class pg = SelectionPage (Some r) (Some lbl).

(** Where the firmware is: on a registered page, on the selection page
    with a pick shown, or asleep with a page to wake to. *)
Definition position_ok (w : World) (cp : PageId) : Prop :=
  cp ∈ page_stack (state w)
  \/ (selection_page (state w) = Some cp /\ showing_pick w cp)
  \/ (sleep_page (state w) = Some cp
      /\ exists t, wake_to_page (state w) = Some t
           /\ (t ∈ page_stack (state w)
               \/ (selection_page (state w) = Some t
                   /\ is_Some (previous_page (state w))))).

Record Nav (w : World) : Prop := {
  nav_clock : is_Some (last_interaction (state w));
  nav_previous : forall q, previous_page (state w) = Some q -> q ∈ page_stack (state w);
  nav_pick : forall sel pg r lbl,
    selection_page (state w) = Some sel -> pages w !! sel = Some pg ->
    class pg = SelectionPage (Some r) lbl -> r ∈ page_stack (state w);
  nav_label : forall sel pg r lbl,
    selection_page (state w) = Some sel -> pages w !! sel = Some pg ->
    class pg = SelectionPage (Some r) (Some lbl) ->
    exists pgr, pages w !! r = Some pgr /\ text lbl = title pgr;
  nav_current : exists cp, current_page (state w) = Some cp /\ position_ok w cp
}.

Definition Inv (w : World) : Prop := Config w /\ Nav w.

(** A key event of the keypad driver: slot in [0, 12). *)
Definition input_ok (inp : Inputs) : Prop :=
  match key_event inp with
  | Some e => 0 <= KeyEvent.key_number e < 12
  | None => True
  end.

(** [w'] has the configuration of [w]: the same indicators in number, the
    same sleep page, selection page and stack, the same page objects with
    their key settings and classes (attributes apart). *)
Record config_step (w w' : World) : Prop := {
  cs_leds : length (led_states (state w')) = length (led_states (state w));
  cs_sleep : sleep_page (state w') = sleep_page (state w);
  cs_selection : selection_page (state w') = selection_page (state w);
  cs_stack : page_stack (state w') = page_stack (state w);
  cs_pages_len : length (pages w') = length (pages w);
  cs_pages : forall p pg, pages w !! p = Some pg ->
    exists pg', pages w' !! p = Some pg'
      /\ key_settings pg' = key_settings pg /\ kind (class pg') = kind (class pg)
      /\ title pg' = title pg
}.

(** [w'] is, as far as the invariant can tell, where [w] was: the same
    configuration, the same current, previous and wake-to pages, the
    selection page with the same pick. *)
Record unchanged (w w' : World) : Prop := {
  un_config : config_step w w';
  un_current : current_page (state w') = current_page (state w);
  un_previous : previous_page (state w') = previous_page (state w);
  un_wake : wake_to_page (state w') = wake_to_page (state w);
  un_clock : is_Some (last_interaction (state w)) ->
             is_Some (last_interaction (state w'));
  un_selection_page : forall p pg, pages w !! p = Some pg ->
    is_selection (class pg) = true ->
    exists pg', pages w' !! p = Some pg' /\ class pg' = class pg
}.

(** The computation returns and leaves the world [unchanged]. *)
Definition keeps (c : M unit) (w : World) : Prop :=
  exists w', c w = Returns tt w' /\ unchanged w w'.

(** An assignment to the state that leaves the configuration and the
    clock alone: it may set [current_page], [previous_page] and
    [wake_to_page]. *)
Definition navigates (g : OverallState -> OverallState) : Prop :=
  forall s, led_states (g s) = led_states s
            /\ sleep_page (g s) = sleep_page s
            /\ selection_page (g s) = selection_page s
            /\ page_stack (g s) = page_stack s
            /\ last_interaction (g s) = last_interaction s.

(** The worlds the firmware can be in between two iterations of its
    loop: [main], the start of the loop at some time and encoder
    positions, and any number of iterations over driver readings. *)
Definition reachable (w : World) : Prop :=
  exists now jog enc inps v,
    Forall input_ok inps
    /\ (v0 <- event_loop_start now jog enc ;; event_loop inps v0) booted = Returns v w.

(** ** The invariant as a test *)

Definition memb (q : PageId) (l : list PageId) : bool := existsb (Nat.eqb q) l.

Definition class_at (w : World) (p : PageId) : option PageClass :=
  class <$> pages w !! p.

Definition select_target_okb (w : World) (cb : option Callback) : bool :=
  match cb with
  | Some (cb_select_axis q _) =>
      match class_at w q with
      | Some (JogDialPage _) => true
      | _ => false
      end
  | _ => true
  end.

Definition showing_pickb (w : World) (sel : PageId) : bool :=
  truthy (previous_page (state w))
  && match class_at w sel with
     | Some (SelectionPage (Some _) (Some _)) => true
     | _ => false
     end.

Definition position_okb (w : World) (cp : PageId) : bool :=
  memb cp (page_stack (state w))
  || (option_PageId_eqb (selection_page (state w)) (Some cp) && showing_pickb w cp)
  || (option_PageId_eqb (sleep_page (state w)) (Some cp)
      && match wake_to_page (state w) with
         | Some t =>
             memb t (page_stack (state w))
             || (option_PageId_eqb (selection_page (state w)) (Some t)
                 && truthy (previous_page (state w)))
         | None => false
         end).

Definition config_okb (w : World) : bool :=
  (length (led_states (state w)) =? 12)%nat
  && forallb (fun pg => (length (key_settings pg) =? 12)%nat) (pages w)
  && match sleep_page (state w) with
     | Some sp => match class_at w sp with Some SleepPage => true | _ => false end
     | None => false
     end
  && match selection_page (state w) with
     | Some sel => match class_at w sel with Some c => is_selection c | None => false end
     | None => false
     end
  && forallb (fun q => match class_at w q with Some c => ordinary c | None => false end)
       (page_stack (state w))
  && forallb (fun q => match pages w !! q with Some pg => truthy (title pg) | None => false end)
       (page_stack (state w))
  && forallb (fun pg =>
                forallb (fun ks => select_target_okb w (KeySettings.press_callback ks)
                                   && select_target_okb w (KeySettings.release_callback ks))
                  (key_settings pg))
       (pages w).

Definition nav_okb (w : World) : bool :=
  truthy (last_interaction (state w))
  && match previous_page (state w) with
     | Some q => memb q (page_stack (state w))
     | None => true
     end
  && match selection_page (state w) with
     | Some sel =>
         match class_at w sel with
         | Some (SelectionPage (Some r) _) => memb r (page_stack (state w))
         | _ => true
         end
     | None => true
     end
  && match selection_page (state w) with
     | Some sel =>
         match class_at w sel with
         | Some (SelectionPage (Some r) (Some lbl)) =>
             match pages w !! r with
             | Some pgr => bool_decide (text lbl = title pgr)
             | None => false
             end
         | _ => true
         end
     | None => true
     end
  && match current_page (state w) with
     | Some cp => position_okb w cp
     | None => false
     end.

Definition inv_ok (w : World) : bool := config_okb w && nav_okb w.

(** The driver readings show activity: an edge of the encoder press, a
    key event, a move of the jog dial or of the encoder. *)
Definition active (inp : Inputs) (v : LoopVars) : Prop :=
  (encoder_switch_pressed inp = true /\ encoder_held v = false)
  \/ is_Some (key_event inp)
  \/ jog_position inp <> last_jog_pos v
  \/ encoder inp <> last_encoder_pos v.

(** * Definitions for the properties of the whole firmware *)

(** ** More worlds of a run *)

(** One encoder step forward on the selection page and a second press:
    the arrow-jog page is current. *)
Definition on_arrow_jog : World :=
  Eval vm_compute in
    clear_trace (world_after
      (event_loop [encoder_down 1 0 0; quiet 2 0 1; encoder_down 3 0 1; quiet 4 0 1]
         loop_start) started).

(** A fresh state and one page object that has not been registered. *)
Definition one_page : World :=
  Eval vm_compute in world_after (new_page SimpleButtonPage (Some "Test")) empty_world.

(** A selection page and one registered page built without a title,
    [SimpleButtonPage(state)]: that page is current. *)
Definition on_untitled_page : World :=
  Eval vm_compute in
    world_after
      (sel <- new_page (SelectionPage None None) (Some "Selection") ;;
       modify_state (set_selection_page (Some sel)) ;;
       p <- new_page SimpleButtonPage None ;;
       add_page p)
      empty_world.

(** The same with the selection page current and the page without a
    title as [previous_page], set by hand. *)
Definition selecting_untitled_page : World :=
  Eval vm_compute in
    with_state (set_current_page (Some 0%nat)
                  (set_previous_page (Some 1%nat) (state on_untitled_page)))
      on_untitled_page.

(** [started] with the sleep page made current by hand: there is no page
    to wake to. *)
Definition asleep_without_wake : World :=
  Eval vm_compute in with_state (set_current_page (Some sleep_page_id) (state started)) started.

(** [started] with no sleep page set up. *)
Definition without_sleep_page : World :=
  Eval vm_compute in with_state (set_sleep_page None (state started)) started.

(** ** Sequences of events, and what they leave *)

(** Encoder events delivered one after the other to page [p]: the pairs
    are [change_rel] and [absolute_value]. *)
Definition encoder_events (p : PageId) (ds : list (Z * Z)) : M unit :=
  for_each ds (fun da => Page_handle_encoder_event p (fst da) (snd da)).

(** The steps a sequence of encoder events makes in all: one forward for
    each positive delta, one back for each negative delta. *)
Definition net_steps (ds : list (Z * Z)) : Z :=
  foldr (fun da n => Z.sgn (fst da) + n) 0 ds.

(** What a bound callback that only drives the keyboard adds to the log
    when the slot calls it; [call] is the log entry of the call itself. *)
Definition callback_log (call : Event) (cb : option Callback) : option (list Event) :=
  match cb with
  | None => Some []
  | Some (cb_keyboard_send keys) => Some [call; keyboard_send keys]
  | Some (cb_keyboard_press keys) => Some [call; keyboard_press keys]
  | Some cb_keyboard_release_all => Some [call; keyboard_release_all]
  | Some cb_button_test => Some (call :: replicate 100 (keyboard_send [KEY_A]))
  | Some (cb_select_axis _ _) => None
  end.

(** World [w] with indicator [k] replaced and [es] appended to the log. *)
Definition with_led (k : nat) (l : LedState.t) (es : list Event) (w : World) : World :=
  {| state := set_led_states (<[k := l]> (led_states (state w))) (state w);
     pages := pages w;
     trace := trace w ++ es |}.

(** The page references of the state. *)
Definition navigation (w : World) : option PageId * option PageId * option PageId :=
  (current_page (state w), previous_page (state w), wake_to_page (state w)).

(** The log entries that are output of [macropad.keyboard]. *)
Definition is_keyboard (e : Event) : bool :=
  match e with
  | keyboard_send _ | keyboard_press _ | keyboard_release_all => true
  | _ => false
  end.

(** What has been sent to the host so far. *)
Definition typed (w : World) : list Event :=
  filter (fun e => is_keyboard e = true) (trace w).

(** The part of the world that [main] sets up: the idle time, the sleep
    and selection pages, the stack of pages, the key states, the blink
    intervals of the indicators and, of every page, its class (the
    attributes of the subclass apart), its title and its key settings. *)
Definition page_configuration (pg : Page) : nat * option string * list KeySettings.t :=
  (kind (class pg), title pg, key_settings pg).

Definition configuration (w : World)
  : Z * option PageId * option PageId * list PageId * list KeyState.t * list Q
    * list (nat * option string * list KeySettings.t) :=
  (sleep_time (state w), sleep_page (state w), selection_page (state w),
   page_stack (state w), key_states (state w),
   map LedState.interval (led_states (state w)), map page_configuration (pages w)).

(** An indicator in mode OFF or ON: what it shows does not depend on
    the time. *)
Definition steady (l : LedState.t) : Prop :=
  LedState.mode l = OFF \/ LedState.mode l = ON.

Definition steady_leds (w : World) : Prop := Forall steady (led_states (state w)).

(** The page that is current, and no other, holds a display group. *)
Definition one_group (w : World) : Prop :=
  forall p pg, pages w !! p = Some pg ->
    truthy (main_group pg) = bool_decide (current_page (state w) = Some p).

(** No page holds a display group: the state between [deactivate] and
    [activate] in a page switch. *)
Definition no_group (w : World) : Prop :=
  forall p pg, pages w !! p = Some pg -> main_group pg = None.

(** [w'] has the current page of [w] and display groups on the same
    pages. *)
Definition same_groups (w w' : World) : Prop :=
  current_page (state w') = current_page (state w)
  /\ forall p, (truthy ∘ main_group) <$> pages w' !! p
               = (truthy ∘ main_group) <$> pages w !! p.

(** No group anywhere and [cp] current: the state in which [cp] is
    activated. *)
Definition entering (cp : PageId) (w : World) : Prop :=
  no_group w /\ current_page (state w) = Some cp.

(** [cp] is current and it alone holds a group. *)
Definition entered (cp : PageId) (w : World) : Prop :=
  one_group w /\ current_page (state w) = Some cp.

(** ** [OverallState.reset], round by round *)

(** The world after the first [m] rounds of the loop of [reset]: the
    indicators and key states below [m] have been reset. *)
Definition reset_upto (m : nat) (w : World) : World :=
  with_state
    (set_key_states
       (imap (fun i k => if (i <? m)%nat then KeyState.reset k else k)
          (key_states (state w)))
       (set_led_states
          (imap (fun i l => if (i <? m)%nat then LedState.reset l else l)
             (led_states (state w)))
          (state w))) w.

(** [started] with the last indicator taken away. *)
Definition eleven_indicators : World :=
  Eval vm_compute in
    with_state (set_led_states (take 11 (led_states (state started))) (state started)) started.

(** ** The colours of the keys *)

(** The off-colour that a page of class [c] shows on slot [i] whose key
    setting is [ks]: that of the key setting, but on a jog-dial page the
    three axis slots show the colour [select_axis] gives them. *)
Definition off_shown (c : PageClass) (i : nat) (ks : KeySettings.t) : Color :=
  match c with
  | JogDialPage sel =>
      if (9 <=? i)%nat && (i <? 12)%nat then axis_color sel (Z.of_nat i - 9)
      else KeySettings.off_color ks
  | _ => KeySettings.off_color ks
  end.

(** The on- and off-colours page [pg] shows, slot by slot. *)
Definition page_colours (pg : Page) : list (Color * Color) :=
  imap (fun i ks => (KeySettings.on_color ks, off_shown (class pg) i ks)) (key_settings pg).

(** The on- and off-colours the indicators hold. *)
Definition shown (w : World) : list (Color * Color) :=
  map (fun l => (LedState.on_color l, LedState.off_color l)) (led_states (state w)).

(** The indicators hold the colours of the page that is current. *)
Definition colours_ok (w : World) : Prop :=
  exists cp pg, current_page (state w) = Some cp /\ pages w !! cp = Some pg
    /\ shown w = page_colours pg.

(** A callback of [ks] is [select_axis] of page [q]. *)
Definition selects_axis_of (q : PageId) (ks : KeySettings.t) : Prop :=
  exists a, KeySettings.press_callback ks = Some (cb_select_axis q a)
            \/ KeySettings.release_callback ks = Some (cb_select_axis q a).

(** How [main] binds the axis keys: on a jog-dial page the off-colour of
    slots 9 to 11 is the colour [select_axis] gives an axis that is not
    selected, and a key that selects an axis selects it on its own page. *)
Definition axis_keys_ok (w : World) : Prop :=
  forall p pg, pages w !! p = Some pg ->
    (kind (class pg) = kind (JogDialPage None) ->
     forall (i : nat) ks, (9 <= i < 12)%nat -> key_settings pg !! i = Some ks ->
       KeySettings.off_color ks = neutral)
    /\ (forall ks q, ks ∈ key_settings pg -> selects_axis_of q ks -> q = p).

(** Twelve indicators, twelve key settings on every page, the axis keys
    bound as [main] binds them. *)
Definition paintable (w : World) : Prop :=
  length (led_states (state w)) = 12%nat
  /\ (forall p pg, pages w !! p = Some pg -> length (key_settings pg) = 12%nat)
  /\ axis_keys_ok w.

(** Page [cp], whose key settings are [kss], is current and the
    indicators hold its colours. *)
Definition painted (cp : PageId) (kss : list KeySettings.t) (w : World) : Prop :=
  current_page (state w) = Some cp
  /\ exists pg, pages w !! cp = Some pg /\ key_settings pg = kss
       /\ shown w = page_colours pg.

(** The invariant of the colours. *)
Definition keys_painted (w : World) : Prop := paintable w /\ colours_ok w.

(** ** Triples over the monad *)

(** [c], started in a world where [P] holds, leaves a world where [Q]
    holds of its result, when it returns. *)
Definition hoare {A} (P : World -> Prop) (c : M A) (Q : A -> World -> Prop) : Prop :=
  forall w a w', P w -> c w = Returns a w' -> Q a w'.

Definition preserves {A} (P : World -> Prop) (c : M A) : Prop :=
  hoare P c (fun _ => P).

(** Computations that only read. *)
Definition reads {A} (c : M A) : Prop := forall w a w', c w = Returns a w' -> w' = w.

(** The [LedState] methods the pages call. *)
Inductive led_method : (LedState.t -> LedState.t) -> Prop :=
| led_set_on_color c : led_method (LedState.set_on_color c)
| led_set_off_color c : led_method (LedState.set_off_color c)
| led_set_mode_OFF : led_method (LedState.set_mode OFF)
| led_set_mode_ON : led_method (LedState.set_mode ON).

(** The assignments to [OverallState] the page switches make. *)
Inductive nav_assignment : (OverallState -> OverallState) -> Prop :=
| nav_previous_is_current :
    nav_assignment (fun s => set_previous_page (current_page s) s)
| nav_current_is_selection :
    nav_assignment (fun s => set_current_page (selection_page s) s)
| nav_current_is_pick sp : nav_assignment (set_current_page sp)
| nav_current_is_wake_to :
    nav_assignment (fun s => set_current_page (wake_to_page s) s)
| nav_wake_to_is_current :
    nav_assignment (fun s => set_wake_to_page (current_page s) s)
| nav_current_is_sleep :
    nav_assignment (fun s => set_current_page (sleep_page s) s).

(** The writes that the handlers of key, jog and encoder events make to
    the attributes of the state and of the pages, page switches apart: an
    entry in the log (keyboard output only if [typing]), a method of one
    indicator, the clock, the attributes a subclass adds to a page. *)
Inductive attr_write (typing : bool) : World -> World -> Prop :=
| write_log e w :
    (typing = false -> is_keyboard e = false) -> attr_write typing w (logged [e] w)
| write_led w n l f :
    led_states (state w) !! n = Some l -> led_method f ->
    attr_write typing w
      (with_state (set_led_states (<[n := f l]> (led_states (state w))) (state w)) w)
| write_clock t w :
    attr_write typing w (with_state (set_last_interaction (Some t) (state w)) w)
| write_class w p pg c :
    pages w !! p = Some pg -> kind c = kind (class pg) ->
    attr_write typing w (with_pages (<[p := Page_set_class c pg]> (pages w)) w).

(** The writes of a page switch: the display group of a page and the
    page references of the state. *)
Inductive nav_write : World -> World -> Prop :=
| write_group w p pg g :
    pages w !! p = Some pg ->
    nav_write w (with_pages (<[p := Page_set_main_group g pg]> (pages w)) w)
| write_nav w f :
    nav_assignment f -> nav_write w (with_state (f (state w)) w).

(** [P] is kept by every step of [R]. *)
Definition kept_by (R : World -> World -> Prop) (P : World -> Prop) : Prop :=
  forall w w', R w w' -> P w -> P w'.

(** A property [P] that a page switch restores: leaving the current page
    gives [Mid], the assignments to the state keep [Mid], and activating
    the page that is then current gives [P] back. *)
Record Paged (typing : bool) (P Mid : World -> Prop) : Prop := {
  paged_attr : kept_by (attr_write typing) P;
  paged_deactivate : hoare P current_page_deactivate (fun _ => Mid);
  paged_assign : forall f, nav_assignment f -> preserves Mid (modify_state f);
  paged_activate : hoare Mid current_page_activate (fun _ => P)
}.

(** * Properties *)

(** ** Running the primitives *)

Lemma with_state_id w : with_state (state w) w = w.
Proof. by destruct w. Qed.

Lemma set_led_states_id s : set_led_states (led_states s) s = s.
Proof. by destruct s. Qed.

Lemma bind_returns {A B} (c : M A) (k : A -> M B) w a w' :
  c w = Returns a w' -> bind c k w = k a w'.
Proof. unfold bind. by intros ->. Qed.

Lemma bind_raises {A B} (c : M A) (k : A -> M B) w e :
  c w = Raises e -> bind c k w = Raises e.
Proof. unfold bind. by intros ->. Qed.

Lemma py_norm_index_nat len n :
  (n < len)%nat -> py_norm_index len (Z.of_nat n) = Some n.
Proof.
  intros Hn. unfold py_norm_index.
  replace (0 <=? Z.of_nat n) with true by (symmetry; apply Z.leb_le; lia).
  replace (Z.of_nat n <? Z.of_nat len) with true by (symmetry; apply Z.ltb_lt; lia).
  cbn. by rewrite Nat2Z.id.
Qed.

Lemma get_page_returns w p pg :
  pages w !! p = Some pg -> get_page p w = Returns pg w.
Proof. unfold get_page. by intros ->. Qed.

Lemma modify_page_returns w p pg f :
  pages w !! p = Some pg ->
  modify_page p f w = Returns tt (with_pages (<[p := f pg]> (pages w)) w).
Proof. unfold modify_page. by intros ->. Qed.

Lemma py_getitem_nat {A} (l : list A) n a w :
  l !! n = Some a -> py_getitem l (Z.of_nat n) w = Returns a w.
Proof.
  intros Hl. unfold py_getitem.
  rewrite py_norm_index_nat by (by eapply lookup_lt_Some).
  by rewrite Hl.
Qed.

Lemma key_setting_returns w p pg n ks :
  pages w !! p = Some pg -> key_settings pg !! n = Some ks ->
  key_setting p (Z.of_nat n) w = Returns ks w.
Proof.
  intros Hp Hk. unfold key_setting.
  rewrite (bind_returns _ _ _ _ _ (get_page_returns _ _ _ Hp)).
  by apply py_getitem_nat.
Qed.

Lemma update_led_returns w n l f :
  led_states (state w) !! n = Some l ->
  update_led (Z.of_nat n) f w =
  Returns tt (with_state (set_led_states (<[n := f l]> (led_states (state w))) (state w)) w).
Proof.
  intros Hl. unfold update_led, bind, get_state.
  rewrite py_norm_index_nat by (by eapply lookup_lt_Some).
  by rewrite Hl.
Qed.

(** ** Activation sets the twelve indicators *)

Lemma activate_slot_returns w self pg i ks l :
  pages w !! self = Some pg -> key_settings pg !! i = Some ks ->
  led_states (state w) !! i = Some l ->
  activate_slot self i w =
  Returns tt (with_state (set_led_states (<[i := activated_led ks l]> (led_states (state w)))
                            (state w)) w).
Proof.
  intros Hp Hk Hl. unfold activate_slot.
  pose proof (lookup_lt_Some _ _ _ Hl) as Hlt.
  rewrite (bind_returns _ _ _ _ _ (key_setting_returns _ _ _ _ _ Hp Hk)).
  rewrite (bind_returns _ _ _ _ _ (update_led_returns _ _ _ _ Hl)).
  rewrite (bind_returns _ _ _ ks
             (with_state (set_led_states
                (<[i := LedState.set_on_color (KeySettings.on_color ks) l]>
                   (led_states (state w))) (state w)) w))
    by (by apply (key_setting_returns _ self pg)).
  erewrite bind_returns; last first.
  { apply update_led_returns. cbn. by apply list_lookup_insert_eq. }
  erewrite update_led_returns; last first.
  { cbn. apply list_lookup_insert_eq. by rewrite length_insert. }
  cbn. unfold with_state; cbn. unfold activated_led.
  by rewrite !list_insert_insert_eq.
Qed.

Lemma activate_loop self pg n : forall a w,
  pages w !! self = Some pg ->
  (a + n <= length (key_settings pg))%nat ->
  (a + n <= length (led_states (state w)))%nat ->
  exists leds,
    for_each (seq a n) (activate_slot self) w =
      Returns tt (with_state (set_led_states leds (state w)) w)
    /\ length leds = length (led_states (state w))
    /\ forall i ks l,
         key_settings pg !! i = Some ks -> led_states (state w) !! i = Some l ->
         leds !! i = Some (if bool_decide (a <= i < a + n)%nat
                           then activated_led ks l else l).
Proof.
  induction n as [|n IH]; intros a w Hp Hk Hl.
  - exists (led_states (state w)). cbn [seq for_each]. unfold ret.
    rewrite set_led_states_id, with_state_id. split; [done|]. split; [done|].
    intros i ks l _ Hi. rewrite bool_decide_eq_false_2 by lia. done.
  - destruct (lookup_lt_is_Some_2 (key_settings pg) a) as [ks0 Hks0]; [lia|].
    destruct (lookup_lt_is_Some_2 (led_states (state w)) a) as [l0 Hl0]; [lia|].
    cbn [seq for_each].
    rewrite (bind_returns _ _ _ _ _ (activate_slot_returns _ _ _ _ _ _ Hp Hks0 Hl0)).
    edestruct (IH (S a)) as (leds & Hrun & Hlen & Hlook); [| |  | ].
    4: { exists leds. split; [rewrite Hrun; clear; by destruct w as [[] ? ?]|].
         cbn in Hlen. rewrite length_insert in Hlen. split; [done|].
         intros i ks l Hi1 Hi2. cbn in Hlook.
         destruct (decide (i = a)) as [->|Hne].
         - rewrite (Hlook a ks (activated_led ks0 l0)); [| done |].
           + rewrite bool_decide_eq_false_2 by lia.
             rewrite bool_decide_eq_true_2 by lia. congruence.
           + apply list_lookup_insert_eq. by eapply lookup_lt_Some.
         - rewrite (Hlook i ks l); [| done |].
           + destruct (decide (S a <= i < S a + n)%nat).
             * rewrite !bool_decide_eq_true_2 by lia. done.
             * rewrite !bool_decide_eq_false_2 by lia. done.
           + by rewrite list_lookup_insert_ne. }
    + done.
    + lia.
    + cbn. rewrite length_insert. lia.
Qed.

Lemma activated_leds_lookup kss leds i ks l :
  kss !! i = Some ks -> leds !! i = Some l -> (i < 12)%nat ->
  activated_leds kss leds !! i = Some (activated_led ks l).
Proof.
  intros Hk Hl Hi. unfold activated_leds.
  rewrite list_lookup_imap, Hl. cbn [fmap option_fmap option_map].
  replace (i <? 12)%nat with true by (symmetry; by apply Nat.ltb_lt).
  by rewrite Hk.
Qed.

Lemma length_activated_leds kss leds :
  length (activated_leds kss leds) = length leds.
Proof. unfold activated_leds. by rewrite length_imap. Qed.

Lemma activate_all_slots w self pg :
  pages w !! self = Some pg ->
  length (key_settings pg) = 12%nat ->
  length (led_states (state w)) = 12%nat ->
  for_each (seq 0 12) (activate_slot self) w =
  Returns tt (with_state (set_led_states
                (activated_leds (key_settings pg) (led_states (state w))) (state w)) w).
Proof.
  intros Hp Hk Hl.
  destruct (activate_loop self pg 12 0 w Hp) as (leds & Hrun & Hlen & Hlook); [lia..|].
  rewrite Hrun. do 3 f_equal. apply list_eq. intros i.
  destruct (decide (i < 12)%nat) as [Hi|Hi].
  - destruct (lookup_lt_is_Some_2 (key_settings pg) i) as [ks Hks]; [lia|].
    destruct (lookup_lt_is_Some_2 (led_states (state w)) i) as [l Hli]; [lia|].
    rewrite (Hlook i ks l Hks Hli), bool_decide_eq_true_2 by lia.
    symmetry. by apply activated_leds_lookup.
  - rewrite !lookup_ge_None_2; [done|rewrite length_activated_leds; lia|lia].
Qed.

(** ** [activate] and [deactivate] in closed form *)

(** Reads and writes of one page object after another write to it. *)
Ltac page_store :=
  repeat first
    [ rewrite list_lookup_insert_eq by (rewrite ?length_insert; done)
    | rewrite list_insert_insert_eq
    | progress cbn ].

(** Running the monad's primitives on a world built from records. *)
Ltac run_py :=
  repeat first
    [ progress unfold bind, ret, raise, get_state, modify_state, emit, deref,
        get_page, modify_page, with_state, with_pages, logged
    | rewrite list_lookup_insert_eq by (rewrite ?length_insert; done)
    | rewrite list_insert_insert_eq
    | progress cbn ].

Lemma DisplayPage_activate_returns w p pg :
  pages w !! p = Some pg ->
  length (key_settings pg) = 12%nat ->
  length (led_states (state w)) = 12%nat ->
  DisplayPage_activate p w =
  Returns tt
    {| state := set_led_states
                  (activated_leds (key_settings pg) (led_states (state w))) (state w);
       pages := <[p := Page_set_main_group (Some (display_group pg)) pg]> (pages w);
       trace := trace w ++ [display_root_group p] |}.
Proof.
  intros Hp Hk Hl. unfold DisplayPage_activate.
  rewrite (bind_returns _ _ _ _ _ (activate_all_slots _ _ _ Hp Hk Hl)).
  pose proof (lookup_lt_Some _ _ _ Hp) as Hlt.
  unfold bind, modify_page, emit, get_page, group_append, display_group; cbn.
  rewrite Hp; cbn.
  rewrite list_lookup_insert_eq by done; cbn.
  destruct (title pg) as [t|]; cbn; [|done].
  unfold bind, modify_page, get_page, with_pages. by page_store.
Qed.

Lemma key_grid_returns w p pg :
  pages w !! p = Some pg -> length (key_settings pg) = 12%nat ->
  key_grid p w = Returns (grid_of pg) w.
Proof.
  intros Hp Hk. unfold key_grid, bind, get_page. rewrite Hp.
  rewrite length_map, Hk. reflexivity.
Qed.

Lemma Page_activate_returns w p :
  activatable w p = true ->
  Page_activate p w = Returns tt (activated_world p w).
Proof.
  unfold activatable, activated_world. intros Hact.
  apply andb_prop in Hact as [Hl Hact]. apply Nat.eqb_eq in Hl.
  destruct (pages w !! p) as [pg|] eqn:Hp; [|done].
  apply andb_prop in Hact as [Hk Hact]. apply Nat.eqb_eq in Hk.
  pose proof (lookup_lt_Some _ _ _ Hp) as Hlt.
  unfold Page_activate, bind at 1, emit.
  rewrite (bind_returns _ _ _ pg (logged [call_activate p] w)) by (by apply get_page_returns).
  pose proof (DisplayPage_activate_returns (logged [call_activate p] w) p pg Hp Hk Hl) as HD.
  cbn [state pages trace logged] in HD. rewrite <- app_assoc in HD. cbn [app] in HD.
  unfold activated_page.
  destruct (class pg) as [|sel lbl| | |ax] eqn:Hc.
  - rewrite HD. unfold Page_set_main_group. by rewrite Hc.
  - unfold SelectionPage_activate. rewrite (bind_returns _ _ _ _ _ HD).
    destruct (previous_page (state w)) as [q|] eqn:Hq; [|done].
    destruct (pages w !! q) as [pgq|] eqn:Hpgq; [|done].
    destruct (title pgq) as [t|] eqn:Ht; [|done].
    assert (previous_title w = Some t) as ->
      by (unfold previous_title; by rewrite Hq, Hpgq).
    unfold set_selected_page, get_selected_page, set_selection, group_append,
      label_with_text.
    run_py. rewrite Hc, Hq. run_py.
    destruct (decide (q = p)) as [->|Hne].
    + assert (pgq = pg) as -> by congruence. run_py. rewrite Ht. run_py.
      unfold Page_set_main_group, Page_set_class. cbn. by rewrite Ht.
    + rewrite list_lookup_insert_ne by done. rewrite Hpgq. run_py. rewrite Ht. by run_py.
  - unfold SleepPage_activate. rewrite HD. unfold Page_set_main_group. by rewrite Hc.
  - unfold SimpleButtonPage_activate. rewrite (bind_returns _ _ _ _ _ HD).
    erewrite bind_returns; last first.
    { eapply key_grid_returns; cbn; [by apply list_lookup_insert_eq|done]. }
    unfold group_append. run_py. unfold grid_of, Page_set_main_group; cbn. by rewrite Hc.
  - unfold JogDialPage_activate. rewrite (bind_returns _ _ _ _ _ HD).
    rewrite (bind_returns _ _ _ tt
      {| state := set_led_states
                    (activated_leds (key_settings pg) (led_states (state w))) (state w);
         pages := <[p := Page_set_class (JogDialPage None)
                           (Page_set_main_group (Some (display_group pg)) pg)]> (pages w);
         trace := trace w ++ [call_activate p; display_root_group p] |}).
    2: { unfold set_selected_axis. run_py. rewrite Hc. by run_py. }
    erewrite bind_returns; last first.
    { eapply key_grid_returns; cbn; [by apply list_lookup_insert_eq|done]. }
    unfold group_append. run_py. unfold grid_of; cbn. done.
Qed.

Lemma Page_deactivate_returns w p pg :
  pages w !! p = Some pg ->
  Page_deactivate p w = Returns tt (deactivated_world p w).
Proof.
  intros Hp. unfold Page_deactivate, deactivated_world, DisplayPage_deactivate.
  rewrite Hp. repeat (run_py; rewrite ?Hp). by rewrite <- !app_assoc.
Qed.

(** ** [LedState]: which operations signal the animator *)

Lemma LedState_setters_set_event (s : LedState.t) (c : Color) (m : LedMode) :
  LedState.event (LedState.set_on_color c s) = true
  /\ LedState.event (LedState.set_off_color c s) = true
  /\ LedState.event (LedState.set_mode m s) = true.
Proof. done. Qed.

Lemma led_wait_after_setter (s : LedState.t) (c : Color) (m : LedMode) :
  is_Some (led_wait (LedState.set_on_color c s))
  /\ is_Some (led_wait (LedState.set_off_color c s))
  /\ is_Some (led_wait (LedState.set_mode m s)).
Proof.
  unfold led_wait; cbn. repeat split; destruct (LedMode_eqb _ _); eauto.
Qed.

(** C7. [LedState.reset] changes [mode] and leaves the event as it was: on
    an indicator that is ON with the event clear (the animator has rendered
    it and waits), [reset] turns the mode to OFF, the event stays clear and
    the animator stays suspended, whereas [set_mode(OFF)] on the same
    indicator sets the event and resumes it. *)
Theorem LedState_reset_does_not_set_event :
  let s := LedState.init (255, 255, 255) ON (1 # 10)%Q in
  LedState.mode s = ON
  /\ LedState.mode (LedState.reset s) = OFF
  /\ LedState.event (LedState.reset s) = false
  /\ led_wait (LedState.reset s) = None
  /\ LedState.event (LedState.set_mode OFF s) = true
  /\ led_wait (LedState.set_mode OFF s)
     = Some (LedState.clear_event (LedState.set_mode OFF s)).
Proof. cbn. repeat split. Qed.

(** ** The jog dial *)

Lemma logged_nil w : logged [] w = w.
Proof. destruct w. unfold logged; cbn. by rewrite app_nil_r. Qed.

Lemma logged_logged es es' w : logged es' (logged es w) = logged (es ++ es') w.
Proof. unfold logged; cbn. by rewrite app_assoc. Qed.

Lemma get_selected_axis_returns w p pg sel :
  pages w !! p = Some pg -> class pg = JogDialPage sel ->
  get_selected_axis p w = Returns sel w.
Proof.
  intros Hp Hc. unfold get_selected_axis, bind, get_page. by rewrite Hp, Hc.
Qed.

Lemma jog_action_selected d a w :
  valid_axis a = true -> d <> 0 ->
  jog_action d (Some a) w = Returns tt (logged [keyboard_send (directional_action a (0 <? d))] w).
Proof.
  intros Ha Hd. unfold valid_axis in Ha.
  assert (a = 0 \/ a = 1 \/ a = 2) as Hcases by lia.
  unfold jog_action, axis_is.
  destruct (Z.ltb_spec d 0), (Z.gtb_spec d 0), (Z.ltb_spec 0 d); try lia;
    destruct Hcases as [-> | [-> | ->]]; reflexivity.
Qed.

Lemma jog_action_none d w : jog_action d None w = Returns tt w.
Proof.
  unfold jog_action, axis_is. rewrite !andb_false_r. reflexivity.
Qed.

Lemma jog_loop p pg sel body_log d w : forall n a,
  pages w !! p = Some pg -> class pg = JogDialPage sel ->
  (forall w', jog_action d sel w' = Returns tt (logged body_log w')) ->
  for_each (seq a n) (fun _ => x <- get_selected_axis p ;; jog_action d x) w
  = Returns tt (logged (concat (replicate n body_log)) w).
Proof.
  intros n a Hp Hc Hbody. revert a w Hp.
  induction n as [|n IH]; intros a w Hp; cbn [seq for_each replicate concat].
  - unfold ret. by rewrite logged_nil.
  - erewrite bind_returns; last first.
    { erewrite bind_returns; [apply Hbody|by eapply get_selected_axis_returns]. }
    rewrite IH by done. by rewrite logged_logged.
Qed.

Lemma directional_action_injective a b f g :
  valid_axis a = true -> valid_axis b = true ->
  directional_action a f = directional_action b g -> a = b /\ f = g.
Proof.
  unfold valid_axis. intros Ha Hb.
  assert (a = 0 \/ a = 1 \/ a = 2) as [-> | [-> | ->]] by lia;
    assert (b = 0 \/ b = 1 \/ b = 2) as [-> | [-> | ->]] by lia;
    destruct f, g; cbn; intros H; by inversion H.
Qed.

(** C8. A jog event with relative delta [d] on the jog-dial page sends,
    when axis [a] of X, Y, Z is selected, exactly [|d|] key combinations,
    all equal to the one fixed by [a] and the sign of [d]; the six
    combinations are pairwise distinct; with no axis selected it sends
    nothing and leaves the world as it was. *)
Theorem JogDialPage_jog_emits_abs_delta_actions w p pg sel d absolute :
  pages w !! p = Some pg -> class pg = JogDialPage sel ->
  (forall a, sel = Some a -> valid_axis a = true ->
     JogDialPage_handle_jog_event p d absolute w
     = Returns tt (logged (replicate (Z.to_nat (Z.abs d))
                             (keyboard_send (directional_action a (0 <? d)))) w))
  /\ (sel = None -> JogDialPage_handle_jog_event p d absolute w = Returns tt w)
  /\ (forall a b f g, valid_axis a = true -> valid_axis b = true ->
        directional_action a f = directional_action b g -> a = b /\ f = g).
Proof.
  intros Hp Hc. split; [|split].
  - intros a -> Ha. unfold JogDialPage_handle_jog_event.
    destruct (decide (d = 0)) as [->|Hd].
    + cbn. unfold ret. by rewrite logged_nil.
    + rewrite (jog_loop p pg (Some a)
                 [keyboard_send (directional_action a (0 <? d))]); try done.
      * f_equal. f_equal. generalize (Z.to_nat (Z.abs d)).
        intros n. induction n as [|n IH]; cbn; [done|by rewrite IH].
      * intros w'. by apply jog_action_selected.
  - intros ->. unfold JogDialPage_handle_jog_event.
    rewrite (jog_loop p pg None []); try done.
    + replace (concat (replicate (Z.to_nat (Z.abs d)) [])) with (@nil Event).
      * by rewrite logged_nil.
      * generalize (Z.to_nat (Z.abs d)). intros n. by induction n.
    + intros w'. rewrite jog_action_none. by rewrite logged_nil.
  - apply directional_action_injective.
Qed.

Lemma JogDialPage_jog_emits_abs_delta_actions_witness :
  JogDialPage_handle_jog_event jog_dial_page_id (-3) 7 jogging_Y
  = Returns tt
      (logged [keyboard_send [SHIFT; DOWN_ARROW]; keyboard_send [SHIFT; DOWN_ARROW];
               keyboard_send [SHIFT; DOWN_ARROW]] jogging_Y).
Proof.
  refine (proj1 (JogDialPage_jog_emits_abs_delta_actions jogging_Y jog_dial_page_id _
                   (Some 1) (-3) 7 _ _) 1 _ _); reflexivity.
Defined.

(** ** Axis selection *)

Lemma axis_is_Some sel n : axis_is sel n = true <-> sel = Some n.
Proof.
  unfold axis_is. destruct sel as [a|]; [|done].
  rewrite Z.eqb_eq. split; congruence.
Qed.

Lemma toggle_axis_valid sel a :
  valid_axis a = true -> valid_selection (toggle_axis sel a) = true.
Proof. unfold toggle_axis. by destruct (axis_is sel a). Qed.

Lemma set_selected_axis_returns w p pg sel v :
  pages w !! p = Some pg -> class pg = JogDialPage sel ->
  set_selected_axis p v w
  = Returns tt (with_pages (<[p := Page_set_class (JogDialPage v) pg]> (pages w)) w).
Proof.
  intros Hp Hc. unfold set_selected_axis, bind, get_page, modify_page.
  by rewrite Hp, Hc, Hp.
Qed.

(** The world after [p.select_axis(axis)]. *)
Lemma JogDialPage_select_axis_returns w p pg sel axis l9 l10 l11 :
  pages w !! p = Some pg -> class pg = JogDialPage sel ->
  led_states (state w) !! 9%nat = Some l9 ->
  led_states (state w) !! 10%nat = Some l10 ->
  led_states (state w) !! 11%nat = Some l11 ->
  JogDialPage_select_axis p axis w =
  Returns tt
    {| state :=
         set_led_states
           (<[11%nat := LedState.set_off_color (axis_color (toggle_axis sel axis) 2) l11]>
              (<[10%nat := LedState.set_off_color (axis_color (toggle_axis sel axis) 1) l10]>
                 (<[9%nat := LedState.set_off_color (axis_color (toggle_axis sel axis) 0) l9]>
                    (led_states (state w))))) (state w);
       pages := <[p := Page_set_class (JogDialPage (toggle_axis sel axis)) pg]> (pages w);
       trace := trace w |}.
Proof.
  intros Hp Hc H9 H10 H11.
  pose proof (lookup_lt_Some _ _ _ Hp) as Hlt.
  set (sel' := toggle_axis sel axis).
  set (pg' := Page_set_class (JogDialPage sel') pg).
  assert (forall s t, get_selected_axis p
            {| state := s; pages := <[p := pg']> (pages w); trace := t |}
          = Returns sel' {| state := s; pages := <[p := pg']> (pages w); trace := t |})
    as Hget.
  { intros s t. apply (get_selected_axis_returns _ p pg'); [|done].
    cbn. by apply list_lookup_insert_eq. }
  unfold JogDialPage_select_axis.
  rewrite (bind_returns _ _ _ _ _ (get_selected_axis_returns _ _ _ _ Hp Hc)).
  rewrite (bind_returns _ _ _ tt (with_pages (<[p := pg']> (pages w)) w)).
  2: { subst pg' sel'. unfold toggle_axis.
       destruct (axis_is sel axis); by eapply set_selected_axis_returns. }
  unfold with_pages. rewrite (bind_returns _ _ _ _ _ (Hget _ _)).
  rewrite (bind_returns _ _ _ tt
    {| state := set_led_states
                  (<[9%nat := LedState.set_off_color (axis_color sel' 0) l9]>
                     (led_states (state w))) (state w);
       pages := <[p := pg']> (pages w); trace := trace w |}).
  2: { unfold axis_color. destruct (axis_is sel' 0);
         by rewrite (update_led_returns _ 9%nat l9). }
  rewrite (bind_returns _ _ _ _ _ (Hget _ _)).
  rewrite (bind_returns _ _ _ tt
    {| state := set_led_states
                  (<[10%nat := LedState.set_off_color (axis_color sel' 1) l10]>
                     (<[9%nat := LedState.set_off_color (axis_color sel' 0) l9]>
                        (led_states (state w)))) (state w);
       pages := <[p := pg']> (pages w); trace := trace w |}).
  2: { unfold axis_color. destruct (axis_is sel' 1);
         by rewrite (update_led_returns _ 10%nat l10)
           by (cbn; by rewrite list_lookup_insert_ne). }
  rewrite (bind_returns _ _ _ _ _ (Hget _ _)).
  unfold axis_color. destruct (axis_is sel' 2);
    by rewrite (update_led_returns _ 11%nat l11)
      by (cbn; by rewrite !list_lookup_insert_ne).
Qed.

Lemma select_axis_sequence p axes : forall w pg sel0,
  pages w !! p = Some pg -> class pg = JogDialPage sel0 ->
  length (led_states (state w)) = 12%nat ->
  forallb valid_axis axes = true ->
  exists w' pg',
    for_each axes (JogDialPage_select_axis p) w = Returns tt w'
    /\ pages w' !! p = Some pg'
    /\ class pg' = JogDialPage (fold_left toggle_axis axes sel0)
    /\ length (led_states (state w')) = 12%nat
    /\ (axes <> [] ->
        led_off_color w' 9 = Some (axis_color (fold_left toggle_axis axes sel0) 0)
        /\ led_off_color w' 10 = Some (axis_color (fold_left toggle_axis axes sel0) 1)
        /\ led_off_color w' 11 = Some (axis_color (fold_left toggle_axis axes sel0) 2)).
Proof.
  induction axes as [|a rest IH]; intros w pg sel0 Hp Hc Hlen Hvalid.
  - exists w, pg. cbn. by repeat split.
  - cbn in Hvalid. apply andb_prop in Hvalid as [Ha Hrest].
    pose proof (lookup_lt_Some _ _ _ Hp) as Hlt.
    destruct (lookup_lt_is_Some_2 (led_states (state w)) 9) as [l9 H9]; [lia|].
    destruct (lookup_lt_is_Some_2 (led_states (state w)) 10) as [l10 H10]; [lia|].
    destruct (lookup_lt_is_Some_2 (led_states (state w)) 11) as [l11 H11]; [lia|].
    cbn [for_each fold_left].
    rewrite (bind_returns _ _ _ _ _
               (JogDialPage_select_axis_returns _ _ _ _ a _ _ _ Hp Hc H9 H10 H11)).
    match goal with
    | |- context [for_each rest _ ?w1] =>
        edestruct (IH w1) as (w' & pg' & Hrun & Hp' & Hc' & Hlen' & Hleds);
          [| | |exact Hrest|]
    end.
    { cbn. by apply list_lookup_insert_eq. }
    { reflexivity. }
    { cbn. by rewrite !length_insert. }
    exists w', pg'. split; [exact Hrun|]. split; [exact Hp'|]. split; [exact Hc'|].
    split; [exact Hlen'|]. intros _.
    destruct rest as [|b rest']; [|apply Hleds; done].
    cbn in Hrun. injection Hrun as <-. unfold led_off_color. cbn.
    rewrite list_lookup_insert_ne by done. rewrite list_lookup_insert_ne by done.
    rewrite list_lookup_insert_eq by lia.
    rewrite list_lookup_insert_ne by done.
    rewrite list_lookup_insert_eq by (rewrite length_insert; lia).
    rewrite list_lookup_insert_eq by (rewrite !length_insert; lia).
    done.
Qed.

(** C9. After any sequence of [select_axis] calls with axes among X, Y, Z
    the page holds one selection, which is none or one of X, Y, Z; a call
    with the selected axis clears the selection, a call with another axis
    selects that one instead; and after the last call the off-colours of
    indicators 9, 10, 11 are the highlight for the selected axis and the
    neutral colour for the two (or three) others. *)
Theorem JogDialPage_select_axis_exclusive w p pg sel0 axes :
  pages w !! p = Some pg -> class pg = JogDialPage sel0 ->
  length (led_states (state w)) = 12%nat ->
  valid_selection sel0 = true ->
  forallb valid_axis axes = true ->
  exists w' pg' sel,
    for_each axes (JogDialPage_select_axis p) w = Returns tt w'
    /\ pages w' !! p = Some pg' /\ class pg' = JogDialPage sel
    /\ sel = fold_left toggle_axis axes sel0
    /\ valid_selection sel = true
    /\ (forall a, toggle_axis (Some a) a = None)
    /\ (forall s a, s <> Some a -> toggle_axis s a = Some a)
    /\ (axes <> [] ->
        forall n : nat, (n < 3)%nat ->
          led_off_color w' (9 + n)
          = Some (if bool_decide (sel = Some (Z.of_nat n)) then highlight else neutral)).
Proof.
  intros Hp Hc Hlen Hsel Haxes.
  destruct (select_axis_sequence p axes w pg sel0 Hp Hc Hlen Haxes)
    as (w' & pg' & Hrun & Hp' & Hc' & _ & Hleds).
  exists w', pg', (fold_left toggle_axis axes sel0).
  split; [exact Hrun|]. split; [exact Hp'|]. split; [exact Hc'|]. split; [done|].
  split.
  { clear -Hsel Haxes. revert sel0 Hsel.
    induction axes as [|a rest IH]; intros sel0 Hsel; [done|].
    cbn in *. apply andb_prop in Haxes as [Ha Hrest].
    apply IH; [done|]. by apply toggle_axis_valid. }
  split.
  { intros a. unfold toggle_axis, axis_is. by rewrite Z.eqb_refl. }
  split.
  { intros s a Hne. unfold toggle_axis.
    destruct (axis_is s a) eqn:E; [|done]. by apply axis_is_Some in E. }
  intros Hne n Hn. destruct (Hleds Hne) as (H9 & H10 & H11).
  assert (forall s k, axis_color s k
            = if bool_decide (s = Some k) then highlight else neutral) as Hcol.
  { intros s k. unfold axis_color. destruct (axis_is s k) eqn:E.
    - apply axis_is_Some in E. by rewrite bool_decide_eq_true_2.
    - rewrite bool_decide_eq_false_2; [done|].
      intros Heq. apply axis_is_Some in Heq. congruence. }
  destruct n as [|[|[|n]]]; [| | |lia]; cbn [Nat.add Z.of_nat];
    rewrite <- Hcol; assumption.
Qed.

Lemma JogDialPage_select_axis_exclusive_witness :
  exists w' pg' sel,
    for_each [0; 2; 2; 1] (JogDialPage_select_axis jog_dial_page_id) jogging_Y
    = Returns tt w'
    /\ pages w' !! jog_dial_page_id = Some pg' /\ class pg' = JogDialPage sel
    /\ sel = Some 1
    /\ valid_selection sel = true
    /\ (forall a, toggle_axis (Some a) a = None)
    /\ (forall s a, s <> Some a -> toggle_axis s a = Some a)
    /\ ([0; 2; 2; 1] <> [] ->
        forall n : nat, (n < 3)%nat ->
          led_off_color w' (9 + n)
          = Some (if bool_decide (sel = Some (Z.of_nat n)) then highlight else neutral)).
Proof.
  refine (JogDialPage_select_axis_exclusive jogging_Y jog_dial_page_id _ (Some 1)
            [0; 2; 2; 1] _ _ _ _ _); reflexivity.
Defined.

(** ** Page switches *)

Lemma activated_world_state w p pg :
  pages w !! p = Some pg ->
  state (activated_world p w)
  = set_led_states (activated_leds (key_settings pg) (led_states (state w))) (state w).
Proof. unfold activated_world. by intros ->. Qed.

Lemma activated_world_trace w p pg :
  pages w !! p = Some pg ->
  trace (activated_world p w) = trace w ++ [call_activate p; display_root_group p].
Proof. unfold activated_world. by intros ->. Qed.

Lemma activated_world_pages w p pg :
  pages w !! p = Some pg ->
  pages (activated_world p w) = <[p := activated_page w pg]> (pages w).
Proof. unfold activated_world. by intros ->. Qed.

Lemma deactivated_world_pages w p pg :
  pages w !! p = Some pg ->
  pages (deactivated_world p w) = <[p := Page_set_main_group None pg]> (pages w).
Proof. unfold deactivated_world. by intros ->. Qed.

Lemma deactivated_world_state w p : state (deactivated_world p w) = state w.
Proof. unfold deactivated_world. by destruct (pages w !! p). Qed.

Lemma deactivated_world_trace w p pg :
  pages w !! p = Some pg ->
  trace (deactivated_world p w)
  = trace w ++ [call_deactivate p; gc_collect; print_free_memory].
Proof. unfold deactivated_world. by intros ->. Qed.

(** Whether [activate] returns depends on the shape of the world only. *)
Lemma activatable_preserved w w' p :
  length (led_states (state w')) = length (led_states (state w)) ->
  previous_page (state w') = previous_page (state w) ->
  (forall q pg, pages w !! q = Some pg ->
     exists pg', pages w' !! q = Some pg'
       /\ key_settings pg' = key_settings pg
       /\ is_selection (class pg') = is_selection (class pg)
       /\ title pg' = title pg) ->
  activatable w p = true -> activatable w' p = true.
Proof.
  intros Hleds Hprev Hpages. unfold activatable.
  rewrite Hleds, Hprev.
  destruct (pages w !! p) as [pg|] eqn:Hp; [|by rewrite andb_false_r].
  destruct (Hpages p pg Hp) as (pg' & -> & -> & Hsel & _).
  destruct (class pg), (class pg'); try done.
  destruct (previous_page (state w)) as [q|]; [|done].
  destruct (pages w !! q) as [pgq|] eqn:Hq; [|by rewrite !andb_false_r].
  by destruct (Hpages q pgq Hq) as (pgq' & -> & _ & _ & ->).
Qed.

Lemma activatable_after_deactivate w cp p s' :
  led_states s' = led_states (state w) ->
  previous_page s' = previous_page (state w) ->
  activatable w p = true ->
  activatable (with_state s' (deactivated_world cp w)) p = true.
Proof.
  intros Hleds Hprev. apply activatable_preserved; cbn.
  - by rewrite Hleds.
  - done.
  - intros q pg Hp. unfold deactivated_world.
    destruct (pages w !! cp) as [pgc|] eqn:Hcp; cbn; [|eauto].
    destruct (decide (cp = q)) as [->|Hne].
    + rewrite list_lookup_insert_eq by (by eapply lookup_lt_Some).
      replace pgc with pg by congruence. eauto.
    + rewrite list_lookup_insert_ne by done. eauto.
Qed.

Lemma activatable_after_activate w t p :
  activatable w p = true -> activatable (activated_world t w) p = true.
Proof.
  unfold activated_world. destruct (pages w !! t) as [pgt|] eqn:Ht; [|done].
  apply activatable_preserved; cbn.
  - by rewrite length_activated_leds.
  - done.
  - intros q pg Hp. destruct (decide (t = q)) as [->|Hne].
    + rewrite list_lookup_insert_eq by (by eapply lookup_lt_Some).
      replace pgt with pg by congruence.
      eexists. split; [done|]. unfold activated_page. by destruct (class pg).
    + rewrite list_lookup_insert_ne by done. eauto.
Qed.

(** Leaving the current page for another one. *)
Lemma switch_returns w cp pgc target g :
  current_page (state w) = Some cp ->
  pages w !! cp = Some pgc ->
  current_page (g (state w)) = Some target ->
  activatable (with_state (g (state w)) (deactivated_world cp w)) target = true ->
  (current_page_deactivate ;; modify_state g ;; current_page_activate) w
  = Returns tt (switched cp target g w).
Proof.
  intros Hcur Hcp Htarget Hact.
  rewrite (bind_returns _ _ _ tt (deactivated_world cp w)).
  2: { unfold current_page_deactivate, bind, get_state. rewrite Hcur. cbn.
       by eapply Page_deactivate_returns. }
  unfold bind at 1, modify_state. rewrite deactivated_world_state.
  unfold current_page_activate, bind, get_state. cbn. rewrite Htarget. cbn.
  by apply Page_activate_returns.
Qed.

Lemma switched_current_page cp target g w pgc pgt :
  pages w !! cp = Some pgc -> pages w !! target = Some pgt ->
  current_page (state (switched cp target g w)) = current_page (g (state w)).
Proof.
  intros Hcp Ht. unfold switched.
  destruct (lookup_lt_is_Some_2 (pages (with_state (g (state w)) (deactivated_world cp w)))
              target) as [pg' Hpg'].
  { cbn. rewrite (deactivated_world_pages _ _ _ Hcp), length_insert.
    by eapply lookup_lt_Some. }
  by rewrite (activated_world_state _ _ _ Hpg').
Qed.

Lemma switched_wake_to_page cp target g w pgc pgt :
  pages w !! cp = Some pgc -> pages w !! target = Some pgt ->
  wake_to_page (state (switched cp target g w)) = wake_to_page (g (state w)).
Proof.
  intros Hcp Ht. unfold switched.
  destruct (lookup_lt_is_Some_2 (pages (with_state (g (state w)) (deactivated_world cp w)))
              target) as [pg' Hpg'].
  { cbn. rewrite (deactivated_world_pages _ _ _ Hcp), length_insert.
    by eapply lookup_lt_Some. }
  by rewrite (activated_world_state _ _ _ Hpg').
Qed.

Lemma switched_trace cp target g w pgc pgt :
  pages w !! cp = Some pgc -> pages w !! target = Some pgt ->
  trace (switched cp target g w)
  = trace w ++ [call_deactivate cp; gc_collect; print_free_memory;
                call_activate target; display_root_group target].
Proof.
  intros Hcp Ht. unfold switched.
  destruct (lookup_lt_is_Some_2 (pages (with_state (g (state w)) (deactivated_world cp w)))
              target) as [pg' Hpg'].
  { cbn. rewrite (deactivated_world_pages _ _ _ Hcp), length_insert.
    by eapply lookup_lt_Some. }
  rewrite (activated_world_trace _ _ _ Hpg'). cbn.
  rewrite (deactivated_world_trace _ _ _ Hcp). by rewrite <- app_assoc.
Qed.

(** ** The idle test *)

Lemma option_PageId_eqb_ne (a b : PageId) : a <> b -> option_PageId_eqb (Some a) (Some b) = false.
Proof. intros Hne. cbn. by apply Nat.eqb_neq. Qed.

Lemma sleep_check_sleeps w now cp sp pgc last :
  current_page (state w) = Some cp -> sleep_page (state w) = Some sp -> cp <> sp ->
  pages w !! cp = Some pgc ->
  last_interaction (state w) = Some last ->
  sleep_threshold (state w) < now - last ->
  activatable w sp = true ->
  sleep_check now w = Returns tt (fell_asleep cp sp w).
Proof.
  intros Hcur Hsp Hne Hcp Hlast Hlt Hact.
  unfold sleep_check, bind at 1, get_state.
  rewrite Hcur, Hsp, option_PageId_eqb_ne by done. cbn [negb]. rewrite Hlast.
  replace (now - last >? sleep_time (state w) * 1000000000) with true
    by (symmetry; apply Z.gtb_lt; exact Hlt).
  unfold fell_asleep.
  rewrite <- (switch_returns w cp pgc sp); try done.
  by apply activatable_after_deactivate.
Qed.

Lemma sleep_check_stays_awake w now last :
  last_interaction (state w) = Some last ->
  now - last <= sleep_threshold (state w) ->
  sleep_check now w = Returns tt w.
Proof.
  intros Hlast Hle. unfold sleep_check, bind, get_state.
  destruct (negb _); [|done]. rewrite Hlast.
  replace (now - last >? sleep_time (state w) * 1000000000) with false; [done|].
  symmetry. rewrite Z.gtb_ltb. apply Z.ltb_ge. exact Hle.
Qed.

Lemma event_loop_iteration_split inp v w v1 w1 :
  forward_events inp v w = Returns v1 w1 ->
  event_loop_iteration inp v w
  = match sleep_check (current_time inp) w1 with
    | Returns _ w' => Returns v1 w'
    | Raises e => Raises e
    end.
Proof. intros H. unfold event_loop_iteration, bind. rewrite H. done. Qed.

(** ** Waking up *)

Lemma activatable_logged es w p : activatable (logged es w) p = activatable w p.
Proof. done. Qed.

Lemma SleepPage_wake_returns w self sp pgs target :
  current_page (state w) = Some sp -> pages w !! sp = Some pgs ->
  wake_to_page (state w) = Some target -> activatable w target = true ->
  SleepPage_wake self w = Returns tt (woken sp target w).
Proof.
  intros Hcur Hsp Hwake Hact. unfold SleepPage_wake, woken.
  apply (switch_returns w sp pgs target); try done.
  by apply activatable_after_deactivate.
Qed.


Lemma activatable_page w p : activatable w p = true -> exists pg, pages w !! p = Some pg.
Proof.
  unfold activatable. destruct (pages w !! p); [eauto|]. by rewrite andb_false_r.
Qed.

Lemma fell_asleep_shape cp sp w pgc pgs p :
  pages w !! cp = Some pgc -> pages w !! sp = Some pgs -> class pgs = SleepPage ->
  current_page (state w) = Some cp -> sleep_page (state w) = Some sp ->
  activatable w p = true ->
  current_page (state (fell_asleep cp sp w)) = Some sp
  /\ wake_to_page (state (fell_asleep cp sp w)) = Some cp
  /\ (exists pgs', pages (fell_asleep cp sp w) !! sp = Some pgs' /\ class pgs' = SleepPage)
  /\ activatable (fell_asleep cp sp w) p = true.
Proof.
  intros Hcp Hsp Hclass Hcur Hsleep Hact. unfold fell_asleep.
  rewrite (switched_current_page _ _ _ _ _ _ Hcp Hsp).
  rewrite (switched_wake_to_page _ _ _ _ _ _ Hcp Hsp). cbn.
  split; [done|]. split; [done|]. split.
  - unfold switched.
    assert (exists pg1, pages (with_state
              (set_current_page (sleep_page (state w))
                 (set_wake_to_page (current_page (state w)) (state w)))
              (deactivated_world cp w)) !! sp = Some pg1 /\ class pg1 = SleepPage)
      as (pg1 & Hpg1 & Hc1).
    { cbn. rewrite (deactivated_world_pages _ _ _ Hcp).
      destruct (decide (cp = sp)) as [->|Hne].
      - rewrite list_lookup_insert_eq by (by eapply lookup_lt_Some).
        eexists. split; [done|]. cbn. congruence.
      - rewrite list_lookup_insert_ne by done. eauto. }
    rewrite (activated_world_pages _ _ _ Hpg1).
    rewrite list_lookup_insert_eq.
    + eexists. split; [done|]. unfold activated_page. by rewrite Hc1.
    + by eapply lookup_lt_Some.
  - unfold switched. apply activatable_after_activate.
    by apply activatable_after_deactivate.
Qed.

(** The two events that wake, dispatched to the sleep page. *)
Lemma sleep_page_wake_events w sp pgs target :
  current_page (state w) = Some sp -> pages w !! sp = Some pgs ->
  class pgs = SleepPage ->
  wake_to_page (state w) = Some target -> activatable w target = true ->
  (Page_handle_encoder_press sp true w
   = Returns tt (woken sp target (logged [call_handle_encoder_press sp true] w)))
  /\ (forall d a, Page_handle_encoder_event sp d a w
      = Returns tt (woken sp target (logged [call_handle_encoder_event sp d a] w))).
Proof.
  intros Hcur Hsp Hclass Hwake Hact. split; [|intros d a].
  - unfold Page_handle_encoder_press, bind at 1, emit.
    rewrite (bind_returns _ _ _ pgs (logged [call_handle_encoder_press sp true] w))
      by (by apply get_page_returns).
    rewrite Hclass. unfold SleepPage_handle_encoder_press.
    by apply (SleepPage_wake_returns _ sp sp pgs).
  - unfold Page_handle_encoder_event, bind at 1, emit.
    rewrite (bind_returns _ _ _ pgs (logged [call_handle_encoder_event sp d a] w))
      by (by apply get_page_returns).
    rewrite Hclass. unfold SleepPage_handle_encoder_event.
    by apply (SleepPage_wake_returns _ sp sp pgs).
Qed.

(** ** The selection page *)

Lemma get_selected_page_returns w p pg sp lbl :
  pages w !! p = Some pg -> class pg = SelectionPage sp lbl ->
  get_selected_page p w = Returns sp w.
Proof.
  intros Hp Hc. unfold get_selected_page, bind, get_page. by rewrite Hp, Hc.
Qed.

(** An encoder press dispatched to the selection page. *)
Lemma selection_page_press_returns w sel pgsel pick lbl :
  current_page (state w) = Some sel -> selection_page (state w) = Some sel ->
  pages w !! sel = Some pgsel -> class pgsel = SelectionPage (Some pick) lbl ->
  activatable w pick = true ->
  Page_handle_encoder_press sel true w
  = Returns tt (committed sel pick (logged [call_handle_encoder_press sel true] w)).
Proof.
  intros Hcur Hselp Hsel Hclass Hact.
  pose proof (lookup_lt_Some _ _ _ Hsel) as Hlt.
  set (w0 := logged [call_handle_encoder_press sel true] w).
  unfold Page_handle_encoder_press, bind at 1, emit. fold w0.
  rewrite (bind_returns _ _ _ pgsel w0) by (by apply get_page_returns).
  rewrite Hclass. unfold SelectionPage_handle_encoder_press, bind at 1, get_state.
  cbn [state w0 logged]. rewrite Hselp. cbn [andb truthy].
  rewrite (bind_returns _ _ _ tt (deactivated_world sel w0)).
  2: { unfold current_page_deactivate, bind, get_state. cbn [state w0 logged].
       rewrite Hcur. cbn. by eapply (Page_deactivate_returns w0). }
  rewrite (bind_returns _ _ _ (Some pick) (deactivated_world sel w0)).
  2: { eapply (get_selected_page_returns _ _ (Page_set_main_group None pgsel)); [|done].
       rewrite (deactivated_world_pages w0 sel pgsel) by done.
       by apply list_lookup_insert_eq. }
  unfold bind at 1, modify_state. rewrite deactivated_world_state.
  unfold current_page_activate, bind, get_state. cbn.
  apply Page_activate_returns. by apply activatable_after_deactivate.
Qed.

(** ** Activation of the jog-dial page *)

Lemma jog_dial_inert w p pg :
  pages w !! p = Some pg -> class pg = JogDialPage None -> axis_cleared p w.
Proof.
  intros Hp Hc. split; [eauto|]. intros d a.
  unfold Page_handle_jog_event, bind at 1, emit.
  rewrite (bind_returns _ _ _ pg (logged [call_handle_jog_event p d a] w))
    by (by apply get_page_returns).
  rewrite Hc. unfold JogDialPage_handle_jog_event.
  rewrite (jog_loop p pg None []); try done.
  - replace (concat (replicate (Z.to_nat (Z.abs d)) [])) with (@nil Event).
    + by rewrite logged_nil.
    + generalize (Z.to_nat (Z.abs d)). intros n. by induction n.
  - intros w'. rewrite jog_action_none. by rewrite logged_nil.
Qed.

Lemma activated_world_axis_cleared w p pg sel :
  pages w !! p = Some pg -> class pg = JogDialPage sel ->
  axis_cleared p (activated_world p w).
Proof.
  intros Hp Hc. apply (jog_dial_inert _ _ (activated_page w pg)).
  - rewrite (activated_world_pages _ _ _ Hp).
    apply list_lookup_insert_eq. by eapply lookup_lt_Some.
  - unfold activated_page. by rewrite Hc.
Qed.

Lemma switched_axis_cleared cp p g w pgc pg sel :
  pages w !! cp = Some pgc -> pages w !! p = Some pg -> class pg = JogDialPage sel ->
  axis_cleared p (switched cp p g w).
Proof.
  intros Hcp Hp Hc. unfold switched.
  destruct (decide (cp = p)) as [->|Hne].
  - apply (activated_world_axis_cleared _ _ (Page_set_main_group None pg) sel).
    + cbn. rewrite (deactivated_world_pages _ _ _ Hcp).
      rewrite list_lookup_insert_eq by (by eapply lookup_lt_Some). congruence.
    + done.
  - apply (activated_world_axis_cleared _ _ pg sel); [|done].
    cbn. rewrite (deactivated_world_pages _ _ _ Hcp).
    by rewrite list_lookup_insert_ne.
Qed.

Lemma add_page_first w p :
  current_page (state w) = None -> activatable w p = true ->
  add_page p w
  = Returns tt (activated_world p
                  (with_state (set_current_page (Some p)
                                 (set_page_stack (page_stack (state w) ++ [p]) (state w)))
                     w)).
Proof.
  intros Hcur Hact. unfold add_page, bind, modify_state, get_state. cbn.
  rewrite Hcur. unfold current_page_activate, bind, get_state. cbn.
  apply Page_activate_returns. revert Hact. apply activatable_preserved; eauto.
Qed.

(** C10. Every activation of the jog-dial page leaves it with no axis
    selected, whatever was selected before, so that jog rotation right
    after it sends nothing: for the call of [activate] itself and for the
    three ways the page is entered, as the first page added, as the pick
    committed by the selection page, and as the page woken to. *)
Theorem JogDialPage_activate_clears_axis w p pg sel :
  pages w !! p = Some pg -> class pg = JogDialPage sel -> activatable w p = true ->
  (exists w', Page_activate p w = Returns tt w' /\ axis_cleared p w')
  /\ (current_page (state w) = None ->
      exists w', add_page p w = Returns tt w'
        /\ current_page (state w') = Some p /\ axis_cleared p w')
  /\ (forall s pgsel lbl,
        current_page (state w) = Some s -> selection_page (state w) = Some s ->
        pages w !! s = Some pgsel -> class pgsel = SelectionPage (Some p) lbl ->
        exists w', Page_handle_encoder_press s true w = Returns tt w'
          /\ current_page (state w') = Some p /\ axis_cleared p w')
  /\ (forall sp pgs,
        current_page (state w) = Some sp -> pages w !! sp = Some pgs ->
        class pgs = SleepPage -> wake_to_page (state w) = Some p ->
        (exists w', Page_handle_encoder_press sp true w = Returns tt w'
           /\ current_page (state w') = Some p /\ axis_cleared p w')
        /\ (forall change_rel absolute_value, exists w',
              Page_handle_encoder_event sp change_rel absolute_value w = Returns tt w'
              /\ current_page (state w') = Some p /\ axis_cleared p w')).
Proof.
  intros Hp Hc Hact. split; [|split; [|split]].
  - eexists. split; [by apply Page_activate_returns|].
    by apply (activated_world_axis_cleared w p pg sel).
  - intros Hcur. eexists. split; [by apply add_page_first|]. split.
    + by erewrite activated_world_state.
    + by apply (activated_world_axis_cleared _ p pg sel).
  - intros s pgsel lbl Hcur Hselp Hs Hclass. eexists.
    split; [by apply (selection_page_press_returns w s pgsel p lbl)|].
    unfold committed. split.
    + by rewrite (switched_current_page s p _ _ pgsel pg).
    + by apply (switched_axis_cleared s p _ _ pgsel pg sel).
  - intros sp pgs Hcur Hsp Hclass Hwake.
    destruct (sleep_page_wake_events w sp pgs p Hcur Hsp Hclass Hwake Hact)
      as [Hpress Hrot].
    split; [|intros d a]; eexists; (split; [first [exact Hpress|apply Hrot]|]);
      unfold woken; (split;
        [by rewrite (switched_current_page sp p _ _ pgs pg)
        |by apply (switched_axis_cleared sp p _ _ pgs pg sel)]).
Qed.

Lemma JogDialPage_activate_clears_axis_witness :
  (exists pg, pages jogging_Y !! jog_dial_page_id = Some pg
     /\ class pg = JogDialPage (Some 1))
  /\ (exists w', Page_activate jog_dial_page_id jogging_Y = Returns tt w'
        /\ axis_cleared jog_dial_page_id w')
  /\ (exists w', Page_handle_encoder_press selection_page_id true selecting_from_jog
                 = Returns tt w'
        /\ current_page (state w') = Some jog_dial_page_id
        /\ axis_cleared jog_dial_page_id w')
  /\ (forall change_rel absolute_value, exists w',
        Page_handle_encoder_event sleep_page_id change_rel absolute_value
          sleeping_from_jog = Returns tt w'
        /\ current_page (state w') = Some jog_dial_page_id
        /\ axis_cleared jog_dial_page_id w').
Proof.
  split; [eexists; split; reflexivity|]. split; [|split].
  - exact (proj1 (JogDialPage_activate_clears_axis jogging_Y jog_dial_page_id _ (Some 1)
                    eq_refl eq_refl eq_refl)).
  - exact (proj1 (proj2 (proj2
             (JogDialPage_activate_clears_axis selecting_from_jog jog_dial_page_id _
                (Some 1) eq_refl eq_refl eq_refl)))
             selection_page_id _ _ eq_refl eq_refl eq_refl eq_refl).
  - exact (proj2 (proj2 (proj2 (proj2
             (JogDialPage_activate_clears_axis sleeping_from_jog jog_dial_page_id _
                (Some 1) eq_refl eq_refl eq_refl)))
             sleep_page_id _ eq_refl eq_refl eq_refl eq_refl)).
Defined.

(** ** The encoder switch in the dispatcher *)

(** [handle_encoder_press(False)] changes nothing on any class of page. *)
Lemma encoder_release_is_noop w p pg :
  pages w !! p = Some pg ->
  Page_handle_encoder_press p false w
  = Returns tt (logged [call_handle_encoder_press p false] w).
Proof.
  intros Hp. unfold Page_handle_encoder_press, bind at 1, emit.
  rewrite (bind_returns _ _ _ pg (logged [call_handle_encoder_press p false] w))
    by (by apply get_page_returns).
  by destruct (class pg).
Qed.

Lemma on_current_page_returns {w} cp m :
  current_page (state w) = Some cp -> on_current_page m w = m cp w.
Proof. intros H. unfold on_current_page, bind, get_state. by rewrite H. Qed.

Lemma poll_quiet inp v w :
  key_event inp = None -> jog_position inp = last_jog_pos v ->
  encoder inp = last_encoder_pos v ->
  forall held w1, poll_encoder_switch inp v w = Returns held w1 ->
  forward_events inp v w
  = Returns {| last_jog_pos := last_jog_pos v; last_encoder_pos := last_encoder_pos v;
               encoder_held := held |} w1.
Proof.
  intros Hk Hj He held w1 Hpoll. unfold forward_events.
  rewrite (bind_returns _ _ _ _ _ Hpoll).
  unfold poll_keys, poll_jog, poll_encoder. rewrite Hk, Hj, He, !Z.eqb_refl. done.
Qed.

(** ** Key events *)

(** C6 (amended). For a slot whose trigger mode is NONE, a pressed key
    event changes nothing: no indicator, no callback, no log entry.  A
    released key event is not gated by the trigger mode: it calls the
    release callback if one is bound and then sets the mode of the slot's
    indicator to OFF, which sets the indicator's event. *)
Theorem none_slot_ignores_press_only w p pg (k : nat) ks :
  pages w !! p = Some pg -> key_settings pg !! k = Some ks ->
  KeySettings.mode ks = NONE ->
  DisplayPage_handle_key_event p
    {| KeyEvent.key_number := Z.of_nat k; KeyEvent.pressed := true |} w = Returns tt w
  /\ (forall l,
        KeySettings.release_callback ks = None ->
        led_states (state w) !! k = Some l ->
        DisplayPage_handle_key_event p
          {| KeyEvent.key_number := Z.of_nat k; KeyEvent.pressed := false |} w
        = Returns tt
            (with_state (set_led_states
                           (<[k := LedState.set_mode OFF l]> (led_states (state w)))
                           (state w)) w))
  /\ (forall cb w1 l1,
        KeySettings.release_callback ks = Some cb ->
        run_callback cb (logged [call_release_callback (Z.of_nat k)] w) = Returns tt w1 ->
        led_states (state w1) !! k = Some l1 ->
        DisplayPage_handle_key_event p
          {| KeyEvent.key_number := Z.of_nat k; KeyEvent.pressed := false |} w
        = Returns tt
            (with_state (set_led_states
                           (<[k := LedState.set_mode OFF l1]> (led_states (state w1)))
                           (state w1)) w1)).
Proof.
  intros Hp Hk Hmode.
  pose proof (key_setting_returns w p pg k ks Hp Hk) as Hks.
  split; [|split].
  - unfold DisplayPage_handle_key_event. cbn [KeyEvent.key_number KeyEvent.pressed negb].
    unfold bind at 1. unfold bind at 1. rewrite Hks, Hmode. reflexivity.
  - intros l Hcb Hl. unfold DisplayPage_handle_key_event.
    cbn [KeyEvent.key_number KeyEvent.pressed negb].
    unfold bind at 1, ret at 1. rewrite (bind_returns _ _ _ _ _ Hks). rewrite Hcb.
    unfold bind, ret. by apply update_led_returns.
  - intros cb w1 l1 Hcb Hrun Hl1. unfold DisplayPage_handle_key_event.
    cbn [KeyEvent.key_number KeyEvent.pressed negb].
    unfold bind at 1, ret at 1. rewrite (bind_returns _ _ _ _ _ Hks). rewrite Hcb.
    rewrite (bind_returns _ _ _ tt w1).
    + by apply update_led_returns.
    + unfold bind at 1, emit. exact Hrun.
Qed.

Lemma none_slot_ignores_press_only_witness :
  DisplayPage_handle_key_event job_control_page_id
    {| KeyEvent.key_number := 3; KeyEvent.pressed := true |} started
  = Returns tt started.
Proof.
  exact (proj1 (none_slot_ignores_press_only started job_control_page_id _ 3 _
                  eq_refl eq_refl eq_refl)).
Defined.

(** C6 as stated fails on released key events.  Slot 3 of Job Control has
    trigger mode NONE; once the animators have cleared the events, a
    release of key 3 changes the slot's [LedState]; and with a release
    callback bound to that slot, the release calls it. *)
Lemma none_slot_release_is_not_suppressed :
  (exists pg ks, pages started !! job_control_page_id = Some pg
     /\ key_settings pg !! 3%nat = Some ks /\ KeySettings.mode ks = NONE)
  /\ (exists w',
        DisplayPage_handle_key_event job_control_page_id
          {| KeyEvent.key_number := 3; KeyEvent.pressed := false |} (rendered started)
        = Returns tt w'
        /\ LedState.event <$> led_states (state (rendered started)) !! 3%nat = Some false
        /\ LedState.event <$> led_states (state w') !! 3%nat = Some true)
  /\ (exists pg ks, pages started_with_release_on_none !! job_control_page_id = Some pg
        /\ key_settings pg !! 3%nat = Some ks /\ KeySettings.mode ks = NONE)
  /\ (exists w',
        DisplayPage_handle_key_event job_control_page_id
          {| KeyEvent.key_number := 3; KeyEvent.pressed := false |}
          started_with_release_on_none
        = Returns tt w'
        /\ trace w' = [call_release_callback 3; keyboard_release_all]).
Proof.
  split; [eexists _, _; repeat split|].
  split; [eexists; repeat split|].
  split; [eexists _, _; repeat split|].
  eexists; repeat split.
Qed.

(** ** Rotation on the selection page *)

Lemma list_index_lookup x l i :
  list_index x l = Some i -> l !! i = Some x /\ (i < length l)%nat.
Proof.
  revert i. induction l as [|y l IH]; intros i; cbn; [done|].
  destruct (Nat.eqb_spec y x) as [->|Hne].
  - intros [= <-]. split; [done|lia].
  - destruct (list_index x l) as [n|]; [|done]. cbn. intros [= <-].
    destruct (IH n eq_refl) as [Hl Hlt]. split; [done|lia].
Qed.

(** The index arithmetic is one step modulo the length. *)
Lemma step_index_mod len index change_rel :
  0 <= index < len -> change_rel <> 0 ->
  step_index len index change_rel = (index + Z.sgn change_rel) mod len.
Proof.
  intros Hi Hd. unfold step_index.
  destruct (Z.ltb_spec change_rel 0) as [Hneg|Hnonneg].
  - replace (change_rel >? 0) with false by (symmetry; rewrite Z.gtb_ltb; apply Z.ltb_ge; lia).
    rewrite (Z.sgn_neg change_rel) by lia.
    destruct (Z.ltb_spec (index - 1) 0).
    + replace index with 0 by lia. symmetry.
      rewrite <- (Z_mod_plus_full (0 + -1) 1 len).
      replace (0 + -1 + 1 * len) with (len - 1) by lia.
      apply Z.mod_small. lia.
    + replace (index + -1) with (index - 1) by lia.
      symmetry. apply Z.mod_small. lia.
  - replace (change_rel >? 0) with true by (symmetry; apply Z.gtb_lt; lia).
    rewrite (Z.sgn_pos change_rel) by lia.
    destruct (Z.geb_spec (index + 1) len).
    + replace (index + 1) with len by lia. symmetry. apply Z.mod_same. lia.
    + symmetry. apply Z.mod_small. lia.
Qed.

(** The pick after the index arithmetic. *)
Lemma move_pick_returns w self pg cur lbl i change_rel :
  pages w !! self = Some pg -> class pg = SelectionPage (Some cur) lbl ->
  list_index cur (page_stack (state w)) = Some i ->
  forallb (fun q => (q <? length (pages w))%nat) (page_stack (state w)) = true ->
  change_rel <> 0 ->
  exists q pgq,
    page_stack (state w)
      !! Z.to_nat ((Z.of_nat i + Z.sgn change_rel)
                   mod Z.of_nat (length (page_stack (state w)))) = Some q
    /\ pages w !! q = Some pgq
    /\ SelectionPage_move_pick self change_rel w
       = Returns tt
           (with_pages
              (<[self := Page_set_class (SelectionPage (Some q) lbl) pg]> (pages w)) w).
Proof.
  intros Hp Hc Hidx Hvalid Hd.
  set (len := length (page_stack (state w))).
  set (j := Z.to_nat ((Z.of_nat i + Z.sgn change_rel) mod Z.of_nat len)).
  destruct (list_index_lookup _ _ _ Hidx) as [Hcur Hi]. fold len in Hi.
  assert (0 <= (Z.of_nat i + Z.sgn change_rel) mod Z.of_nat len < Z.of_nat len) as Hj
    by (apply Z.mod_pos_bound; lia).
  assert (j < len)%nat as Hjlt by (subst j; lia).
  destruct (lookup_lt_is_Some_2 (page_stack (state w)) j Hjlt) as [q Hq].
  assert (q < length (pages w))%nat as Hqlt.
  { rewrite forallb_forall in Hvalid. apply Nat.ltb_lt, Hvalid.
    apply list_elem_of_In, list_elem_of_lookup. eauto. }
  destruct (lookup_lt_is_Some_2 (pages w) q Hqlt) as [pgq Hpgq].
  exists q, pgq. split; [done|]. split; [done|].
  unfold SelectionPage_move_pick, bind at 1, get_state.
  rewrite (bind_returns _ _ _ _ _ (get_selected_page_returns _ _ _ _ _ Hp Hc)).
  unfold py_index at 1, bind at 1. rewrite Hidx. unfold ret at 1.
  rewrite step_index_mod by (done || lia). fold len.
  rewrite (bind_returns _ _ _ q w).
  2: { rewrite <- (Z2Nat.id ((Z.of_nat i + Z.sgn change_rel) mod Z.of_nat len)) by lia.
       by apply py_getitem_nat. }
  unfold set_selected_page. run_py. rewrite Hp, Hc. run_py. by rewrite Hp.
Qed.

(** The label follows the pick, if the page picked has a title. *)
Lemma show_pick_result w self pg q lbl pgq :
  pages w !! self = Some pg -> class pg = SelectionPage (Some q) (Some lbl) ->
  pages w !! q = Some pgq ->
  SelectionPage_show_pick self w
  = match title pgq with
    | Some _ =>
        Returns tt
          (with_pages
             (<[self := Page_set_class
                          (SelectionPage (Some q) (Some {| text := title pgq |})) pg]>
                (pages w)) w)
    | None => Raises AttributeError
    end.
Proof.
  intros Hp Hc Hq. unfold SelectionPage_show_pick.
  rewrite (bind_returns _ _ _ _ _ (get_selected_page_returns w self pg _ _ Hp Hc)).
  cbn [deref]. rewrite (bind_returns _ _ _ q w) by done.
  rewrite (bind_returns _ _ _ pgq w) by (by apply get_page_returns).
  rewrite (bind_returns _ _ _ lbl w)
    by (unfold get_selection, bind, get_page; by rewrite Hp, Hc).
  unfold label_with_text. destruct (title pgq) as [t|]; [|done].
  unfold bind at 1, ret. unfold set_selection, bind, get_page, modify_page.
  rewrite Hp, Hc. by rewrite Hp.
Qed.

(** One call of the selection page's [handle_encoder_event]. *)
Lemma selection_rotation_returns w self pg cur lbl i change_rel absolute_value :
  pages w !! self = Some pg -> class pg = SelectionPage (Some cur) (Some lbl) ->
  list_index cur (page_stack (state w)) = Some i ->
  forallb (fun q => (q <? length (pages w))%nat) (page_stack (state w)) = true ->
  change_rel <> 0 ->
  exists q pgq,
    page_stack (state w)
      !! Z.to_nat ((Z.of_nat i + Z.sgn change_rel)
                   mod Z.of_nat (length (page_stack (state w)))) = Some q
    /\ pages w !! q = Some pgq
    /\ SelectionPage_move_pick self change_rel w
       = Returns tt
           (with_pages
              (<[self := Page_set_class (SelectionPage (Some q) (Some lbl)) pg]> (pages w))
              w)
    /\ SelectionPage_handle_encoder_event self change_rel absolute_value w
       = match title pgq with
         | Some _ =>
             Returns tt
               (with_pages
                  (<[self := Page_set_class
                               (SelectionPage (Some q) (Some {| text := title pgq |})) pg]>
                     (pages w)) w)
         | None => Raises AttributeError
         end.
Proof.
  intros Hp Hc Hidx Hvalid Hd.
  destruct (move_pick_returns w self pg cur (Some lbl) i change_rel Hp Hc Hidx Hvalid Hd)
    as (q & pgq & Hq & Hpgq & Hmove).
  exists q, pgq. split; [done|]. split; [done|]. split; [done|].
  pose proof (lookup_lt_Some _ _ _ Hp) as Hself.
  unfold SelectionPage_handle_encoder_event. rewrite (bind_returns _ _ _ _ _ Hmove).
  set (pg1 := Page_set_class (SelectionPage (Some q) (Some lbl)) pg).
  set (w1 := with_pages (<[self := pg1]> (pages w)) w).
  assert (pages w1 !! self = Some pg1) as Hp1 by (by apply list_lookup_insert_eq).
  assert (exists pgq1, pages w1 !! q = Some pgq1 /\ title pgq1 = title pgq)
    as (pgq1 & Hpgq1 & Htitle).
  { destruct (decide (q = self)) as [->|Hne].
    - exists pg1. split; [done|]. by replace pgq with pg by congruence.
    - exists pgq. split; [|done]. cbn. by rewrite list_lookup_insert_ne. }
  rewrite (show_pick_result w1 self pg1 q lbl pgq1 Hp1 eq_refl Hpgq1), Htitle.
  destruct (title pgq); [|done].
  unfold w1, with_pages. cbn. by rewrite list_insert_insert_eq.
Qed.

(** C3. With the tentative pick at index [i] of a page stack of length
    [len], one call of the selection page's [handle_encoder_event] with a
    non-zero delta moves the pick to index [(i + sgn delta) mod len]: one
    step forward for any positive delta, one step back for any negative
    delta, from the last index to 0 and from 0 to the last index.  The
    pick is assigned before the label is touched: the assignment returns
    for every page stack; the call as a whole then sets the label to the
    title of the new pick and returns, or, if that page has no title,
    raises [AttributeError] out of the label's text. *)
Theorem SelectionPage_rotation_moves_one_index w self pg cur lbl i change_rel absolute_value :
  pages w !! self = Some pg -> class pg = SelectionPage (Some cur) (Some lbl) ->
  list_index cur (page_stack (state w)) = Some i ->
  forallb (fun q => (q <? length (pages w))%nat) (page_stack (state w)) = true ->
  change_rel <> 0 ->
  let len := length (page_stack (state w)) in
  let j := Z.to_nat ((Z.of_nat i + Z.sgn change_rel) mod Z.of_nat len) in
  exists q pgq,
    page_stack (state w) !! j = Some q /\ pages w !! q = Some pgq
    /\ SelectionPage_move_pick self change_rel w
       = Returns tt
           (with_pages
              (<[self := Page_set_class (SelectionPage (Some q) (Some lbl)) pg]> (pages w))
              w)
    /\ (is_Some (title pgq) ->
        SelectionPage_handle_encoder_event self change_rel absolute_value w
        = Returns tt
            (with_pages
               (<[self := Page_set_class
                            (SelectionPage (Some q) (Some {| text := title pgq |})) pg]>
                  (pages w)) w))
    /\ (title pgq = None ->
        SelectionPage_handle_encoder_event self change_rel absolute_value w
        = Raises AttributeError)
    /\ (0 < change_rel -> (i + 1 < len)%nat -> j = (i + 1)%nat)
    /\ (0 < change_rel -> (i + 1 = len)%nat -> j = 0%nat)
    /\ (change_rel < 0 -> (0 < i)%nat -> j = (i - 1)%nat)
    /\ (change_rel < 0 -> i = 0%nat -> j = (len - 1)%nat).
Proof.
  intros Hp Hc Hidx Hvalid Hd len j.
  destruct (list_index_lookup _ _ _ Hidx) as [Hcur Hi]. fold len in Hi.
  destruct (selection_rotation_returns w self pg cur lbl i change_rel absolute_value
              Hp Hc Hidx Hvalid Hd) as (q & pgq & Hq & Hpgq & Hmove & Hrun).
  exists q, pgq. split; [exact Hq|]. split; [exact Hpgq|]. split; [exact Hmove|].
  split; [intros [t Ht]; by rewrite Hrun, Ht|].
  split; [intros Ht; by rewrite Hrun, Ht|].
  subst j. repeat split; intros Hs Hcase.
  - rewrite Z.sgn_pos by done. rewrite Z.mod_small by lia. lia.
  - rewrite Z.sgn_pos by done.
    replace (Z.of_nat i + 1) with (Z.of_nat len) by lia.
    rewrite Z.mod_same by lia. done.
  - rewrite Z.sgn_neg by done. rewrite Z.mod_small by lia. lia.
  - rewrite Z.sgn_neg by done. subst i.
    rewrite <- (Z_mod_plus_full (Z.of_nat 0 + -1) 1 (Z.of_nat len)).
    replace (Z.of_nat 0 + -1 + 1 * Z.of_nat len) with (Z.of_nat len - 1) by lia.
    rewrite Z.mod_small by lia. lia.
Qed.

Lemma SelectionPage_rotation_moves_one_index_witness :
  (exists q pgq,
     page_stack (state selecting) !! 4%nat = Some q /\ pages selecting !! q = Some pgq
     /\ q = rapids_page_id
     /\ SelectionPage_handle_encoder_event selection_page_id (-3) (-3) selecting
        = Returns tt selecting_rapids)
  /\ (exists q pgq,
        page_stack (state selecting_rapids) !! 0%nat = Some q
        /\ pages selecting_rapids !! q = Some pgq
        /\ q = job_control_page_id
        /\ SelectionPage_handle_encoder_event selection_page_id 5 2 selecting_rapids
           = Returns tt
               (with_pages
                  (<[selection_page_id :=
                       {| class := SelectionPage (Some q) (Some {| text := title pgq |});
                          title := Some "Selection";
                          key_settings := replicate 12 KeySettings.default;
                          main_group :=
                            Some [TitleLabel {| text := Some (title_text "Selection") |};
                                  SelectionRef] |}]>
                     (pages selecting_rapids)) selecting_rapids))
  /\ (exists w' pg,
        page_stack (state selecting_with_untitled) !! 5%nat = Some untitled_page_id
        /\ SelectionPage_move_pick selection_page_id (-1) selecting_with_untitled
           = Returns tt w'
        /\ pages w' !! selection_page_id = Some pg
        /\ class pg = SelectionPage (Some untitled_page_id)
                        (Some {| text := Some "Job Control" |})
        /\ SelectionPage_handle_encoder_event selection_page_id (-1) (-1)
             selecting_with_untitled
           = Raises AttributeError).
Proof.
  split; [|split].
  - destruct (SelectionPage_rotation_moves_one_index selecting selection_page_id _
                job_control_page_id _ 0 (-3) (-3) eq_refl eq_refl eq_refl eq_refl)
      as (q & pgq & Hq & Hpgq & _ & Hrun & _); [done|].
    exists q, pgq. split; [exact Hq|]. split; [exact Hpgq|].
    assert (q = rapids_page_id) as -> by (vm_compute in Hq; by injection Hq).
    split; [done|]. vm_compute in Hpgq. injection Hpgq as <-.
    rewrite Hrun by (by eexists). vm_compute. reflexivity.
  - destruct (SelectionPage_rotation_moves_one_index selecting_rapids selection_page_id _
                rapids_page_id _ 4 5 2 eq_refl eq_refl eq_refl eq_refl)
      as (q & pgq & Hq & Hpgq & _ & Hrun & _); [done|].
    exists q, pgq. split; [exact Hq|]. split; [exact Hpgq|].
    assert (q = job_control_page_id) as Hqeq by (vm_compute in Hq; by injection Hq).
    split; [exact Hqeq|]. apply Hrun. subst q. vm_compute in Hpgq.
    injection Hpgq as <-. by eexists.
  - destruct (SelectionPage_rotation_moves_one_index selecting_with_untitled
                selection_page_id _ job_control_page_id _ 0 (-1) (-1)
                eq_refl eq_refl eq_refl eq_refl)
      as (q & pgq & Hq & Hpgq & Hmove & _ & Hraise & _); [done|].
    vm_compute in Hq. injection Hq as <-.
    vm_compute in Hpgq. injection Hpgq as <-.
    eexists _, _. split; [reflexivity|]. split; [exact Hmove|].
    split; [reflexivity|]. split; [reflexivity|]. by apply Hraise.
Defined.

(** ** The test is sound for the invariant *)

Lemma memb_elem q l : memb q l = true -> q ∈ l.
Proof.
  unfold memb. intros H. apply existsb_exists in H as (x & Hx & Heq).
  apply Nat.eqb_eq in Heq as ->. by apply list_elem_of_In.
Qed.

Lemma option_PageId_eqb_eq a b : option_PageId_eqb a b = true -> a = b.
Proof.
  destruct a as [x|], b as [y|]; cbn; try done.
  intros H. apply Nat.eqb_eq in H. by subst.
Qed.

Lemma truthy_is_Some {A} (o : option A) : truthy o = true -> is_Some o.
Proof. destruct o; [eauto|done]. Qed.

Lemma class_at_Some w p c :
  class_at w p = Some c -> exists pg, pages w !! p = Some pg /\ class pg = c.
Proof.
  unfold class_at. destruct (pages w !! p) as [pg|]; [|done].
  cbn. intros [= <-]. eauto.
Qed.

Lemma select_target_okb_sound w cb :
  select_target_okb w cb = true -> select_target_ok w cb.
Proof.
  destruct cb as [[keys|keys| |q a|]|]; cbn; try done.
  destruct (class_at w q) as [c|] eqn:Hq; [|done].
  destruct c; try done. intros _.
  destruct (class_at_Some _ _ _ Hq) as (pg & Hp & Hc). eauto.
Qed.

Lemma config_okb_sound w : config_okb w = true -> Config w.
Proof.
  unfold config_okb. intros H.
  apply andb_prop in H as [H Hcb]. apply andb_prop in H as [H Htitles].
  apply andb_prop in H as [H Hstack]. apply andb_prop in H as [H Hsel].
  apply andb_prop in H as [H Hsleep]. apply andb_prop in H as [Hleds Hkeys].
  rewrite forallb_forall in Hkeys, Hstack, Htitles, Hcb.
  split.
  - by apply Nat.eqb_eq.
  - intros p pg Hp. apply Nat.eqb_eq, (Hkeys pg).
    apply list_elem_of_In, list_elem_of_lookup. eauto.
  - destruct (sleep_page (state w)) as [sp|]; [|done].
    destruct (class_at w sp) as [c|] eqn:Hc; [|done].
    destruct c; try done.
    destruct (class_at_Some _ _ _ Hc) as (pg & Hp & Hcl). eauto.
  - destruct (selection_page (state w)) as [sel|]; [|done].
    destruct (class_at w sel) as [c|] eqn:Hc; [|done].
    destruct (class_at_Some _ _ _ Hc) as (pg & Hp & Hcl).
    exists sel, pg. repeat split; try done. by rewrite Hcl.
  - intros q Hq. apply list_elem_of_In in Hq. specialize (Hstack q Hq).
    destruct (class_at w q) as [c|] eqn:Hc; [|done].
    destruct (class_at_Some _ _ _ Hc) as (pg & Hp & Hcl).
    exists pg. split; [done|]. by rewrite Hcl.
  - intros q pg Hq Hp. apply list_elem_of_In in Hq. specialize (Htitles q Hq).
    rewrite Hp in Htitles. by apply truthy_is_Some.
  - intros p pg k ks Hp Hk.
    assert (In pg (pages w)) as Hin
      by (apply list_elem_of_In, list_elem_of_lookup; eauto).
    specialize (Hcb pg Hin). rewrite forallb_forall in Hcb.
    assert (In ks (key_settings pg)) as Hink
      by (apply list_elem_of_In, list_elem_of_lookup; eauto).
    destruct (andb_prop _ _ (Hcb ks Hink)).
    split; by apply select_target_okb_sound.
Qed.

Lemma position_okb_sound w cp : position_okb w cp = true -> position_ok w cp.
Proof.
  unfold position_okb, position_ok. intros H.
  apply orb_prop in H as [H|H]; [apply orb_prop in H as [H|H]|].
  - left. by apply memb_elem.
  - right; left. apply andb_prop in H as [Hs Hshow].
    apply option_PageId_eqb_eq in Hs. split; [done|].
    unfold showing_pickb in Hshow. apply andb_prop in Hshow as [Hpr Hc].
    split; [by apply truthy_is_Some|].
    destruct (class_at w cp) as [c|] eqn:Hcl; [|done].
    destruct c as [|[r|] [lbl|]| | |]; try done.
    destruct (class_at_Some _ _ _ Hcl) as (pg & Hp & Hclass). eauto.
  - right; right. apply andb_prop in H as [Hs Hw].
    apply option_PageId_eqb_eq in Hs. split; [done|].
    destruct (wake_to_page (state w)) as [t|]; [|done].
    exists t. split; [done|].
    apply orb_prop in Hw as [Hw|Hw]; [left; by apply memb_elem|].
    right. apply andb_prop in Hw as [Hst Hpr].
    apply option_PageId_eqb_eq in Hst. split; [done|by apply truthy_is_Some].
Qed.

Lemma nav_okb_sound w : nav_okb w = true -> Nav w.
Proof.
  unfold nav_okb. intros H.
  apply andb_prop in H as [H Hpos]. apply andb_prop in H as [H Hlabel].
  apply andb_prop in H as [H Hpick]. apply andb_prop in H as [Hclock Hprev].
  assert (forall sel pg, selection_page (state w) = Some sel -> pages w !! sel = Some pg ->
            class_at w sel = Some (class pg)) as Hclass.
  { intros sel pg _ Hp. unfold class_at. by rewrite Hp. }
  split.
  - by apply truthy_is_Some.
  - intros q Hq. rewrite Hq in Hprev. by apply memb_elem.
  - intros sel pg r lbl Hs Hp Hc.
    rewrite Hs, (Hclass sel pg Hs Hp), Hc in Hpick. by apply memb_elem.
  - intros sel pg r lbl Hs Hp Hc.
    rewrite Hs, (Hclass sel pg Hs Hp), Hc in Hlabel.
    destruct (pages w !! r) as [pgr|]; [|done].
    exists pgr. split; [done|]. by eapply bool_decide_eq_true_1.
  - destruct (current_page (state w)) as [cp|]; [|done].
    exists cp. split; [done|]. by apply position_okb_sound.
Qed.

(** Every world that passes the test satisfies the invariant. *)
Lemma inv_ok_sound w : inv_ok w = true -> Inv w.
Proof.
  unfold inv_ok. intros H. apply andb_prop in H as [HC HN].
  split; [by apply config_okb_sound|by apply nav_okb_sound].
Qed.

(** ** The invariant holds when the loop starts *)

Lemma Inv_started : Inv started.
Proof. apply inv_ok_sound. vm_compute. reflexivity. Qed.

(** ** Steps that keep the configuration *)

Lemma kind_jog c : kind c = 4%nat -> exists sel, c = JogDialPage sel.
Proof. destruct c; try done. eauto. Qed.

Lemma kind_sleep c : kind c = 2%nat -> c = SleepPage.
Proof. by destruct c. Qed.

Lemma kind_selection c : is_selection c = true <-> kind c = 1%nat.
Proof. by destruct c. Qed.

Lemma kind_ordinary c c' : kind c' = kind c -> ordinary c' = ordinary c.
Proof. by destruct c, c'. Qed.

Lemma config_step_refl w : config_step w w.
Proof. split; eauto. Qed.

Lemma config_step_trans w1 w2 w3 :
  config_step w1 w2 -> config_step w2 w3 -> config_step w1 w3.
Proof.
  intros [H1 H2 H3 H4 H5 H6] [G1 G2 G3 G4 G5 G6]. split; try congruence.
  intros p pg Hp. destruct (H6 p pg Hp) as (pg2 & Hp2 & Hk2 & Hc2 & Ht2).
  destruct (G6 p pg2 Hp2) as (pg3 & Hp3 & Hk3 & Hc3 & Ht3).
  exists pg3. repeat split; congruence.
Qed.

Lemma select_target_ok_step w w' cb :
  config_step w w' -> select_target_ok w cb -> select_target_ok w' cb.
Proof.
  intros Hstep. destruct cb as [[keys|keys| |q a|]|]; cbn; try done.
  intros (pg & sel & Hq & Hc).
  destruct (cs_pages _ _ Hstep q pg Hq) as (pg' & Hq' & _ & Hkind & _).
  rewrite Hc in Hkind. destruct (kind_jog _ Hkind) as [sel' Hsel']. eauto.
Qed.

Lemma config_step_back w w' p pg' :
  config_step w w' ->
  pages w' !! p = Some pg' ->
  exists pg, pages w !! p = Some pg
    /\ key_settings pg' = key_settings pg /\ kind (class pg') = kind (class pg).
Proof.
  intros Hstep Hp'.
  destruct (lookup_lt_is_Some_2 (pages w) p) as [pg Hp].
  { rewrite <- (cs_pages_len _ _ Hstep). by eapply lookup_lt_Some. }
  destruct (cs_pages _ _ Hstep p pg Hp) as (pg2 & Hp2 & Hk & Hc & _).
  exists pg. split; [done|]. replace pg' with pg2 by congruence. done.
Qed.

Lemma Config_step w w' : Config w -> config_step w w' -> Config w'.
Proof.
  intros [C1 C2 C3 C4 C5 C5t C6] Hstep. split.
  - by rewrite (cs_leds _ _ Hstep).
  - intros p pg' Hp'.
    destruct (config_step_back _ _ _ _ Hstep Hp') as (pg & Hp & Hk & _).
    rewrite Hk. by eapply C2.
  - destruct C3 as (sp & pg & Hsp & Hp & Hc).
    destruct (cs_pages _ _ Hstep sp pg Hp) as (pg' & Hp' & _ & Hkind & _).
    exists sp, pg'. rewrite (cs_sleep _ _ Hstep). repeat split; try done.
    apply kind_sleep. by rewrite Hkind, Hc.
  - destruct C4 as (sel & pg & Hsel & Hp & Hc).
    destruct (cs_pages _ _ Hstep sel pg Hp) as (pg' & Hp' & _ & Hkind & _).
    exists sel, pg'. rewrite (cs_selection _ _ Hstep). repeat split; try done.
    apply kind_selection. rewrite Hkind. by apply kind_selection.
  - intros q Hq. rewrite (cs_stack _ _ Hstep) in Hq.
    destruct (C5 q Hq) as (pg & Hp & Hord).
    destruct (cs_pages _ _ Hstep q pg Hp) as (pg' & Hp' & _ & Hkind & _).
    exists pg'. split; [done|]. by rewrite (kind_ordinary _ _ Hkind).
  - intros q pg' Hq Hp'. rewrite (cs_stack _ _ Hstep) in Hq.
    destruct (C5 q Hq) as (pg & Hp & _).
    destruct (cs_pages _ _ Hstep q pg Hp) as (pg2 & Hp2 & _ & _ & Ht).
    replace pg' with pg2 by congruence. rewrite Ht. by apply (C5t q pg).
  - intros p pg' k ks Hp' Hk.
    destruct (config_step_back _ _ _ _ Hstep Hp') as (pg & Hp & Hkeys & _).
    rewrite Hkeys in Hk. destruct (C6 p pg k ks Hp Hk) as [Hpress Hrelease].
    split; by eapply select_target_ok_step.
Qed.

Lemma unchanged_refl w : unchanged w w.
Proof. split; eauto using config_step_refl. Qed.

Lemma unchanged_trans w1 w2 w3 : unchanged w1 w2 -> unchanged w2 w3 -> unchanged w1 w3.
Proof.
  intros [H1 H2 H3 H4 H5 H6] [G1 G2 G3 G4 G5 G6]. split; try congruence.
  - by eapply config_step_trans.
  - eauto.
  - intros p pg Hp Hsel. destruct (H6 p pg Hp Hsel) as (pg2 & Hp2 & Hc2).
    destruct (G6 p pg2 Hp2) as (pg3 & Hp3 & Hc3); [congruence|].
    exists pg3. split; congruence.
Qed.

Lemma Nav_unchanged w w' : Config w -> Nav w -> unchanged w w' -> Nav w'.
Proof.
  intros HC [N1 N2 N3 NL N4] [Hcfg Hcur Hprev Hwake Hclock Hselp].
  pose proof (cs_stack _ _ Hcfg) as Hstack.
  pose proof (cs_selection _ _ Hcfg) as Hsel.
  pose proof (cs_sleep _ _ Hcfg) as Hsleep.
  assert (forall sel, selection_page (state w) = Some sel ->
            exists pg pg', pages w !! sel = Some pg /\ pages w' !! sel = Some pg'
              /\ class pg' = class pg) as Hsame.
  { intros sel Hs. destruct (cfg_selection _ HC) as (sel0 & pg & Hs0 & Hp & Hc).
    replace sel0 with sel in * by congruence.
    destruct (Hselp sel pg Hp Hc) as (pg' & Hp' & Hc'). eauto. }
  split.
  - by apply Hclock.
  - intros q. rewrite Hprev, Hstack. apply N2.
  - intros sel pg' r lbl. rewrite Hsel, Hstack. intros Hs Hp' Hc'.
    destruct (Hsame sel Hs) as (pg & pg2 & Hp & Hp2 & Hc2).
    apply (N3 sel pg r lbl Hs Hp). replace pg' with pg2 in * by congruence. congruence.
  - intros sel pg' r lbl. rewrite Hsel. intros Hs Hp' Hc'.
    destruct (Hsame sel Hs) as (pg & pg2 & Hp & Hp2 & Hc2).
    replace pg' with pg2 in * by congruence.
    destruct (NL sel pg r lbl Hs Hp) as (pgr & Hpr & Htext); [congruence|].
    destruct (cs_pages _ _ Hcfg r pgr Hpr) as (pgr' & Hpr' & _ & _ & Htitle).
    exists pgr'. split; [done|]. congruence.
  - destruct N4 as (cp & Hcp & Hpos). exists cp. split; [congruence|].
    unfold position_ok, showing_pick in *. rewrite Hstack, Hsel, Hsleep, Hprev, Hwake.
    destruct Hpos as [Hon|[[Hs (Hpr & pg & r & lbl & Hp & Hc)]|Hasleep]];
      [by left| |by right; right].
    right; left. split; [done|]. split; [done|].
    destruct (Hsame cp Hs) as (pg1 & pg2 & Hp1 & Hp2 & Hc2).
    exists pg2, r, lbl. split; [done|]. replace pg1 with pg in * by congruence.
    congruence.
Qed.

Lemma Inv_unchanged w w' : Inv w -> unchanged w w' -> Inv w'.
Proof.
  intros [HC HN] Hun. split.
  - eapply Config_step; [done|]. apply Hun.
  - by eapply Nav_unchanged.
Qed.

(** The log, the clock and the indicators are outside the invariant. *)
Lemma unchanged_logged es w : unchanged w (logged es w).
Proof. split; eauto. split; eauto. Qed.

Lemma unchanged_touch t w :
  unchanged w (with_state (set_last_interaction (Some t) (state w)) w).
Proof. split; eauto. split; eauto. Qed.

Lemma unchanged_leds leds w :
  length leds = length (led_states (state w)) ->
  unchanged w (with_state (set_led_states leds (state w)) w).
Proof. intros Hlen. split; eauto. split; eauto. Qed.

Lemma update_led_total w (k : nat) f :
  (k < length (led_states (state w)))%nat ->
  exists w', update_led (Z.of_nat k) f w = Returns tt w' /\ unchanged w w'.
Proof.
  intros Hk. destruct (lookup_lt_is_Some_2 _ _ Hk) as [l Hl].
  eexists. split; [by apply update_led_returns|].
  apply unchanged_leds. by rewrite length_insert.
Qed.

Lemma select_axis_total w p pg sel axis :
  Config w -> pages w !! p = Some pg -> class pg = JogDialPage sel ->
  exists w', JogDialPage_select_axis p axis w = Returns tt w' /\ unchanged w w'.
Proof.
  intros HC Hp Hc. pose proof (cfg_leds _ HC) as Hlen.
  destruct (lookup_lt_is_Some_2 (led_states (state w)) 9) as [l9 H9]; [lia|].
  destruct (lookup_lt_is_Some_2 (led_states (state w)) 10) as [l10 H10]; [lia|].
  destruct (lookup_lt_is_Some_2 (led_states (state w)) 11) as [l11 H11]; [lia|].
  eexists. split; [by eapply JogDialPage_select_axis_returns|].
  assert (forall q pgq, pages w !! q = Some pgq ->
            exists pg', <[p := Page_set_class (JogDialPage (toggle_axis sel axis)) pg]>
                          (pages w) !! q = Some pg'
              /\ key_settings pg' = key_settings pgq
              /\ kind (class pg') = kind (class pgq)
              /\ title pg' = title pgq
              /\ (is_selection (class pgq) = true -> class pg' = class pgq)) as Hpages.
  { intros q pgq Hq. destruct (decide (p = q)) as [->|Hne].
    - rewrite list_lookup_insert_eq by (by eapply lookup_lt_Some).
      replace pgq with pg by congruence. eexists. split; [done|]. cbn.
      rewrite Hc. by repeat split.
    - rewrite list_lookup_insert_ne by done. eauto 7. }
  split; cbn; eauto.
  - split; cbn; eauto.
    + by rewrite !length_insert.
    + by rewrite length_insert.
    + intros q pgq Hq. destruct (Hpages q pgq Hq) as (pg' & ? & ? & ? & ? & ?).
      eauto 6.
  - intros q pgq Hq Hsel. destruct (Hpages q pgq Hq) as (pg' & ? & ? & ? & ? & ?).
    eauto.
Qed.

Lemma emit_loop_total e n w : forall a,
  exists es, for_each (seq a n) (fun _ => emit e) w = Returns tt (logged es w).
Proof.
  revert w. induction n as [|n IH]; intros w a; cbn [seq for_each].
  - exists []. unfold ret. by rewrite logged_nil.
  - destruct (IH (logged [e] w) (S a)) as [es Hes].
    exists ([e] ++ es). rewrite (bind_returns _ _ _ tt (logged [e] w)) by done.
    rewrite Hes. by rewrite logged_logged.
Qed.

Lemma run_callback_total w cb :
  Config w -> select_target_ok w (Some cb) ->
  exists w', run_callback cb w = Returns tt w' /\ unchanged w w'.
Proof.
  intros HC Hok. destruct cb as [keys|keys| |q a|]; cbn [run_callback].
  - eexists. split; [done|]. apply unchanged_logged.
  - eexists. split; [done|]. apply unchanged_logged.
  - eexists. split; [done|]. apply unchanged_logged.
  - destruct Hok as (pg & sel & Hq & Hc). by eapply select_axis_total.
  - unfold button_test. destruct (emit_loop_total (keyboard_send [KEY_A]) 100 w 0) as [es ->].
    eexists. split; [done|]. apply unchanged_logged.
Qed.

(** ** Key and jog events keep the invariant *)

Lemma keeps_ret w : keeps (ret tt) w.
Proof. exists w. split; [done|apply unchanged_refl]. Qed.

Lemma keeps_emit e w : keeps (emit e) w.
Proof. eexists. split; [done|apply unchanged_logged]. Qed.

Lemma keeps_seq (c k : M unit) w :
  Config w -> keeps c w ->
  (forall w', Config w' -> unchanged w w' -> keeps k w') ->
  keeps (c ;; k) w.
Proof.
  intros HC (w1 & Hrun & Hun) Hk.
  destruct (Hk w1) as (w2 & Hrun2 & Hun2); [|done|].
  - eapply Config_step; [done|apply Hun].
  - exists w2. split; [by rewrite (bind_returns _ _ _ _ _ Hrun)|].
    by eapply unchanged_trans.
Qed.

Lemma key_setting_total w p pg (k : nat) :
  Config w -> pages w !! p = Some pg -> (k < 12)%nat ->
  exists ks, key_setting p (Z.of_nat k) w = Returns ks w /\ key_settings pg !! k = Some ks.
Proof.
  intros HC Hp Hk.
  destruct (lookup_lt_is_Some_2 (key_settings pg) k) as [ks Hks].
  { by rewrite (cfg_keys _ HC p pg Hp). }
  exists ks. split; [by eapply key_setting_returns|done].
Qed.

Lemma keeps_update_led w (k : nat) f :
  Config w -> (k < 12)%nat -> keeps (update_led (Z.of_nat k) f) w.
Proof.
  intros HC Hk. apply update_led_total. by rewrite (cfg_leds _ HC).
Qed.

Lemma keeps_callback w (call : Event) cb p pg k ks :
  Config w -> pages w !! p = Some pg -> key_settings pg !! k = Some ks ->
  (cb = KeySettings.press_callback ks \/ cb = KeySettings.release_callback ks) ->
  keeps match cb with
        | Some f => emit call ;; run_callback f
        | None => ret tt
        end w.
Proof.
  intros HC Hp Hk Hcb. destruct cb as [f|]; [|apply keeps_ret].
  assert (select_target_ok w (Some f)) as Hok.
  { destruct (cfg_callbacks _ HC p pg k ks Hp Hk) as [Hpress Hrel].
    destruct Hcb as [-> | ->]; done. }
  apply keeps_seq; [done|apply keeps_emit|].
  intros w' HC' Hun. apply run_callback_total; [done|].
  eapply select_target_ok_step; [apply Hun|done].
Qed.

Lemma DisplayPage_handle_key_event_keeps w p pg e :
  Config w -> pages w !! p = Some pg ->
  0 <= KeyEvent.key_number e < 12 ->
  keeps (DisplayPage_handle_key_event p e) w.
Proof.
  intros HC Hp Hrange. destruct e as [kz pressed]. cbn in Hrange.
  assert (exists k : nat, kz = Z.of_nat k /\ (k < 12)%nat) as (k & -> & Hk)
    by (exists (Z.to_nat kz); lia).
  destruct (key_setting_total w p pg k HC Hp Hk) as (ks & Hks & Hlook).
  assert (forall w', Config w' -> unchanged w w' ->
            exists pg', pages w' !! p = Some pg' /\ key_settings pg' !! k = Some ks)
    as Hlater.
  { intros w' _ Hun. destruct (cs_pages _ _ (un_config _ _ Hun) p pg Hp)
      as (pg' & Hp' & Hkeys & _). exists pg'. by rewrite Hkeys. }
  unfold DisplayPage_handle_key_event. cbn [KeyEvent.key_number KeyEvent.pressed].
  destruct pressed; cbn [negb].
  - apply keeps_seq; [done| |intros; apply keeps_ret].
    unfold keeps; rewrite (bind_returns _ _ _ _ _ Hks).
    destruct (negb _); [|apply keeps_ret].
    apply keeps_seq; [done|by apply keeps_update_led|].
    intros w' HC' Hun. destruct (Hlater w' HC' Hun) as (pg' & Hp' & Hk').
    unfold keeps; rewrite (bind_returns _ _ _ ks w') by (by eapply key_setting_returns).
    apply (keeps_callback w' _ _ p pg' k ks); eauto.
  - apply keeps_seq; [done|apply keeps_ret|].
    intros w' HC' Hun. destruct (Hlater w' HC' Hun) as (pg' & Hp' & Hk').
    unfold keeps; rewrite (bind_returns _ _ _ ks w') by (by eapply key_setting_returns).
    apply keeps_seq; [done| |].
    + apply (keeps_callback w' _ _ p pg' k ks); eauto.
    + intros w2 HC2 Hun2. by apply keeps_update_led.
Qed.

Lemma jog_action_logs d sel : exists es, forall w, jog_action d sel w = Returns tt (logged es w).
Proof.
  unfold jog_action.
  repeat match goal with
         | |- context [if ?b then _ else _] => destruct b
         end;
    try (eexists; intros w; reflexivity).
  exists []. intros w. unfold ret. by rewrite logged_nil.
Qed.

Lemma Page_handle_key_event_keeps w p pg e :
  Config w -> pages w !! p = Some pg ->
  0 <= KeyEvent.key_number e < 12 ->
  keeps (Page_handle_key_event p e) w.
Proof.
  intros HC Hp Hrange. unfold Page_handle_key_event.
  apply keeps_seq; [done|apply keeps_emit|].
  intros w' HC' Hun.
  destruct (cs_pages _ _ (un_config _ _ Hun) p pg Hp) as (pg' & Hp' & _).
  unfold keeps; rewrite (bind_returns _ _ _ pg' w') by (by apply get_page_returns).
  by eapply DisplayPage_handle_key_event_keeps.
Qed.

Lemma Page_handle_jog_event_keeps w p pg d a :
  pages w !! p = Some pg -> keeps (Page_handle_jog_event p d a) w.
Proof.
  intros Hp. unfold Page_handle_jog_event, bind at 1, emit.
  unfold keeps; rewrite (bind_returns _ _ _ pg (logged [call_handle_jog_event p d a] w))
    by (by apply get_page_returns).
  assert (forall es, unchanged w (logged es (logged [call_handle_jog_event p d a] w)))
    as Hun by (intros es; rewrite logged_logged; apply unchanged_logged).
  destruct (class pg) as [| | | |sel] eqn:Hc;
    try (eexists; split; [reflexivity|apply unchanged_logged]).
  unfold JogDialPage_handle_jog_event.
  destruct (jog_action_logs d sel) as [es Hes].
  rewrite (jog_loop p pg sel es); try done. eexists. split; [done|apply Hun].
Qed.

(** ** Page switches keep the invariant *)

Lemma deactivated_lookup w cp pgc p pg :
  pages w !! cp = Some pgc -> pages w !! p = Some pg ->
  exists pg', pages (deactivated_world cp w) !! p = Some pg'
    /\ key_settings pg' = key_settings pg /\ class pg' = class pg
    /\ title pg' = title pg.
Proof.
  intros Hcp Hp. rewrite (deactivated_world_pages _ _ _ Hcp).
  destruct (decide (cp = p)) as [->|Hne].
  - rewrite list_lookup_insert_eq by (by eapply lookup_lt_Some).
    replace pgc with pg by congruence. eauto.
  - rewrite list_lookup_insert_ne by done. eauto 6.
Qed.

Lemma activated_lookup_other w t pgt p pg :
  pages w !! t = Some pgt -> pages w !! p = Some pg -> p <> t ->
  pages (activated_world t w) !! p = Some pg.
Proof.
  intros Ht Hp Hne. rewrite (activated_world_pages _ _ _ Ht).
  by rewrite list_lookup_insert_ne.
Qed.

Lemma activated_lookup_self w t pgt :
  pages w !! t = Some pgt ->
  pages (activated_world t w) !! t = Some (activated_page w pgt).
Proof.
  intros Ht. rewrite (activated_world_pages _ _ _ Ht).
  apply list_lookup_insert_eq. by eapply lookup_lt_Some.
Qed.

Lemma activated_page_shape w pg :
  key_settings (activated_page w pg) = key_settings pg
  /\ kind (class (activated_page w pg)) = kind (class pg)
  /\ title (activated_page w pg) = title pg.
Proof. unfold activated_page. by destruct (class pg). Qed.

Lemma deactivated_config_step w cp pgc g :
  pages w !! cp = Some pgc -> navigates g ->
  config_step w (with_state (g (state w)) (deactivated_world cp w)).
Proof.
  intros Hcp Hg. destruct (Hg (state w)) as (H1 & H2 & H3 & H4 & _).
  split; cbn; try congruence.
  - rewrite (deactivated_world_pages _ _ _ Hcp). by rewrite length_insert.
  - intros p pg Hp.
    destruct (deactivated_lookup w cp pgc p pg Hcp Hp) as (pg' & ? & ? & Hc & ?).
    exists pg'. by rewrite Hc.
Qed.

Lemma activated_config_step w t pgt :
  pages w !! t = Some pgt -> config_step w (activated_world t w).
Proof.
  intros Ht. split; rewrite ?(activated_world_state _ _ _ Ht); cbn; try done.
  - by rewrite length_activated_leds.
  - rewrite (activated_world_pages _ _ _ Ht). by rewrite length_insert.
  - intros p pg Hp. destruct (decide (p = t)) as [->|Hne].
    + rewrite (activated_lookup_self _ _ _ Ht). replace pg with pgt by congruence.
      eexists. split; [done|]. apply activated_page_shape.
    + rewrite (activated_lookup_other _ _ _ _ _ Ht Hp Hne). eauto 6.
Qed.

Lemma switched_config_step cp target g w pgc pgt :
  pages w !! cp = Some pgc -> pages w !! target = Some pgt -> navigates g ->
  config_step w (switched cp target g w).
Proof.
  intros Hcp Ht Hg. unfold switched.
  pose proof (deactivated_config_step w cp pgc g Hcp Hg) as Hmid.
  destruct (cs_pages _ _ Hmid target pgt Ht) as (pgt' & Ht' & _).
  eapply config_step_trans; [exact Hmid|]. by eapply activated_config_step.
Qed.

Lemma Config_activatable w t pgt :
  Config w -> pages w !! t = Some pgt ->
  (is_selection (class pgt) = true ->
   exists q, previous_page (state w) = Some q /\ q ∈ page_stack (state w)) ->
  activatable w t = true.
Proof.
  intros HC Ht Hsel. unfold activatable.
  rewrite (cfg_leds _ HC), Ht, (cfg_keys _ HC t pgt Ht). cbn.
  destruct (class pgt) eqn:Hc; try done.
  destruct Hsel as (q & -> & Hq); [done|].
  destruct (cfg_stack _ HC q Hq) as (pgq & Hpgq & _). rewrite Hpgq.
  by destruct (cfg_titles _ HC q pgq Hq Hpgq) as [ttl ->].
Qed.

(** The state after a switch: that of [g], with the indicators of the
    target page. *)
Lemma switched_state cp target g w pgc pgt :
  pages w !! cp = Some pgc -> pages w !! target = Some pgt ->
  exists leds, state (switched cp target g w) = set_led_states leds (g (state w)).
Proof.
  intros Hcp Ht. unfold switched.
  destruct (deactivated_lookup w cp pgc target pgt Hcp Ht) as (pgt' & Ht' & _).
  eexists. rewrite (activated_world_state _ target pgt'); [|done].
  cbn. reflexivity.
Qed.

Lemma switched_class_other cp target g w pgc pgt p pg :
  pages w !! cp = Some pgc -> pages w !! target = Some pgt ->
  pages w !! p = Some pg -> p <> target ->
  exists pg', pages (switched cp target g w) !! p = Some pg' /\ class pg' = class pg.
Proof.
  intros Hcp Ht Hp Hne. unfold switched.
  destruct (deactivated_lookup w cp pgc target pgt Hcp Ht) as (pgt' & Ht' & _).
  destruct (deactivated_lookup w cp pgc p pg Hcp Hp) as (pg' & Hp' & _ & Hc' & _).
  exists pg'. split; [|done]. by apply (activated_lookup_other _ target pgt').
Qed.

Lemma switched_class_selection cp target g w pgc pgt r l :
  pages w !! cp = Some pgc -> pages w !! target = Some pgt ->
  class pgt = SelectionPage r l ->
  exists pg' l', pages (switched cp target g w) !! target = Some pg'
    /\ class pg' = SelectionPage (previous_page (g (state w))) (Some l')
    /\ text l' = previous_title (with_state (g (state w)) (deactivated_world cp w)).
Proof.
  intros Hcp Ht Hc. unfold switched.
  destruct (deactivated_lookup w cp pgc target pgt Hcp Ht) as (pgt' & Ht' & _ & Hc' & _).
  eexists _, _. split; [by apply activated_lookup_self|].
  unfold activated_page. rewrite Hc', Hc. cbn. split; reflexivity.
Qed.

Lemma Inv_switched cp target g w pgc pgt :
  Inv w -> pages w !! cp = Some pgc -> pages w !! target = Some pgt ->
  navigates g ->
  (forall q, previous_page (g (state w)) = Some q -> q ∈ page_stack (state w)) ->
  current_page (g (state w)) = Some target ->
  (target ∈ page_stack (state w)
   \/ (selection_page (state w) = Some target /\ is_Some (previous_page (g (state w))))
   \/ (sleep_page (state w) = Some target
       /\ exists t, wake_to_page (g (state w)) = Some t
            /\ (t ∈ page_stack (state w)
                \/ (selection_page (state w) = Some t
                    /\ is_Some (previous_page (g (state w))))))) ->
  Inv (switched cp target g w).
Proof.
  intros [HC HN] Hcp Ht Hg Hprev Hcur Hpos.
  pose proof (switched_config_step cp target g w pgc pgt Hcp Ht Hg) as Hstep.
  destruct (switched_state cp target g w pgc pgt Hcp Ht) as [leds Hstate].
  destruct (Hg (state w)) as (_ & Hsleep & Hsel & Hstack & Hclock).
  destruct (cfg_selection _ HC) as (sel0 & pgs & Hs0 & Hps & Hcs).
  (* the selection page after the switch *)
  assert (forall pg' r lbl,
            pages (switched cp target g w) !! sel0 = Some pg' ->
            class pg' = SelectionPage (Some r) lbl ->
            r ∈ page_stack (state w)
            /\ forall l, lbl = Some l ->
                 exists pgr, pages (switched cp target g w) !! r = Some pgr
                   /\ text l = title pgr) as Hselection.
  { intros pg' r lbl Hp' Hc'.
    destruct (decide (sel0 = target)) as [->|Hne].
    - replace pgs with pgt in * by congruence.
      destruct (class pgt) as [|r0 l0| | |] eqn:Hct; try done.
      destruct (switched_class_selection cp target g w pgc pgt r0 l0 Hcp Ht Hct)
        as (pg2 & l2 & Hp2 & Hc2 & Htext).
      replace pg' with pg2 in * by congruence. rewrite Hc2 in Hc'.
      injection Hc' as Hr <-.
      pose proof (Hprev r Hr) as Hon. split; [done|].
      intros l [= <-].
      destruct (cfg_stack _ HC r Hon) as (pgr & Hpr & _).
      destruct (deactivated_lookup w cp pgc r pgr Hcp Hpr) as (pgr1 & Hpr1 & _ & _ & Ht1).
      destruct (cs_pages _ _ Hstep r pgr Hpr) as (pgr2 & Hpr2 & _ & _ & Ht2).
      exists pgr2. split; [done|]. rewrite Htext. unfold previous_title. cbn.
      rewrite Hr, Hpr1. congruence.
    - destruct (switched_class_other cp target g w pgc pgt sel0 pgs Hcp Ht Hps Hne)
        as (pg2 & Hp2 & Hc2).
      replace pg' with pg2 in * by congruence. rewrite Hc2 in Hc'.
      split; [by apply (nav_pick _ HN sel0 pgs r lbl Hs0 Hps)|].
      intros l ->.
      destruct (nav_label _ HN sel0 pgs r l Hs0 Hps Hc') as (pgr & Hpr & Htext).
      destruct (cs_pages _ _ Hstep r pgr Hpr) as (pgr2 & Hpr2 & _ & _ & Ht2).
      exists pgr2. split; [done|]. congruence. }
  split; [by eapply Config_step|]. split; rewrite Hstate; cbn.
  - rewrite Hclock. apply HN.
  - rewrite Hstack. exact Hprev.
  - rewrite Hsel, Hstack. intros sel pg' r lbl Hs Hp' Hc'.
    replace sel with sel0 in * by congruence.
    by destruct (Hselection pg' r lbl Hp' Hc').
  - rewrite Hsel. intros sel pg' r lbl Hs Hp' Hc'.
    replace sel with sel0 in * by congruence.
    destruct (Hselection pg' r (Some lbl) Hp' Hc') as [_ Hl]. by apply Hl.
  - exists target. split; [done|]. unfold position_ok, showing_pick.
    rewrite Hstate; cbn. rewrite Hstack, Hsel, Hsleep.
    destruct Hpos as [Hon|[[Hs Hpr]|Hasleep]]; [by left| |by right; right].
    right; left. split; [done|]. split; [done|].
    replace sel0 with target in * by congruence.
    replace pgs with pgt in * by congruence.
    destruct (class pgt) as [|r0 l0| | |] eqn:Hct; try done.
    destruct (switched_class_selection cp target g w pgc pgt r0 l0 Hcp Ht Hct)
      as (pg2 & l2 & Hp2 & Hc2 & _).
    destruct Hpr as [q Hq]. exists pg2, q, l2. split; [done|]. by rewrite Hc2, Hq.
Qed.

(** ** The handlers of the encoder keep the invariant *)

Lemma Inv_logged es w : Inv w -> Inv (logged es w).
Proof. intros H. eapply Inv_unchanged; [done|apply unchanged_logged]. Qed.

Lemma Inv_touch t w : Inv w -> Inv (with_state (set_last_interaction (Some t) (state w)) w).
Proof. intros H. eapply Inv_unchanged; [done|apply unchanged_touch]. Qed.

Lemma stack_page_ordinary w q :
  Config w -> q ∈ page_stack (state w) ->
  exists pg, pages w !! q = Some pg /\ ordinary (class pg) = true
    /\ is_selection (class pg) = false.
Proof.
  intros HC Hq. destruct (cfg_stack _ HC q Hq) as (pg & Hp & Hord).
  exists pg. repeat split; try done. by destruct (class pg).
Qed.

(** An encoder press dispatched to a page of the stack. *)
Lemma ordinary_press_returns w cp pgc sel pgsel :
  Config w -> current_page (state w) = Some cp -> cp ∈ page_stack (state w) ->
  pages w !! cp = Some pgc -> ordinary (class pgc) = true ->
  selection_page (state w) = Some sel -> pages w !! sel = Some pgsel ->
  Page_handle_encoder_press cp true w
  = Returns tt
      (switched cp sel
         (fun s => set_current_page (selection_page s)
                     (set_previous_page (current_page s) s))
         (logged [call_handle_encoder_press cp true] w)).
Proof.
  intros HC Hcur Hon Hcp Hord Hsel Hpsel.
  set (w0 := logged [call_handle_encoder_press cp true] w).
  set (g := fun s => set_current_page (selection_page s)
                       (set_previous_page (current_page s) s)).
  unfold Page_handle_encoder_press, bind at 1, emit. fold w0.
  rewrite (bind_returns _ _ _ pgc w0) by (by apply get_page_returns).
  assert (DisplayPage_handle_encoder_press cp true w0 = Returns tt (switched cp sel g w0))
    as Hpress.
  { unfold DisplayPage_handle_encoder_press, bind at 1, get_state.
    cbn [state w0 logged]. rewrite Hsel. cbn [andb truthy].
    rewrite <- (switch_returns w0 cp pgc sel g); try done.
    assert (Config (with_state (g (state w0)) (deactivated_world cp w0))) as HCmid.
    { eapply Config_step; [exact HC|].
      eapply config_step_trans;
        [apply (un_config _ _ (unchanged_logged [call_handle_encoder_press cp true] w))|].
      by apply (deactivated_config_step w0 cp pgc g). }
    destruct (deactivated_lookup w0 cp pgc sel pgsel Hcp Hpsel) as (pg' & Hp' & _ & Hc').
    apply (Config_activatable _ sel pg' HCmid Hp').
    intros _. exists cp. cbn. rewrite Hcur. by split. }
  by destruct (class pgc).
Qed.

Lemma navigates_select :
  navigates (fun s => set_current_page (selection_page s)
                        (set_previous_page (current_page s) s)).
Proof. intros s. by repeat split. Qed.

Lemma navigates_sleep :
  navigates (fun s => set_current_page (sleep_page s)
                        (set_wake_to_page (current_page s) s)).
Proof. intros s. by repeat split. Qed.

Lemma navigates_wake : navigates (fun s => set_current_page (wake_to_page s) s).
Proof. intros s. by repeat split. Qed.

Lemma navigates_commit pick : navigates (set_current_page (Some pick)).
Proof. intros s. by repeat split. Qed.

(** Waking from the sleep page, under the invariant. *)
Lemma Inv_woken w sp pgs t es :
  Inv w -> current_page (state w) = Some sp -> sleep_page (state w) = Some sp ->
  pages w !! sp = Some pgs ->
  wake_to_page (state w) = Some t ->
  (t ∈ page_stack (state w)
   \/ (selection_page (state w) = Some t /\ is_Some (previous_page (state w)))) ->
  activatable w t = true /\ Inv (woken sp t (logged es w)).
Proof.
  intros HI Hcur Hsleep Hsp Hwake Ht.
  pose proof (Inv_logged es w HI) as HI0. destruct HI as [HC HN].
  assert (exists pgt, pages w !! t = Some pgt
            /\ (is_selection (class pgt) = true -> is_Some (previous_page (state w))))
    as (pgt & Hpt & Hselt).
  { destruct Ht as [Hon|[Hs Hpr]].
    - destruct (stack_page_ordinary w t HC Hon) as (pgt & Hpt & _ & Hns).
      exists pgt. split; [done|]. by rewrite Hns.
    - destruct (cfg_selection _ HC) as (sel & pg & Hs' & Hp & _).
      replace sel with t in * by congruence. eauto. }
  split.
  - apply (Config_activatable w t pgt HC Hpt). intros Hs.
    destruct (Hselt Hs) as [q Hq]. exists q. split; [done|].
    by apply (nav_previous _ HN).
  - unfold woken.
    apply (Inv_switched sp t _ _ pgs pgt);
      [done|done|done|apply navigates_wake|cbn; apply (nav_previous _ HN)|done|].
    cbn. destruct Ht as [Hon|[Hs Hpr]]; [by left|by right; left].
Qed.

Lemma Page_handle_encoder_press_Inv w cp pressed :
  Inv w -> current_page (state w) = Some cp ->
  exists w', Page_handle_encoder_press cp pressed w = Returns tt w' /\ Inv w'.
Proof.
  intros HI Hcur. pose proof HI as [HC HN].
  destruct (nav_current _ HN) as (cp' & Hcp' & Hpos).
  replace cp' with cp in * by congruence. clear Hcp'.
  assert (exists pgc, pages w !! cp = Some pgc) as [pgc Hpc].
  { destruct Hpos as [Hon|[[Hs (_ & pg & _ & _ & Hp & _)]|[Hs _]]].
    - destruct (cfg_stack _ HC cp Hon) as (pg & Hp & _). eauto.
    - eauto.
    - destruct (cfg_sleep _ HC) as (sp & pg & Hsp & Hp & _).
      replace sp with cp in * by congruence. eauto. }
  destruct pressed.
  2: { eexists. split; [by eapply encoder_release_is_noop|]. by apply Inv_logged. }
  pose proof (Inv_logged [call_handle_encoder_press cp true] w HI) as HI0.
  destruct Hpos as [Hon|[[Hs (Hpr & pg & r & lbl & Hp & Hc)]|[Hs (t & Hwake & Ht)]]].
  - destruct (cfg_stack _ HC cp Hon) as (pg & Hp & Hord).
    replace pg with pgc in * by congruence.
    destruct (cfg_selection _ HC) as (sel & pgsel & Hsel & Hpsel & Hcsel).
    eexists. split; [by eapply ordinary_press_returns|].
    apply (Inv_switched cp sel _ _ pgc pgsel);
      [done|done|done|apply navigates_select| |done|].
    + cbn. intros q. rewrite Hcur. by intros [= <-].
    + cbn. right; left. split; [done|]. rewrite Hcur. by eexists.
  - replace pg with pgc in * by congruence.
    pose proof (nav_pick _ HN cp pgc r (Some lbl) Hs Hpc Hc) as Hr.
    destruct (stack_page_ordinary w r HC Hr) as (pgr & Hpr' & _ & Hns).
    eexists. split.
    + apply (selection_page_press_returns w cp pgc r (Some lbl)); try done.
      apply (Config_activatable w r pgr HC Hpr'). by rewrite Hns.
    + unfold committed.
      apply (Inv_switched cp r _ _ pgc pgr);
        [done|done|done|apply navigates_commit|cbn; apply (nav_previous _ HN)|done|].
      by left.
  - destruct (cfg_sleep _ HC) as (sp & pgs & Hsp & Hps & Hcs).
    replace sp with cp in * by congruence.
    destruct (Inv_woken w cp pgs t [call_handle_encoder_press cp true]
                HI Hcur Hs Hps Hwake Ht) as [Hact HIw].
    eexists. split; [|exact HIw].
    by apply (sleep_page_wake_events w cp pgs t).
Qed.

Lemma list_index_elem x l : x ∈ l -> exists i, list_index x l = Some i.
Proof.
  induction l as [|y l IH]; intros Hx; [by apply elem_of_nil in Hx|].
  cbn. destruct (Nat.eqb_spec y x) as [->|Hne]; [eauto|].
  apply elem_of_cons in Hx as [->|Hx]; [done|].
  destruct (IH Hx) as [i ->]. eauto.
Qed.

Lemma Config_stack_valid w :
  Config w ->
  forallb (fun q => (q <? length (pages w))%nat) (page_stack (state w)) = true.
Proof.
  intros HC. apply forallb_forall. intros q Hq. apply list_elem_of_In in Hq.
  destruct (cfg_stack _ HC q Hq) as (pg & Hp & _).
  apply Nat.ltb_lt. by eapply lookup_lt_Some.
Qed.

(** Moving the pick of the selection page that is current. *)
Lemma Inv_repick w sel pg q pgq :
  Inv w -> current_page (state w) = Some sel -> selection_page (state w) = Some sel ->
  pages w !! sel = Some pg -> is_selection (class pg) = true ->
  is_Some (previous_page (state w)) -> q ∈ page_stack (state w) ->
  pages w !! q = Some pgq ->
  Inv (with_pages (<[sel := Page_set_class
                              (SelectionPage (Some q) (Some {| text := title pgq |})) pg]>
                     (pages w)) w).
Proof.
  intros [HC HN] Hcur Hsel Hp Hc Hprev Hq Hpq.
  pose proof (lookup_lt_Some _ _ _ Hp) as Hlt.
  set (w' := with_pages _ w).
  assert (pages w' !! sel
          = Some (Page_set_class (SelectionPage (Some q) (Some {| text := title pgq |})) pg))
    as Hsel' by (by apply list_lookup_insert_eq).
  assert (q <> sel) as Hne.
  { intros ->. destruct (stack_page_ordinary w sel HC Hq) as (pg0 & Hp0 & _ & Hns).
    replace pg0 with pg in * by congruence. congruence. }
  assert (config_step w w') as Hstep.
  { split; cbn; try done.
    - by rewrite length_insert.
    - intros p pgp Hpp. destruct (decide (p = sel)) as [->|Hne'].
      + rewrite list_lookup_insert_eq by done. replace pgp with pg by congruence.
        eexists. split; [done|]. split; [done|]. cbn. split; [|done].
        symmetry. by apply kind_selection.
      + rewrite list_lookup_insert_ne by done. eauto 6. }
  split; [by eapply Config_step|]. split; cbn.
  - apply HN.
  - apply HN.
  - intros sel0 pg0 r lbl Hs0 Hp0 Hc0. replace sel0 with sel in * by congruence.
    rewrite list_lookup_insert_eq in Hp0 by done.
    injection Hp0 as <-. cbn in Hc0. congruence.
  - intros sel0 pg0 r lbl Hs0 Hp0 Hc0. replace sel0 with sel in * by congruence.
    rewrite list_lookup_insert_eq in Hp0 by done.
    injection Hp0 as <-. cbn in Hc0. injection Hc0 as <- <-.
    exists pgq. split; [|done]. by rewrite list_lookup_insert_ne.
  - exists sel. split; [done|]. right; left. split; [done|]. split; [done|].
    eexists _, q, _. split; [exact Hsel'|done].
Qed.

Lemma Page_handle_encoder_event_Inv w cp d a :
  Inv w -> current_page (state w) = Some cp -> d <> 0 ->
  exists w', Page_handle_encoder_event cp d a w = Returns tt w' /\ Inv w'.
Proof.
  intros HI Hcur Hd. pose proof HI as [HC HN].
  destruct (nav_current _ HN) as (cp' & Hcp' & Hpos).
  replace cp' with cp in * by congruence. clear Hcp'.
  set (w0 := logged [call_handle_encoder_event cp d a] w).
  pose proof (Inv_logged [call_handle_encoder_event cp d a] w HI) as HI0.
  destruct Hpos as [Hon|[[Hs (Hpr & pg & r & lbl & Hp & Hc)]|[Hs (t & Hwake & Ht)]]].
  - destruct (cfg_stack _ HC cp Hon) as (pg & Hp & Hord).
    exists w0. split; [|done].
    unfold Page_handle_encoder_event, bind at 1, emit. fold w0.
    rewrite (bind_returns _ _ _ pg w0) by (by apply get_page_returns).
    by destruct (class pg).
  - pose proof (nav_pick _ HN cp pg r (Some lbl) Hs Hp Hc) as Hr.
    destruct (list_index_elem r _ Hr) as [i Hi].
    destruct (selection_rotation_returns w0 cp pg r lbl i d a Hp Hc Hi
                (Config_stack_valid w HC) Hd) as (q & pgq & Hq & Hpgq & _ & Hrun).
    assert (q ∈ page_stack (state w0)) as Hon by (apply list_elem_of_lookup; eauto).
    destruct (cfg_titles _ (proj1 HI0) q pgq Hon Hpgq) as [ttl Httl].
    rewrite Httl in Hrun. rewrite <- Httl in Hrun.
    eexists. split.
    + unfold Page_handle_encoder_event, bind at 1, emit. fold w0.
      rewrite (bind_returns _ _ _ pg w0) by (by apply get_page_returns).
      rewrite Hc. exact Hrun.
    + apply (Inv_repick w0 cp pg q pgq); try done. by rewrite Hc.
  - destruct (cfg_sleep _ HC) as (sp & pgs & Hsp & Hps & Hcs).
    replace sp with cp in * by congruence.
    destruct (Inv_woken w cp pgs t [call_handle_encoder_event cp d a]
                HI Hcur Hs Hps Hwake Ht) as [Hact HIw].
    eexists. split; [|exact HIw].
    by apply (sleep_page_wake_events w cp pgs t).
Qed.

Lemma sleep_check_Inv w now :
  Inv w -> exists w', sleep_check now w = Returns tt w' /\ Inv w'.
Proof.
  intros HI. pose proof HI as [HC HN].
  destruct (nav_current _ HN) as (cp & Hcur & Hpos).
  destruct (cfg_sleep _ HC) as (sp & pgs & Hsp & Hps & Hcs).
  destruct (nav_clock _ HN) as [last Hlast].
  destruct (decide (cp = sp)) as [->|Hne].
  { exists w. split; [|done]. unfold sleep_check, bind, get_state.
    rewrite Hcur, Hsp. cbn. by rewrite Nat.eqb_refl. }
  destruct (Z_lt_le_dec (sleep_threshold (state w)) (now - last)) as [Hlt|Hle].
  2: { exists w. split; [|done]. by apply (sleep_check_stays_awake w now last). }
  assert (exists pgc, pages w !! cp = Some pgc) as [pgc Hpc].
  { destruct Hpos as [Hon|[[Hs (_ & pg & _ & _ & Hp & _)]|[Hs _]]];
      [|eauto|congruence].
    destruct (cfg_stack _ HC cp Hon) as (pg & Hp & _). eauto. }
  exists (fell_asleep cp sp w). split.
  - apply (sleep_check_sleeps w now cp sp pgc last); try done.
    apply (Config_activatable w sp pgs HC Hps). by rewrite Hcs.
  - unfold fell_asleep.
    apply (Inv_switched cp sp _ _ pgc pgs);
      [done|done|done|apply navigates_sleep|cbn; apply (nav_previous _ HN)|done|].
    cbn. right; right. split; [done|]. exists cp. split; [done|].
    destruct Hpos as [Hon|[[Hs [Hpr _]]|[Hs _]]]; [by left|by right|congruence].
Qed.

(** ** The dispatcher keeps the invariant and never raises *)

Lemma Inv_current w :
  Inv w -> exists cp pg, current_page (state w) = Some cp /\ pages w !! cp = Some pg.
Proof.
  intros [HC HN]. destruct (nav_current _ HN) as (cp & Hcur & Hpos).
  exists cp. destruct Hpos as [Hon|[[Hs (_ & pg & _ & _ & Hp & _)]|[Hs _]]].
  - destruct (cfg_stack _ HC cp Hon) as (pg & Hp & _). eauto.
  - eauto.
  - destruct (cfg_sleep _ HC) as (sp & pg & Hsp & Hp & _).
    replace sp with cp in * by congruence. eauto.
Qed.

Lemma poll_encoder_switch_Inv inp v w :
  Inv w ->
  exists held w',
    poll_encoder_switch inp v w = Returns held w' /\ Inv w'
    /\ (encoder_switch_pressed inp = true -> encoder_held v = false ->
        last_interaction (state w') = Some (current_time inp)).
Proof.
  intros HI. destruct (Inv_current w HI) as (cp & pg & Hcur & Hp).
  unfold poll_encoder_switch.
  destruct (encoder_switch_pressed inp); [destruct (encoder_held v); cbn [negb]|].
  - by exists true, w.
  - destruct (Page_handle_encoder_press_Inv w cp true HI Hcur) as (w1 & Hrun & HI1).
    eexists true, _. split; [|split].
    + rewrite (bind_returns _ _ _ tt w1); [reflexivity|].
      by rewrite (on_current_page_returns cp).
    + by apply Inv_touch.
    + done.
  - destruct (Page_handle_encoder_press_Inv w cp false HI Hcur) as (w1 & Hrun & HI1).
    exists false, w1. split; [|done].
    rewrite (bind_returns _ _ _ tt w1); [reflexivity|].
    by rewrite (on_current_page_returns cp).
Qed.

Lemma poll_keys_Inv inp w :
  Inv w -> input_ok inp ->
  exists w',
    poll_keys inp w = Returns tt w' /\ Inv w'
    /\ (is_Some (key_event inp) -> last_interaction (state w') = Some (current_time inp))
    /\ (key_event inp = None -> w' = w).
Proof.
  intros HI Hok. destruct (Inv_current w HI) as (cp & pg & Hcur & Hp).
  unfold poll_keys, input_ok in *. destruct (key_event inp) as [e|].
  2: { exists w. split; [done|]. split; [done|]. split; [|done].
       intros [x Hx]. discriminate Hx. }
  destruct (Page_handle_key_event_keeps w cp pg e (proj1 HI) Hp Hok) as (w1 & Hrun & Hun).
  eexists. split; [|split; [|split]].
  - rewrite (bind_returns _ _ _ tt w1); [reflexivity|].
    by rewrite (on_current_page_returns cp).
  - apply Inv_touch. by eapply Inv_unchanged.
  - done.
  - done.
Qed.

Lemma poll_jog_Inv inp v w :
  Inv w ->
  exists pos w',
    poll_jog inp v w = Returns pos w' /\ Inv w'
    /\ (jog_position inp <> last_jog_pos v ->
        last_interaction (state w') = Some (current_time inp))
    /\ (jog_position inp = last_jog_pos v -> w' = w).
Proof.
  intros HI. destruct (Inv_current w HI) as (cp & pg & Hcur & Hp).
  unfold poll_jog.
  destruct (Z.eqb_spec (jog_position inp) (last_jog_pos v)) as [Heq|Hne]; cbn [negb].
  { eexists _, w. split; [reflexivity|]. split; [done|]. split; [|done].
    intros Hne. by destruct Hne. }
  destruct (Page_handle_jog_event_keeps w cp pg
              (jog_position inp - last_jog_pos v) (jog_position inp) Hp)
    as (w1 & Hrun & Hun).
  eexists _, _. split; [|split; [|split]].
  - rewrite (bind_returns _ _ _ tt w1); [reflexivity|].
    by rewrite (on_current_page_returns cp).
  - apply Inv_touch. by eapply Inv_unchanged.
  - done.
  - done.
Qed.

Lemma poll_encoder_Inv inp v w :
  Inv w ->
  exists pos w',
    poll_encoder inp v w = Returns pos w' /\ Inv w'
    /\ (encoder inp <> last_encoder_pos v ->
        last_interaction (state w') = Some (current_time inp))
    /\ (encoder inp = last_encoder_pos v -> w' = w).
Proof.
  intros HI. destruct (Inv_current w HI) as (cp & pg & Hcur & Hp).
  unfold poll_encoder.
  destruct (Z.eqb_spec (encoder inp) (last_encoder_pos v)) as [Heq|Hne]; cbn [negb].
  { eexists _, w. split; [reflexivity|]. split; [done|]. split; [|done].
    intros Hne. by destruct Hne. }
  destruct (Page_handle_encoder_event_Inv w cp (encoder inp - last_encoder_pos v)
              (encoder inp) HI Hcur) as (w1 & Hrun & HI1); [lia|].
  eexists _, _. split; [|split; [|split]].
  - rewrite (bind_returns _ _ _ tt w1); [reflexivity|].
    by rewrite (on_current_page_returns cp).
  - by apply Inv_touch.
  - done.
  - done.
Qed.

(** One iteration of the loop, from a world that satisfies the invariant
    and on a key event of a slot in range, returns, and the invariant
    holds again. *)
Lemma event_loop_iteration_Inv inp v w :
  Inv w -> input_ok inp ->
  exists v' w', event_loop_iteration inp v w = Returns v' w' /\ Inv w'.
Proof.
  intros HI Hok.
  destruct (poll_encoder_switch_Inv inp v w HI) as (held & w1 & H1 & HI1 & _).
  destruct (poll_keys_Inv inp w1 HI1 Hok) as (w2 & H2 & HI2 & _).
  destruct (poll_jog_Inv inp v w2 HI2) as (jog & w3 & H3 & HI3 & _).
  destruct (poll_encoder_Inv inp v w3 HI3) as (enc & w4 & H4 & HI4 & _).
  destruct (sleep_check_Inv w4 (current_time inp) HI4) as (w5 & H5 & HI5).
  eexists _, w5. split; [|done].
  unfold event_loop_iteration, forward_events.
  rewrite (bind_returns _ _ _ {| last_jog_pos := jog; last_encoder_pos := enc;
                                 encoder_held := held |} w4).
  - by rewrite (bind_returns _ _ _ tt w5).
  - rewrite (bind_returns _ _ _ _ _ H1), (bind_returns _ _ _ _ _ H2).
    by rewrite (bind_returns _ _ _ _ _ H3), (bind_returns _ _ _ _ _ H4).
Qed.

Lemma event_loop_Inv inps : forall v w,
  Inv w -> Forall input_ok inps ->
  exists v' w', event_loop inps v w = Returns v' w' /\ Inv w'.
Proof.
  induction inps as [|inp rest IH]; intros v w HI Hok; cbn [event_loop].
  - by exists v, w.
  - apply Forall_cons in Hok as [Hinp Hrest].
    destruct (event_loop_iteration_Inv inp v w HI Hinp) as (v1 & w1 & H1 & HI1).
    destruct (IH v1 w1 HI1 Hrest) as (v2 & w2 & H2 & HI2).
    exists v2, w2. split; [|done]. by rewrite (bind_returns _ _ _ _ _ H1).
Qed.

(** The firmware never raises on key events of slots in range, and every
    world it reaches satisfies the invariant. *)
Lemma firmware_runs now jog enc inps :
  Forall input_ok inps ->
  exists v w,
    (v0 <- event_loop_start now jog enc ;; event_loop inps v0) booted = Returns v w
    /\ Inv w.
Proof.
  intros Hok.
  assert (Inv (with_state (set_last_interaction (Some now) (state booted)) booted)) as HI.
  { apply (Inv_unchanged started); [apply Inv_started|].
    apply (unchanged_touch now started). }
  destruct (event_loop_Inv inps
              {| last_jog_pos := jog; last_encoder_pos := enc; encoder_held := false |}
              _ HI Hok) as (v & w & Hrun & HIw).
  exists v, w. split; [|done]. exact Hrun.
Qed.

Lemma reachable_Inv w : reachable w -> Inv w.
Proof.
  intros (now & jog & enc & inps & v & Hok & Hrun).
  destruct (firmware_runs now jog enc inps Hok) as (v' & w' & Hrun' & HI).
  rewrite Hrun in Hrun'. by injection Hrun' as _ <-.
Qed.

(** ** What the invariant gives the page that is current *)

(** Asleep, there is a page to wake to and it can be activated. *)
Lemma Inv_asleep w sp :
  Inv w -> current_page (state w) = Some sp -> sleep_page (state w) = Some sp ->
  exists pgs t, pages w !! sp = Some pgs /\ class pgs = SleepPage
    /\ wake_to_page (state w) = Some t /\ activatable w t = true.
Proof.
  intros HI Hcur Hsleep. pose proof HI as [HC HN].
  destruct (cfg_sleep _ HC) as (sp' & pgs & Hsp & Hps & Hcs).
  replace sp' with sp in * by congruence.
  destruct (nav_current _ HN) as (cp & Hcp & Hpos).
  replace cp with sp in * by congruence.
  destruct Hpos as [Hon|[[Hs (_ & pg & r & lbl & Hp & Hc)]|[_ (t & Hwake & Ht)]]].
  - destruct (cfg_stack _ HC sp Hon) as (pg & Hp & Hord).
    replace pg with pgs in * by congruence. by rewrite Hcs in Hord.
  - replace pg with pgs in * by congruence. congruence.
  - exists pgs, t. repeat split; try done.
    by destruct (Inv_woken w sp pgs t [] HI Hcur Hsleep Hps Hwake Ht).
Qed.

(** On the selection page, a pick of the stack is shown and it can be
    activated. *)
Lemma Inv_selecting w sel :
  Inv w -> current_page (state w) = Some sel -> selection_page (state w) = Some sel ->
  exists pg pick lbl i pgpick, pages w !! sel = Some pg
    /\ class pg = SelectionPage (Some pick) (Some lbl)
    /\ list_index pick (page_stack (state w)) = Some i
    /\ forallb (fun q => (q <? length (pages w))%nat) (page_stack (state w)) = true
    /\ activatable w pick = true
    /\ pages w !! pick = Some pgpick /\ text lbl = title pgpick.
Proof.
  intros HI Hcur Hsel. pose proof HI as [HC HN].
  destruct (cfg_selection _ HC) as (sel' & pgs & Hs & Hps & Hcs).
  replace sel' with sel in * by congruence.
  destruct (nav_current _ HN) as (cp & Hcp & Hpos).
  replace cp with sel in * by congruence.
  assert (exists r lbl, class pgs = SelectionPage (Some r) (Some lbl)) as (r & lbl & Hc).
  { destruct Hpos as [Hon|[[_ (_ & pg & r & lbl & Hp & Hc)]|[Hsp _]]].
    - destruct (stack_page_ordinary w sel HC Hon) as (pg & Hp & _ & Hns).
      replace pg with pgs in * by congruence. congruence.
    - replace pg with pgs in * by congruence. eauto.
    - destruct (cfg_sleep _ HC) as (sp & pg & Hsp' & Hp & Hc).
      replace sp with sel in * by congruence.
      replace pg with pgs in * by congruence. by rewrite Hc in Hcs. }
  pose proof (nav_pick _ HN sel pgs r (Some lbl) Hsel Hps Hc) as Hr.
  destruct (list_index_elem r _ Hr) as [i Hi].
  destruct (stack_page_ordinary w r HC Hr) as (pgr & Hpr & _ & Hns).
  destruct (nav_label _ HN sel pgs r lbl Hsel Hps Hc) as (pgr' & Hpr' & Htext).
  replace pgr' with pgr in * by congruence.
  exists pgs, r, lbl, i, pgr. repeat split; try done.
  - by apply Config_stack_valid.
  - apply (Config_activatable w r pgr HC Hpr). by rewrite Hns.
Qed.

(** A jog-dial page can always be activated, and the indicators its axis
    slots use exist. *)
Lemma Inv_jog_dial w p pg sel :
  Inv w -> pages w !! p = Some pg -> class pg = JogDialPage sel ->
  activatable w p = true /\ length (led_states (state w)) = 12%nat.
Proof.
  intros [HC HN] Hp Hc. split; [|apply HC].
  apply (Config_activatable w p pg HC Hp). by rewrite Hc.
Qed.

(** Before the idle test, the current page exists, the sleep page can be
    activated and the clock is set. *)
Lemma Inv_idle_test w :
  Inv w ->
  exists cp pgc sp last, current_page (state w) = Some cp /\ pages w !! cp = Some pgc
    /\ sleep_page (state w) = Some sp /\ activatable w sp = true
    /\ last_interaction (state w) = Some last.
Proof.
  intros HI. pose proof HI as [HC HN].
  destruct (Inv_current w HI) as (cp & pgc & Hcur & Hpc).
  destruct (cfg_sleep _ HC) as (sp & pgs & Hsp & Hps & Hcs).
  destruct (nav_clock _ HN) as [last Hlast].
  exists cp, pgc, sp, last. repeat split; try done.
  apply (Config_activatable w sp pgs HC Hps). by rewrite Hcs.
Qed.

(** ** The idle transition *)

Lemma forward_events_Inv inp v w :
  Inv w -> input_ok inp ->
  exists v1 w1,
    forward_events inp v w = Returns v1 w1 /\ Inv w1
    /\ (active inp v -> last_interaction (state w1) = Some (current_time inp)).
Proof.
  intros HI Hok.
  destruct (poll_encoder_switch_Inv inp v w HI) as (held & w1 & H1 & HI1 & Hedge).
  destruct (poll_keys_Inv inp w1 HI1 Hok) as (w2 & H2 & HI2 & Hkey & Hnokey).
  destruct (poll_jog_Inv inp v w2 HI2) as (jog & w3 & H3 & HI3 & Hjog & Hnojog).
  destruct (poll_encoder_Inv inp v w3 HI3) as (enc & w4 & H4 & HI4 & Henc & Hnoenc).
  eexists _, w4. split; [|split; [done|]].
  - unfold forward_events.
    rewrite (bind_returns _ _ _ _ _ H1), (bind_returns _ _ _ _ _ H2).
    by rewrite (bind_returns _ _ _ _ _ H3), (bind_returns _ _ _ _ _ H4).
  - intros Hactive.
    destruct (decide (encoder inp = last_encoder_pos v)) as [He|He]; [|by apply Henc].
    rewrite (Hnoenc He).
    destruct (decide (jog_position inp = last_jog_pos v)) as [Hj|Hj]; [|by apply Hjog].
    rewrite (Hnojog Hj).
    destruct (key_event inp) as [e|] eqn:Hk; [by apply Hkey|].
    rewrite (Hnokey eq_refl).
    destruct Hactive as [[Hp Hh]|[[e He']|[Hj'|He']]];
      [by apply Hedge|congruence|done|done].
Qed.

(** C1 (amended). Every iteration of the dispatcher loop, from a world
    of the running firmware, forwards its inputs and returns; when after
    that the current page is not the sleep page and the time since
    [last_interaction] is strictly greater than [sleep_time] seconds, the
    iteration deactivates the current page, records it as [wake_to_page],
    makes the sleep page current and activates it.  When the elapsed time
    is at most [sleep_time] seconds, so also when it is exactly
    [sleep_time], the idle test changes nothing.  An edge of the encoder
    press, a key event, a jog move or an encoder move in the iteration
    sets [last_interaction] to the time of the iteration. *)
Theorem idle_tick_goes_to_sleep inp v w :
  Inv w -> input_ok inp ->
  exists v1 w1 cp sp last,
    forward_events inp v w = Returns v1 w1
    /\ current_page (state w1) = Some cp /\ sleep_page (state w1) = Some sp
    /\ last_interaction (state w1) = Some last
    /\ (cp <> sp -> sleep_time (state w1) * 1000000000 < current_time inp - last ->
        exists w',
          event_loop_iteration inp v w = Returns v1 w'
          /\ w' = fell_asleep cp sp w1
          /\ current_page (state w') = Some sp
          /\ wake_to_page (state w') = Some cp
          /\ trace w' = trace w1 ++ [call_deactivate cp; gc_collect; print_free_memory;
                                     call_activate sp; display_root_group sp])
    /\ (current_time inp - last <= sleep_time (state w1) * 1000000000 ->
        event_loop_iteration inp v w = Returns v1 w1)
    /\ (active inp v -> last = current_time inp).
Proof.
  intros HI Hok.
  destruct (forward_events_Inv inp v w HI Hok) as (v1 & w1 & Hfw & HI1 & Hactive).
  destruct (Inv_idle_test w1 HI1) as (cp & pgc & sp & last & Hcur & Hcp & Hsp & Hact & Hlast).
  exists v1, w1, cp, sp, last. repeat (split; [done|]). split; [|split].
  - intros Hne Hlt. exists (fell_asleep cp sp w1).
    rewrite (event_loop_iteration_split _ _ _ _ _ Hfw).
    rewrite (sleep_check_sleeps w1 _ cp sp pgc last) by done.
    destruct (activatable_page _ _ Hact) as [pgs Hpgs].
    split; [done|]. split; [done|]. unfold fell_asleep.
    rewrite (switched_current_page _ _ _ _ _ _ Hcp Hpgs).
    rewrite (switched_wake_to_page _ _ _ _ _ _ Hcp Hpgs).
    rewrite (switched_trace _ _ _ _ _ _ Hcp Hpgs). cbn. by rewrite Hsp, Hcur.
  - intros Hle. rewrite (event_loop_iteration_split _ _ _ _ _ Hfw).
    by rewrite (sleep_check_stays_awake w1 _ last).
  - intros Ha. specialize (Hactive Ha). congruence.
Qed.

Lemma idle_tick_goes_to_sleep_witness :
  exists w',
    event_loop_iteration (quiet 900000000001 0 0) loop_start started
    = Returns loop_start w'
    /\ current_page (state w') = Some sleep_page_id
    /\ wake_to_page (state w') = Some job_control_page_id
    /\ trace w' = [call_handle_encoder_press job_control_page_id false;
                   call_deactivate job_control_page_id; gc_collect; print_free_memory;
                   call_activate sleep_page_id; display_root_group sleep_page_id].
Proof.
  assert (inv_ok started = true) as Hinv by (vm_compute; reflexivity).
  destruct (idle_tick_goes_to_sleep (quiet 900000000001 0 0) loop_start started
              (inv_ok_sound started Hinv) I)
    as (v1 & w1 & cp & sp & last & Hfw & Hcur & Hsp & Hlast & Hsleep & _ & _).
  vm_compute in Hfw. injection Hfw as <- <-.
  vm_compute in Hcur. injection Hcur as <-.
  vm_compute in Hsp. injection Hsp as <-.
  vm_compute in Hlast. injection Hlast as <-.
  destruct Hsleep as (w' & Hrun & _ & Hc & Hw & Ht); [discriminate|cbn; lia|].
  exists w'. split; [exact Hrun|]. split; [exact Hc|]. split; [exact Hw|exact Ht].
Defined.

(** C1 as stated fails when the elapsed time equals [sleep_time]: started
    at time 0 with [sleep_time] = 900 on the Job Control page, a quiet
    iteration at exactly 900 s leaves Job Control current and
    [wake_to_page] unset. *)
Lemma idle_exactly_sleep_time_stays_awake :
  last_interaction (state started) = Some 0
  /\ sleep_time (state started) = 900
  /\ current_page (state started) = Some job_control_page_id
  /\ sleep_page (state started) = Some sleep_page_id
  /\ exists w',
       event_loop_iteration (quiet (900 * 1000000000) 0 0) loop_start started
       = Returns loop_start w'
       /\ current_page (state w') = Some job_control_page_id
       /\ wake_to_page (state w') = None
       /\ trace w' = [call_handle_encoder_press job_control_page_id false].
Proof. repeat split. eexists. repeat split. Qed.


(** ** The wake transition *)




(** ** The commit of the selection page *)

(** C4. In every world of the running firmware in which the selection
    page is current, the page has a tentative pick, whose title its label
    displays, and an encoder press deactivates the selection page, makes
    that pick the current page and activates it. *)
Theorem SelectionPage_press_commits_pick w sel :
  Inv w -> current_page (state w) = Some sel -> selection_page (state w) = Some sel ->
  exists pgsel pick lbl pgpick w',
    pages w !! sel = Some pgsel
    /\ class pgsel = SelectionPage (Some pick) (Some lbl)
    /\ pages w !! pick = Some pgpick /\ text lbl = title pgpick
    /\ Page_handle_encoder_press sel true w = Returns tt w'
    /\ w' = committed sel pick (logged [call_handle_encoder_press sel true] w)
    /\ current_page (state w') = Some pick
    /\ trace w' = trace w ++ [call_handle_encoder_press sel true;
                             call_deactivate sel; gc_collect; print_free_memory;
                             call_activate pick; display_root_group pick].
Proof.
  intros HI Hcur Hselp.
  destruct (Inv_selecting w sel HI Hcur Hselp)
    as (pgsel & pick & lbl & i & pgp & Hsel & Hclass & _ & _ & Hact & Hpgp & Htext).
  set (w0 := logged [call_handle_encoder_press sel true] w).
  exists pgsel, pick, lbl, pgp, (committed sel pick w0).
  repeat (split; [done|]). split.
  - by apply (selection_page_press_returns w sel pgsel pick (Some lbl)).
  - split; [done|]. unfold committed.
    rewrite (switched_current_page sel pick _ w0 pgsel pgp) by done.
    rewrite (switched_trace sel pick _ w0 pgsel pgp) by done.
    split; [done|]. cbn. by rewrite <- app_assoc.
Qed.

Lemma SelectionPage_press_commits_pick_witness :
  exists pgsel pick lbl pgpick w',
    pages selecting_rapids !! selection_page_id = Some pgsel
    /\ class pgsel = SelectionPage (Some pick) (Some lbl)
    /\ pages selecting_rapids !! pick = Some pgpick /\ text lbl = title pgpick
    /\ pick = rapids_page_id
    /\ Page_handle_encoder_press selection_page_id true selecting_rapids = Returns tt w'
    /\ current_page (state w') = Some pick.
Proof.
  assert (inv_ok selecting_rapids = true) as Hinv by (vm_compute; reflexivity).
  destruct (SelectionPage_press_commits_pick selecting_rapids selection_page_id
              (inv_ok_sound selecting_rapids Hinv) eq_refl eq_refl)
    as (pgsel & pick & lbl & pgpick & w' & Hp & Hc & Hpp & Htext & Hrun & _ & Hcur & _).
  exists pgsel, pick, lbl, pgpick, w'.
  split; [exact Hp|]. split; [exact Hc|]. split; [exact Hpp|]. split; [exact Htext|].
  split; [|split; [exact Hrun|exact Hcur]].
  vm_compute in Hp. injection Hp as <-. vm_compute in Hc. by injection Hc.
Defined.

(** ** The encoder switch, edge and level *)

(** C5 (amended). In every world of the running firmware the dispatcher
    calls [handle_encoder_press(True)] on the rising edge only: pressed
    with the held flag clear, it makes that one call, which returns, sets
    the flag and refreshes [last_interaction]; pressed with the flag set,
    it makes no call, and an iteration with no other input and no idle
    timeout changes nothing at all.  Whenever the switch is not pressed it
    calls [handle_encoder_press(False)] once, whether the flag was set or
    clear, so on every idle iteration and not only on the release edge;
    that call changes nothing but the log. *)
Theorem encoder_press_rising_edge_only inp v w :
  Inv w ->
  exists cp,
    current_page (state w) = Some cp
    /\ (encoder_switch_pressed inp = true -> encoder_held v = true ->
        poll_encoder_switch inp v w = Returns true w
        /\ (forall last,
              key_event inp = None -> jog_position inp = last_jog_pos v ->
              encoder inp = last_encoder_pos v ->
              last_interaction (state w) = Some last ->
              current_time inp - last <= sleep_time (state w) * 1000000000 ->
              event_loop_iteration inp v w = Returns v w))
    /\ (encoder_switch_pressed inp = true -> encoder_held v = false ->
        exists w1,
          Page_handle_encoder_press cp true w = Returns tt w1
          /\ poll_encoder_switch inp v w
             = Returns true (with_state (set_last_interaction (Some (current_time inp))
                                           (state w1)) w1))
    /\ (encoder_switch_pressed inp = false ->
        poll_encoder_switch inp v w
        = Returns false (logged [call_handle_encoder_press cp false] w)
        /\ (forall last,
              key_event inp = None -> jog_position inp = last_jog_pos v ->
              encoder inp = last_encoder_pos v ->
              last_interaction (state w) = Some last ->
              current_time inp - last <= sleep_time (state w) * 1000000000 ->
              event_loop_iteration inp v w
              = Returns {| last_jog_pos := last_jog_pos v;
                           last_encoder_pos := last_encoder_pos v;
                           encoder_held := false |}
                  (logged [call_handle_encoder_press cp false] w))).
Proof.
  intros HI. destruct (Inv_current w HI) as (cp & pg & Hcur & Hp).
  exists cp. split; [done|]. split; [|split].
  - intros Hpressed Hheld.
    assert (poll_encoder_switch inp v w = Returns true w) as Hpoll.
    { unfold poll_encoder_switch. by rewrite Hpressed, Hheld. }
    split; [done|]. intros last Hk Hj He Hlast Hle.
    rewrite (event_loop_iteration_split inp v w _ w
               (poll_quiet inp v w Hk Hj He _ _ Hpoll)).
    rewrite (sleep_check_stays_awake w _ last) by done.
    destruct v; cbn in *. by rewrite Hheld.
  - intros Hpressed Hheld.
    destruct (Page_handle_encoder_press_Inv w cp true HI Hcur) as (w1 & Hcall & _).
    exists w1. split; [done|]. unfold poll_encoder_switch.
    rewrite Hpressed, Hheld. cbn [negb].
    rewrite (bind_returns _ _ _ tt w1); [done|].
    by rewrite (on_current_page_returns cp).
  - intros Hpressed.
    assert (poll_encoder_switch inp v w
            = Returns false (logged [call_handle_encoder_press cp false] w)) as Hpoll.
    { unfold poll_encoder_switch. rewrite Hpressed.
      rewrite (bind_returns _ _ _ tt (logged [call_handle_encoder_press cp false] w));
        [done|].
      rewrite (on_current_page_returns cp) by done.
      by apply (encoder_release_is_noop w cp pg). }
    split; [done|]. intros last Hk Hj He Hlast Hle.
    rewrite (event_loop_iteration_split inp v w _ _
               (poll_quiet inp v w Hk Hj He _ _ Hpoll)).
    by rewrite (sleep_check_stays_awake _ _ last).
Qed.

Lemma encoder_press_rising_edge_only_witness :
  (poll_encoder_switch (encoder_down 2 0 0)
     {| last_jog_pos := 0; last_encoder_pos := 0; encoder_held := true |} selecting
   = Returns true selecting
   /\ event_loop_iteration (encoder_down 2 0 0)
        {| last_jog_pos := 0; last_encoder_pos := 0; encoder_held := true |} selecting
      = Returns {| last_jog_pos := 0; last_encoder_pos := 0; encoder_held := true |}
          selecting)
  /\ poll_encoder_switch (encoder_down 1 0 0) loop_start started
     = Returns true (with_state (set_last_interaction (Some 1) (state entering_selection))
                       entering_selection)
  /\ event_loop_iteration (quiet 1 0 0) loop_start started
     = Returns loop_start (logged [call_handle_encoder_press job_control_page_id false]
                             started).
Proof.
  assert (inv_ok selecting = true) as Hselecting by (vm_compute; reflexivity).
  assert (inv_ok started = true) as Hstarted by (vm_compute; reflexivity).
  split; [|split].
  - destruct (encoder_press_rising_edge_only (encoder_down 2 0 0)
                {| last_jog_pos := 0; last_encoder_pos := 0; encoder_held := true |}
                selecting (inv_ok_sound selecting Hselecting))
      as (cp & Hcur & Hheld & _).
    destruct (Hheld eq_refl eq_refl) as [Hpoll Htick].
    split; [exact Hpoll|].
    apply (Htick 1 eq_refl eq_refl eq_refl eq_refl). cbn. lia.
  - destruct (encoder_press_rising_edge_only (encoder_down 1 0 0) loop_start started
                (inv_ok_sound started Hstarted))
      as (cp & Hcur & _ & Hrise & _).
    vm_compute in Hcur. injection Hcur as <-.
    destruct (Hrise eq_refl eq_refl) as (w1 & Hcall & Hpoll).
    assert (Page_handle_encoder_press 2%nat true started = Returns tt entering_selection)
      as Hcall' by (vm_compute; reflexivity).
    rewrite Hcall' in Hcall. injection Hcall as <-. exact Hpoll.
  - destruct (encoder_press_rising_edge_only (quiet 1 0 0) loop_start started
                (inv_ok_sound started Hstarted))
      as (cp & Hcur & _ & _ & Hrelease).
    vm_compute in Hcur. injection Hcur as <-.
    refine (proj2 (Hrelease eq_refl) 0 eq_refl eq_refl eq_refl eq_refl _).
    cbn. lia.
Defined.

(** C5 as stated fails: with the switch released and the held flag clear
    (the debounced state equals the flag), each of three consecutive
    iterations calls [handle_encoder_press(False)]. *)
Lemma released_encoder_is_polled_every_tick :
  encoder_switch_pressed (quiet 1 0 0) = encoder_held loop_start
  /\ exists v' w',
       event_loop [quiet 1 0 0; quiet 2 0 0; quiet 3 0 0] loop_start started
       = Returns v' w'
       /\ encoder_held v' = false
       /\ trace w' = [call_handle_encoder_press job_control_page_id false;
                      call_handle_encoder_press job_control_page_id false;
                      call_handle_encoder_press job_control_page_id false].
Proof. split; [done|]. eexists _, _. repeat split. Qed.

(** * Properties of the whole firmware *)

(** ** The firmware runs *)

Lemma main_setup_returns :
  main_setup empty_world
  = Returns tt (logged [call_activate job_control_page_id;
                        display_root_group job_control_page_id] booted).
Proof. vm_compute. reflexivity. Qed.

(** X1. [main] builds its seven pages without raising, and from the world
    it leaves, the start of the loop at any time and any number of
    iterations over driver readings whose key events name a slot in
    [0, 12) return: no page handler raises, and the world reached
    satisfies the invariant. *)
Theorem firmware_never_raises now jog enc inps :
  Forall input_ok inps ->
  main_setup empty_world
  = Returns tt (logged [call_activate job_control_page_id;
                        display_root_group job_control_page_id] booted)
  /\ exists v w,
       (v0 <- event_loop_start now jog enc ;; event_loop inps v0) booted = Returns v w
       /\ Inv w.
Proof.
  intros Hok. split; [exact main_setup_returns|].
  by apply firmware_runs.
Qed.

Lemma firmware_never_raises_witness :
  exists v w,
    (v0 <- event_loop_start 0 0 0 ;;
     event_loop [key_down 1 0 0 0; key_up 2 0 0 0; encoder_down 3 0 0; quiet 4 0 1;
                 encoder_down 5 0 1; quiet 1000000000000 3 1] v0) booted = Returns v w
    /\ Inv w.
Proof.
  refine (proj2 (firmware_never_raises 0 0 0 _ _)).
  repeat constructor; cbn; lia.
Defined.

(** ** A key number outside the twelve slots *)

Lemma py_norm_index_out len i :
  (i < - Z.of_nat len \/ Z.of_nat len <= i) -> py_norm_index len i = None.
Proof.
  intros Hi. unfold py_norm_index.
  destruct (Z.leb_spec 0 i), (Z.ltb_spec i (Z.of_nat len)),
    (Z.leb_spec (- Z.of_nat len) i), (Z.ltb_spec i 0); cbn; try done; lia.
Qed.

Lemma key_setting_out_of_range w p pg i :
  pages w !! p = Some pg ->
  (i < - Z.of_nat (length (key_settings pg)) \/ Z.of_nat (length (key_settings pg)) <= i) ->
  key_setting p i w = Raises IndexError.
Proof.
  intros Hp Hi. unfold key_setting.
  rewrite (bind_returns _ _ _ _ _ (get_page_returns _ _ _ Hp)).
  unfold py_getitem. by rewrite py_norm_index_out.
Qed.

Lemma Page_handle_key_event_out_of_range w p pg e :
  pages w !! p = Some pg -> length (key_settings pg) = 12%nat ->
  (KeyEvent.key_number e < -12 \/ 12 <= KeyEvent.key_number e) ->
  Page_handle_key_event p e w = Raises IndexError.
Proof.
  intros Hp Hlen Hk. unfold Page_handle_key_event, bind at 1, emit.
  rewrite (bind_returns _ _ _ pg (logged [call_handle_key_event p e] w))
    by (by apply get_page_returns).
  assert (key_setting p (KeyEvent.key_number e) (logged [call_handle_key_event p e] w)
          = Raises IndexError) as Hraise.
  { apply (key_setting_out_of_range _ p pg); [done|]. rewrite Hlen. lia. }
  unfold DisplayPage_handle_key_event. destruct e as [k pressed]; cbn in *.
  destruct pressed; cbn [negb KeyEvent.pressed KeyEvent.key_number].
  - unfold bind. by rewrite Hraise.
  - unfold bind, ret. by rewrite Hraise.
Qed.

(** X2. A key event whose number is outside [-12, 12) makes every page's
    [handle_key_event] raise [IndexError], whether the key is pressed or
    released, and an iteration of the loop that receives it raises
    [IndexError] too: the subscript [key_settings[key_number]] is checked
    by no handler. *)
Theorem key_number_out_of_range_raises inp v w e :
  Inv w -> key_event inp = Some e ->
  (KeyEvent.key_number e < -12 \/ 12 <= KeyEvent.key_number e) ->
  (forall p pg, pages w !! p = Some pg -> Page_handle_key_event p e w = Raises IndexError)
  /\ event_loop_iteration inp v w = Raises IndexError.
Proof.
  intros HI He Hk. split.
  - intros p pg Hp. apply (Page_handle_key_event_out_of_range w p pg); [done| |done].
    by apply (cfg_keys _ (proj1 HI) p).
  - destruct (poll_encoder_switch_Inv inp v w HI) as (held & w1 & H1 & HI1 & _).
    destruct (Inv_current w1 HI1) as (cp & pg & Hcur & Hp).
    unfold event_loop_iteration. apply bind_raises. unfold forward_events.
    rewrite (bind_returns _ _ _ _ _ H1). apply bind_raises.
    unfold poll_keys. rewrite He. apply bind_raises.
    rewrite (on_current_page_returns cp) by done.
    apply (Page_handle_key_event_out_of_range w1 cp pg); [done| |done].
    by apply (cfg_keys _ (proj1 HI1) cp).
Qed.

Lemma key_number_out_of_range_raises_witness :
  event_loop_iteration (key_down 1 12 0 0) loop_start started = Raises IndexError.
Proof.
  assert (inv_ok started = true) as Hinv by (vm_compute; reflexivity).
  refine (proj2 (key_number_out_of_range_raises (key_down 1 12 0 0) loop_start started _
                   (inv_ok_sound started Hinv) eq_refl _)).
  cbn. lia.
Defined.

(** ** Triples: what a computation keeps *)

Lemma hoare_ret {A} (P : World -> Prop) (a : A) : preserves P (ret a).
Proof. intros w b w' HP [= _ <-]. done. Qed.

Lemma hoare_raise {A} (P : World -> Prop) (Q : A -> World -> Prop) e :
  hoare P (raise e) Q.
Proof. intros w b w' HP H. discriminate H. Qed.

Lemma hoare_bind {A B} (P : World -> Prop) (R : A -> World -> Prop)
    (Q : B -> World -> Prop) (c : M A) (k : A -> M B) :
  hoare P c R -> (forall a, hoare (R a) (k a) Q) -> hoare P (bind c k) Q.
Proof.
  intros Hc Hk w b w' HP Hrun. unfold bind in Hrun.
  destruct (c w) as [a w1|e] eqn:E; [|done].
  exact (Hk a w1 b w' (Hc w a w1 HP E) Hrun).
Qed.

Lemma preserves_bind {A B} (P : World -> Prop) (c : M A) (k : A -> M B) :
  preserves P c -> (forall a, preserves P (k a)) -> preserves P (bind c k).
Proof. intros Hc Hk. by apply (hoare_bind P (fun _ => P)). Qed.

Lemma preserves_for_each {A} (P : World -> Prop) (xs : list A) (body : A -> M unit) :
  (forall x, preserves P (body x)) -> preserves P (for_each xs body).
Proof.
  intros Hbody. induction xs as [|x xs IH]; cbn [for_each].
  - apply hoare_ret.
  - apply preserves_bind; [apply Hbody|intros _; exact IH].
Qed.

Lemma reads_preserves {A} (P : World -> Prop) (c : M A) : reads c -> preserves P c.
Proof. intros Hc w a w' HP Hrun. by rewrite (Hc w a w' Hrun). Qed.

Lemma reads_get_state : reads get_state.
Proof. by intros w a w' [= _ <-]. Qed.

Lemma reads_get_page p : reads (get_page p).
Proof. intros w a w'. unfold get_page. destruct (pages w !! p); [|done]. by intros [= _ <-]. Qed.

Lemma reads_deref {A} (o : option A) : reads (deref o).
Proof. intros w a w'. destruct o; [|done]. by intros [= _ <-]. Qed.

Lemma reads_py_getitem {A} (l : list A) i : reads (py_getitem l i).
Proof.
  intros w a w'. unfold py_getitem.
  destruct (py_norm_index _ _) as [n|]; [|done].
  destruct (l !! n); [|done]. by intros [= _ <-].
Qed.

Lemma reads_py_index l x : reads (py_index l x).
Proof.
  intros w a w'. unfold py_index. destruct x as [p|]; [|done].
  destruct (list_index p l); [|done]. by intros [= _ <-].
Qed.

Lemma reads_bind {A B} (c : M A) (k : A -> M B) :
  reads c -> (forall a, reads (k a)) -> reads (bind c k).
Proof.
  intros Hc Hk w b w' Hrun. unfold bind in Hrun.
  destruct (c w) as [a w1|e] eqn:E; [|done].
  rewrite (Hk a w1 b w' Hrun). by apply (Hc w a w1).
Qed.

Lemma reads_ret {A} (a : A) : reads (ret a).
Proof. by intros w b w' [= _ <-]. Qed.

Lemma reads_raise {A} e : reads (@raise A e).
Proof. intros w b w' H. discriminate H. Qed.

Ltac reads_tac :=
  repeat first
    [ apply reads_ret | apply reads_raise | apply reads_get_state | apply reads_get_page
    | apply reads_deref | apply reads_py_getitem | apply reads_py_index
    | apply reads_bind; [|intros ?]
    | match goal with
      | |- reads (match ?x with _ => _ end) => destruct x
      end ].

Lemma reads_key_setting p i : reads (key_setting p i).
Proof. unfold key_setting. reads_tac. Qed.

Lemma reads_get_selected_page p : reads (get_selected_page p).
Proof. unfold get_selected_page. reads_tac. Qed.

Lemma reads_get_selection p : reads (get_selection p).
Proof. unfold get_selection. reads_tac. Qed.

Lemma reads_get_selected_axis p : reads (get_selected_axis p).
Proof. unfold get_selected_axis. reads_tac. Qed.

Lemma reads_key_grid p : reads (key_grid p).
Proof. unfold key_grid. reads_tac. Qed.

Lemma reads_label_with_text t : reads (label_with_text t).
Proof. unfold label_with_text. reads_tac. Qed.

Create HintDb preserve discriminated.
#[local] Hint Resolve hoare_ret hoare_raise reads_get_state reads_get_page reads_deref
  reads_py_getitem reads_py_index reads_key_setting reads_get_selected_page
  reads_get_selection reads_get_selected_axis reads_key_grid reads_label_with_text
  : preserve.
#[local] Hint Extern 1 (preserves _ _) => (apply reads_preserves) : preserve.
#[local] Hint Constructors led_method nav_assignment : preserve.

(** The attribute writes, one by one. *)
Section AttributeWrites.

Variable typing : bool.
Variable P : World -> Prop.
Hypothesis HP : kept_by (attr_write typing) P.

Lemma preserves_emit e :
  (typing = false -> is_keyboard e = false) -> preserves P (emit e).
Proof. intros He w a w' Hw [= _ <-]. exact (HP _ _ (write_log typing e w He) Hw). Qed.

Lemma preserves_touch t : preserves P (touch t).
Proof. intros w a w' Hw [= _ <-]. exact (HP _ _ (write_clock typing t w) Hw). Qed.

Lemma preserves_update_led i f : led_method f -> preserves P (update_led i f).
Proof.
  intros Hf w a w' Hw. unfold update_led, bind, get_state.
  destruct (py_norm_index _ _) as [n|]; [|done].
  destruct (led_states (state w) !! n) as [l|] eqn:Hl; [|done].
  intros [= _ <-]. exact (HP _ _ (write_led typing w n l f Hl Hf) Hw).
Qed.

Lemma preserves_set_selected_axis p v : preserves P (set_selected_axis p v).
Proof.
  intros w a w' Hw. unfold set_selected_axis, bind, get_page, modify_page.
  destruct (pages w !! p) as [pg|] eqn:Hp; [|done].
  destruct (class pg) eqn:Hc; try done. rewrite Hp. intros [= _ <-].
  refine (HP _ _ (write_class typing w p pg (JogDialPage v) Hp _) Hw). by rewrite Hc.
Qed.

Lemma preserves_set_selected_page p v : preserves P (set_selected_page p v).
Proof.
  intros w a w' Hw. unfold set_selected_page, bind, get_page, modify_page.
  destruct (pages w !! p) as [pg|] eqn:Hp; [|done].
  destruct (class pg) eqn:Hc; try done. rewrite Hp. intros [= _ <-].
  refine (HP _ _ (write_class typing w p pg (SelectionPage v _) Hp _) Hw). by rewrite Hc.
Qed.

Lemma preserves_set_selection p l : preserves P (set_selection p l).
Proof.
  intros w a w' Hw. unfold set_selection, bind, get_page, modify_page.
  destruct (pages w !! p) as [pg|] eqn:Hp; [|done].
  destruct (class pg) eqn:Hc; try done. rewrite Hp. intros [= _ <-].
  refine (HP _ _ (write_class typing w p pg (SelectionPage _ (Some l)) Hp _) Hw). by rewrite Hc.
Qed.

End AttributeWrites.

(** One step through the structure of a computation: a method with a
    lemma of its own, then the monad's combinators. *)
Ltac preserve_step :=
  match goal with
  | |- preserves _ (bind current_page_deactivate _) => fail 1
  | H : kept_by (attr_write _) ?P |- preserves ?P (emit _) =>
      apply (preserves_emit _ _ H); done
  | H : kept_by (attr_write _) ?P |- preserves ?P (touch _) =>
      apply (preserves_touch _ _ H)
  | H : kept_by (attr_write _) ?P |- preserves ?P (set_selected_axis _ _) =>
      apply (preserves_set_selected_axis _ _ H)
  | H : kept_by (attr_write _) ?P |- preserves ?P (set_selected_page _ _) =>
      apply (preserves_set_selected_page _ _ H)
  | H : kept_by (attr_write _) ?P |- preserves ?P (set_selection _ _) =>
      apply (preserves_set_selection _ _ H)
  | H : kept_by (attr_write _) ?P |- preserves ?P (update_led _ _) =>
      apply (preserves_update_led _ _ H); solve [eauto with preserve]
  | |- preserves _ (ret _) => apply hoare_ret
  | |- preserves _ (raise _) => apply hoare_raise
  | |- preserves _ (bind _ _) => apply preserves_bind; [|intros ?]
  | |- preserves _ (for_each _ _) => apply preserves_for_each; intros ?
  | |- preserves _ (match ?x with _ => _ end) => destruct x
  | |- preserves _ (let _ := _ in _) => cbv zeta
  | |- preserves _ _ => solve [eauto with preserve]
  end.

Ltac preserve := repeat preserve_step.

Section Handlers.

Variable P : World -> Prop.
Hypothesis HP : kept_by (attr_write true) P.

Lemma preserves_select_axis p axis : preserves P (JogDialPage_select_axis p axis).
Proof. unfold JogDialPage_select_axis. preserve. Qed.

Lemma preserves_jog_action d a : preserves P (jog_action d a).
Proof. unfold jog_action. preserve. Qed.

Lemma preserves_JogDialPage_handle_jog_event p d a :
  preserves P (JogDialPage_handle_jog_event p d a).
Proof. unfold JogDialPage_handle_jog_event. preserve. apply preserves_jog_action. Qed.

Lemma preserves_run_callback cb : preserves P (run_callback cb).
Proof.
  destruct cb; cbn [run_callback]; preserve.
  - apply preserves_select_axis.
  - unfold button_test. preserve.
Qed.

Lemma preserves_DisplayPage_handle_key_event p e :
  preserves P (DisplayPage_handle_key_event p e).
Proof.
  unfold DisplayPage_handle_key_event. preserve; apply preserves_run_callback.
Qed.

Lemma preserves_Page_handle_key_event p e : preserves P (Page_handle_key_event p e).
Proof.
  unfold Page_handle_key_event. preserve. apply preserves_DisplayPage_handle_key_event.
Qed.

Lemma preserves_Page_handle_jog_event p d a : preserves P (Page_handle_jog_event p d a).
Proof.
  unfold Page_handle_jog_event, DisplayPage_handle_jog_event. preserve.
  apply preserves_JogDialPage_handle_jog_event.
Qed.

Lemma preserves_SelectionPage_handle_encoder_event p d a :
  preserves P (SelectionPage_handle_encoder_event p d a).
Proof.
  unfold SelectionPage_handle_encoder_event, SelectionPage_move_pick,
    SelectionPage_show_pick.
  preserve.
Qed.

End Handlers.

(** The writes of a page switch, one by one. *)
Section NavigationWrites.

Variable typing : bool.
Variable P : World -> Prop.
Hypothesis HP : kept_by (attr_write typing) P.
Hypothesis HN : kept_by nav_write P.

Lemma preserves_set_main_group p g : preserves P (modify_page p (Page_set_main_group g)).
Proof.
  intros w a w' Hw. unfold modify_page.
  destruct (pages w !! p) as [pg|] eqn:Hp; [|done]. intros [= _ <-].
  exact (HN _ _ (write_group w p pg g Hp) Hw).
Qed.

Lemma preserves_assign f : nav_assignment f -> preserves P (modify_state f).
Proof. intros Hf w a w' Hw [= _ <-]. exact (HN _ _ (write_nav w f Hf) Hw). Qed.

Lemma preserves_group_append p x : preserves P (group_append p x).
Proof. unfold group_append. preserve; apply preserves_set_main_group. Qed.

Lemma preserves_activate_slot p i : preserves P (activate_slot p i).
Proof. unfold activate_slot. preserve. Qed.

Lemma preserves_DisplayPage_activate p : preserves P (DisplayPage_activate p).
Proof.
  unfold DisplayPage_activate. preserve;
    first [apply preserves_activate_slot | apply preserves_set_main_group
          | apply preserves_group_append].
Qed.

Lemma preserves_Page_activate p : preserves P (Page_activate p).
Proof.
  unfold Page_activate, SelectionPage_activate, SleepPage_activate,
    SimpleButtonPage_activate, JogDialPage_activate.
  preserve; first [apply preserves_DisplayPage_activate | apply preserves_group_append].
Qed.

Lemma preserves_Page_deactivate p : preserves P (Page_deactivate p).
Proof.
  unfold Page_deactivate, DisplayPage_deactivate. preserve. apply preserves_set_main_group.
Qed.

(** A property kept by all writes is restored by a page switch, having
    never been lost. *)
Lemma kept_Paged : Paged typing P P.
Proof.
  split; [done| | |].
  - change (preserves P current_page_deactivate).
    unfold current_page_deactivate. preserve. apply preserves_Page_deactivate.
  - apply preserves_assign.
  - change (preserves P current_page_activate).
    unfold current_page_activate. preserve. apply preserves_Page_activate.
Qed.

End NavigationWrites.

(** The handlers of the encoder, which switch pages, and the idle test. *)
Section EncoderHandlers.

Variable typing : bool.
Variables P Mid : World -> Prop.
Hypothesis HPaged : Paged typing P Mid.

Lemma preserves_switch f :
  nav_assignment f ->
  preserves P (current_page_deactivate ;; modify_state f ;; current_page_activate).
Proof.
  intros Hf. apply (hoare_bind P (fun _ => Mid)); [apply HPaged|intros _].
  apply (hoare_bind Mid (fun _ => Mid)); [by apply HPaged|intros _]. apply HPaged.
Qed.

Lemma preserves_switch_2 f g :
  nav_assignment f -> nav_assignment g ->
  preserves P (current_page_deactivate ;; modify_state f ;; modify_state g ;;
               current_page_activate).
Proof.
  intros Hf Hg. apply (hoare_bind P (fun _ => Mid)); [apply HPaged|intros _].
  apply (hoare_bind Mid (fun _ => Mid)); [by apply HPaged|intros _].
  apply (hoare_bind Mid (fun _ => Mid)); [by apply HPaged|intros _]. apply HPaged.
Qed.

Lemma preserves_DisplayPage_handle_encoder_press p pressed :
  preserves P (DisplayPage_handle_encoder_press p pressed).
Proof.
  unfold DisplayPage_handle_encoder_press. preserve.
  apply preserves_switch_2; constructor.
Qed.

Lemma preserves_SelectionPage_handle_encoder_press p pressed :
  preserves P (SelectionPage_handle_encoder_press p pressed).
Proof.
  unfold SelectionPage_handle_encoder_press. preserve.
  apply (hoare_bind P (fun _ => Mid)); [apply HPaged|intros _].
  apply (hoare_bind Mid (fun _ => Mid));
    [apply reads_preserves, reads_get_selected_page|intros sp].
  apply (hoare_bind Mid (fun _ => Mid)); [|intros _; apply HPaged].
  apply (paged_assign _ P Mid HPaged). constructor.
Qed.

Lemma preserves_SleepPage_wake p : preserves P (SleepPage_wake p).
Proof. unfold SleepPage_wake. apply preserves_switch. constructor. Qed.

Lemma preserves_Page_handle_encoder_press p pressed :
  preserves P (Page_handle_encoder_press p pressed).
Proof.
  pose proof (paged_attr _ _ _ HPaged) as HP.
  unfold Page_handle_encoder_press, SleepPage_handle_encoder_press. preserve;
    first [apply preserves_DisplayPage_handle_encoder_press
          | apply preserves_SelectionPage_handle_encoder_press
          | apply preserves_SleepPage_wake].
Qed.

Lemma preserves_Page_handle_encoder_event p d a :
  preserves P (Page_handle_encoder_event p d a).
Proof.
  pose proof (paged_attr _ _ _ HPaged) as HP.
  unfold Page_handle_encoder_event, SleepPage_handle_encoder_event,
    DisplayPage_handle_encoder_event, SelectionPage_handle_encoder_event,
    SelectionPage_move_pick, SelectionPage_show_pick.
  preserve. apply preserves_SleepPage_wake.
Qed.

Lemma preserves_sleep_check now : preserves P (sleep_check now).
Proof. unfold sleep_check. preserve. apply preserves_switch_2; constructor. Qed.

Lemma preserves_on_current_page (m : PageId -> M unit) :
  (forall p, preserves P (m p)) -> preserves P (on_current_page m).
Proof. intros Hm. unfold on_current_page. preserve. Qed.

Lemma preserves_poll_encoder_switch inp v : preserves P (poll_encoder_switch inp v).
Proof.
  pose proof (paged_attr _ _ _ HPaged) as HP.
  unfold poll_encoder_switch. preserve; apply preserves_on_current_page; intros p;
    apply preserves_Page_handle_encoder_press.
Qed.

Lemma preserves_poll_encoder inp v : preserves P (poll_encoder inp v).
Proof.
  pose proof (paged_attr _ _ _ HPaged) as HP.
  unfold poll_encoder. preserve. apply preserves_on_current_page; intros p.
  apply preserves_Page_handle_encoder_event.
Qed.

End EncoderHandlers.

(** The dispatcher. *)
Section Dispatcher.

Variables P Mid : World -> Prop.
Hypothesis HPaged : Paged true P Mid.

Lemma preserves_forward_events inp v : preserves P (forward_events inp v).
Proof.
  pose proof (paged_attr _ _ _ HPaged) as HP.
  unfold forward_events, poll_keys, poll_jog.
  preserve;
    first [apply (preserves_poll_encoder_switch true P Mid HPaged)
          | apply (preserves_poll_encoder true P Mid HPaged)
          | apply preserves_on_current_page; intros p;
            first [by apply preserves_Page_handle_key_event
                  | by apply preserves_Page_handle_jog_event]].
Qed.

Lemma preserves_event_loop_iteration inp v : preserves P (event_loop_iteration inp v).
Proof.
  unfold event_loop_iteration. preserve;
    [apply preserves_forward_events|apply (preserves_sleep_check true P Mid HPaged)].
Qed.

Lemma preserves_event_loop inps : forall v, preserves P (event_loop inps v).
Proof.
  induction inps as [|inp rest IH]; intros v; cbn [event_loop]; [apply hoare_ret|].
  apply preserves_bind; [apply preserves_event_loop_iteration|intros v'; apply IH].
Qed.

End Dispatcher.

(** ** What every write keeps: the configuration *)

Lemma led_method_interval f l :
  led_method f -> LedState.interval (f l) = LedState.interval l.
Proof. by intros []. Qed.

Lemma map_insert_same {A B} (g : A -> B) (l : list A) i x y :
  l !! i = Some x -> g y = g x -> map g (<[i := y]> l) = map g l.
Proof.
  intros Hx Hg. change (g <$> <[i := y]> l = g <$> l).
  rewrite list_fmap_insert, Hg. apply list_insert_id. by rewrite list_lookup_fmap, Hx.
Qed.

Lemma configuration_attr_write typing w w' :
  attr_write typing w w' -> configuration w' = configuration w.
Proof.
  intros [e ? _|? n l f Hl Hf|t ?|? p pg c Hp Hc]; unfold configuration; cbn; try done.
  - by rewrite (map_insert_same _ _ _ l) by (done || by apply led_method_interval).
  - rewrite (map_insert_same _ _ _ pg); [done|done|].
    unfold page_configuration. cbn. by rewrite Hc.
Qed.

Lemma configuration_nav_write w w' : nav_write w w' -> configuration w' = configuration w.
Proof.
  intros [? p pg g Hp|? f Hf]; unfold configuration; cbn.
  - by rewrite (map_insert_same _ _ _ pg).
  - by destruct Hf.
Qed.

Lemma configuration_Paged x : Paged true (fun w => configuration w = x)
                                (fun w => configuration w = x).
Proof.
  apply kept_Paged.
  - intros w w' Hstep <-. by apply (configuration_attr_write true).
  - intros w w' Hstep <-. by apply configuration_nav_write.
Qed.

(** ** What every write keeps: indicators in mode OFF or ON *)

Lemma led_method_steady f l : led_method f -> steady l -> steady (f l).
Proof. intros [] Hl; unfold steady in *; cbn; auto. Qed.

Lemma steady_leds_Paged : Paged true steady_leds steady_leds.
Proof.
  apply kept_Paged.
  - intros w w' [e ? _|? n l f Hl Hf|t ?|? p pg c Hp Hc] Hw; unfold steady_leds; cbn;
      try done.
    apply Forall_insert; [done|]. apply led_method_steady; [done|].
    by apply (Forall_lookup_1 _ _ _ _ Hw Hl).
  - intros w w' [? p pg g Hp|? f Hf] Hw; unfold steady_leds; cbn; [done|].
    by destruct Hf.
Qed.

(** ** What a page switch restores: one display group *)

Lemma attr_write_same_groups typing w w' : attr_write typing w w' -> same_groups w w'.
Proof.
  intros [e ? _|? n l f Hl Hf|t ?|? p pg c Hp Hc]; split; cbn; try done.
  intros q. destruct (decide (q = p)) as [->|Hne].
  - rewrite list_lookup_insert_eq by (by eapply lookup_lt_Some). by rewrite Hp.
  - by rewrite list_lookup_insert_ne.
Qed.

Lemma same_groups_lookup w w' p pg' :
  same_groups w w' -> pages w' !! p = Some pg' ->
  exists pg, pages w !! p = Some pg /\ truthy (main_group pg') = truthy (main_group pg).
Proof.
  intros [_ Hg] Hp'. specialize (Hg p). rewrite Hp' in Hg. cbn in Hg.
  destruct (pages w !! p) as [pg|]; [|done]. exists pg. split; [done|].
  cbn in Hg. congruence.
Qed.

Lemma one_group_same_groups w w' : same_groups w w' -> one_group w -> one_group w'.
Proof.
  intros Hsame Hw p pg' Hp'.
  destruct (same_groups_lookup w w' p pg' Hsame Hp') as (pg & Hp & ->).
  rewrite (proj1 Hsame). by apply Hw.
Qed.

Lemma no_group_same_groups w w' : same_groups w w' -> no_group w -> no_group w'.
Proof.
  intros Hsame Hw p pg' Hp'.
  destruct (same_groups_lookup w w' p pg' Hsame Hp') as (pg & Hp & Heq).
  rewrite (Hw p pg Hp) in Heq. by destruct (main_group pg').
Qed.

Lemma one_group_attr typing : kept_by (attr_write typing) one_group.
Proof. intros w w' Hstep. apply one_group_same_groups. by eapply attr_write_same_groups. Qed.

(** Leaving the current page takes its group away. *)
Lemma one_group_deactivate : hoare one_group current_page_deactivate (fun _ => no_group).
Proof.
  intros w a w' Hw. unfold current_page_deactivate, bind at 1, get_state.
  destruct (current_page (state w)) as [cp|] eqn:Hcur; [|done]. cbn [deref].
  unfold bind at 1, ret. destruct (pages w !! cp) as [pgc|] eqn:Hpc.
  2: { unfold Page_deactivate, bind, emit, get_page. cbn. by rewrite Hpc. }
  rewrite (Page_deactivate_returns w cp pgc Hpc). intros [= _ <-].
  intros q pg. rewrite (deactivated_world_pages w cp pgc Hpc).
  destruct (decide (q = cp)) as [->|Hne].
  - rewrite list_lookup_insert_eq by (by eapply lookup_lt_Some). by intros [= <-].
  - rewrite list_lookup_insert_ne by done. intros Hq.
    specialize (Hw q pg Hq). rewrite Hcur, bool_decide_eq_false_2 in Hw by congruence.
    by destruct (main_group pg).
Qed.

Lemma no_group_assign f : nav_assignment f -> preserves no_group (modify_state f).
Proof. intros Hf w a w' Hw [= _ <-]. exact Hw. Qed.

Lemma entering_attr typing cp : kept_by (attr_write typing) (entering cp).
Proof.
  intros w w' Hstep [Hno Hcur].
  pose proof (attr_write_same_groups typing w w' Hstep) as Hsame. split.
  - by apply (no_group_same_groups w).
  - by rewrite (proj1 Hsame).
Qed.

Lemma entered_attr typing cp : kept_by (attr_write typing) (entered cp).
Proof.
  intros w w' Hstep [Hone Hcur].
  pose proof (attr_write_same_groups typing w w' Hstep) as Hsame. split.
  - by apply (one_group_same_groups w).
  - by rewrite (proj1 Hsame).
Qed.

Lemma entered_new_group cp :
  hoare (entering cp) (modify_page cp (Page_set_main_group (Some [])))
    (fun _ => entered cp).
Proof.
  intros w a w' [Hno Hcur]. unfold modify_page.
  destruct (pages w !! cp) as [pgc|] eqn:Hpc; [|done]. intros [= _ <-].
  split; [|done]. intros q pg. cbn. rewrite Hcur.
  destruct (decide (q = cp)) as [->|Hne].
  - rewrite list_lookup_insert_eq by (by eapply lookup_lt_Some). intros [= <-].
    by rewrite bool_decide_eq_true_2.
  - rewrite list_lookup_insert_ne by done. intros Hq.
    rewrite (Hno q pg Hq), bool_decide_eq_false_2 by congruence. done.
Qed.

Lemma entered_group_append cp p x : preserves (entered cp) (group_append p x).
Proof.
  intros w a w' [Hone Hcur]. unfold group_append, bind, get_page, modify_page.
  destruct (pages w !! p) as [pg|] eqn:Hp; [|done].
  destruct (main_group pg) as [g|] eqn:Hg; [|done]. rewrite Hp. intros [= _ <-].
  split; [|done]. intros q pgq. cbn.
  destruct (decide (q = p)) as [->|Hne].
  - rewrite list_lookup_insert_eq by (by eapply lookup_lt_Some). intros [= <-].
    rewrite <- (Hone p pg Hp). by rewrite Hg.
  - rewrite list_lookup_insert_ne by done. apply Hone.
Qed.

Lemma entered_DisplayPage_activate cp :
  hoare (entering cp) (DisplayPage_activate cp) (fun _ => entered cp).
Proof.
  pose proof (entering_attr true cp) as Hin. pose proof (entered_attr true cp) as Hout.
  unfold DisplayPage_activate.
  apply (hoare_bind _ (fun _ => entering cp)).
  { change (preserves (entering cp) (for_each (seq 0 12) (activate_slot cp))).
    apply preserves_for_each. intros i. unfold activate_slot. preserve. }
  intros _. apply (hoare_bind _ (fun _ => entered cp)); [apply entered_new_group|].
  intros _. change (preserves (entered cp) (emit (display_root_group cp) ;;
                      pg <- get_page cp ;;
                      match title pg with
                      | Some t => group_append cp (TitleLabel {| text := Some (title_text t) |})
                      | None => ret tt
                      end)).
  preserve. apply entered_group_append.
Qed.

Lemma entered_Page_activate cp :
  hoare (entering cp) (Page_activate cp) (fun _ => entered cp).
Proof.
  pose proof (entering_attr true cp) as Hin. pose proof (entered_attr true cp) as Hout.
  unfold Page_activate.
  apply (hoare_bind _ (fun _ => entering cp)); [by apply (preserves_emit true)|intros _].
  apply (hoare_bind _ (fun _ => entering cp));
    [apply reads_preserves, reads_get_page|intros pg].
  destruct (class pg);
    unfold SelectionPage_activate, SleepPage_activate, SimpleButtonPage_activate,
      JogDialPage_activate;
    try apply entered_DisplayPage_activate;
    (apply (hoare_bind _ (fun _ => entered cp)); [apply entered_DisplayPage_activate|]);
    intros _; match goal with |- hoare ?P ?c _ => change (preserves P c) end;
    preserve; apply entered_group_append.
Qed.

Lemma no_group_activate : hoare no_group current_page_activate (fun _ => one_group).
Proof.
  intros w a w' Hw. unfold current_page_activate, bind at 1, get_state.
  destruct (current_page (state w)) as [cp|] eqn:Hcur; [|done]. cbn [deref].
  unfold bind, ret. intros Hrun.
  by destruct (entered_Page_activate cp w a w' (conj Hw Hcur) Hrun).
Qed.

Lemma one_group_Paged : Paged true one_group no_group.
Proof.
  split.
  - apply one_group_attr.
  - apply one_group_deactivate.
  - apply no_group_assign.
  - apply no_group_activate.
Qed.

(** ** Invariants of the running loop *)

Lemma event_loop_total_and_kept P Mid inps v w :
  Paged true P Mid -> Inv w -> Forall input_ok inps -> P w ->
  exists v' w', event_loop inps v w = Returns v' w' /\ Inv w' /\ P w'.
Proof.
  intros HPaged HI Hok Hw.
  destruct (event_loop_Inv inps v w HI Hok) as (v' & w' & Hrun & HI').
  exists v', w'. split; [done|]. split; [done|].
  exact (preserves_event_loop P Mid HPaged inps v w v' w' Hw Hrun).
Qed.

(** X3. The loop never writes the configuration: after any number of
    iterations, from any world of the running firmware, the idle time,
    the sleep page, the selection page, the page stack, the twelve key
    states, the blink intervals of the indicators and every page's class,
    title and twelve key settings (colours, trigger modes, callbacks) are
    what they were.  In particular no [KeyState] is ever updated and no
    page is added or removed while the loop runs. *)
Theorem configuration_is_never_written inps v w :
  Inv w -> Forall input_ok inps ->
  exists v' w', event_loop inps v w = Returns v' w' /\ configuration w' = configuration w.
Proof.
  intros HI Hok.
  destruct (event_loop_total_and_kept _ _ inps v w (configuration_Paged (configuration w))
              HI Hok eq_refl) as (v' & w' & Hrun & _ & Hcfg).
  eauto.
Qed.

Lemma configuration_is_never_written_witness :
  exists v' w',
    event_loop [key_down 1 9 0 0; key_up 2 9 0 0; encoder_down 3 0 0; quiet 4 0 2;
                encoder_down 5 0 2; quiet 6 0 2; key_down 7 10 0 2; quiet 8 5 2;
                quiet 1000000000000 5 2; quiet 1000000000001 5 3] loop_start started
    = Returns v' w'
    /\ configuration w' = configuration started.
Proof.
  assert (inv_ok started = true) as Hinv by (vm_compute; reflexivity).
  apply (configuration_is_never_written _ loop_start started (inv_ok_sound started Hinv)).
  repeat constructor; cbn; lia.
Defined.

Lemma steady_render l odd_half :
  steady l ->
  led_render odd_half l
  = Some (if LedMode_eqb (LedState.mode l) ON then LedState.on_color l
          else LedState.off_color l).
Proof. unfold led_render. by intros [-> | ->]. Qed.

Lemma steady_leds_started : steady_leds started.
Proof. unfold steady_leds. repeat constructor. Qed.

(** X4. The loop puts no indicator into BLINK or PULSE mode: from a world
    of the running firmware in which every indicator is OFF or ON (as
    [main] leaves them), every indicator is OFF or ON after any number of
    iterations, so that each pass of its animator writes a pixel, the
    on-colour when ON and the off-colour when OFF, whatever the time. *)
Theorem indicators_never_blink inps v w :
  Inv w -> steady_leds w -> Forall input_ok inps ->
  exists v' w',
    event_loop inps v w = Returns v' w'
    /\ forall l, l ∈ led_states (state w') ->
         (LedState.mode l = OFF \/ LedState.mode l = ON)
         /\ forall odd_half,
              led_render odd_half l
              = Some (if LedMode_eqb (LedState.mode l) ON then LedState.on_color l
                      else LedState.off_color l).
Proof.
  intros HI Hw Hok.
  destruct (event_loop_total_and_kept _ _ inps v w steady_leds_Paged HI Hok Hw)
    as (v' & w' & Hrun & _ & Hsteady).
  exists v', w'. split; [done|]. intros l Hl.
  pose proof (proj1 (Forall_forall _ _) Hsteady l Hl) as Hs.
  split; [exact Hs|]. intros b. by apply steady_render.
Qed.

Lemma indicators_never_blink_witness :
  exists v' w',
    event_loop [key_down 1 0 0 0; quiet 2 0 0; key_up 3 0 0 0; encoder_down 4 0 0]
      loop_start started = Returns v' w'
    /\ forall l, l ∈ led_states (state w') ->
         (LedState.mode l = OFF \/ LedState.mode l = ON)
         /\ forall odd_half,
              led_render odd_half l
              = Some (if LedMode_eqb (LedState.mode l) ON then LedState.on_color l
                      else LedState.off_color l).
Proof.
  assert (inv_ok started = true) as Hinv by (vm_compute; reflexivity).
  apply (indicators_never_blink _ loop_start started (inv_ok_sound started Hinv)
           steady_leds_started).
  repeat constructor; cbn; lia.
Defined.

Lemma one_group_started : one_group started.
Proof.
  intros p pg Hp.
  do 7 (destruct p as [|p]; [injection Hp as <-; reflexivity|]). discriminate Hp.
Qed.

(** X5. At most one display group is alive: from a world of the running
    firmware in which the current page and no other holds a group (as
    [main] leaves it), after any number of iterations the current page
    holds a group and every other page's [main_group] is [None]; each
    page switch has dropped the group of the page it left. *)
Theorem only_the_current_page_holds_a_group inps v w :
  Inv w -> one_group w -> Forall input_ok inps ->
  exists v' w' cp pgc,
    event_loop inps v w = Returns v' w'
    /\ current_page (state w') = Some cp /\ pages w' !! cp = Some pgc
    /\ is_Some (main_group pgc)
    /\ forall p pg, pages w' !! p = Some pg -> p <> cp -> main_group pg = None.
Proof.
  intros HI Hw Hok.
  destruct (event_loop_total_and_kept _ _ inps v w one_group_Paged HI Hok Hw)
    as (v' & w' & Hrun & HI' & Hone).
  destruct (Inv_current w' HI') as (cp & pgc & Hcur & Hpc).
  exists v', w', cp, pgc. repeat (split; [done|]). split.
  - pose proof (Hone cp pgc Hpc) as H. rewrite Hcur, bool_decide_eq_true_2 in H by done.
    by destruct (main_group pgc).
  - intros p pg Hp Hne. pose proof (Hone p pg Hp) as H.
    rewrite Hcur, bool_decide_eq_false_2 in H by congruence.
    by destruct (main_group pg).
Qed.

Lemma only_the_current_page_holds_a_group_witness :
  exists v' w' cp pgc,
    event_loop [encoder_down 1 0 0; quiet 2 0 1; encoder_down 3 0 1;
                quiet 1000000000000 0 1; quiet 1000000000001 0 2] loop_start started
    = Returns v' w'
    /\ current_page (state w') = Some cp /\ pages w' !! cp = Some pgc
    /\ is_Some (main_group pgc)
    /\ forall p pg, pages w' !! p = Some pg -> p <> cp -> main_group pg = None.
Proof.
  assert (inv_ok started = true) as Hinv by (vm_compute; reflexivity).
  apply (only_the_current_page_holds_a_group _ loop_start started
           (inv_ok_sound started Hinv) one_group_started).
  repeat constructor; cbn; lia.
Defined.

(** ** What is sent to the host *)

Lemma typed_logged e w : is_keyboard e = false -> typed (logged [e] w) = typed w.
Proof.
  intros He. unfold typed. cbn. rewrite filter_app. cbn.
  rewrite decide_False by (by rewrite He). by rewrite app_nil_r.
Qed.

Lemma typed_Paged x : Paged false (fun w => typed w = x) (fun w => typed w = x).
Proof.
  apply kept_Paged.
  - intros w w' [e ? He|? n l f Hl Hf|t ?|? p pg c Hp Hc] <-; try done.
    apply typed_logged. by apply He.
  - by intros w w' [? p pg g Hp|? f Hf] <-.
Qed.

Lemma forward_events_without_keys inp v w :
  key_event inp = None -> jog_position inp = last_jog_pos v ->
  forward_events inp v w
  = (held <- poll_encoder_switch inp v ;;
     enc <- poll_encoder inp v ;;
     ret {| last_jog_pos := last_jog_pos v; last_encoder_pos := enc;
            encoder_held := held |}) w.
Proof.
  intros Hk Hj. unfold forward_events, poll_keys, poll_jog.
  rewrite Hk, Hj, Z.eqb_refl. cbn [negb]. unfold bind, ret.
  by destruct (poll_encoder_switch inp v w).
Qed.

(** X6. Pressing or turning the encoder, falling asleep and waking send
    nothing to the host: an iteration with no key event and no move of
    the jog dial, from any world of the running firmware, returns and
    leaves the keyboard output as it was, whatever page switch it makes. *)
Theorem encoder_and_idle_timer_never_type inp v w :
  Inv w -> key_event inp = None -> jog_position inp = last_jog_pos v ->
  exists v' w', event_loop_iteration inp v w = Returns v' w' /\ typed w' = typed w.
Proof.
  intros HI Hk Hj.
  assert (input_ok inp) as Hok by (unfold input_ok; by rewrite Hk).
  destruct (event_loop_iteration_Inv inp v w HI Hok) as (v' & w' & Hrun & _).
  exists v', w'. split; [done|].
  pose proof (typed_Paged (typed w)) as HPaged.
  pose proof (paged_attr _ _ _ HPaged) as HP.
  revert Hrun. unfold event_loop_iteration, bind at 1.
  rewrite (forward_events_without_keys inp v w Hk Hj).
  intros Hrun.
  assert (preserves (fun w0 => typed w0 = typed w)
            (v1 <- (held <- poll_encoder_switch inp v ;;
                    enc <- poll_encoder inp v ;;
                    ret {| last_jog_pos := last_jog_pos v; last_encoder_pos := enc;
                           encoder_held := held |}) ;;
             sleep_check (current_time inp) ;; ret v1)) as Hkeep.
  { preserve;
      first [apply (preserves_poll_encoder_switch false _ _ HPaged)
            | apply (preserves_poll_encoder false _ _ HPaged)
            | apply (preserves_sleep_check false _ _ HPaged)]. }
  exact (Hkeep w v' w' eq_refl Hrun).
Qed.

Lemma encoder_and_idle_timer_never_type_witness :
  exists v' w',
    event_loop_iteration (encoder_down 1 0 3) loop_start started = Returns v' w'
    /\ current_page (state w') = Some selection_page_id
    /\ typed w' = [].
Proof.
  assert (inv_ok started = true) as Hinv by (vm_compute; reflexivity).
  destruct (encoder_and_idle_timer_never_type (encoder_down 1 0 3) loop_start started
              (inv_ok_sound started Hinv) eq_refl eq_refl) as (v' & w' & Hrun & Htyped).
  exists v', w'. split; [exact Hrun|]. split; [|exact Htyped].
  vm_compute in Hrun. by injection Hrun as <- <-.
Defined.

(** ** Keys and the jog dial never turn a page *)

Lemma navigation_attr typing x : kept_by (attr_write typing) (fun w => navigation w = x).
Proof. by intros w w' [e ? He|? n l f Hl Hf|t ?|? p pg c Hp Hc] <-. Qed.

Section WithoutEncoder.

Variable P : World -> Prop.
Hypothesis HP : kept_by (attr_write true) P.

Lemma preserves_encoder_release p : preserves P (Page_handle_encoder_press p false).
Proof.
  unfold Page_handle_encoder_press, DisplayPage_handle_encoder_press,
    SelectionPage_handle_encoder_press, SleepPage_handle_encoder_press.
  cbn [andb]. preserve.
Qed.

Lemma preserves_poll_encoder_switch_held inp v :
  (encoder_switch_pressed inp = true -> encoder_held v = true) ->
  preserves P (poll_encoder_switch inp v).
Proof.
  intros Hheld. unfold poll_encoder_switch.
  destruct (encoder_switch_pressed inp).
  - rewrite Hheld by done. cbn [negb]. apply hoare_ret.
  - preserve. apply preserves_on_current_page. intros p. apply preserves_encoder_release.
Qed.

Lemma preserves_poll_keys inp : preserves P (poll_keys inp).
Proof.
  unfold poll_keys. preserve. apply preserves_on_current_page. intros p.
  by apply preserves_Page_handle_key_event.
Qed.

Lemma preserves_poll_jog inp v : preserves P (poll_jog inp v).
Proof.
  unfold poll_jog. preserve. apply preserves_on_current_page. intros p.
  by apply preserves_Page_handle_jog_event.
Qed.

Lemma preserves_forward_events_without_encoder inp v :
  (encoder_switch_pressed inp = true -> encoder_held v = true) ->
  encoder inp = last_encoder_pos v ->
  hoare P (forward_events inp v)
    (fun v1 w1 => P w1 /\ last_encoder_pos v1 = last_encoder_pos v).
Proof.
  intros Hheld Henc. unfold forward_events.
  apply (hoare_bind _ (fun _ => P)); [by apply preserves_poll_encoder_switch_held|].
  intros held. apply (hoare_bind _ (fun _ => P)); [apply preserves_poll_keys|].
  intros _. apply (hoare_bind _ (fun _ => P)); [apply preserves_poll_jog|].
  intros jog. unfold poll_encoder. rewrite Henc, Z.eqb_refl. cbn [negb].
  intros w a w' Hw. unfold bind, ret. by intros [= <- <-].
Qed.

End WithoutEncoder.

Lemma tick_without_encoder inp v w :
  Inv w -> input_ok inp ->
  (encoder_switch_pressed inp = true -> encoder_held v = true) ->
  encoder inp = last_encoder_pos v ->
  exists v1 w1,
    forward_events inp v w = Returns v1 w1 /\ Inv w1
    /\ navigation w1 = navigation w /\ configuration w1 = configuration w
    /\ last_encoder_pos v1 = last_encoder_pos v
    /\ (active inp v -> last_interaction (state w1) = Some (current_time inp)).
Proof.
  intros HI Hok Hheld Henc.
  destruct (forward_events_Inv inp v w HI Hok) as (v1 & w1 & Hrun & HI1 & Hactive).
  exists v1, w1. split; [done|]. split; [done|].
  destruct (preserves_forward_events_without_encoder _ (navigation_attr true (navigation w))
              inp v Hheld Henc w v1 w1 eq_refl Hrun) as [Hnav Hpos].
  split; [done|]. split; [|done].
  exact (preserves_forward_events _ _ (configuration_Paged (configuration w))
           inp v w v1 w1 eq_refl Hrun).
Qed.

(** X7. Key events and the jog dial never turn a page: when the encoder
    is neither newly pressed nor moved, forwarding the inputs of an
    iteration, whatever keys and jog moves they hold, returns and leaves
    [current_page], [previous_page] and [wake_to_page] as they were. *)
Theorem keys_and_jog_never_turn_pages inp v w :
  Inv w -> input_ok inp ->
  (encoder_switch_pressed inp = true -> encoder_held v = true) ->
  encoder inp = last_encoder_pos v ->
  exists v1 w1,
    forward_events inp v w = Returns v1 w1
    /\ current_page (state w1) = current_page (state w)
    /\ previous_page (state w1) = previous_page (state w)
    /\ wake_to_page (state w1) = wake_to_page (state w).
Proof.
  intros HI Hok Hheld Henc.
  destruct (tick_without_encoder inp v w HI Hok Hheld Henc)
    as (v1 & w1 & Hrun & _ & Hnav & _).
  exists v1, w1. split; [done|]. unfold navigation in Hnav. by injection Hnav.
Qed.

Lemma keys_and_jog_never_turn_pages_witness :
  exists v1 w1,
    forward_events (key_down 1 3 5 0) loop_start started = Returns v1 w1
    /\ current_page (state w1) = Some job_control_page_id
    /\ last_jog_pos v1 = 5.
Proof.
  assert (inv_ok started = true) as Hinv by (vm_compute; reflexivity).
  destruct (keys_and_jog_never_turn_pages (key_down 1 3 5 0) loop_start started
              (inv_ok_sound started Hinv)) as (v1 & w1 & Hrun & Hcur & _).
  { unfold input_ok. cbn. lia. }
  { cbn. discriminate. }
  { reflexivity. }
  exists v1, w1. split; [exact Hrun|]. split; [exact Hcur|].
  vm_compute in Hrun. by injection Hrun as <- <-.
Defined.

(** X8. An iteration that sees activity (an edge of the encoder press, a
    key event, a move of the jog dial or of the encoder) sets
    [last_interaction] to its own time and, the idle time being
    non-negative, never makes the idle transition: it ends where the
    forwarding of its inputs ends. *)
Theorem activity_postpones_sleep inp v w :
  Inv w -> input_ok inp -> active inp v -> 0 <= sleep_time (state w) ->
  exists v1 w1,
    forward_events inp v w = Returns v1 w1
    /\ last_interaction (state w1) = Some (current_time inp)
    /\ event_loop_iteration inp v w = Returns v1 w1.
Proof.
  intros HI Hok Hact Hsleep.
  destruct (forward_events_Inv inp v w HI Hok) as (v1 & w1 & Hrun & HI1 & Hactive).
  pose proof (preserves_forward_events _ _ (configuration_Paged (configuration w))
                inp v w v1 w1 eq_refl Hrun) as Hcfg.
  assert (sleep_time (state w1) = sleep_time (state w)) as Htime
    by (unfold configuration in Hcfg; by injection Hcfg).
  exists v1, w1. split; [done|]. split; [by apply Hactive|].
  rewrite (event_loop_iteration_split _ _ _ _ _ Hrun).
  rewrite (sleep_check_stays_awake w1 _ (current_time inp)); [done|by apply Hactive|].
  unfold sleep_threshold. rewrite Htime. lia.
Qed.

Lemma activity_postpones_sleep_witness :
  exists v1 w1,
    event_loop_iteration (key_down 1000000000000 3 0 0) loop_start started = Returns v1 w1
    /\ last_interaction (state w1) = Some 1000000000000
    /\ current_page (state w1) = Some job_control_page_id.
Proof.
  assert (inv_ok started = true) as Hinv by (vm_compute; reflexivity).
  destruct (activity_postpones_sleep (key_down 1000000000000 3 0 0) loop_start started
              (inv_ok_sound started Hinv)) as (v1 & w1 & _ & Hlast & Hrun).
  { unfold input_ok. cbn. lia. }
  { right. left. cbn. eauto. }
  { vm_compute. discriminate. }
  exists v1, w1. split; [exact Hrun|]. split; [exact Hlast|].
  vm_compute in Hrun. by injection Hrun as <- <-.
Defined.

(** X9. Only the encoder wakes the device: while the sleep page is
    current, any number of iterations in which the encoder is neither
    pressed nor moved return with the sleep page still current and
    [wake_to_page] unchanged, whatever keys are pressed, however the jog
    dial moves and however much time passes. *)
Theorem asleep_until_the_encoder_moves inps : forall v w sp,
  Inv w -> current_page (state w) = Some sp -> sleep_page (state w) = Some sp ->
  Forall input_ok inps ->
  Forall (fun inp => encoder_switch_pressed inp = false
                     /\ encoder inp = last_encoder_pos v) inps ->
  exists v' w',
    event_loop inps v w = Returns v' w'
    /\ current_page (state w') = Some sp
    /\ wake_to_page (state w') = wake_to_page (state w).
Proof.
  induction inps as [|inp rest IH]; intros v w sp HI Hcur Hsleep Hok Hquiet;
    cbn [event_loop].
  - by exists v, w.
  - apply Forall_cons in Hok as [Hinp Hok]. apply Forall_cons in Hquiet as [[Hup Henc] Hquiet].
    destruct (tick_without_encoder inp v w HI Hinp) as
      (v1 & w1 & Hrun & HI1 & Hnav & Hcfg & Hpos & _); [by rewrite Hup|done|].
    unfold navigation in Hnav. injection Hnav as Hc Hp Hw.
    assert (sleep_page (state w1) = sleep_page (state w)) as Hs
      by (unfold configuration in Hcfg; by injection Hcfg).
    assert (event_loop_iteration inp v w = Returns v1 w1) as Htick.
    { rewrite (event_loop_iteration_split _ _ _ _ _ Hrun).
      unfold sleep_check, bind, get_state. rewrite Hc, Hs, Hcur, Hsleep. cbn.
      by rewrite Nat.eqb_refl. }
    rewrite (bind_returns _ _ _ _ _ Htick).
    destruct (IH v1 w1 sp HI1) as (v' & w' & Hloop & Hcur' & Hwake');
      [congruence|congruence|done|by rewrite Hpos|].
    exists v', w'. split; [done|]. split; [done|]. congruence.
Qed.

Lemma asleep_until_the_encoder_moves_witness :
  exists v' w',
    event_loop [key_down 900000000002 3 0 0; quiet 900000000003 7 0;
                key_up 1900000000000 3 7 0] loop_start sleeping = Returns v' w'
    /\ current_page (state w') = Some sleep_page_id
    /\ wake_to_page (state w') = Some job_control_page_id.
Proof.
  assert (inv_ok sleeping = true) as Hinv by (vm_compute; reflexivity).
  destruct (asleep_until_the_encoder_moves
              [key_down 900000000002 3 0 0; quiet 900000000003 7 0;
               key_up 1900000000000 3 7 0] loop_start sleeping sleep_page_id
              (inv_ok_sound sleeping Hinv) eq_refl eq_refl)
    as (v' & w' & Hrun & Hcur & Hwake).
  { repeat constructor; unfold input_ok; cbn; lia. }
  { repeat constructor. }
  exists v', w'. split; [exact Hrun|]. split; [exact Hcur|exact Hwake].
Defined.

(** ** Opening and leaving the selection page *)

Lemma switched_previous_page cp target g w pgc pgt :
  pages w !! cp = Some pgc -> pages w !! target = Some pgt ->
  previous_page (state (switched cp target g w)) = previous_page (g (state w)).
Proof.
  intros Hcp Ht. by destruct (switched_state cp target g w pgc pgt Hcp Ht) as [leds ->].
Qed.

(** The indicators after a page switch: those of the target page. *)
Lemma switched_leds cp target g w pgc pgt i ks l :
  pages w !! cp = Some pgc -> pages w !! target = Some pgt ->
  led_states (g (state w)) = led_states (state w) ->
  key_settings pgt !! i = Some ks -> led_states (state w) !! i = Some l -> (i < 12)%nat ->
  led_states (state (switched cp target g w)) !! i = Some (activated_led ks l).
Proof.
  intros Hcp Ht Hg Hks Hl Hi. unfold switched.
  destruct (deactivated_lookup w cp pgc target pgt Hcp Ht) as (pgt' & Ht' & Hkeys & _).
  rewrite (activated_world_state _ target pgt') by done. cbn.
  rewrite Hkeys, Hg. by apply activated_leds_lookup.
Qed.

(** The world a press leaves on a page of the stack. *)
Lemma opened_selection w cp :
  Inv w -> current_page (state w) = Some cp -> cp ∈ page_stack (state w) ->
  exists sel pgc pgc' pgsel lbl w',
    selection_page (state w) = Some sel /\ pages w !! cp = Some pgc
    /\ Page_handle_encoder_press cp true w = Returns tt w'
    /\ Inv w'
    /\ current_page (state w') = Some sel
    /\ previous_page (state w') = Some cp
    /\ selection_page (state w') = Some sel
    /\ pages w' !! sel = Some pgsel
    /\ class pgsel = SelectionPage (Some cp) (Some lbl)
    /\ text lbl = title pgc
    /\ pages w' !! cp = Some pgc' /\ key_settings pgc' = key_settings pgc
    /\ trace w' = trace w ++ [call_handle_encoder_press cp true;
                             call_deactivate cp; gc_collect; print_free_memory;
                             call_activate sel; display_root_group sel].
Proof.
  intros HI Hcur Hon. pose proof HI as [HC HN].
  destruct (cfg_stack _ HC cp Hon) as (pgc & Hpc & Hord).
  destruct (cfg_selection _ HC) as (sel & pgs & Hsel & Hps & Hcs).
  set (w0 := logged [call_handle_encoder_press cp true] w).
  set (g := fun s => set_current_page (selection_page s)
                       (set_previous_page (current_page s) s)).
  pose proof (ordinary_press_returns w cp pgc sel pgs HC Hcur Hon Hpc Hord Hsel Hps) as Hrun.
  fold w0 g in Hrun.
  destruct (Page_handle_encoder_press_Inv w cp true HI Hcur) as (w' & Hrun' & HI').
  rewrite Hrun in Hrun'. injection Hrun' as <-.
  destruct (class pgs) as [|r0 l0| | |] eqn:Hclass; try done.
  destruct (switched_class_selection cp sel g w0 pgc pgs r0 l0 Hpc Hps Hclass)
    as (pgsel & lbl & Hpsel & Hcsel & Htext).
  pose proof (switched_config_step cp sel g w0 pgc pgs Hpc Hps navigates_select) as Hstep.
  destruct (cs_pages _ _ Hstep cp pgc Hpc) as (pgc' & Hpc' & Hkeys & _).
  exists sel, pgc, pgc', pgsel, lbl, (switched cp sel g w0).
  split; [done|]. split; [done|]. split; [done|]. split; [done|].
  rewrite (switched_current_page cp sel g w0 pgc pgs Hpc Hps).
  rewrite (switched_previous_page cp sel g w0 pgc pgs Hpc Hps).
  rewrite (switched_trace cp sel g w0 pgc pgs Hpc Hps).
  rewrite (cs_selection _ _ Hstep).
  cbn. rewrite Hsel, Hcur. split; [done|]. split; [done|]. split; [done|].
  split; [done|].
  split; [by rewrite Hcsel; cbn; rewrite Hcur|].
  split; [|split; [done|split; [done|by rewrite <- app_assoc]]].
  rewrite Htext. unfold previous_title. cbn. rewrite Hcur.
  rewrite (deactivated_world_pages w0 cp pgc Hpc).
  rewrite list_lookup_insert_eq by (by eapply lookup_lt_Some). done.
Qed.

(** X10. Pressing the encoder on the current page, when that page is one
    of the page stack, returns and leaves the selection page current with
    the page that was left as [previous_page], as the pick of the
    selection page and with its title as the text of the label; the
    display calls are those of one deactivation and one activation, and
    the world reached satisfies the invariant.  The pages of the stack
    have titles, as the invariant says ([cfg_titles]): the label is made
    from the title of the page that was left. *)
Theorem encoder_press_opens_selection w cp :
  Inv w -> current_page (state w) = Some cp -> cp ∈ page_stack (state w) ->
  exists sel pgc pgsel lbl w',
    selection_page (state w) = Some sel /\ pages w !! cp = Some pgc
    /\ Page_handle_encoder_press cp true w = Returns tt w'
    /\ current_page (state w') = Some sel
    /\ previous_page (state w') = Some cp
    /\ pages w' !! sel = Some pgsel
    /\ class pgsel = SelectionPage (Some cp) (Some lbl)
    /\ text lbl = title pgc
    /\ trace w' = trace w ++ [call_handle_encoder_press cp true;
                             call_deactivate cp; gc_collect; print_free_memory;
                             call_activate sel; display_root_group sel]
    /\ Inv w'.
Proof.
  intros HI Hcur Hon.
  destruct (opened_selection w cp HI Hcur Hon)
    as (sel & pgc & pgc' & pgsel & lbl & w' & Hsel & Hpc & Hrun & HI' & Hcur' & Hprev
        & _ & Hpsel & Hcsel & Htext & _ & _ & Htrace).
  exists sel, pgc, pgsel, lbl, w'.
  repeat (split; [done|]). done.
Qed.

Lemma encoder_press_opens_selection_witness :
  exists pgsel lbl w',
    Page_handle_encoder_press arrow_jog_page_id true on_arrow_jog = Returns tt w'
    /\ current_page (state w') = Some selection_page_id
    /\ pages w' !! selection_page_id = Some pgsel
    /\ class pgsel = SelectionPage (Some arrow_jog_page_id) (Some lbl)
    /\ text lbl = Some "Arrow Jog".
Proof.
  assert (inv_ok on_arrow_jog = true) as Hinv by (vm_compute; reflexivity).
  assert (arrow_jog_page_id ∈ page_stack (state on_arrow_jog)) as Hon.
  { apply memb_elem. vm_compute. reflexivity. }
  destruct (encoder_press_opens_selection on_arrow_jog arrow_jog_page_id
              (inv_ok_sound on_arrow_jog Hinv) eq_refl Hon)
    as (sel & pgc & pgsel & lbl & w' & Hsel & Hpc & Hrun & Hcur & _ & Hp & Hc & Ht & _).
  vm_compute in Hsel. injection Hsel as <-.
  vm_compute in Hpc. injection Hpc as <-.
  exists pgsel, lbl, w'. repeat split; done.
Defined.

(** X11. Opening the selection page and committing at once is a round
    trip: from the current page of the stack, one press opens the
    selection page and a second press, with no rotation in between,
    returns to the page that was left; the twelve indicators then carry
    the colours of that page's key settings, in mode OFF and with their
    event set, and the world reached satisfies the invariant.  The pages
    of the stack have titles, as the invariant says ([cfg_titles]). *)
Theorem selection_open_and_commit_round_trip w cp :
  Inv w -> current_page (state w) = Some cp -> cp ∈ page_stack (state w) ->
  exists sel pgc w1 w2,
    selection_page (state w) = Some sel /\ pages w !! cp = Some pgc
    /\ Page_handle_encoder_press cp true w = Returns tt w1
    /\ current_page (state w1) = Some sel
    /\ Page_handle_encoder_press sel true w1 = Returns tt w2
    /\ current_page (state w2) = Some cp
    /\ Inv w2
    /\ forall (i : nat) ks, key_settings pgc !! i = Some ks ->
         exists l, led_states (state w2) !! i = Some l
           /\ LedState.on_color l = KeySettings.on_color ks
           /\ LedState.off_color l = KeySettings.off_color ks
           /\ LedState.mode l = OFF /\ LedState.event l = true.
Proof.
  intros HI Hcur Hon.
  destruct (opened_selection w cp HI Hcur Hon)
    as (sel & pgc & pgc' & pgsel & lbl & w1 & Hsel & Hpc & Hrun1 & HI1 & Hcur1 & Hprev1
        & Hsel1 & Hpsel & Hcsel & _ & Hpc' & Hkeys & _).
  set (w0 := logged [call_handle_encoder_press sel true] w1).
  assert (activatable w1 cp = true) as Hact.
  { destruct (Inv_selecting w1 sel HI1 Hcur1 Hsel1)
      as (pg & pick & lbl' & i & pgpick & Hp & Hc & _ & _ & Hact & _).
    replace pg with pgsel in Hc by congruence. congruence. }
  pose proof (selection_page_press_returns w1 sel pgsel cp (Some lbl)
                Hcur1 Hsel1 Hpsel Hcsel Hact) as Hrun2.
  destruct (Page_handle_encoder_press_Inv w1 sel true HI1 Hcur1) as (w2 & Hrun2' & HI2).
  exists sel, pgc, w1, w2. repeat (split; [done|]).
  rewrite Hrun2 in Hrun2'. injection Hrun2' as <-. unfold committed. fold w0.
  split; [by rewrite (switched_current_page sel cp _ w0 pgsel pgc')|].
  split; [done|].
  intros k ks Hks. rewrite <- Hkeys in Hks.
  assert (k < 12)%nat as Hk.
  { rewrite <- (cfg_keys _ (proj1 HI1) cp pgc' Hpc'). by eapply lookup_lt_Some. }
  destruct (lookup_lt_is_Some_2 (led_states (state w0)) k) as [l Hl].
  { cbn. by rewrite (cfg_leds _ (proj1 HI1)). }
  exists (activated_led ks l). split; [|done].
  by apply (switched_leds sel cp _ w0 pgsel pgc' k ks l).
Qed.

Lemma selection_open_and_commit_round_trip_witness :
  exists w1 w2,
    Page_handle_encoder_press arrow_jog_page_id true on_arrow_jog = Returns tt w1
    /\ Page_handle_encoder_press selection_page_id true w1 = Returns tt w2
    /\ current_page (state w2) = Some arrow_jog_page_id
    /\ Inv w2.
Proof.
  assert (inv_ok on_arrow_jog = true) as Hinv by (vm_compute; reflexivity).
  assert (arrow_jog_page_id ∈ page_stack (state on_arrow_jog)) as Hon.
  { apply memb_elem. vm_compute. reflexivity. }
  destruct (selection_open_and_commit_round_trip on_arrow_jog arrow_jog_page_id
              (inv_ok_sound on_arrow_jog Hinv) eq_refl Hon)
    as (sel & pgc & w1 & w2 & Hsel & _ & Hrun1 & _ & Hrun2 & Hcur & HI2 & _).
  vm_compute in Hsel. injection Hsel as <-.
  exists w1, w2. split; [exact Hrun1|]. split; [exact Hrun2|]. split; [exact Hcur|exact HI2].
Defined.

(** ** Turning the encoder on the selection page *)

Lemma list_index_NoDup (l : list nat) j q :
  NoDup l -> l !! j = Some q -> list_index q l = Some j.
Proof.
  intros Hnd. revert j. induction Hnd as [|x l Hx Hnd IH]; intros j; [done|].
  destruct j as [|j]; cbn.
  - intros [= ->]. by rewrite Nat.eqb_refl.
  - intros Hj. destruct (Nat.eqb_spec x q) as [->|Hne].
    + destruct Hx. apply list_elem_of_lookup. eauto.
    + by rewrite (IH j Hj).
Qed.

Lemma Page_set_class_twice c c' pg :
  Page_set_class c' (Page_set_class c pg) = Page_set_class c' pg.
Proof. done. Qed.

Lemma Page_set_class_same pg : Page_set_class (class pg) pg = pg.
Proof. by destruct pg. Qed.

(** One encoder event on the selection page that is current. *)
Lemma rotation_step w sel d a :
  Inv w -> current_page (state w) = Some sel -> selection_page (state w) = Some sel ->
  d <> 0 ->
  exists pg pick lbl i q pgq,
    pages w !! sel = Some pg /\ class pg = SelectionPage (Some pick) (Some lbl)
    /\ lbl = {| text := match pages w !! pick with Some pgp => title pgp | None => None end |}
    /\ list_index pick (page_stack (state w)) = Some i
    /\ page_stack (state w)
         !! Z.to_nat ((Z.of_nat i + Z.sgn d) mod Z.of_nat (length (page_stack (state w))))
       = Some q
    /\ q <> sel
    /\ pages w !! q = Some pgq
    /\ Page_handle_encoder_event sel d a w
       = Returns tt
           (with_pages
              (<[sel := Page_set_class
                          (SelectionPage (Some q) (Some {| text := title pgq |})) pg]>
                 (pages w)) (logged [call_handle_encoder_event sel d a] w))
    /\ Inv (with_pages
              (<[sel := Page_set_class
                          (SelectionPage (Some q) (Some {| text := title pgq |})) pg]>
                 (pages w)) (logged [call_handle_encoder_event sel d a] w)).
Proof.
  intros HI Hcur Hsel Hd.
  destruct (Inv_selecting w sel HI Hcur Hsel)
    as (pg & pick & lbl & i & pgpick & Hp & Hc & Hi & Hvalid & _ & Hpp & Htext).
  set (w0 := logged [call_handle_encoder_event sel d a] w).
  destruct (selection_rotation_returns w0 sel pg pick lbl i d a Hp Hc Hi Hvalid Hd)
    as (q & pgq & Hq & Hpgq & _ & Hrun).
  assert (q ∈ page_stack (state w)) as Hon by (apply list_elem_of_lookup; eauto).
  destruct (cfg_titles _ (proj1 HI) q pgq Hon Hpgq) as [ttl Httl].
  rewrite Httl in Hrun. rewrite <- Httl in Hrun.
  assert (q <> sel) as Hne.
  { intros ->. destruct (stack_page_ordinary w sel (proj1 HI) Hon) as (pg0 & Hp0 & _ & Hns).
    replace pg0 with pg in * by congruence. by rewrite Hc in Hns. }
  exists pg, pick, lbl, i, q, pgq. repeat (split; [done|]).
  split; [rewrite Hpp; destruct lbl; cbn in *; congruence|].
  repeat (split; [done|]). split.
  - unfold Page_handle_encoder_event, bind at 1, emit. fold w0.
    rewrite (bind_returns _ _ _ pg w0) by (by apply get_page_returns).
    rewrite Hc. exact Hrun.
  - apply (Inv_repick w0 sel pg q pgq); try done.
    + by apply Inv_logged.
    + by rewrite Hc.
    + pose proof HI as [HC HN]. destruct (nav_current _ HN) as (cp & Hcp & Hpos).
      replace cp with sel in * by congruence.
      destruct Hpos as [Hs|[[_ [Hpr _]]|[Hsp (t & _ & [Ht|[_ Hpr]])]]]; [|done| |done].
      * destruct (stack_page_ordinary w sel HC Hs) as (pg0 & Hp0 & _ & Hns).
        replace pg0 with pg in * by congruence. by rewrite Hc in Hns.
      * destruct (cfg_sleep _ HC) as (sp & pgs & Hsp' & Hps & Hcs).
        replace sp with sel in * by congruence.
        replace pgs with pg in * by congruence. congruence.
Qed.

Lemma rotation_sequence sel ds : forall w pg pick lbl i,
  Inv w -> current_page (state w) = Some sel -> selection_page (state w) = Some sel ->
  NoDup (page_stack (state w)) ->
  pages w !! sel = Some pg -> class pg = SelectionPage (Some pick) (Some lbl) ->
  list_index pick (page_stack (state w)) = Some i ->
  Forall (fun da => fst da <> 0) ds ->
  exists q pgq,
    page_stack (state w)
      !! Z.to_nat ((Z.of_nat i + net_steps ds) mod Z.of_nat (length (page_stack (state w))))
    = Some q
    /\ pages w !! q = Some pgq
    /\ encoder_events sel ds w
       = Returns tt
           {| state := state w;
              pages := <[sel := Page_set_class
                                  (SelectionPage (Some q) (Some {| text := title pgq |}))
                                  pg]> (pages w);
              trace := trace w ++ map (fun da => call_handle_encoder_event sel (fst da)
                                                   (snd da)) ds |}.
Proof.
  induction ds as [|[d a] rest IH]; intros w pg pick lbl i HI Hcur Hsel Hnd Hp Hc Hi Hds.
  - destruct (list_index_lookup _ _ _ Hi) as [Hpick Hlt].
    destruct (Inv_selecting w sel HI Hcur Hsel)
      as (pg' & pick' & lbl' & i' & pgpick & Hp' & Hc' & _ & _ & _ & Hpp & Htext).
    replace pg' with pg in * by congruence.
    assert (pick' = pick /\ lbl' = lbl) as [-> ->] by (split; congruence).
    exists pick, pgpick. cbn [net_steps foldr].
    rewrite Z.add_0_r, Z.mod_small, Nat2Z.id by lia.
    split; [done|]. split; [done|].
    replace {| text := title pgpick |} with lbl by (destruct lbl; cbn in *; congruence).
    rewrite <- Hc, Page_set_class_same, list_insert_id, app_nil_r by done.
    by destruct w.
  - apply Forall_cons in Hds as [Hd Hrest]. cbn in Hd.
    destruct (rotation_step w sel d a HI Hcur Hsel Hd)
      as (pg' & pick' & lbl' & i' & q1 & pgq1 & Hp' & Hc' & _ & Hi' & Hq1 & Hne1 & Hpq1
          & Hrun1 & HI1).
    replace pg' with pg in * by congruence.
    assert (pick' = pick) as -> by congruence.
    assert (i' = i) as -> by congruence.
    destruct (list_index_lookup _ _ _ Hi) as [_ Hlt].
    set (len := length (page_stack (state w))) in *.
    assert (0 <= (Z.of_nat i + Z.sgn d) mod Z.of_nat len < Z.of_nat len) as Hj
      by (apply Z.mod_pos_bound; lia).
    set (pg1 := Page_set_class (SelectionPage (Some q1) (Some {| text := title pgq1 |})) pg)
      in *.
    pose proof (lookup_lt_Some _ _ _ Hp) as Hsellt.
    match type of HI1 with Inv ?w1 =>
      destruct (IH w1 pg1 q1 {| text := title pgq1 |}
                  (Z.to_nat ((Z.of_nat i + Z.sgn d) mod Z.of_nat len)))
        as (q & pgq & Hq & Hpq & Hrun); try done
    end.
    { cbn. by apply list_lookup_insert_eq. }
    { cbn. by apply list_index_NoDup. }
    cbn [state pages trace with_pages logged] in Hq, Hpq, Hrun. fold len in Hq.
    rewrite Z2Nat.id in Hq by lia.
    rewrite Zplus_mod_idemp_l in Hq.
    assert (q <> sel) as Hne.
    { intros ->. assert (sel ∈ page_stack (state w)) as Hon
        by (apply list_elem_of_lookup; eauto).
      destruct (stack_page_ordinary w sel (proj1 HI) Hon) as (pg0 & Hp0 & _ & Hns).
      replace pg0 with pg in * by congruence. by rewrite Hc in Hns. }
    rewrite list_lookup_insert_ne in Hpq by done.
    exists q, pgq. cbn [net_steps foldr fst].
    split; [by rewrite Z.add_assoc|]. split; [done|].
    unfold encoder_events. cbn [for_each fst snd].
    rewrite (bind_returns _ _ _ _ _ Hrun1). fold (encoder_events sel rest).
    rewrite Hrun. do 2 f_equal.
    + by rewrite list_insert_insert_eq.
    + cbn [map fst snd]. by rewrite <- app_assoc.
Qed.

(** X12. On the selection page, a sequence of encoder events with non-zero
    changes, as the loop delivers them, moves the pick by the net number
    of steps (one forward for each positive change, one back for each
    negative one, whatever their sizes) around the page stack, wrapping
    at both ends: the pick ends at index [(i + net) mod len] of the stack
    and the label shows that page's title.  Nothing but the pick, the
    label and the log changes, and when the net number of steps is a
    multiple of the length of the stack the world is the one before, the
    log apart.  The pages of the stack are distinct and have titles, the
    latter by the invariant ([cfg_titles]): every page the pick passes
    gives the label its title. *)
Theorem selection_rotations_add_up w sel ds :
  Inv w -> current_page (state w) = Some sel -> selection_page (state w) = Some sel ->
  NoDup (page_stack (state w)) -> Forall (fun da => fst da <> 0) ds ->
  let len := Z.of_nat (length (page_stack (state w))) in
  let log := map (fun da => call_handle_encoder_event sel (fst da) (snd da)) ds in
  exists pg pick lbl (i : nat) q pgq w',
    pages w !! sel = Some pg /\ class pg = SelectionPage (Some pick) (Some lbl)
    /\ page_stack (state w) !! i = Some pick
    /\ encoder_events sel ds w = Returns tt w'
    /\ page_stack (state w) !! Z.to_nat ((Z.of_nat i + net_steps ds) mod len) = Some q
    /\ pages w !! q = Some pgq
    /\ state w' = state w
    /\ pages w' = <[sel := Page_set_class
                            (SelectionPage (Some q) (Some {| text := title pgq |})) pg]>
                    (pages w)
    /\ trace w' = trace w ++ log
    /\ (net_steps ds mod len = 0 -> q = pick /\ w' = logged log w).
Proof.
  intros HI Hcur Hsel Hnd Hds len log.
  destruct (Inv_selecting w sel HI Hcur Hsel)
    as (pg & pick & lbl & i & pgpick & Hp & Hc & Hi & _ & _ & Hpp & Htext).
  destruct (list_index_lookup _ _ _ Hi) as [Hpick Hlt].
  destruct (rotation_sequence sel ds w pg pick lbl i HI Hcur Hsel Hnd Hp Hc Hi Hds)
    as (q & pgq & Hq & Hpq & Hrun).
  eexists pg, pick, lbl, i, q, pgq, _. repeat (split; [done|]).
  cbn [state pages trace]. repeat (split; [done|]).
  intros Hzero. fold len in Hq.
  rewrite <- Zplus_mod_idemp_r, Hzero, Z.add_0_r, Z.mod_small, Nat2Z.id in Hq
    by (subst len; lia).
  assert (q = pick) as -> by congruence. split; [done|].
  replace pgq with pgpick by congruence.
  replace {| text := title pgpick |} with lbl by (destruct lbl; cbn in *; congruence).
  rewrite <- Hc, Page_set_class_same, list_insert_id by done.
  by destruct w.
Qed.

Lemma selection_rotations_add_up_witness :
  (exists w' pg,
     encoder_events selection_page_id [(1, 1); (3, 4); (-1, 3); (2, 5); (1, 6)] selecting
     = Returns tt w'
     /\ pages w' !! selection_page_id = Some pg
     /\ class pg = SelectionPage (Some probe_page_id) (Some {| text := Some "Probe" |}))
  /\ encoder_events selection_page_id [(1, 1); (-7, -6)] selecting
     = Returns tt (logged [call_handle_encoder_event selection_page_id 1 1;
                           call_handle_encoder_event selection_page_id (-7) (-6)]
                     selecting).
Proof.
  assert (inv_ok selecting = true) as Hinv by (vm_compute; reflexivity).
  assert (NoDup (page_stack (state selecting))) as Hnd
    by (apply (bool_decide_unpack _); vm_compute; reflexivity).
  split.
  - destruct (selection_rotations_add_up selecting selection_page_id
                [(1, 1); (3, 4); (-1, 3); (2, 5); (1, 6)]
                (inv_ok_sound selecting Hinv) eq_refl eq_refl Hnd)
      as (pg & pick & lbl & i & q & pgq & w' & _ & _ & _ & Hrun & _).
    { repeat constructor; cbn; lia. }
    exists w'. vm_compute in Hrun. injection Hrun as <-.
    eexists. split; [reflexivity|]. split; reflexivity.
  - destruct (selection_rotations_add_up selecting selection_page_id [(1, 1); (-7, -6)]
                (inv_ok_sound selecting Hinv) eq_refl eq_refl Hnd)
      as (pg & pick & lbl & i & q & pgq & w' & _ & _ & _ & Hrun & _ & _ & _ & _ & _ & Hback).
    { repeat constructor; cbn; lia. }
    destruct Hback as [_ ->]; [reflexivity|]. exact Hrun.
Defined.

(** X13. Falling asleep on the selection page loses the pick: when the
    idle time runs out while the selection page is current, the device
    goes to the sleep page, and the press that wakes it activates the
    selection page again, which sets its pick and its label back to
    [previous_page], the page the selection was opened from, whatever
    page the encoder had been turned to. *)
Theorem sleeping_on_the_selection_page_resets_the_pick w sel now last :
  Inv w -> current_page (state w) = Some sel -> selection_page (state w) = Some sel ->
  last_interaction (state w) = Some last ->
  sleep_time (state w) * 1000000000 < now - last ->
  exists sp q pgq w1 w2 pg2,
    sleep_page (state w) = Some sp /\ previous_page (state w) = Some q
    /\ pages w !! q = Some pgq
    /\ sleep_check now w = Returns tt w1
    /\ current_page (state w1) = Some sp
    /\ Page_handle_encoder_press sp true w1 = Returns tt w2
    /\ current_page (state w2) = Some sel
    /\ pages w2 !! sel = Some pg2
    /\ class pg2 = SelectionPage (Some q) (Some {| text := title pgq |}).
Proof.
  intros HI Hcur Hsel Hlast Hlt. pose proof HI as [HC HN].
  destruct (cfg_sleep _ HC) as (sp & pgs & Hsp & Hps & Hcs).
  destruct (Inv_selecting w sel HI Hcur Hsel)
    as (pgsel & pick & lbl & i & pgpick & Hpsel & Hcsel & _).
  assert (sel <> sp) as Hne.
  { intros ->. replace pgs with pgsel in * by congruence. congruence. }
  assert (exists q, previous_page (state w) = Some q) as [q Hq].
  { destruct (nav_current _ HN) as (cp & Hcp & Hpos).
    replace cp with sel in * by congruence.
    destruct Hpos as [Hon|[[_ [[q Hq] _]]|[Hs _]]]; [|eauto|congruence].
    destruct (stack_page_ordinary w sel HC Hon) as (pg0 & Hp0 & _ & Hns).
    replace pg0 with pgsel in * by congruence. by rewrite Hcsel in Hns. }
  pose proof (nav_previous _ HN q Hq) as Hqon.
  destruct (cfg_stack _ HC q Hqon) as (pgq & Hpq & Hordq).
  assert (q <> sel) as Hqsel.
  { intros ->. replace pgq with pgsel in * by congruence. by rewrite Hcsel in Hordq. }
  assert (q <> sp) as Hqsp.
  { intros ->. replace pgq with pgs in * by congruence. by rewrite Hcs in Hordq. }
  (* falling asleep *)
  assert (activatable w sp = true) as Hactsp.
  { apply (Config_activatable w sp pgs HC Hps). by rewrite Hcs. }
  pose proof (sleep_check_sleeps w now sel sp pgsel last Hcur Hsp Hne Hpsel Hlast Hlt Hactsp)
    as Hrun1.
  destruct (sleep_check_Inv w now HI) as (w1 & Hrun1' & HI1).
  rewrite Hrun1 in Hrun1'. injection Hrun1' as <-.
  set (g1 := fun s => set_current_page (sleep_page s) (set_wake_to_page (current_page s) s)).
  fold (switched sel sp g1 w) in HI1. change (fell_asleep sel sp w) with (switched sel sp g1 w).
  set (w1 := switched sel sp g1 w) in *.
  assert (current_page (state w1) = Some sp) as Hcur1.
  { subst w1. rewrite (switched_current_page sel sp g1 w pgsel pgs) by done. done. }
  assert (wake_to_page (state w1) = Some sel) as Hwake1.
  { subst w1. rewrite (switched_wake_to_page sel sp g1 w pgsel pgs) by done. done. }
  assert (previous_page (state w1) = Some q /\ sleep_page (state w1) = Some sp)
    as [Hprev1 Hsleep1].
  { subst w1. destruct (switched_state sel sp g1 w pgsel pgs Hpsel Hps) as [leds ->].
    by split. }
  pose proof (switched_config_step sel sp g1 w pgsel pgs Hpsel Hps navigates_sleep) as Hstep1.
  fold w1 in Hstep1.
  destruct (cs_pages _ _ Hstep1 q pgq Hpq) as (pgq1 & Hpq1 & _ & _ & Htq1).
  destruct (cs_pages _ _ Hstep1 sel pgsel Hpsel) as (pgsel1 & Hpsel1 & _ & Hksel1 & _).
  destruct (cs_pages _ _ Hstep1 sp pgs Hps) as (pgs1 & Hps1 & _ & Hks1 & _).
  assert (class pgs1 = SleepPage) as Hcs1 by (apply kind_sleep; by rewrite Hks1, Hcs).
  assert (exists r l, class pgsel1 = SelectionPage r l) as (r1 & l1 & Hcsel1).
  { rewrite Hcsel in Hksel1. destruct (class pgsel1); try done. eauto. }
  (* waking *)
  destruct (Inv_asleep w1 sp HI1 Hcur1 Hsleep1) as (pgs1' & t & Hps1' & _ & Ht & Hact1).
  replace t with sel in * by congruence.
  set (w0 := logged [call_handle_encoder_press sp true] w1).
  destruct (sleep_page_wake_events w1 sp pgs1 sel Hcur1 Hps1 Hcs1 Hwake1 Hact1)
    as [Hpress _]. fold w0 in Hpress.
  set (g2 := fun s => set_current_page (wake_to_page s) s).
  change (woken sp sel w0) with (switched sp sel g2 w0) in Hpress.
  destruct (switched_class_selection sp sel g2 w0 pgs1 pgsel1 r1 l1 Hps1 Hpsel1 Hcsel1)
    as (pg2 & l2 & Hp2 & Hc2 & Htext).
  exists sp, q, pgq, w1, (switched sp sel g2 w0), pg2.
  repeat (split; [done|]).
  split; [by rewrite (switched_current_page sp sel g2 w0 pgs1 pgsel1)|].
  split; [done|].
  rewrite Hc2. cbn. rewrite Hprev1. do 2 f_equal.
  destruct l2 as [t2]. cbn in Htext. rewrite Htext. unfold previous_title. cbn.
  rewrite Hprev1. rewrite (deactivated_world_pages w0 sp pgs1 Hps1).
  rewrite list_lookup_insert_ne by done. cbn. rewrite Hpq1. by rewrite Htq1.
Qed.

Lemma sleeping_on_the_selection_page_resets_the_pick_witness :
  (exists pg, pages selecting_rapids !! selection_page_id = Some pg
     /\ class pg = SelectionPage (Some rapids_page_id) (Some {| text := Some "Rapids" |}))
  /\ exists w1 w2 pg2,
       sleep_check 1000000000000 selecting_rapids = Returns tt w1
       /\ Page_handle_encoder_press sleep_page_id true w1 = Returns tt w2
       /\ pages w2 !! selection_page_id = Some pg2
       /\ class pg2 = SelectionPage (Some job_control_page_id)
                        (Some {| text := Some "Job Control" |}).
Proof.
  split; [eexists; split; reflexivity|].
  assert (inv_ok selecting_rapids = true) as Hinv by (vm_compute; reflexivity).
  destruct (sleeping_on_the_selection_page_resets_the_pick selecting_rapids
              selection_page_id 1000000000000 1
              (inv_ok_sound selecting_rapids Hinv) eq_refl eq_refl eq_refl)
    as (sp & q & pgq & w1 & w2 & pg2 & Hsp & Hq & Hpq & Hrun1 & _ & Hrun2 & _ & Hp2 & Hc2).
  { vm_compute. reflexivity. }
  vm_compute in Hsp. injection Hsp as <-.
  vm_compute in Hq. injection Hq as <-.
  vm_compute in Hpq. injection Hpq as <-.
  exists w1, w2, pg2. split; [exact Hrun1|]. split; [exact Hrun2|]. split; [exact Hp2|].
  exact Hc2.
Defined.

(** ** Pages used before they are set up *)

Lemma list_index_absent x l : x ∉ l -> list_index x l = None.
Proof.
  induction l as [|y l IH]; intros Hx; [done|]. cbn.
  apply not_elem_of_cons in Hx as [Hne Hx].
  destruct (Nat.eqb_spec y x) as [->|_]; [done|]. by rewrite IH.
Qed.

(** X14. A selection page used without having been opened from a page
    raises.  Turning the encoder on it raises [ValueError] when its pick
    is [None] or a page that is not on the stack ([list.index] finds
    nothing); a press on it with the pick [None], a current page and a
    selection page being set, raises [AttributeError]; and activating it
    while [previous_page] is [None] raises [AttributeError] at the title
    of the pick, the twelve indicators and key settings being there. *)
Theorem SelectionPage_without_pick_raises w sel pg sp lbl :
  pages w !! sel = Some pg -> class pg = SelectionPage sp lbl ->
  (forall change_rel absolute_value,
     match sp with Some r => r ∉ page_stack (state w) | None => True end ->
     Page_handle_encoder_event sel change_rel absolute_value w = Raises ValueError)
  /\ (forall cp pgc s,
        sp = None -> current_page (state w) = Some cp -> pages w !! cp = Some pgc ->
        selection_page (state w) = Some s ->
        Page_handle_encoder_press sel true w = Raises AttributeError)
  /\ (previous_page (state w) = None ->
      length (key_settings pg) = 12%nat -> length (led_states (state w)) = 12%nat ->
      Page_activate sel w = Raises AttributeError).
Proof.
  intros Hp Hc. pose proof (lookup_lt_Some _ _ _ Hp) as Hlt. split; [|split].
  - intros d a Hsp. unfold Page_handle_encoder_event, bind at 1, emit.
    rewrite (bind_returns _ _ _ pg (logged [call_handle_encoder_event sel d a] w))
      by (by apply get_page_returns).
    rewrite Hc. unfold SelectionPage_handle_encoder_event. apply bind_raises.
    unfold SelectionPage_move_pick, bind at 1, get_state.
    rewrite (bind_returns _ _ _ sp (logged [call_handle_encoder_event sel d a] w))
      by (by eapply get_selected_page_returns).
    apply bind_raises. unfold py_index. destruct sp as [r|]; [|done].
    cbn. by rewrite list_index_absent.
  - intros cp pgc s -> Hcur Hpc Hsel.
    set (w0 := logged [call_handle_encoder_press sel true] w).
    unfold Page_handle_encoder_press, bind at 1, emit. fold w0.
    rewrite (bind_returns _ _ _ pg w0) by (by apply get_page_returns).
    rewrite Hc. unfold SelectionPage_handle_encoder_press, bind at 1, get_state.
    cbn [state w0 logged]. rewrite Hsel. cbn [andb truthy].
    rewrite (bind_returns _ _ _ tt (deactivated_world cp w0)).
    2: { unfold current_page_deactivate, bind, get_state. cbn [state w0 logged].
         rewrite Hcur. cbn. by eapply (Page_deactivate_returns w0). }
    destruct (deactivated_lookup w0 cp pgc sel pg Hpc Hp) as (pg' & Hp' & _ & Hc' & _).
    rewrite (bind_returns _ _ _ None (deactivated_world cp w0)).
    2: { eapply (get_selected_page_returns _ _ pg'); [done|]. by rewrite Hc', Hc. }
    reflexivity.
  - intros Hprev Hk Hl. unfold Page_activate, bind at 1, emit.
    rewrite (bind_returns _ _ _ pg (logged [call_activate sel] w))
      by (by apply get_page_returns).
    rewrite Hc. unfold SelectionPage_activate.
    rewrite (bind_returns _ _ _ _ _
               (DisplayPage_activate_returns (logged [call_activate sel] w) sel pg Hp Hk Hl)).
    unfold set_selected_page, get_selected_page. run_py. rewrite Hc, Hprev. by run_py.
Qed.

Lemma SelectionPage_without_pick_raises_witness :
  Page_handle_encoder_event selection_page_id 1 1 started = Raises ValueError
  /\ Page_handle_encoder_press selection_page_id true started = Raises AttributeError
  /\ Page_activate selection_page_id started = Raises AttributeError.
Proof.
  destruct (SelectionPage_without_pick_raises started selection_page_id _ None None
              eq_refl eq_refl) as (Hturn & Hpress & Hact).
  split; [exact (Hturn 1 1 I)|]. split.
  - exact (Hpress job_control_page_id _ selection_page_id eq_refl eq_refl eq_refl eq_refl).
  - exact (Hact eq_refl eq_refl eq_refl).
Defined.

(** X15. The edges of the idle test and of waking.  The idle test does
    nothing when the current page is the sleep page (also when both are
    [None]); otherwise it raises [TypeError] while [last_interaction] is
    [None], since the subtraction comes first; with no sleep page set up
    it does nothing until the idle time has run out and then raises
    [AttributeError].  On a sleep page that is current while
    [wake_to_page] is [None], a press and a turn of the encoder raise
    [AttributeError]. *)
Theorem idle_test_edge_cases w now :
  (current_page (state w) = sleep_page (state w) -> sleep_check now w = Returns tt w)
  /\ (forall cp, current_page (state w) = Some cp -> sleep_page (state w) <> Some cp ->
      last_interaction (state w) = None -> sleep_check now w = Raises TypeError)
  /\ (forall cp pgc last,
        current_page (state w) = Some cp -> pages w !! cp = Some pgc ->
        sleep_page (state w) = None -> last_interaction (state w) = Some last ->
        (now - last <= sleep_time (state w) * 1000000000 -> sleep_check now w = Returns tt w)
        /\ (sleep_time (state w) * 1000000000 < now - last ->
            sleep_check now w = Raises AttributeError))
  /\ (forall sp pgs,
        current_page (state w) = Some sp -> pages w !! sp = Some pgs ->
        class pgs = SleepPage -> wake_to_page (state w) = None ->
        Page_handle_encoder_press sp true w = Raises AttributeError
        /\ forall change_rel absolute_value,
             Page_handle_encoder_event sp change_rel absolute_value w
             = Raises AttributeError).
Proof.
  split; [|split; [|split]].
  - intros Heq. unfold sleep_check, bind, get_state. rewrite Heq.
    destruct (sleep_page (state w)); cbn; by rewrite ?Nat.eqb_refl.
  - intros cp Hcur Hne Hlast. unfold sleep_check, bind, get_state.
    rewrite Hcur, Hlast.
    destruct (sleep_page (state w)) as [sp|]; cbn; [|done].
    destruct (Nat.eqb_spec cp sp) as [->|_]; done.
  - intros cp pgc last Hcur Hpc Hsp Hlast. split.
    + by apply sleep_check_stays_awake.
    + intros Hlt. unfold sleep_check, bind at 1, get_state.
      rewrite Hcur, Hsp, Hlast. cbn [option_PageId_eqb negb].
      replace (now - last >? sleep_time (state w) * 1000000000) with true
        by (symmetry; by apply Z.gtb_lt).
      rewrite (bind_returns _ _ _ tt (deactivated_world cp w)).
      2: { unfold current_page_deactivate, bind, get_state. rewrite Hcur. cbn.
           by eapply Page_deactivate_returns. }
      unfold bind, modify_state, current_page_activate, get_state. cbn.
      by rewrite !deactivated_world_state, Hsp.
  - intros sp pgs Hcur Hps Hc Hwake.
    assert (forall es, SleepPage_wake sp (logged es w) = Raises AttributeError) as Hw.
    { intros es. unfold SleepPage_wake.
      rewrite (bind_returns _ _ _ tt (deactivated_world sp (logged es w))).
      2: { unfold current_page_deactivate, bind, get_state. cbn. rewrite Hcur. cbn.
           by eapply (Page_deactivate_returns (logged es w)). }
      unfold bind, modify_state, current_page_activate, get_state. cbn.
      rewrite !deactivated_world_state. cbn. by rewrite Hwake. }
    split; [|intros d a].
    + unfold Page_handle_encoder_press, bind at 1, emit.
      rewrite (bind_returns _ _ _ pgs (logged [call_handle_encoder_press sp true] w))
        by (by apply get_page_returns).
      rewrite Hc. apply Hw.
    + unfold Page_handle_encoder_event, bind at 1, emit.
      rewrite (bind_returns _ _ _ pgs (logged [call_handle_encoder_event sp d a] w))
        by (by apply get_page_returns).
      rewrite Hc. apply Hw.
Qed.

Lemma idle_test_edge_cases_witness :
  sleep_check 1900000000000 sleeping = Returns tt sleeping
  /\ sleep_check 5 booted = Raises TypeError
  /\ sleep_check 900000000000 without_sleep_page = Returns tt without_sleep_page
  /\ sleep_check 900000000001 without_sleep_page = Raises AttributeError
  /\ Page_handle_encoder_press sleep_page_id true asleep_without_wake = Raises AttributeError
  /\ Page_handle_encoder_event sleep_page_id 1 1 asleep_without_wake = Raises AttributeError.
Proof.
  destruct (idle_test_edge_cases sleeping 1900000000000) as (Hasleep & _).
  destruct (idle_test_edge_cases booted 5) as (_ & Hnone & _).
  destruct (idle_test_edge_cases without_sleep_page 900000000000) as (_ & _ & Hearly & _).
  destruct (idle_test_edge_cases without_sleep_page 900000000001) as (_ & _ & Hlate & _).
  destruct (idle_test_edge_cases asleep_without_wake 0) as (_ & _ & _ & Hwake).
  split; [exact (Hasleep eq_refl)|].
  split; [apply (Hnone job_control_page_id); [reflexivity|discriminate|reflexivity]|].
  destruct (Hearly job_control_page_id _ 0 eq_refl eq_refl eq_refl eq_refl) as [Hstay _].
  destruct (Hlate job_control_page_id _ 0 eq_refl eq_refl eq_refl eq_refl) as [_ Hraise].
  destruct (Hwake sleep_page_id _ eq_refl eq_refl eq_refl eq_refl) as [Hpress Hturn].
  split; [apply Hstay; vm_compute; discriminate|].
  split; [apply Hraise; vm_compute; reflexivity|].
  split; [exact Hpress|exact (Hturn 1 1)].
Defined.

(** ** Keys, activation and registration *)

Lemma emit_loop e n : forall a w,
  for_each (seq a n) (fun _ => emit e) w = Returns tt (logged (replicate n e) w).
Proof.
  induction n as [|n IH]; intros a w; cbn [seq for_each replicate].
  - unfold ret. by rewrite logged_nil.
  - rewrite (bind_returns _ _ _ tt (logged [e] w)) by done.
    by rewrite IH, logged_logged.
Qed.

Lemma callback_log_runs call cb es w :
  callback_log call cb = Some es ->
  match cb with
  | Some f => emit call ;; run_callback f
  | None => ret tt
  end w = Returns tt (logged es w).
Proof.
  destruct cb as [[keys|keys| |q a|]|]; cbn [callback_log run_callback];
    intros [= <-];
    rewrite ?(bind_returns _ _ _ tt (logged [call] w)) by done; cbn beta.
  - unfold emit. by rewrite logged_logged.
  - unfold emit. by rewrite logged_logged.
  - unfold emit. by rewrite logged_logged.
  - unfold button_test. by rewrite emit_loop, logged_logged.
  - unfold ret. by rewrite logged_nil.
Qed.

(** X16. Pressing and releasing a key whose trigger mode is not NONE and
    whose callbacks only drive the keyboard: the press puts indicator [k]
    into mode ON and then runs the press callback, if one is bound; the
    release runs the release callback, if one is bound, and then puts the
    indicator into mode OFF.  After the two events the world is the one
    before but for the output of the callbacks and the mode and event of
    indicator [k]; its animator, woken by each of the two writes, shows
    the on-colour between the events and the off-colour after them. *)
Theorem key_tap_lights_and_calls w p pg (k : nat) ks l pe re :
  pages w !! p = Some pg -> key_settings pg !! k = Some ks ->
  KeySettings.mode ks <> NONE ->
  led_states (state w) !! k = Some l ->
  callback_log (call_press_callback (Z.of_nat k)) (KeySettings.press_callback ks) = Some pe ->
  callback_log (call_release_callback (Z.of_nat k)) (KeySettings.release_callback ks)
  = Some re ->
  let down := with_led k (LedState.set_mode ON l) pe w in
  let up := with_led k (LedState.set_mode OFF l) (pe ++ re) w in
  DisplayPage_handle_key_event p
    {| KeyEvent.key_number := Z.of_nat k; KeyEvent.pressed := true |} w = Returns tt down
  /\ DisplayPage_handle_key_event p
       {| KeyEvent.key_number := Z.of_nat k; KeyEvent.pressed := false |} down
     = Returns tt up
  /\ (forall odd_half, led_render odd_half (LedState.set_mode ON l)
                       = Some (LedState.on_color l))
  /\ (forall odd_half, led_render odd_half (LedState.set_mode OFF l)
                       = Some (LedState.off_color l))
  /\ is_Some (led_wait (LedState.set_mode ON l))
  /\ is_Some (led_wait (LedState.set_mode OFF l)).
Proof.
  intros Hp Hk Hmode Hl Hpe Hre down up.
  pose proof (lookup_lt_Some _ _ _ Hl) as Hlt.
  assert (forall w', pages w' = pages w ->
            key_setting p (Z.of_nat k) w' = Returns ks w') as Hks.
  { intros w' Hw'. apply (key_setting_returns w' p pg); [by rewrite Hw'|done]. }
  split; [|split; [|by repeat split; eauto]].
  - unfold DisplayPage_handle_key_event. cbn [KeyEvent.key_number KeyEvent.pressed negb].
    rewrite (bind_returns _ _ _ tt down); [done|].
    rewrite (bind_returns _ _ _ _ _ (Hks w eq_refl)).
    replace (KeyMode_eqb (KeySettings.mode ks) NONE) with false
      by (by destruct (KeySettings.mode ks)).
    cbn [negb]. rewrite (bind_returns _ _ _ _ _ (update_led_returns _ _ _ _ Hl)).
    rewrite (bind_returns _ _ _ ks _) by (by apply Hks).
    by rewrite (callback_log_runs _ _ pe).
  - unfold DisplayPage_handle_key_event. cbn [KeyEvent.key_number KeyEvent.pressed negb].
    unfold bind at 1, ret at 1.
    rewrite (bind_returns _ _ _ ks _) by (by apply Hks).
    rewrite (bind_returns _ _ _ tt (logged re down))
      by (by apply callback_log_runs).
    rewrite (update_led_returns _ k (LedState.set_mode ON l))
      by (cbn; by apply list_lookup_insert_eq).
    unfold down, up, with_led, with_state, logged; cbn.
    by rewrite list_insert_insert_eq, app_assoc.
Qed.

Lemma key_tap_lights_and_calls_witness :
  exists down up,
    DisplayPage_handle_key_event arrow_jog_page_id
      {| KeyEvent.key_number := 7; KeyEvent.pressed := true |} on_arrow_jog
    = Returns tt down
    /\ DisplayPage_handle_key_event arrow_jog_page_id
         {| KeyEvent.key_number := 7; KeyEvent.pressed := false |} down = Returns tt up
    /\ trace up = [call_press_callback 7; keyboard_press [SHIFT; UP_ARROW];
                   call_release_callback 7; keyboard_release_all].
Proof.
  destruct (fun Hmode =>
              key_tap_lights_and_calls on_arrow_jog arrow_jog_page_id _ 7 _ _
                [call_press_callback 7; keyboard_press [SHIFT; UP_ARROW]]
                [call_release_callback 7; keyboard_release_all]
                eq_refl eq_refl Hmode eq_refl eq_refl eq_refl) as (Hdown & Hup & _).
  { discriminate. }
  eexists _, _. split; [exact Hdown|]. split; [exact Hup|]. reflexivity.
Defined.

(** X17. On a jog-dial page, pressing a key bound to [select_axis] with
    axis 0, 1 or 2 toggles the selection: the axis is selected unless it
    was selected already, in which case none is.  Indicators 9, 10 and 11
    get the off-colours of the new selection, and a move of the jog dial
    by [d] then sends [abs d] times the shifted key of the axis in the
    direction of [d], or nothing when the press has cleared the
    selection. *)
Theorem axis_key_then_jog w p pg sel (k : nat) ks axis l :
  pages w !! p = Some pg -> class pg = JogDialPage sel ->
  key_settings pg !! k = Some ks -> KeySettings.mode ks <> NONE ->
  KeySettings.press_callback ks = Some (cb_select_axis p axis) ->
  valid_axis axis = true ->
  length (led_states (state w)) = 12%nat -> led_states (state w) !! k = Some l ->
  exists w1 pg1,
    Page_handle_key_event p {| KeyEvent.key_number := Z.of_nat k; KeyEvent.pressed := true |} w
    = Returns tt w1
    /\ pages w1 !! p = Some pg1 /\ class pg1 = JogDialPage (toggle_axis sel axis)
    /\ trace w1 = trace w ++ [call_handle_key_event p
                                {| KeyEvent.key_number := Z.of_nat k;
                                   KeyEvent.pressed := true |};
                              call_press_callback (Z.of_nat k)]
    /\ (forall n : nat, (n < 3)%nat ->
          led_off_color w1 (9 + n) = Some (axis_color (toggle_axis sel axis) (Z.of_nat n)))
    /\ forall d absolute,
         Page_handle_jog_event p d absolute w1
         = Returns tt
             (logged (call_handle_jog_event p d absolute ::
                      if bool_decide (sel = Some axis) then []
                      else replicate (Z.to_nat (Z.abs d))
                             (keyboard_send (directional_action axis (0 <? d)))) w1).
Proof.
  intros Hp Hc Hk Hmode Hcb Hax Hlen Hl.
  set (e := {| KeyEvent.key_number := Z.of_nat k; KeyEvent.pressed := true |}).
  set (w0 := logged [call_handle_key_event p e] w).
  set (w2 := logged [call_press_callback (Z.of_nat k)]
               (with_state (set_led_states (<[k := LedState.set_mode ON l]>
                                              (led_states (state w))) (state w)) w0)).
  assert (length (led_states (state w2)) = 12%nat) as Hlen2
    by (cbn; by rewrite length_insert).
  destruct (lookup_lt_is_Some_2 (led_states (state w2)) 9) as [l9 H9]; [lia|].
  destruct (lookup_lt_is_Some_2 (led_states (state w2)) 10) as [l10 H10]; [lia|].
  destruct (lookup_lt_is_Some_2 (led_states (state w2)) 11) as [l11 H11]; [lia|].
  pose proof (JogDialPage_select_axis_returns w2 p pg sel axis l9 l10 l11 Hp Hc H9 H10 H11)
    as Hselect.
  pose proof (lookup_lt_Some _ _ _ Hp) as Hlt.
  eexists _, (Page_set_class (JogDialPage (toggle_axis sel axis)) pg).
  split; [|split; [|split; [|split; [|split]]]].
  - unfold Page_handle_key_event, bind at 1, emit. fold w0.
    rewrite (bind_returns _ _ _ pg w0) by (by apply get_page_returns).
    unfold DisplayPage_handle_key_event. subst e.
    cbn [KeyEvent.key_number KeyEvent.pressed negb].
    erewrite bind_returns; [reflexivity|].
    rewrite (bind_returns _ _ _ ks w0) by (by apply (key_setting_returns w0 p pg)).
    replace (KeyMode_eqb (KeySettings.mode ks) NONE) with false
      by (by destruct (KeySettings.mode ks)).
    cbn [negb]. rewrite (bind_returns _ _ _ _ _ (update_led_returns w0 _ _ _ Hl)).
    rewrite (bind_returns _ _ _ ks _) by (by apply (key_setting_returns _ p pg)).
    rewrite Hcb. rewrite (bind_returns _ _ _ tt w2) by done.
    cbn [run_callback]. exact Hselect.
  - cbn. by apply list_lookup_insert_eq.
  - done.
  - cbn. by rewrite <- app_assoc.
  - intros n Hn. unfold led_off_color. cbn [state led_states set_led_states].
    destruct n as [|[|[|n]]]; [| | |lia]; cbn [Nat.add Z.of_nat];
      rewrite ?list_lookup_insert_ne by done;
      rewrite list_lookup_insert_eq by (rewrite ?length_insert; lia); done.
  - intros d a.
    match goal with |- _ ?x = _ => set (w1 := x) end.
    assert (pages w1 !! p = Some (Page_set_class (JogDialPage (toggle_axis sel axis)) pg))
      as Hp1 by (cbn; by apply list_lookup_insert_eq).
    unfold Page_handle_jog_event, bind at 1, emit.
    rewrite (bind_returns _ _ _ _ _
               (get_page_returns (logged [call_handle_jog_event p d a] w1) p _ Hp1)).
    cbn [class Page_set_class]. unfold JogDialPage_handle_jog_event.
    case_bool_decide as Hsel.
    + assert (toggle_axis sel axis = None) as Htog.
      { subst sel. unfold toggle_axis, axis_is. by rewrite Z.eqb_refl. }
      rewrite (jog_loop p (Page_set_class (JogDialPage (toggle_axis sel axis)) pg)
                 None []); try done.
      * replace (concat (replicate (Z.to_nat (Z.abs d)) [])) with (@nil Event).
        -- by rewrite logged_nil.
        -- generalize (Z.to_nat (Z.abs d)). intros n. by induction n.
      * cbn. by rewrite Htog.
      * intros w'. rewrite jog_action_none. by rewrite logged_nil.
    + assert (toggle_axis sel axis = Some axis) as Htog.
      { unfold toggle_axis. destruct (axis_is sel axis) eqn:E; [|done].
        by apply axis_is_Some in E. }
      destruct (decide (d = 0)) as [->|Hd].
      { cbn. done. }
      rewrite (jog_loop p (Page_set_class (JogDialPage (toggle_axis sel axis)) pg)
                 (Some axis) [keyboard_send (directional_action axis (0 <? d))]);
        try done.
      * rewrite logged_logged. do 3 f_equal. generalize (Z.to_nat (Z.abs d)).
        intros n. induction n as [|n IH]; cbn; [done|by rewrite IH].
      * cbn. by rewrite Htog.
      * intros w'. by apply jog_action_selected.
Qed.

Lemma axis_key_then_jog_witness :
  exists w1 pg1,
    Page_handle_key_event jog_dial_page_id
      {| KeyEvent.key_number := 11; KeyEvent.pressed := true |} jogging_Y = Returns tt w1
    /\ pages w1 !! jog_dial_page_id = Some pg1 /\ class pg1 = JogDialPage (Some 2)
    /\ Page_handle_jog_event jog_dial_page_id 2 9 w1
       = Returns tt (logged [call_handle_jog_event jog_dial_page_id 2 9;
                             keyboard_send [SHIFT; PAGE_UP];
                             keyboard_send [SHIFT; PAGE_UP]] w1).
Proof.
  destruct (fun Hmode =>
              axis_key_then_jog jogging_Y jog_dial_page_id _ (Some 1) 11 _ 2 _
                eq_refl eq_refl eq_refl Hmode eq_refl eq_refl eq_refl eq_refl)
    as (w1 & pg1 & Hrun & Hp & Hc & _ & _ & Hjog).
  { discriminate. }
  exists w1, pg1. split; [exact Hrun|]. split; [exact Hp|]. split; [exact Hc|].
  exact (Hjog 2 9).
Defined.

Lemma add_page_later w p cp :
  current_page (state w) = Some cp ->
  add_page p w
  = Returns tt (with_state (set_page_stack (page_stack (state w) ++ [p]) (state w)) w).
Proof. intros Hcur. unfold add_page, bind, modify_state, get_state. cbn. by rewrite Hcur. Qed.

Lemma add_pages_later ps : forall w cp,
  current_page (state w) = Some cp ->
  for_each ps add_page w
  = Returns tt (with_state (set_page_stack (page_stack (state w) ++ ps) (state w)) w).
Proof.
  induction ps as [|p ps IH]; intros w cp Hcur; cbn [for_each].
  - unfold ret. rewrite app_nil_r. by destruct w as [[] ? ?].
  - rewrite (bind_returns _ _ _ _ _ (add_page_later w p cp Hcur)).
    rewrite (IH _ cp) by done. cbn. by rewrite <- app_assoc.
Qed.

(** X18. Registering pages on a state with no current page: all pages are
    appended to the page stack in order, the first becomes the current
    page and is the only one activated (one activation in the log, a
    display group for it, no other page object touched), whatever pages
    follow and even if the same page is added again. *)
Theorem add_page_activates_first_only w p ps :
  current_page (state w) = None -> activatable w p = true ->
  exists w',
    for_each (p :: ps) add_page w = Returns tt w'
    /\ page_stack (state w') = page_stack (state w) ++ p :: ps
    /\ current_page (state w') = Some p
    /\ trace w' = trace w ++ [call_activate p; display_root_group p]
    /\ (exists pg', pages w' !! p = Some pg' /\ is_Some (main_group pg'))
    /\ (forall q, q <> p -> pages w' !! q = pages w !! q).
Proof.
  intros Hcur Hact. destruct (activatable_page w p Hact) as [pg Hp].
  set (w1 := with_state (set_current_page (Some p)
                           (set_page_stack (page_stack (state w) ++ [p]) (state w))) w).
  assert (pages w1 !! p = Some pg) as Hp1 by done.
  pose proof (activated_world_state _ _ _ Hp1) as Hst.
  pose proof (activated_world_trace _ _ _ Hp1) as Htr.
  pose proof (activated_world_pages _ _ _ Hp1) as Hpg.
  set (w2 := activated_world p w1) in *.
  exists (with_state (set_page_stack (page_stack (state w2) ++ ps) (state w2)) w2).
  split.
  { cbn [for_each]. rewrite (bind_returns _ _ _ _ _ (add_page_first w p Hcur Hact)).
    apply (add_pages_later ps _ p). fold w1 w2. by rewrite Hst. }
  cbn [state pages trace with_state set_page_stack page_stack current_page].
  rewrite Hst, Htr, Hpg. cbn.
  split; [by rewrite <- app_assoc|]. split; [done|]. split; [done|]. split.
  - rewrite list_lookup_insert_eq by (by eapply lookup_lt_Some).
    eexists. split; [done|]. unfold activated_page. by destruct (class pg).
  - intros q Hne. by rewrite list_lookup_insert_ne.
Qed.

Lemma add_page_activates_first_only_witness :
  exists w',
    for_each [0; 0]%nat add_page one_page = Returns tt w'
    /\ page_stack (state w') = [0; 0]%nat
    /\ current_page (state w') = Some 0%nat
    /\ trace w' = trace one_page ++ [call_activate 0%nat; display_root_group 0%nat].
Proof.
  destruct (add_page_activates_first_only one_page 0%nat [0%nat] eq_refl eq_refl)
    as (w' & Hrun & Hstack & Hcur & Htrace & _).
  exists w'. split; [exact Hrun|]. split; [exact Hstack|]. split; [exact Hcur|exact Htrace].
Defined.

(** X19. Activating a page that has what [activate] needs (twelve
    indicators, twelve key settings and, if it is the selection page, a
    previous page with a title for its label: [activatable]) returns and
    repaints the keys: each of the twelve indicators takes the on- and
    off-colour of the page's key setting for its slot and goes to mode
    OFF with its event set, keeping its blink interval, so that its
    animator is woken and shows the off-colour.
    The page gets a fresh display group that starts with its title label,
    if it has a title, and keeps its key settings and title; no other
    page object changes, nor does [current_page]. *)
Theorem activation_repaints_the_keys w p pg :
  activatable w p = true -> pages w !! p = Some pg ->
  exists w' pg' rest,
    Page_activate p w = Returns tt w'
    /\ (forall (i : nat) ks, key_settings pg !! i = Some ks ->
          exists l l', led_states (state w) !! i = Some l
            /\ led_states (state w') !! i = Some l'
            /\ LedState.on_color l' = KeySettings.on_color ks
            /\ LedState.off_color l' = KeySettings.off_color ks
            /\ LedState.mode l' = OFF /\ LedState.event l' = true
            /\ LedState.interval l' = LedState.interval l
            /\ (forall odd_half, led_render odd_half l' = Some (KeySettings.off_color ks))
            /\ led_wait l' = Some (LedState.clear_event l'))
    /\ pages w' !! p = Some pg'
    /\ main_group pg' = Some (display_group pg ++ rest)
    /\ key_settings pg' = key_settings pg /\ title pg' = title pg
    /\ (forall q, q <> p -> pages w' !! q = pages w !! q)
    /\ current_page (state w') = current_page (state w)
    /\ trace w' = trace w ++ [call_activate p; display_root_group p].
Proof.
  intros Hact Hp. pose proof (Page_activate_returns w p Hact) as Hrun.
  pose proof (lookup_lt_Some _ _ _ Hp) as Hlt.
  unfold activatable in Hact. rewrite Hp in Hact.
  apply andb_prop in Hact as [Hleds Hact]. apply andb_prop in Hact as [Hkeys _].
  apply Nat.eqb_eq in Hleds, Hkeys.
  exists (activated_world p w), (activated_page w pg),
    match class pg with
    | DisplayPage | SleepPage => []
    | SimpleButtonPage | JogDialPage _ => [grid_of pg]
    | SelectionPage _ _ => [SelectionRef]
    end.
  split; [done|].
  rewrite (activated_world_state _ _ _ Hp), (activated_world_trace _ _ _ Hp),
    (activated_world_pages _ _ _ Hp).
  split; [|split; [by apply list_lookup_insert_eq|]].
  - intros i ks Hks. pose proof (lookup_lt_Some _ _ _ Hks) as Hi.
    destruct (lookup_lt_is_Some_2 (led_states (state w)) i) as [l Hl]; [lia|].
    exists l, (activated_led ks l). split; [done|]. split; [|done].
    cbn. apply activated_leds_lookup; [done|done|lia].
  - destruct (activated_page_shape w pg) as (Hk & _ & Ht).
    split; [|split; [done|split; [done|]]].
    + unfold activated_page. destruct (class pg); cbn; by rewrite ?app_nil_r.
    + split; [|done]. intros q Hne. by rewrite list_lookup_insert_ne.
Qed.

Lemma activation_repaints_the_keys_witness :
  exists w' l,
    Page_activate arrow_jog_page_id started = Returns tt w'
    /\ led_states (state w') !! 7%nat = Some l
    /\ LedState.on_color l = (255, 0, 20) /\ LedState.off_color l = (32, 32, 0)
    /\ LedState.mode l = OFF
    /\ led_render false l = Some (32, 32, 0).
Proof.
  destruct (activation_repaints_the_keys started arrow_jog_page_id _ eq_refl eq_refl)
    as (w' & pg' & rest & Hrun & Hleds & _).
  destruct (Hleds 7%nat _ eq_refl) as (l & l' & _ & Hl & Hon & Hoff & Hmode & _ & _ & Hr & _).
  exists w', l'. repeat split; done.
Defined.

(** ** [OverallState.reset] *)

Lemma imap_insert_upto {A} (f : A -> A) (l : list A) m x :
  l !! m = Some x ->
  <[m := f x]> (imap (fun i a => if (i <? m)%nat then f a else a) l)
  = imap (fun i a => if (i <? S m)%nat then f a else a) l.
Proof.
  intros Hm. apply list_eq. intros i. rewrite list_lookup_imap.
  destruct (decide (i = m)) as [->|Hne].
  - rewrite list_lookup_insert_eq by (rewrite length_imap; by eapply lookup_lt_Some).
    assert ((m <? S m)%nat = true) as E by (apply Nat.ltb_lt; lia).
    rewrite Hm. cbn [fmap option_fmap option_map]. by rewrite E.
  - rewrite list_lookup_insert_ne by done. rewrite list_lookup_imap.
    destruct (l !! i) as [a|]; [|done]. cbn [fmap option_fmap option_map].
    destruct (Nat.ltb_spec i m), (Nat.ltb_spec i (S m)); try done; lia.
Qed.

Lemma imap_upto_0 {A} (f : A -> A) (l : list A) :
  imap (fun i a => if (i <? 0)%nat then f a else a) l = l.
Proof.
  apply list_eq. intros i. rewrite list_lookup_imap. by destruct (l !! i).
Qed.

Lemma reset_upto_0 w : reset_upto 0 w = w.
Proof.
  unfold reset_upto. rewrite !imap_upto_0. by destruct w as [[] ? ?].
Qed.

Lemma reset_upto_led m w i :
  led_states (state (reset_upto m w)) !! i
  = (fun l => if (i <? m)%nat then LedState.reset l else l) <$> led_states (state w) !! i.
Proof. unfold reset_upto. cbn [state with_state led_states set_key_states set_led_states].
  apply (list_lookup_imap (fun i l => if (i <? m)%nat then LedState.reset l else l)). Qed.

Lemma reset_upto_key m w i :
  key_states (state (reset_upto m w)) !! i
  = (fun k => if (i <? m)%nat then KeyState.reset k else k) <$> key_states (state w) !! i.
Proof. unfold reset_upto. cbn [state with_state key_states set_key_states set_led_states].
  apply (list_lookup_imap (fun i k => if (i <? m)%nat then KeyState.reset k else k)). Qed.

Lemma reset_upto_lengths m w :
  length (led_states (state (reset_upto m w))) = length (led_states (state w))
  /\ length (key_states (state (reset_upto m w))) = length (key_states (state w)).
Proof. unfold reset_upto. cbn. by rewrite !length_imap. Qed.

(** One round of the loop. *)
Lemma reset_round w (m : nat) :
  (m < length (led_states (state w)))%nat -> (m < length (key_states (state w)))%nat ->
  (update_led (Z.of_nat m) LedState.reset ;;
   update_key_state (Z.of_nat m) KeyState.reset) (reset_upto m w)
  = Returns tt (reset_upto (S m) w).
Proof.
  intros Hl Hk.
  destruct (lookup_lt_is_Some_2 _ _ Hl) as [l Hlm].
  destruct (lookup_lt_is_Some_2 _ _ Hk) as [k Hkm].
  assert (led_states (state (reset_upto m w)) !! m = Some l) as Hlm'.
  { by rewrite reset_upto_led, Hlm, Nat.ltb_irrefl. }
  rewrite (bind_returns _ _ _ _ _ (update_led_returns _ m l LedState.reset Hlm')).
  unfold update_key_state, bind, get_state, modify_state.
  cbn [state with_state key_states set_led_states].
  rewrite py_norm_index_nat by (by rewrite (proj2 (reset_upto_lengths m w))).
  rewrite reset_upto_key, Hkm, Nat.ltb_irrefl. cbn [fmap option_fmap option_map].
  unfold reset_upto, with_state, set_key_states, set_led_states. cbn -[Nat.ltb].
  rewrite (imap_insert_upto LedState.reset _ m l Hlm).
  by rewrite (imap_insert_upto KeyState.reset _ m k Hkm).
Qed.

Lemma reset_rounds w n : forall a,
  (a + n <= length (led_states (state w)))%nat ->
  (a + n <= length (key_states (state w)))%nat ->
  for_each (seq a n) (fun i =>
    update_led (Z.of_nat i) LedState.reset ;;
    update_key_state (Z.of_nat i) KeyState.reset) (reset_upto a w)
  = Returns tt (reset_upto (a + n) w).
Proof.
  induction n as [|n IH]; intros a Hl Hk; cbn [seq for_each].
  - by rewrite Nat.add_0_r.
  - rewrite (bind_returns _ _ _ _ _ (reset_round w a ltac:(lia) ltac:(lia))).
    rewrite IH by lia. do 2 f_equal. lia.
Qed.

(** The round that finds no indicator or no key state raises. *)
Lemma reset_round_raises w (m : nat) :
  (m <= length (led_states (state w)))%nat -> (m <= length (key_states (state w)))%nat ->
  (m = length (led_states (state w)) \/ m = length (key_states (state w))) ->
  (update_led (Z.of_nat m) LedState.reset ;;
   update_key_state (Z.of_nat m) KeyState.reset) (reset_upto m w)
  = Raises IndexError.
Proof.
  intros Hl Hk Hm. destruct (reset_upto_lengths m w) as [Hll Hlk].
  destruct (decide (m = length (led_states (state w)))) as [Heq|Hne].
  - apply bind_raises. unfold update_led, bind, get_state.
    rewrite py_norm_index_out; [done|]. rewrite Hll. lia.
  - assert (m < length (led_states (state w)))%nat as Hlt by lia.
    destruct (lookup_lt_is_Some_2 _ _ Hlt) as [l Hlm].
    assert (led_states (state (reset_upto m w)) !! m = Some l) as Hlm'.
    { by rewrite reset_upto_led, Hlm, Nat.ltb_irrefl. }
    rewrite (bind_returns _ _ _ _ _ (update_led_returns _ m l LedState.reset Hlm')).
    unfold update_key_state, bind, get_state.
    cbn [state with_state key_states set_led_states].
    rewrite py_norm_index_out; [done|]. rewrite Hlk. lia.
Qed.

Lemma reset_rounds_raise w n : forall a,
  (a <= length (led_states (state w)))%nat -> (a <= length (key_states (state w)))%nat ->
  (length (led_states (state w)) < a + n \/ length (key_states (state w)) < a + n)%nat ->
  for_each (seq a n) (fun i =>
    update_led (Z.of_nat i) LedState.reset ;;
    update_key_state (Z.of_nat i) KeyState.reset) (reset_upto a w)
  = Raises IndexError.
Proof.
  induction n as [|n IH]; intros a Hl Hk Hshort; cbn [seq for_each]; [lia|].
  destruct (decide (a = length (led_states (state w))
                    \/ a = length (key_states (state w)))) as [Hend|Hmore].
  - apply bind_raises. by apply reset_round_raises.
  - rewrite (bind_returns _ _ _ _ _ (reset_round w a ltac:(lia) ltac:(lia))).
    apply IH; lia.
Qed.

Lemma reset_upto_twice m w : reset_upto m (reset_upto m w) = reset_upto m w.
Proof.
  assert (forall A (f : A -> A) (l : list A), (forall a, f (f a) = f a) ->
            imap (fun i a => if (i <? m)%nat then f a else a)
              (imap (fun i a => if (i <? m)%nat then f a else a) l)
            = imap (fun i a => if (i <? m)%nat then f a else a) l) as Htwice.
  { intros A f l Hf. apply list_eq. intros i. rewrite !list_lookup_imap.
    destruct (l !! i) as [a|]; [|done]. cbn [fmap option_fmap option_map].
    destruct (i <? m)%nat; [|done]. by rewrite Hf. }
  unfold reset_upto, with_state, set_key_states, set_led_states. cbn -[Nat.ltb].
  by rewrite !Htwice.
Qed.

(** X20. [OverallState.reset] on a state with at least twelve indicators
    and twelve key states returns; it puts the first twelve indicators
    into mode OFF, leaving their colours, intervals and events as they
    are (no animator is woken), clears the first twelve key states and
    touches nothing else, so that a second [reset] changes nothing.  With
    fewer than twelve indicators or key states it raises [IndexError]. *)
Theorem OverallState_reset_spec w :
  let n := (length (led_states (state w)) `min` length (key_states (state w)))%nat in
  ((12 <= n)%nat ->
     OverallState_reset w = Returns tt (reset_upto 12 w)
     /\ OverallState_reset (reset_upto 12 w) = Returns tt (reset_upto 12 w)
     /\ (forall (i : nat) l, led_states (state w) !! i = Some l ->
           led_states (state (reset_upto 12 w)) !! i
           = Some (if (i <? 12)%nat then LedState.reset l else l))
     /\ (forall (i : nat) k, key_states (state w) !! i = Some k ->
           key_states (state (reset_upto 12 w)) !! i
           = Some (if (i <? 12)%nat then KeyState.init else k)))
  /\ ((n < 12)%nat -> OverallState_reset w = Raises IndexError).
Proof.
  intros n. subst n. split.
  - intros Hn.
    assert (forall w0, (12 <= length (led_states (state w0)))%nat ->
              (12 <= length (key_states (state w0)))%nat ->
              OverallState_reset w0 = Returns tt (reset_upto 12 w0)) as Hrun.
    { intros w0 Hl Hk. unfold OverallState_reset.
      rewrite <- (reset_upto_0 w0) at 1. by apply (reset_rounds w0 12 0). }
    split; [apply Hrun; lia|]. split.
    + rewrite <- (reset_upto_twice 12 w) at 2. apply Hrun; cbn; rewrite length_imap; lia.
    + split; intros i x Hx; cbn; rewrite list_lookup_imap, Hx; cbn; by destruct (i <? 12)%nat.
  - intros Hn. unfold OverallState_reset. rewrite <- (reset_upto_0 w) at 1.
    apply (reset_rounds_raise w 12 0); lia.
Qed.

Lemma OverallState_reset_spec_witness :
  OverallState_reset started = Returns tt (reset_upto 12 started)
  /\ OverallState_reset eleven_indicators = Raises IndexError.
Proof.
  split.
  - apply (proj1 (OverallState_reset_spec started)). vm_compute. lia.
  - apply (proj2 (OverallState_reset_spec eleven_indicators)). vm_compute. lia.
Defined.

(** ** The keys show the colours of the current page *)

Lemma shown_lookup w i :
  shown w !! i
  = (fun l => (LedState.on_color l, LedState.off_color l)) <$> led_states (state w) !! i.
Proof. apply list_lookup_fmap. Qed.

Lemma page_colours_lookup pg i :
  page_colours pg !! i
  = (fun ks => (KeySettings.on_color ks, off_shown (class pg) i ks)) <$> key_settings pg !! i.
Proof.
  apply (list_lookup_imap
           (fun i ks => (KeySettings.on_color ks, off_shown (class pg) i ks))).
Qed.

Lemma page_colours_same pg pg' :
  key_settings pg' = key_settings pg -> kind (class pg') = kind (class pg) ->
  (forall sel, class pg = JogDialPage sel -> class pg' = JogDialPage sel) ->
  page_colours pg' = page_colours pg.
Proof.
  intros Hk Hkind Hjog. unfold page_colours. rewrite Hk.
  destruct (class pg) as [| | | |sel] eqn:Hc.
  5: { by rewrite (Hjog sel eq_refl). }
  all: by destruct (class pg').
Qed.

Lemma paintable_configuration w w' :
  configuration w' = configuration w -> paintable w -> paintable w'.
Proof.
  unfold configuration. intros Hcfg (Hl & Hk & Hax).
  injection Hcfg as _ _ _ _ _ Hleds Hpages.
  assert (forall p pg', pages w' !! p = Some pg' ->
            exists pg, pages w !! p = Some pg /\ key_settings pg = key_settings pg'
                       /\ kind (class pg) = kind (class pg')) as Hsame.
  { intros p pg' Hp'.
    assert (map page_configuration (pages w) !! p = Some (page_configuration pg')) as H
      by (by rewrite <- Hpages, list_lookup_fmap, Hp').
    rewrite list_lookup_fmap in H.
    destruct (pages w !! p) as [pg|]; [|done].
    injection H as H1 H2 H3. by exists pg. }
  split; [|split].
  - apply (f_equal length) in Hleds. rewrite !length_map in Hleds. congruence.
  - intros p pg' Hp'. destruct (Hsame p pg' Hp') as (pg & Hp & <- & _). by apply (Hk p).
  - intros p pg' Hp'. destruct (Hsame p pg' Hp') as (pg & Hp & <- & <-). by apply Hax.
Qed.

Lemma preserves_paintable {A} (c : M A) :
  (forall x, preserves (fun w => configuration w = x) c) -> preserves paintable c.
Proof.
  intros Hc w a w' Hw Hrun.
  apply (paintable_configuration w); [|done].
  exact (Hc (configuration w) w a w' eq_refl Hrun).
Qed.

(** *** Activation paints the keys *)

Lemma colours_activated w p pg :
  paintable w -> pages w !! p = Some pg ->
  shown (activated_world p w) = page_colours (activated_page w pg).
Proof.
  intros (Hl & Hk & Hax) Hp. pose proof (Hk p pg Hp) as Hkp.
  destruct (Hax p pg Hp) as [Hneutral _].
  destruct (activated_page_shape w pg) as (Hkeys & Hkind & _).
  apply list_eq. intros i.
  rewrite shown_lookup, page_colours_lookup, (activated_world_state _ _ _ Hp), Hkeys.
  cbn [led_states set_led_states].
  destruct (decide (i < 12)%nat) as [Hi|Hi].
  - destruct (lookup_lt_is_Some_2 (key_settings pg) i) as [ks Hks]; [lia|].
    destruct (lookup_lt_is_Some_2 (led_states (state w)) i) as [l Hli]; [lia|].
    rewrite (activated_leds_lookup _ _ _ _ _ Hks Hli Hi), Hks.
    cbn [fmap option_fmap option_map]. do 2 f_equal.
    unfold activated_page, off_shown. destruct (class pg) eqn:Hc; cbn [class]; try done.
    destruct (Nat.leb_spec 9 i), (Nat.ltb_spec i 12); cbn [andb]; try done.
    unfold axis_color. cbn [axis_is].
    apply (Hneutral eq_refl i ks); [lia|done].
  - rewrite !lookup_ge_None_2; [done|lia|rewrite length_activated_leds; lia].
Qed.

(** [activate] on a page that lacks what it needs raises. *)
Lemma Page_activate_fails w p w' :
  paintable w -> activatable w p = false -> Page_activate p w <> Returns tt w'.
Proof.
  intros (Hl & Hk & _) Hact. unfold activatable in Hact.
  rewrite Hl, Nat.eqb_refl in Hact. cbn [andb] in Hact.
  unfold Page_activate, bind at 1, emit.
  destruct (pages w !! p) as [pg|] eqn:Hp.
  2: { unfold bind, get_page. cbn. by rewrite Hp. }
  rewrite (Hk p pg Hp), Nat.eqb_refl in Hact. cbn [andb] in Hact.
  rewrite (bind_returns _ _ _ pg (logged [call_activate p] w)) by (by apply get_page_returns).
  pose proof (lookup_lt_Some _ _ _ Hp) as Hlt.
  destruct (class pg) as [|sel lbl| | |ax] eqn:Hc; try done.
  unfold SelectionPage_activate.
  rewrite (bind_returns _ _ _ _ _
             (DisplayPage_activate_returns (logged [call_activate p] w) p pg Hp
                (Hk p pg Hp) Hl)).
  unfold set_selected_page, get_selected_page.
  destruct (previous_page (state w)) as [q|] eqn:Hq.
  - run_py. rewrite Hc, Hq. run_py. destruct (decide (q = p)) as [->|Hne].
    + rewrite Hp in Hact. rewrite list_lookup_insert_eq by done.
      unfold Page_set_class, Page_set_main_group. cbn.
      by destruct (title pg).
    + rewrite list_lookup_insert_ne by done.
      destruct (pages w !! q) as [pgq|]; [|done]. by destruct (title pgq).
  - run_py. rewrite Hc, Hq. by run_py.
Qed.

Lemma colours_activate :
  hoare paintable current_page_activate (fun _ => keys_painted).
Proof.
  intros w a w' Hw Hrun. split.
  { exact (preserves_paintable current_page_activate
             (fun x => paged_activate _ _ _ (configuration_Paged x)) w a w' Hw Hrun). }
  revert Hrun. unfold current_page_activate, bind, get_state, deref.
  destruct (current_page (state w)) as [p|] eqn:Hcur; [|done]. cbn [ret].
  destruct (activatable w p) eqn:Hact.
  - rewrite (Page_activate_returns w p Hact). intros [= _ <-].
    destruct (activatable_page w p Hact) as [pg Hp].
    exists p, (activated_page w pg). split; [|split].
    + by rewrite (activated_world_state _ _ _ Hp).
    + by apply activated_lookup_self.
    + by apply colours_activated.
  - destruct a. intros Hrun. by destruct (Page_activate_fails w p w' Hw Hact).
Qed.

(** *** The handlers of the page that shows its colours *)

Lemma shown_set_mode w n l m :
  led_states (state w) !! n = Some l ->
  shown (with_state (set_led_states (<[n := LedState.set_mode m l]> (led_states (state w)))
                       (state w)) w)
  = shown w.
Proof. intros Hl. unfold shown. cbn. by apply (map_insert_same _ _ _ l). Qed.

Section PaintedPage.

Variable cp : PageId.
Variable kss : list KeySettings.t.
Hypothesis Hlen : length kss = 12%nat.
Hypothesis Hown : forall ks q, ks ∈ kss -> selects_axis_of q ks -> q = cp.

Lemma painted_emit e : preserves (painted cp kss) (emit e).
Proof. intros w a w' Hw [= _ <-]. exact Hw. Qed.

Lemma painted_touch t : preserves (painted cp kss) (touch t).
Proof. intros w a w' Hw [= _ <-]. exact Hw. Qed.

Lemma painted_set_mode k m : preserves (painted cp kss) (update_led k (LedState.set_mode m)).
Proof.
  intros w a w' (Hcur & pg & Hp & Hk & Hs). unfold update_led, bind, get_state.
  destruct (py_norm_index _ _) as [n|]; [|done].
  destruct (led_states (state w) !! n) as [l|] eqn:Hl; [|done].
  intros [= _ <-]. split; [done|]. exists pg. split; [done|]. split; [done|].
  by rewrite shown_set_mode.
Qed.

Lemma painted_key_setting k :
  hoare (painted cp kss) (key_setting cp k) (fun ks w => painted cp kss w /\ ks ∈ kss).
Proof.
  intros w ks w' Hw. pose proof Hw as (Hcur & pg & Hp & Hk & Hs).
  unfold key_setting, bind, get_page, py_getitem. rewrite Hp.
  destruct (py_norm_index _ _) as [n|]; [|done].
  destruct (key_settings pg !! n) as [ks'|] eqn:Hn; [|done].
  intros [= <- <-]. split; [done|]. rewrite <- Hk. apply list_elem_of_lookup. eauto.
Qed.

(** The page that has its axis-select keys pressed is the jog-dial page
    on show: the three indicators follow the selection. *)
Lemma painted_select_axis axis : preserves (painted cp kss) (JogDialPage_select_axis cp axis).
Proof.
  intros w a w' (Hcur & pg & Hp & Hk & Hs).
  assert (length (led_states (state w)) = 12%nat) as Hleds.
  { apply (f_equal length) in Hs. unfold shown, page_colours in Hs.
    rewrite length_map, length_imap in Hs. congruence. }
  destruct (class pg) as [| | | |sel] eqn:Hc.
  1-4: unfold JogDialPage_select_axis, bind at 1, get_selected_axis, bind, get_page;
       by rewrite Hp, Hc.
  destruct (lookup_lt_is_Some_2 (led_states (state w)) 9) as [l9 H9]; [lia|].
  destruct (lookup_lt_is_Some_2 (led_states (state w)) 10) as [l10 H10]; [lia|].
  destruct (lookup_lt_is_Some_2 (led_states (state w)) 11) as [l11 H11]; [lia|].
  rewrite (JogDialPage_select_axis_returns w cp pg sel axis l9 l10 l11 Hp Hc H9 H10 H11).
  intros [= _ <-]. split; [done|].
  pose proof (lookup_lt_Some _ _ _ Hp) as Hlt.
  exists (Page_set_class (JogDialPage (toggle_axis sel axis)) pg).
  split; [by apply list_lookup_insert_eq|]. split; [done|].
  apply list_eq. intros i.
  pose proof (f_equal (fun l => l !! i) Hs) as Hi. cbn beta in Hi.
  rewrite shown_lookup, page_colours_lookup in Hi |- *.
  cbn [state led_states set_led_states key_settings class Page_set_class].
  rewrite Hc in Hi.
  destruct (decide (i = 11%nat)) as [->|N11];
    [|destruct (decide (i = 10%nat)) as [->|N10];
      [|destruct (decide (i = 9%nat)) as [->|N9]]];
    rewrite ?list_lookup_insert_ne by done.
  - rewrite list_lookup_insert_eq by (rewrite !length_insert; lia).
    rewrite H11 in Hi. destruct (key_settings pg !! 11%nat) as [ks|]; [|done].
    cbn in Hi |- *. by injection Hi as -> _.
  - rewrite list_lookup_insert_eq by (rewrite !length_insert; lia).
    rewrite H10 in Hi. destruct (key_settings pg !! 10%nat) as [ks|]; [|done].
    cbn in Hi |- *. by injection Hi as -> _.
  - rewrite list_lookup_insert_eq by lia.
    rewrite H9 in Hi. destruct (key_settings pg !! 9%nat) as [ks|]; [|done].
    cbn in Hi |- *. by injection Hi as -> _.
  - rewrite Hi. destruct (key_settings pg !! i) as [ks|]; [|done].
    cbn [fmap option_fmap option_map off_shown].
    destruct (Nat.leb_spec 9 i), (Nat.ltb_spec i 12); cbn [andb]; try done. lia.
Qed.

Lemma painted_run_callback cb :
  (forall q a, cb = cb_select_axis q a -> q = cp) ->
  preserves (painted cp kss) (run_callback cb).
Proof.
  intros Hq. destruct cb as [keys|keys| |q a|]; cbn [run_callback];
    try apply painted_emit.
  - rewrite (Hq q a eq_refl). apply painted_select_axis.
  - unfold button_test. apply preserves_for_each. intros _. apply painted_emit.
Qed.

Lemma painted_call call (cb : option Callback) :
  (forall q a, cb = Some (cb_select_axis q a) -> q = cp) ->
  preserves (painted cp kss)
    match cb with
    | Some f => emit call ;; run_callback f
    | None => ret tt
    end.
Proof.
  intros Hq. destruct cb as [f|]; [|apply hoare_ret].
  apply preserves_bind; [apply painted_emit|intros _].
  apply painted_run_callback. intros q a ->. by apply (Hq q a).
Qed.

Lemma painted_DisplayPage_handle_key_event e :
  preserves (painted cp kss) (DisplayPage_handle_key_event cp e).
Proof.
  unfold DisplayPage_handle_key_event. cbv zeta.
  apply preserves_bind; [|intros _].
  - destruct (KeyEvent.pressed e); [|apply hoare_ret].
    apply (hoare_bind _ (fun _ => painted cp kss));
      [intros w ks w' Hw Hrun; by apply (painted_key_setting _ w ks w' Hw Hrun)|intros ks].
    destruct (negb _); [|apply hoare_ret].
    apply preserves_bind; [apply painted_set_mode|intros _].
    apply (hoare_bind _ _ _ _ _ (painted_key_setting _)). intros ks' w a w' [Hw Hin].
    revert w a w' Hw. apply painted_call.
    intros q a Hcb. apply (Hown ks' q Hin). exists a. by left.
  - destruct (negb _); [|apply hoare_ret].
    apply (hoare_bind _ _ _ _ _ (painted_key_setting _)). intros ks.
    apply (hoare_bind _ (fun _ => painted cp kss)); [|intros _; apply painted_set_mode].
    intros w a w' [Hw Hin]. revert w a w' Hw. apply painted_call.
    intros q a Hcb. apply (Hown ks q Hin). exists a. by right.
Qed.

Lemma painted_Page_handle_key_event e :
  preserves (painted cp kss) (Page_handle_key_event cp e).
Proof.
  unfold Page_handle_key_event.
  apply preserves_bind; [apply painted_emit|intros _].
  apply preserves_bind; [apply reads_preserves, reads_get_page|intros _].
  apply painted_DisplayPage_handle_key_event.
Qed.

Lemma painted_Page_handle_jog_event d a :
  preserves (painted cp kss) (Page_handle_jog_event cp d a).
Proof.
  unfold Page_handle_jog_event, DisplayPage_handle_jog_event, JogDialPage_handle_jog_event.
  apply preserves_bind; [apply painted_emit|intros _].
  apply preserves_bind; [apply reads_preserves, reads_get_page|intros pg].
  destruct (class pg); try apply hoare_ret.
  apply preserves_for_each. intros _.
  apply preserves_bind; [apply reads_preserves, reads_get_selected_axis|intros sel].
  unfold jog_action.
  repeat match goal with
         | |- preserves _ (if ?b then _ else _) => destruct b
         end; first [apply painted_emit|apply hoare_ret].
Qed.

(** A write to the attributes of a selection page. *)
Lemma painted_selection_write p (c : option PageId -> option Label -> PageClass) :
  (forall sp lbl, is_selection (c sp lbl) = true) ->
  preserves (painted cp kss)
    (pg <- get_page p ;;
     match class pg with
     | SelectionPage sp lbl => modify_page p (Page_set_class (c sp lbl))
     | _ => raise AttributeError
     end).
Proof.
  intros Hsel w a w' (Hcur & pg & Hp & Hk & Hs). unfold bind, get_page, modify_page.
  destruct (pages w !! p) as [pgp|] eqn:Hpp; [|done].
  destruct (class pgp) as [|sp lbl| | |] eqn:Hc; try done. rewrite Hpp.
  intros [= _ <-]. split; [done|].
  destruct (decide (p = cp)) as [->|Hne].
  - replace pgp with pg in * by congruence.
    exists (Page_set_class (c sp lbl) pg).
    split; [cbn; apply list_lookup_insert_eq; by eapply lookup_lt_Some|].
    split; [done|]. change (shown w = page_colours (Page_set_class (c sp lbl) pg)).
    rewrite Hs. unfold page_colours. cbn [class key_settings Page_set_class]. rewrite Hc.
    pose proof (Hsel sp lbl) as H. by destruct (c sp lbl).
  - exists pg. split; [cbn; by rewrite list_lookup_insert_ne|]. by split.
Qed.

Lemma painted_SelectionPage_handle_encoder_event d a :
  preserves (painted cp kss) (SelectionPage_handle_encoder_event cp d a).
Proof.
  unfold SelectionPage_handle_encoder_event, SelectionPage_move_pick,
    SelectionPage_show_pick, set_selected_page, set_selection.
  repeat first
    [ apply (painted_selection_write cp (fun _ lbl => SelectionPage _ lbl)); done
    | apply (painted_selection_write cp (fun sp _ => SelectionPage sp _)); done
    | preserve_step ].
Qed.

End PaintedPage.

(** *** The dispatcher keeps the keys painted *)

Lemma keys_painted_emit e : preserves keys_painted (emit e).
Proof. intros w a w' Hw [= _ <-]. exact Hw. Qed.

Lemma keys_painted_touch t : preserves keys_painted (touch t).
Proof.
  intros w a w' [Hw Hc] [= _ <-]. split; [|exact Hc].
  by apply (paintable_configuration w).
Qed.

Lemma keys_painted_leave : hoare keys_painted current_page_deactivate (fun _ => paintable).
Proof.
  intros w a w' [Hw _].
  exact (preserves_paintable current_page_deactivate
           (fun x => paged_deactivate _ _ _ (configuration_Paged x)) w a w' Hw).
Qed.

Lemma paintable_assign f : nav_assignment f -> preserves paintable (modify_state f).
Proof.
  intros Hf. apply preserves_paintable. intros x.
  by apply (paged_assign _ _ _ (configuration_Paged x)).
Qed.

(** From leaving the current page to activating the next one. *)
Ltac repaint :=
  repeat match goal with
         | |- hoare paintable current_page_activate _ => apply colours_activate
         | |- hoare paintable (bind (modify_state _) _) _ =>
             apply (hoare_bind _ (fun _ => paintable));
             [apply paintable_assign; constructor|intros _]
         | |- hoare paintable (bind (get_selected_page _) _) _ =>
             apply (hoare_bind _ (fun _ => paintable));
             [apply reads_preserves, reads_get_selected_page|intros ?]
         end.

Ltac paint_step :=
  match goal with
  | |- preserves keys_painted (bind current_page_deactivate _) =>
      apply (hoare_bind _ (fun _ => paintable)); [apply keys_painted_leave|intros _; repaint]
  | |- preserves keys_painted (emit _) => apply keys_painted_emit
  | |- preserves keys_painted (touch _) => apply keys_painted_touch
  | |- preserves _ (if ?b then _ else _) => destruct b
  | _ => preserve_step
  end.

Ltac paint := repeat paint_step.

Lemma keys_painted_SleepPage_wake p : preserves keys_painted (SleepPage_wake p).
Proof. unfold SleepPage_wake. paint. Qed.

Lemma keys_painted_Page_handle_encoder_press p pressed :
  preserves keys_painted (Page_handle_encoder_press p pressed).
Proof.
  unfold Page_handle_encoder_press, DisplayPage_handle_encoder_press,
    SelectionPage_handle_encoder_press, SleepPage_handle_encoder_press.
  paint; apply keys_painted_SleepPage_wake.
Qed.

Lemma keys_painted_sleep_check now : preserves keys_painted (sleep_check now).
Proof. unfold sleep_check. paint. Qed.

(** A handler that keeps the colours of the page on show. *)
Lemma keys_painted_handler (m : PageId -> M unit) :
  (forall p x, preserves (fun w => configuration w = x) (m p)) ->
  (forall cp kss, length kss = 12%nat ->
     (forall ks q, ks ∈ kss -> selects_axis_of q ks -> q = cp) ->
     preserves (painted cp kss) (m cp)) ->
  preserves keys_painted (on_current_page m).
Proof.
  intros Hcfg Hpaint w a w' [Hw (cp & pg & Hcur & Hp & Hs)] Hrun.
  rewrite (on_current_page_returns cp) in Hrun by done.
  split; [exact (preserves_paintable (m cp) (Hcfg cp) w a w' Hw Hrun)|].
  destruct Hw as (Hl & Hk & Hax).
  destruct (Hpaint cp (key_settings pg) (Hk cp pg Hp) (proj2 (Hax cp pg Hp)) w a w')
    as (Hcur' & pg' & Hp' & _ & Hs'); [|done|by exists cp, pg'].
  split; [done|]. by exists pg.
Qed.

Lemma keys_painted_encoder_event d a :
  preserves keys_painted (on_current_page (fun p => Page_handle_encoder_event p d a)).
Proof.
  intros w u w' HK Hrun. pose proof HK as [Hw (cp & pg & Hcur & Hp & Hs)].
  rewrite (on_current_page_returns cp) in Hrun by done.
  set (w0 := logged [call_handle_encoder_event cp d a] w).
  assert (keys_painted w0) as HK0 by exact HK.
  unfold Page_handle_encoder_event, bind at 1, emit in Hrun. fold w0 in Hrun.
  rewrite (bind_returns _ _ _ pg w0) in Hrun by (by apply get_page_returns).
  destruct (class pg) as [|sp lbl| | |sel] eqn:Hc.
  - by injection Hrun as _ <-.
  - split.
    + refine (preserves_paintable _ (fun x => _) w0 u w' Hw Hrun).
      apply preserves_SelectionPage_handle_encoder_event.
      apply (paged_attr _ _ _ (configuration_Paged x)).
    + destruct Hw as (Hl & Hk & Hax).
      destruct (painted_SelectionPage_handle_encoder_event cp (key_settings pg) d a w0 u w')
        as (Hcur' & pg' & Hp' & _ & Hs'); [|done|by exists cp, pg'].
      split; [done|]. by exists pg.
  - exact (keys_painted_SleepPage_wake cp w0 u w' HK0 Hrun).
  - by injection Hrun as _ <-.
  - by injection Hrun as _ <-.
Qed.

Lemma keys_painted_forward_events inp v : preserves keys_painted (forward_events inp v).
Proof.
  unfold forward_events, poll_encoder_switch, poll_keys, poll_jog, poll_encoder.
  paint.
  all: first
    [ apply keys_painted_encoder_event
    | apply preserves_on_current_page; intros p; apply keys_painted_Page_handle_encoder_press
    | apply keys_painted_handler;
      [intros p x; first [apply preserves_Page_handle_key_event
                         | apply preserves_Page_handle_jog_event];
       apply (paged_attr _ _ _ (configuration_Paged x))
      |intros cp kss Hlen Hown;
       first [by apply painted_Page_handle_key_event
             | by apply painted_Page_handle_jog_event]] ].
Qed.

Lemma keys_painted_event_loop inps : forall v, preserves keys_painted (event_loop inps v).
Proof.
  induction inps as [|inp rest IH]; intros v; cbn [event_loop]; [apply hoare_ret|].
  apply preserves_bind; [|intros v'; apply IH].
  unfold event_loop_iteration.
  apply preserves_bind; [apply keys_painted_forward_events|intros v'].
  apply preserves_bind; [apply keys_painted_sleep_check|intros _; apply hoare_ret].
Qed.

Lemma axis_keys_ok_started : axis_keys_ok started.
Proof.
  intros p pg Hp.
  do 7 (destruct p as [|p];
        [injection Hp as <-; split;
         [intros Hkind i ks Hi Hks;
          do 12 (destruct i as [|i]; [try lia; try discriminate Hkind;
                                      by injection Hks as <-|]); lia
         |intros ks q Hin (a & Hcb);
          repeat (apply elem_of_cons in Hin as [->|Hin];
                  [destruct Hcb as [Hcb|Hcb]; cbn in Hcb; congruence|]);
          by apply elem_of_nil in Hin]|]).
  discriminate Hp.
Qed.

Lemma colours_ok_started : colours_ok started.
Proof. exists job_control_page_id. eexists. split; [|split]; reflexivity. Qed.

(** X21. The keys show the colours of the page that is current.  In a
    world of the running firmware whose axis keys are bound as [main]
    binds them (on a jog-dial page the off-colour of slots 9 to 11 is the
    colour of an axis that is not selected, and a key that selects an
    axis selects it on its own page), if the twelve indicators hold the
    on- and off-colours of the current page's key settings, they do so
    after any number of iterations of the loop, whatever pages have been
    visited in between; on a jog-dial page the off-colours of slots 9 to
    11 are those of the axis selection: highlighted for the selected
    axis, neutral for the others. *)
Theorem keys_show_the_current_page inps v w :
  Inv w -> axis_keys_ok w -> colours_ok w -> Forall input_ok inps ->
  exists v' w' cp pg,
    event_loop inps v w = Returns v' w'
    /\ current_page (state w') = Some cp /\ pages w' !! cp = Some pg
    /\ forall (i : nat) ks, key_settings pg !! i = Some ks ->
         exists l, led_states (state w') !! i = Some l
           /\ LedState.on_color l = KeySettings.on_color ks
           /\ LedState.off_color l = off_shown (class pg) i ks.
Proof.
  intros HI Hax Hc Hok.
  destruct (event_loop_Inv inps v w HI Hok) as (v' & w' & Hrun & _).
  assert (keys_painted w) as HK.
  { split; [|done]. split; [apply (cfg_leds _ (proj1 HI))|].
    split; [apply (cfg_keys _ (proj1 HI))|done]. }
  destruct (keys_painted_event_loop inps v w v' w' HK Hrun)
    as [_ (cp & pg & Hcur & Hp & Hs)].
  exists v', w', cp, pg. repeat (split; [done|]).
  intros i ks Hks.
  pose proof (f_equal (fun l => l !! i) Hs) as Hi. cbn beta in Hi.
  rewrite shown_lookup, page_colours_lookup, Hks in Hi.
  destruct (led_states (state w') !! i) as [l|]; [|done].
  exists l. split; [done|]. cbn in Hi. by injection Hi.
Qed.

Lemma keys_show_the_current_page_witness :
  exists v' w' pg l9 l10 l11,
    event_loop [encoder_down 1 0 0; quiet 2 0 1; quiet 3 0 2; encoder_down 4 0 2;
                quiet 5 0 2; key_down 6 10 0 2; key_up 7 10 0 2] loop_start started
    = Returns v' w'
    /\ current_page (state w') = Some jog_dial_page_id
    /\ pages w' !! jog_dial_page_id = Some pg /\ class pg = JogDialPage (Some 1)
    /\ led_states (state w') !! 9%nat = Some l9 /\ LedState.off_color l9 = neutral
    /\ led_states (state w') !! 10%nat = Some l10 /\ LedState.off_color l10 = highlight
    /\ led_states (state w') !! 11%nat = Some l11 /\ LedState.off_color l11 = neutral.
Proof.
  assert (inv_ok started = true) as Hinv by (vm_compute; reflexivity).
  destruct (keys_show_the_current_page
              [encoder_down 1 0 0; quiet 2 0 1; quiet 3 0 2; encoder_down 4 0 2;
               quiet 5 0 2; key_down 6 10 0 2; key_up 7 10 0 2] loop_start started
              (inv_ok_sound started Hinv) axis_keys_ok_started colours_ok_started)
    as (v' & w' & cp & pg & Hrun & Hcur & Hp & Hshown).
  { repeat constructor; cbn; lia. }
  exists v', w'. vm_compute in Hrun. injection Hrun as <- <-.
  do 4 eexists. repeat split; reflexivity.
Defined.

(** ** A key held while the page is switched *)

Lemma typed_with_led k l es w :
  typed (with_led k l es w) = typed w ++ filter (fun e => is_keyboard e = true) es.
Proof. unfold typed, with_led. cbn [trace]. apply filter_app. Qed.

(** A press on a slot whose callback only drives the keyboard. *)
Lemma key_down_returns w p pg (k : nat) ks l pe :
  pages w !! p = Some pg -> key_settings pg !! k = Some ks ->
  KeySettings.mode ks <> NONE -> led_states (state w) !! k = Some l ->
  callback_log (call_press_callback (Z.of_nat k)) (KeySettings.press_callback ks) = Some pe ->
  let e := {| KeyEvent.key_number := Z.of_nat k; KeyEvent.pressed := true |} in
  Page_handle_key_event p e w
  = Returns tt (with_led k (LedState.set_mode ON l) (call_handle_key_event p e :: pe) w).
Proof.
  intros Hp Hk Hmode Hl Hpe e. set (w0 := logged [call_handle_key_event p e] w).
  unfold Page_handle_key_event, bind at 1, emit. fold w0.
  rewrite (bind_returns _ _ _ pg w0) by (by apply get_page_returns).
  unfold DisplayPage_handle_key_event. cbn [e KeyEvent.key_number KeyEvent.pressed negb].
  rewrite (bind_returns _ _ _ tt (with_led k (LedState.set_mode ON l) pe w0)).
  { unfold ret, with_led, w0, logged. cbn. by rewrite <- app_assoc. }
  rewrite (bind_returns _ _ _ ks w0) by (by apply (key_setting_returns w0 p pg)).
  replace (KeyMode_eqb (KeySettings.mode ks) NONE) with false
    by (by destruct (KeySettings.mode ks)).
  cbn [negb]. rewrite (bind_returns _ _ _ _ _ (update_led_returns w0 _ _ _ Hl)).
  rewrite (bind_returns _ _ _ ks _) by (by apply (key_setting_returns _ p pg)).
  by rewrite (callback_log_runs _ _ pe).
Qed.

(** A release on a slot whose callback only drives the keyboard. *)
Lemma key_up_returns w p pg (k : nat) ks l re :
  pages w !! p = Some pg -> key_settings pg !! k = Some ks ->
  led_states (state w) !! k = Some l ->
  callback_log (call_release_callback (Z.of_nat k)) (KeySettings.release_callback ks)
  = Some re ->
  let e := {| KeyEvent.key_number := Z.of_nat k; KeyEvent.pressed := false |} in
  Page_handle_key_event p e w
  = Returns tt (with_led k (LedState.set_mode OFF l) (call_handle_key_event p e :: re) w).
Proof.
  intros Hp Hk Hl Hre e. set (w0 := logged [call_handle_key_event p e] w).
  unfold Page_handle_key_event, bind at 1, emit. fold w0.
  rewrite (bind_returns _ _ _ pg w0) by (by apply get_page_returns).
  unfold DisplayPage_handle_key_event. cbn [e KeyEvent.key_number KeyEvent.pressed negb].
  unfold bind at 1, ret at 1.
  rewrite (bind_returns _ _ _ ks w0) by (by apply (key_setting_returns w0 p pg)).
  rewrite (bind_returns _ _ _ tt (logged re w0)) by (by apply callback_log_runs).
  rewrite (update_led_returns _ k l) by done.
  unfold with_led, w0, with_state, logged. cbn. by rewrite <- app_assoc.
Qed.

(** An iteration that only forwards a key event: the encoder is
    released and no dial has moved. *)
Lemma key_tick inp v w cp pg e w1 :
  key_event inp = Some e -> encoder_switch_pressed inp = false ->
  jog_position inp = last_jog_pos v -> encoder inp = last_encoder_pos v ->
  current_page (state w) = Some cp -> pages w !! cp = Some pg ->
  Page_handle_key_event cp e (logged [call_handle_encoder_press cp false] w)
  = Returns tt w1 ->
  0 <= sleep_time (state w1) ->
  event_loop_iteration inp v w
  = Returns {| last_jog_pos := last_jog_pos v; last_encoder_pos := last_encoder_pos v;
               encoder_held := false |}
      (with_state (set_last_interaction (Some (current_time inp)) (state w1)) w1).
Proof.
  intros Hk Hup Hj He Hcur Hp Hrun Hsleep.
  set (w2 := with_state (set_last_interaction (Some (current_time inp)) (state w1)) w1).
  assert (forward_events inp v w
          = Returns {| last_jog_pos := last_jog_pos v;
                       last_encoder_pos := last_encoder_pos v;
                       encoder_held := false |} w2) as Hfwd.
  { unfold forward_events, poll_encoder_switch. rewrite Hup.
    rewrite (bind_returns _ _ _ false (logged [call_handle_encoder_press cp false] w)).
    2: { rewrite (bind_returns _ _ _ tt (logged [call_handle_encoder_press cp false] w));
           [done|].
         rewrite (on_current_page_returns cp) by done.
         by apply (encoder_release_is_noop w cp pg). }
    unfold poll_keys. rewrite Hk.
    rewrite (bind_returns _ _ _ tt w2).
    2: { rewrite (bind_returns _ _ _ tt w1); [done|].
         by rewrite (on_current_page_returns cp). }
    unfold poll_jog, poll_encoder. by rewrite Hj, He, !Z.eqb_refl. }
  rewrite (event_loop_iteration_split _ _ _ _ _ Hfwd).
  rewrite (sleep_check_stays_awake w2 _ (current_time inp)); [done|done|].
  unfold sleep_threshold, w2. cbn. lia.
Qed.

(** An iteration that only forwards the press of the encoder. *)
Lemma press_tick inp v w cp w1 :
  key_event inp = None -> encoder_switch_pressed inp = true -> encoder_held v = false ->
  jog_position inp = last_jog_pos v -> encoder inp = last_encoder_pos v ->
  current_page (state w) = Some cp ->
  Page_handle_encoder_press cp true w = Returns tt w1 ->
  0 <= sleep_time (state w1) ->
  event_loop_iteration inp v w
  = Returns {| last_jog_pos := last_jog_pos v; last_encoder_pos := last_encoder_pos v;
               encoder_held := true |}
      (with_state (set_last_interaction (Some (current_time inp)) (state w1)) w1).
Proof.
  intros Hk Hdown Hheld Hj He Hcur Hrun Hsleep.
  set (w2 := with_state (set_last_interaction (Some (current_time inp)) (state w1)) w1).
  assert (poll_encoder_switch inp v w = Returns true w2) as Hpoll.
  { unfold poll_encoder_switch. rewrite Hdown, Hheld. cbn [negb].
    rewrite (bind_returns _ _ _ tt w1); [done|].
    by rewrite (on_current_page_returns cp). }
  rewrite (event_loop_iteration_split _ _ _ _ _ (poll_quiet inp v w Hk Hj He _ _ Hpoll)).
  rewrite (sleep_check_stays_awake w2 _ (current_time inp)); [done|done|].
  unfold sleep_threshold, w2. cbn. lia.
Qed.

Lemma configuration_page w w' p pg' :
  configuration w' = configuration w -> pages w' !! p = Some pg' ->
  exists pg, pages w !! p = Some pg /\ key_settings pg = key_settings pg'.
Proof.
  unfold configuration. intros Hcfg Hp'. injection Hcfg as _ _ _ _ _ _ Hpages.
  assert (map page_configuration (pages w) !! p = Some (page_configuration pg')) as H
    by (by rewrite <- Hpages, list_lookup_fmap, Hp').
  rewrite list_lookup_fmap in H. destruct (pages w !! p) as [pg|]; [|done].
  injection H as _ _ H. by exists pg.
Qed.

(** X22. A key held while the page is switched stays pressed on the host.
    A key whose press callback is [keyboard.press] is pressed on a page
    of the stack, the encoder is pressed while the key is down, and the
    key is released: the release is forwarded to the selection page,
    which is then current, and if that page binds no release callback to
    the slot, nothing more is sent to the host: after the three
    iterations the host has received the press and no release, whatever
    release callback the page on which the key was pressed binds to the
    slot. *)
Theorem held_key_survives_page_switch v w cp pgc sel pgs (k : nat) ks kss keys t1 t2 t3 :
  Inv w -> 0 <= sleep_time (state w) ->
  current_page (state w) = Some cp -> cp ∈ page_stack (state w) ->
  pages w !! cp = Some pgc -> key_settings pgc !! k = Some ks ->
  KeySettings.mode ks <> NONE ->
  KeySettings.press_callback ks = Some (cb_keyboard_press keys) ->
  selection_page (state w) = Some sel -> pages w !! sel = Some pgs ->
  key_settings pgs !! k = Some kss -> KeySettings.release_callback kss = None ->
  let j := last_jog_pos v in
  let e := last_encoder_pos v in
  exists v' w',
    event_loop [key_down t1 (Z.of_nat k) j e; encoder_down t2 j e;
                key_up t3 (Z.of_nat k) j e] v w = Returns v' w'
    /\ current_page (state w') = Some sel
    /\ typed w' = typed w ++ [keyboard_press keys].
Proof.
  intros HI Hsleep Hcur Hon Hpc Hks Hmode Hpress Hsel Hps Hkss Hrel j e.
  pose proof (cfg_leds _ (proj1 HI)) as Hleds.
  assert (k < 12)%nat as Hk.
  { rewrite <- (cfg_keys _ (proj1 HI) cp pgc Hpc). by eapply lookup_lt_Some. }
  destruct (lookup_lt_is_Some_2 (led_states (state w)) k) as [l Hl]; [lia|].
  (* the key goes down on [cp] *)
  set (i1 := key_down t1 (Z.of_nat k) j e).
  set (w0 := logged [call_handle_encoder_press cp false] w).
  pose proof (key_down_returns w0 cp pgc k ks l
                [call_press_callback (Z.of_nat k); keyboard_press keys]
                Hpc Hks Hmode Hl) as Hdown.
  rewrite Hpress in Hdown. specialize (Hdown eq_refl). cbv zeta in Hdown.
  pose proof (key_tick i1 v w cp pgc _ _ eq_refl eq_refl eq_refl eq_refl Hcur Hpc Hdown
                Hsleep) as Htick1.
  match type of Htick1 with _ = Returns ?x ?y => set (v1 := x) in *; set (w1 := y) in * end.
  assert (Inv w1) as HI1.
  { destruct (event_loop_iteration_Inv i1 v w HI) as (v' & w' & Hrun & HI').
    { unfold input_ok. cbn. lia. }
    rewrite Htick1 in Hrun. by injection Hrun as _ <-. }
  assert (typed w1 = typed w ++ [keyboard_press keys]) as Htyped1.
  { unfold w1, typed. cbn [trace with_state with_led]. unfold w0. cbn [trace logged].
    rewrite !filter_app. cbn. by rewrite app_nil_r. }
  (* the encoder is pressed *)
  set (i2 := encoder_down t2 j e).
  destruct (opened_selection w1 cp HI1 Hcur Hon)
    as (sel' & pgc1 & pgc' & pgsel & lbl & w2' & Hsel1 & Hpc1 & Hrun2 & HI2' & Hcur2 & _
        & _ & Hpsel & _ & _ & _ & _ & Htrace2).
  assert (sel' = sel) as -> by (cbn in Hsel1; congruence).
  pose proof (preserves_Page_handle_encoder_press true _ _
                (configuration_Paged (configuration w1)) cp true w1 tt w2' eq_refl Hrun2)
    as Hcfg2.
  pose proof (press_tick i2 v1 w1 cp w2' eq_refl eq_refl eq_refl eq_refl eq_refl Hcur Hrun2)
    as Htick2.
  assert (0 <= sleep_time (state w2')) as Hsleep2.
  { unfold configuration in Hcfg2. injection Hcfg2 as -> _. exact Hsleep. }
  specialize (Htick2 Hsleep2).
  match type of Htick2 with _ = Returns ?x ?y => set (v2 := x) in *; set (w2 := y) in * end.
  assert (typed w2 = typed w1) as Htyped2.
  { unfold w2, typed. cbn [trace with_state]. rewrite Htrace2, filter_app. cbn.
    by rewrite app_nil_r. }
  (* the key comes up on the selection page *)
  set (i3 := key_up t3 (Z.of_nat k) j e).
  destruct (configuration_page w1 w2' sel pgsel Hcfg2 Hpsel) as (pgs1 & Hps1 & Hkeys).
  assert (pgs1 = pgs) as -> by (cbn in Hps1; congruence).
  assert (key_settings pgsel !! k = Some kss) as Hkss2 by (by rewrite <- Hkeys).
  destruct (lookup_lt_is_Some_2 (led_states (state w2)) k) as [l2 Hl2].
  { cbn. rewrite (cfg_leds _ (proj1 HI2')). lia. }
  set (w20 := logged [call_handle_encoder_press sel false] w2).
  pose proof (key_up_returns w20 sel pgsel k kss l2 [] Hpsel Hkss2 Hl2) as Hup.
  rewrite Hrel in Hup. specialize (Hup eq_refl). cbv zeta in Hup.
  pose proof (key_tick i3 v2 w2 sel pgsel _ _ eq_refl eq_refl eq_refl eq_refl Hcur2 Hpsel Hup
                Hsleep2) as Htick3.
  match type of Htick3 with _ = Returns ?x ?y => set (v3 := x) in *; set (w3 := y) in * end.
  exists v3, w3. cbn [event_loop].
  rewrite (bind_returns _ _ _ _ _ Htick1), (bind_returns _ _ _ _ _ Htick2),
    (bind_returns _ _ _ _ _ Htick3).
  split; [done|]. split; [exact Hcur2|].
  rewrite <- Htyped1, <- Htyped2. unfold w3, typed.
  cbn [trace with_state with_led]. unfold w20. cbn [trace logged].
  rewrite !filter_app. cbn. by rewrite !app_nil_r.
Qed.

Lemma held_key_survives_page_switch_witness :
  exists v' w',
    event_loop [key_down 1 7 0 1; encoder_down 2 0 1; key_up 3 7 0 1]
      {| last_jog_pos := 0; last_encoder_pos := 1; encoder_held := false |} on_arrow_jog
    = Returns v' w'
    /\ current_page (state w') = Some selection_page_id
    /\ typed w' = [keyboard_press [SHIFT; UP_ARROW]].
Proof.
  assert (inv_ok on_arrow_jog = true) as Hinv by (vm_compute; reflexivity).
  assert (arrow_jog_page_id ∈ page_stack (state on_arrow_jog)) as Hon.
  { apply memb_elem. vm_compute. reflexivity. }
  refine ((fun Hsleep Hmode =>
             held_key_survives_page_switch
               {| last_jog_pos := 0; last_encoder_pos := 1; encoder_held := false |}
               on_arrow_jog arrow_jog_page_id _ selection_page_id _ 7 _ _
               [SHIFT; UP_ARROW] 1 2 3 (inv_ok_sound on_arrow_jog Hinv) Hsleep eq_refl Hon
               eq_refl eq_refl Hmode eq_refl eq_refl eq_refl eq_refl eq_refl) _ _).
  - vm_compute. discriminate.
  - discriminate.
Defined.

(** ** From one page to another with the encoder *)

Lemma encoder_events_Inv sel ds : forall w,
  Inv w -> current_page (state w) = Some sel -> selection_page (state w) = Some sel ->
  Forall (fun da => fst da <> 0) ds ->
  exists w', encoder_events sel ds w = Returns tt w' /\ Inv w'.
Proof.
  induction ds as [|[d a] rest IH]; intros w HI Hcur Hsel Hds.
  - by exists w.
  - apply Forall_cons in Hds as [Hd Hrest]. cbn in Hd.
    destruct (rotation_step w sel d a HI Hcur Hsel Hd)
      as (pg & pick & lbl & i & q & pgq & _ & _ & _ & _ & _ & _ & _ & Hrun & HI1).
    unfold encoder_events. cbn [for_each fst snd].
    rewrite (bind_returns _ _ _ _ _ Hrun). by apply IH.
Qed.

(** X23. Choosing a page with the encoder.  From the page at index [i] of
    the page stack, a press opens the selection page; encoder events
    with non-zero changes then move the pick by their net number of
    steps, and a second press makes the page at index [(i + net) mod len]
    of the stack the current page, in a world that satisfies the
    invariant.  The pages of the stack are distinct and have titles, the
    latter by the invariant ([cfg_titles]): the label of the selection
    page takes the title of the page left and of every page the pick
    passes. *)
Theorem encoder_chooses_a_page w cp (i : nat) ds :
  Inv w -> current_page (state w) = Some cp -> page_stack (state w) !! i = Some cp ->
  NoDup (page_stack (state w)) -> Forall (fun da => fst da <> 0) ds ->
  let len := Z.of_nat (length (page_stack (state w))) in
  exists sel q w1 w2 w3,
    selection_page (state w) = Some sel
    /\ Page_handle_encoder_press cp true w = Returns tt w1
    /\ encoder_events sel ds w1 = Returns tt w2
    /\ Page_handle_encoder_press sel true w2 = Returns tt w3
    /\ page_stack (state w) !! Z.to_nat ((Z.of_nat i + net_steps ds) mod len) = Some q
    /\ current_page (state w3) = Some q
    /\ Inv w3.
Proof.
  intros HI Hcur Hi Hnd Hds len.
  assert (cp ∈ page_stack (state w)) as Hon by (apply list_elem_of_lookup; eauto).
  destruct (opened_selection w cp HI Hcur Hon)
    as (sel & pgc & pgc' & pgsel & lbl & w1 & Hsel & Hpc & Hrun1 & HI1 & Hcur1 & _
        & Hsel1 & Hpsel & Hcsel & _).
  pose proof (preserves_Page_handle_encoder_press true _ _
                (configuration_Paged (configuration w)) cp true w tt w1 eq_refl Hrun1)
    as Hcfg.
  assert (page_stack (state w1) = page_stack (state w)) as Hstack
    by (unfold configuration in Hcfg; by injection Hcfg).
  rewrite <- Hstack in Hi, Hnd. subst len. rewrite <- Hstack.
  destruct (rotation_sequence sel ds w1 pgsel cp lbl i HI1 Hcur1 Hsel1 Hnd Hpsel Hcsel
              (list_index_NoDup _ _ _ Hnd Hi) Hds) as (q & pgq & Hq & Hpq & Hrun2).
  destruct (encoder_events_Inv sel ds w1 HI1 Hcur1 Hsel1 Hds) as (w2 & Hrun2' & HI2).
  pose proof Hrun2' as Hrun2w. rewrite Hrun2 in Hrun2'. injection Hrun2' as Hw2.
  assert (current_page (state w2) = Some sel /\ selection_page (state w2) = Some sel)
    as [Hcur2 Hsel2] by (by rewrite <- Hw2).
  destruct (Inv_selecting w2 sel HI2 Hcur2 Hsel2)
    as (pg2 & pick & lbl2 & i2 & pgpick & Hp2 & Hc2 & _ & _ & Hact & Hppick & _).
  assert (pick = q) as ->.
  { rewrite <- Hw2 in Hp2. cbn in Hp2.
    rewrite list_lookup_insert_eq in Hp2 by (by eapply lookup_lt_Some).
    injection Hp2 as <-. cbn in Hc2. congruence. }
  pose proof (selection_page_press_returns w2 sel pg2 q (Some lbl2) Hcur2 Hsel2 Hp2 Hc2 Hact)
    as Hrun3.
  destruct (Page_handle_encoder_press_Inv w2 sel true HI2 Hcur2) as (w3 & Hrun3' & HI3).
  exists sel, q, w1, w2, w3. repeat (split; [done|]).
  split; [|done]. rewrite Hrun3 in Hrun3'. injection Hrun3' as <-.
  unfold committed. by rewrite (switched_current_page sel q _ _ pg2 pgpick).
Qed.

Lemma encoder_chooses_a_page_witness :
  exists w1 w2 w3,
    Page_handle_encoder_press job_control_page_id true started = Returns tt w1
    /\ encoder_events selection_page_id [(1, 1); (3, 4); (-1, 3); (2, 5); (1, 6)] w1
       = Returns tt w2
    /\ Page_handle_encoder_press selection_page_id true w2 = Returns tt w3
    /\ current_page (state w3) = Some probe_page_id.
Proof.
  assert (inv_ok started = true) as Hinv by (vm_compute; reflexivity).
  assert (NoDup (page_stack (state started))) as Hnd
    by (apply (bool_decide_unpack _); vm_compute; reflexivity).
  destruct (encoder_chooses_a_page started job_control_page_id 0
              [(1, 1); (3, 4); (-1, 3); (2, 5); (1, 6)]
              (inv_ok_sound started Hinv) eq_refl eq_refl Hnd)
    as (sel & q & w1 & w2 & w3 & Hsel & Hrun1 & Hrun2 & Hrun3 & Hq & Hcur & _).
  { repeat constructor; cbn; lia. }
  vm_compute in Hsel. injection Hsel as <-.
  vm_compute in Hq. injection Hq as <-.
  exists w1, w2, w3. split; [exact Hrun1|]. split; [exact Hrun2|]. split; [exact Hrun3|].
  exact Hcur.
Defined.

(** ** The label of the selection page and pages without a title *)

Lemma SelectionPage_activate_untitled w sel pg sp lbl q pgq :
  pages w !! sel = Some pg -> class pg = SelectionPage sp lbl ->
  length (key_settings pg) = 12%nat -> length (led_states (state w)) = 12%nat ->
  previous_page (state w) = Some q -> pages w !! q = Some pgq -> title pgq = None ->
  Page_activate sel w = Raises AttributeError.
Proof.
  intros Hp Hc Hk Hl Hprev Hq Ht. pose proof (lookup_lt_Some _ _ _ Hp) as Hlt.
  unfold Page_activate, bind at 1, emit.
  rewrite (bind_returns _ _ _ pg (logged [call_activate sel] w))
    by (by apply get_page_returns).
  rewrite Hc. unfold SelectionPage_activate.
  rewrite (bind_returns _ _ _ _ _
             (DisplayPage_activate_returns (logged [call_activate sel] w) sel pg Hp Hk Hl)).
  unfold set_selected_page, get_selected_page. run_py. rewrite Hc, Hprev. run_py.
  destruct (decide (q = sel)) as [->|Hne].
  - replace pgq with pg in * by congruence. rewrite list_lookup_insert_eq by done.
    unfold Page_set_class, Page_set_main_group. cbn. by rewrite Ht.
  - rewrite list_lookup_insert_ne by done. rewrite Hq. by rewrite Ht.
Qed.

(** X24. The label of the selection page is made from the title of
    [previous_page], and a label whose text is [None] cannot be made.
    With a page without a title as [previous_page], activating the
    selection page raises [AttributeError]; and so does an encoder press
    on a current page that has no title, such as a page built by
    [SimpleButtonPage(state)], once a selection page is set up: the
    current page is deactivated, the selection page is made current, and
    its [activate] raises.  The selection page has its twelve key
    settings and the state its twelve indicators. *)
Theorem selection_label_needs_a_title w sel pgsel sp lbl q pgq :
  pages w !! sel = Some pgsel -> class pgsel = SelectionPage sp lbl ->
  length (key_settings pgsel) = 12%nat -> length (led_states (state w)) = 12%nat ->
  pages w !! q = Some pgq -> title pgq = None ->
  (previous_page (state w) = Some q -> Page_activate sel w = Raises AttributeError)
  /\ (current_page (state w) = Some q -> selection_page (state w) = Some sel ->
      ordinary (class pgq) = true ->
      Page_handle_encoder_press q true w = Raises AttributeError).
Proof.
  intros Hp Hc Hk Hl Hq Ht. split.
  - intros Hprev. by apply (SelectionPage_activate_untitled w sel pgsel sp lbl q pgq).
  - intros Hcur Hsel Hord.
    set (w0 := logged [call_handle_encoder_press q true] w).
    unfold Page_handle_encoder_press, bind at 1, emit. fold w0.
    rewrite (bind_returns _ _ _ pgq w0) by (by apply get_page_returns).
    assert (DisplayPage_handle_encoder_press q true w0 = Raises AttributeError) as Hpress.
    { unfold DisplayPage_handle_encoder_press, bind at 1, get_state.
      cbn [state w0 logged]. rewrite Hsel. cbn [andb truthy].
      rewrite (bind_returns _ _ _ tt (deactivated_world q w0)).
      2: { unfold current_page_deactivate, bind, get_state. cbn [state w0 logged].
           rewrite Hcur. cbn. by eapply (Page_deactivate_returns w0). }
      destruct (deactivated_lookup w0 q pgq sel pgsel Hq Hp) as (pg' & Hp' & Hk' & Hc' & _).
      destruct (deactivated_lookup w0 q pgq q pgq Hq Hq) as (pgq' & Hq' & _ & _ & Ht').
      unfold bind at 1, modify_state. unfold bind at 1.
      unfold current_page_activate, bind at 1, get_state. unfold bind at 1, deref.
      cbn [state with_state current_page set_current_page set_previous_page
             selection_page].
      rewrite !deactivated_world_state. cbn [state w0 logged]. rewrite Hsel, Hcur.
      apply (SelectionPage_activate_untitled _ sel pg' sp lbl q pgq');
        [done|by rewrite Hc'|by rewrite Hk'|done|done|done|by rewrite Ht']. }
    by destruct (class pgq).
Qed.

Lemma selection_label_needs_a_title_witness :
  Page_activate 0%nat selecting_untitled_page = Raises AttributeError
  /\ Page_handle_encoder_press 1%nat true on_untitled_page = Raises AttributeError.
Proof.
  split.
  - exact (proj1 (selection_label_needs_a_title selecting_untitled_page 0%nat _ None None
                    1%nat _ eq_refl eq_refl eq_refl eq_refl eq_refl eq_refl) eq_refl).
  - exact (proj2 (selection_label_needs_a_title on_untitled_page 0%nat _ None None
                    1%nat _ eq_refl eq_refl eq_refl eq_refl eq_refl eq_refl)
             eq_refl eq_refl eq_refl).
Defined.
